(* ===== verification/_CoqProject ===== *)
-Q . S2P
Prelude.v
CString.v
StdMap.v
Method.v
Version.v
HeaderParser.v
HeaderParserSpec.v
HeaderParserProps.v
Requests.v
CircularBuffer.v
Base64.v
WsFrame.v
State.v
RingHeap.v
Posix.v
RequestHandler.v
Connection.v
ConnectionSpec.v
ConnectionProps.v
WebsocketConnection.v
WebsocketProps.v
Response.v
Logger.v
Router.v
Server.v
ServerSpec.v
Closing.v
EventLoop.v
ServerProps.v
BroadcastGroup.v
Benchmark.v
BenchmarkMain.v
Basic.v
Service.v
WsService.v
Isolation.v
ProxyLike.v
BroadcastExample.v
Tests.v
