(* ===== verification/Prelude.v ===== *)
(** * httpoll, an HTTP and WebSocket server library: the verification

    ** The program

    A [Server] (src/hpl_server.cc) listens on a socket and waits with epoll.  It keeps a list of
    [Connection]s (hpl_connection.cc), whose addresses it gives to epoll as user data.  When a
    connection is ready it reads, cuts the bytes into lines and pushes them to a request
    parser (hpl_header_parser.cc, with hpl_method.cc, hpl_version.cc and hpl_str.h).  A parsed
    request goes to the [RequestHandler] (hpl_request_handler.h) registered for its URI, or
    turns the connection into a [WebsocketConnection] (hpl_websocket_connection.cc, with the
    frame headers of hpl_websocket_utils.cc and the base64 of external_helpers.h).  Answers are
    formatted by hpl_response.h.  A [BroadcastGroup] (hpl_broadcast_group.cc) sends one message
    to many WebSocket connections through pipes.  hpl_circular_buffer.h is a ring buffer that
    nothing else uses yet.  Three examples and a benchmark use the library.

    ** The model

    Code is translated function by function.  Pure code is a function to [outcome] (this file):
    a value, a [fault] for what C++ leaves undefined or for an exception, or no result when
    the fuel of a loop ran out.  Code that changes state is in the monad [M] (State).  An
    object behind a pointer is a record that is passed and returned; pointers to connections
    are numbers, because they are handed to the kernel and to the application, and the table
    of the server says which of them are alive.  The only contact with the outside are system
    calls (Posix): a kernel is any state that answers them, and what a program did is the
    trace of its calls with their replies.  Integers are [Z] and wrap where the code's do
    ([u32], [u64], [i32]); bytes are [byte]; out of range is a fault.

    ** The files

    - Prelude, State: outcomes, machine integers, tactics; the monad and its triples.
    - CString, StdMap: [std::string] storage as C reads it, with hpl_str.h; [std::map].
    - Method, Version, HeaderParser: hpl_method, hpl_version, hpl_header_parser.
      HeaderParserSpec has the lemmas on them, HeaderParserProps what each line does to the
      parser and the invariant of its fields, Requests whole requests.
    - CircularBuffer: hpl_circular_buffer.h, and the bounded queue it implements.  RingHeap puts
      its objects on a heap, with the constructors, moves and destructor.
    - Base64: external_helpers.h, against RFC 4648.
    - WsFrame: hpl_websocket_utils.cc and the part of [WebsocketConnection::Read] that takes
      a frame apart, against RFC 6455.
    - Posix: the system calls, their laws, and a kernel that follows a script.
    - RequestHandler: the table of handlers and the state they share with the library.
    - Connection (ConnectionSpec, ConnectionProps): hpl_connection.
    - WebsocketConnection (WebsocketProps): hpl_websocket_connection.
    - Response: hpl_response.h.  Logger: the lines that hpl_logger.h prints.
    - Router, Server: hpl_server.cc, first the URIs, then everything else, with hpl_utils.cc.
      Closing: its event loop with handlers that close other connections.
      ServerSpec and EventLoop prove that no freed connection is used; ServerProps says
      what single events do.
    - BroadcastGroup: hpl_broadcast_group.cc.
    - Benchmark, BenchmarkMain, Basic, ProxyLike, BroadcastExample: benchmark/broadcast, first
      its [Context], then its [main], and the three directories of examples/.
    - Service, WsService: the layers put together, from the bytes a client sends to the answer
      it gets, and from the bytes of a handshake to the messages of a WebSocket session.
      Isolation: what the events of one connection leave of the others.
    - Tests: the test of the parser, and the bit fields of test.c.

    ** What is proved

    - Parser: the fields stay in their types and agree with the state after every line
      ([PushLine_invariant], [reachable_request_shape]); a printed request is parsed back
      ([request_roundtrip]); what each header and the body do; the lines
      on which it reads past their end or never returns ([short_request_line_overread],
      [connection_header_diverges]).
    - Connections: how the bytes are divided into reads does not matter
      ([segmentation_independent]); every byte is accounted for; reading terminates and stays
      in its buffer; where bodies get lost ([body_delivery]) and that a kept connection
      serves one request only ([parser_not_reset]).
    - Server: in every reachable state epoll has pointers to live connections only and [Poll]
      uses no other ([event_loop_safe], an invariant over all programs that use the library and
      whose handlers close no other connection with an event to come in the round, which would
      be used); a round leaves the connections alone that it has no event for and that no
      handler closes ([poll_isolates]); a request
      with a body is served in two steps ([posted_request_served]);
      registered URIs are globs; the 404 answer, the upgrade handshake, new connections; and
      the two requests that make the server fault.
    - WebSockets: frames are read back, up to the length at which the code stops working
      ([frame_decoded], [long_frame_overrun]); fragmented messages are put together; the accept
      key is that of RFC 6455; pings are sent when idle; a whole session, from the bytes of
      the handshake on, through messages, pings and pongs, to the close ([websocket_session]).
    - Broadcasts: every member gets exactly one frame and no pipe keeps anything
      ([Broadcast_delivers]), as if it had been written to each ([zero_copy_is_direct_write]);
      joining and leaving; a client of the example, from its handshake to what it hears
      ([client_gets_broadcasts]); members whose connection is gone ([departed_member_faults]).
    - Ring buffer, base64, responses: refinement of a queue, equality with the RFC, round trip.
      On the heap, ring buffers are as good as plain values ([buffers_own_their_blocks]).
    - Examples: a client of the basic example gets its answer ([basic_serves]), and its server
      never uses a closed connection ([basic_runs_safely]); what the proxy passes on
      ([proxied_response]), and what happens when its client leaves first.
    - Benchmark: both ways of sending do the same, what is opened is closed, and the line that
      is printed has the means of the times measured ([bench_report]).

    ** Fuel

    Loops over data that shrinks are structural.  The inner loop of [ProcessDataIn] has the
    number of buffered bytes as fuel, which is enough (ConnectionSpec.drain_fuel), so has the
    search of the [Upgrade] header; the loop of the [Connection] header does not return on some
    lines with any fuel.  [ProcessDataIn] has fuel for its reads: it needs one more than the
    kernel can interrupt or deliver ([processing_terminates]), and [basic_serves] says that it
    gets there.  Main loops run for a given number of rounds.

    ** Parameters

    SHA-1 (class [Sha1]), the integer formatting of fmt ([Fmt]), [std::regex] ([Regex]), the
    kernel ([Posix], with [PosixLaws] and, for epoll, [EpollLaws]) and libcurl ([Curl]) are not
    in the repository; the classes state what their documentation says, and each has a
    concrete instance that the examples run on.  Handlers are arbitrary computations; those
    that hold on to a pointer see it only as a number.

    ** Not modelled

    That functions log: a line on the standard error is taken to leave everything else, [errno]
    included, as it was, and only the line is modelled (Logger). Handlers that close the
    connection they are called for other than by their result, or take it out of a group while
    they run: the first the header forbids. Handlers that look into other connections, at their
    parsers for instance. What handlers close of other connections is a parameter of the event
    loop (Closing), and made at the end of the event. The branch of the basic example that
    answers a pending connection is [answer_pending_get], but the hook it is in takes it as a
    parameter, since hooks are not given the server; it is never reached. The text of the
    benchmark's error messages. [Connection::HandleRequest] is declared and not defined. The
    last expectation of the parser test, for which the parser has no method; the make files, but
    for the two macros of httpoll.mk. *)

From Stdlib Require Export ZArith Lia.
From Stdlib Require Export Init.Byte.
From Stdlib Require Strings.Byte.
From stdpp Require Export base tactics countable strings numbers list.

#[global] Open Scope Z_scope.

(** ** Outcomes of C++ code *)

(** What can go wrong in the modelled code.  [OutOfBounds] is an access outside
    the storage of an object (undefined behaviour), [NullDeref] a call or access
    through a null pointer, [UseAfterFree] an access to a destroyed object,
    [Overflow] a conversion whose result is undefined because the value is not
    representable, [DivByZero] an integer division by zero, [Uninitialised] the
    use of a variable that was never given a value, and [Throws] a C++ exception
    that leaves the function. *)
Inductive fault : Set :=
| OutOfBounds
| NullDeref
| UseAfterFree
| Overflow
| DivByZero
| Uninitialised
| Throws.

#[export] Instance fault_eq_dec : EqDecision fault.
Proof. solve_decision. Defined.

(** The result of running a piece of C++ code: a value, a fault, or no result
    because the fuel of a loop ran out. *)
Inductive outcome (A : Type) : Type :=
| Ok (a : A)
| Fault (f : fault)
| OutOfFuel.
Arguments Ok {A} _.
Arguments Fault {A} _.
Arguments OutOfFuel {A}.

#[export] Instance outcome_ret : MRet outcome := fun A a => Ok a.
#[export] Instance outcome_bind : MBind outcome :=
  fun A B f m =>
    match m with
    | Ok a => f a
    | Fault e => Fault e
    | OutOfFuel => OutOfFuel
    end.

#[export] Instance outcome_eq_dec {A} `{EqDecision A} : EqDecision (outcome A).
Proof. solve_decision. Defined.

(** [guard_or b f] lets the code go on when the condition [b] holds. *)
Definition guard_or (b : bool) (f : fault) : outcome unit :=
  if b then Ok tt else Fault f.

Definition of_option {A} (f : fault) (o : option A) : outcome A :=
  match o with Some a => Ok a | None => Fault f end.

Definition is_Ok {A} (o : outcome A) : Prop := exists a, o = Ok a.

Lemma bind_Ok {A B} (m : outcome A) (k : A -> outcome B) b :
  (m ≫= k) = Ok b <-> exists a, m = Ok a /\ k a = Ok b.
Proof. destruct m; cbn; naive_solver. Qed.

Lemma bind_Ok_l {A B} (a : A) (k : A -> outcome B) : (Ok a ≫= k) = k a.
Proof. reflexivity. Qed.

Lemma of_option_Ok {A} f (o : option A) a : of_option f o = Ok a <-> o = Some a.
Proof. destruct o; cbn; naive_solver. Qed.

(** ** Machine integers *)

Definition wrap (w : Z) (z : Z) : Z := z mod 2 ^ w.
Definition u32 (z : Z) : Z := wrap 32 z.
Definition u64 (z : Z) : Z := wrap 64 z.
(** Conversion to a 32-bit [int] (two's complement). *)
Definition i32 (z : Z) : Z := (z + 2 ^ 31) mod 2 ^ 32 - 2 ^ 31.

Definition npos : Z := 2 ^ 64 - 1.

Lemma u32_small z : 0 <= z < 2 ^ 32 -> u32 z = z.
Proof. apply Z.mod_small. Qed.
Lemma u64_small z : 0 <= z < 2 ^ 64 -> u64 z = z.
Proof. apply Z.mod_small. Qed.
Lemma i32_small z : - 2 ^ 31 <= z < 2 ^ 31 -> i32 z = z.
Proof. intros. unfold i32. rewrite Z.mod_small; lia. Qed.
Lemma u32_range z : 0 <= u32 z < 2 ^ 32.
Proof. apply Z.mod_pos_bound. lia. Qed.
Lemma u64_range z : 0 <= u64 z < 2 ^ 64.
Proof. apply Z.mod_pos_bound. lia. Qed.

(** Bits put side by side add up. *)
Lemma lor_shiftl_add a b k : 0 <= k -> 0 <= b < 2 ^ k -> Z.lor (Z.shiftl a k) b = a * 2 ^ k + b.
Proof.
  intros Hk Hb. rewrite <- Z.add_nocarry_lor; [by rewrite Z.shiftl_mul_pow2|].
  apply Z.bits_inj'. intros n Hn. rewrite Z.land_spec, Z.bits_0.
  destruct (Z.ltb_spec n k) as [Hlt|Hge].
  - by rewrite Z.shiftl_spec_low.
  - destruct (Z.eq_dec b 0) as [->|?]; [by rewrite Z.bits_0, andb_false_r|].
    rewrite (Z.bits_above_log2 b n), andb_false_r; [done|lia|].
    apply Z.log2_lt_pow2; [lia|]. apply Z.lt_le_trans with (2 ^ k); [lia|].
    apply Z.pow_le_mono_r; lia.
Qed.

(** A decidable property of the integers below a bound, checked one by one. *)
Lemma Z_range_check (n : nat) (P : Z -> Prop) `{forall z, Decision (P z)} z :
  forallb (fun k => bool_decide (P (Z.of_nat k))) (seq 0 n) = true ->
  0 <= z < Z.of_nat n -> P z.
Proof.
  intros Hall Hz. rewrite forallb_forall in Hall.
  specialize (Hall (Z.to_nat z)). rewrite Z2Nat.id in Hall by lia.
  apply bool_decide_eq_true in Hall; [done|]. apply in_seq. lia.
Qed.

(** ** Bytes *)

Abbreviation bytes := (list byte).

Definition b2z (b : byte) : Z := Z.of_N (Byte.to_N b).
Definition z2b (z : Z) : byte :=
  match Byte.of_N (Z.to_N (z mod 256)) with Some b => b | None => x00 end.

#[export] Instance byte_eq_dec : EqDecision byte := Byte.byte_eq_dec.

(** ASCII text as the bytes of a C++ string literal. *)
Definition str (s : string) : bytes := String.list_byte_of_string s.
Definition CR : byte := x0d.
Definition LF : byte := x0a.
Definition NUL : byte := x00.
Definition SP : byte := x20.
Definition CRLF : bytes := [CR; LF].

Lemma b2z_range b : 0 <= b2z b < 256.
Proof. unfold b2z. pose proof (Byte.to_N_bounded b). lia. Qed.

Lemma b2z_z2b z : b2z (z2b z) = z mod 256.
Proof.
  unfold b2z, z2b. pose proof (Z.mod_pos_bound z 256 ltac:(lia)).
  destruct (Byte.of_N _) as [b|] eqn:E.
  - apply Byte.to_of_N in E. rewrite E. lia.
  - apply Byte.of_N_None_iff in E. lia.
Qed.

Lemma b2z_inj a b : b2z a = b2z b -> a = b.
Proof.
  unfold b2z. intros H%N2Z.inj.
  pose proof (Byte.of_to_N a). pose proof (Byte.of_to_N b). congruence.
Qed.

Lemma z2b_b2z b : z2b (b2z b) = b.
Proof. apply b2z_inj. rewrite b2z_z2b, Z.mod_small; [done | apply b2z_range]. Qed.

#[export] Instance b2z_Inj : Inj eq eq b2z.
Proof. exact b2z_inj. Qed.

#[export] Program Instance byte_countable : Countable byte :=
  inj_countable' b2z z2b z2b_b2z.

(** ** Lists *)

(** Length of the longest prefix of [l] in which no element satisfies [p]. *)
Fixpoint prefix_len {A} (p : A -> bool) (l : list A) : nat :=
  match l with
  | [] => 0
  | c :: r => if p c then 0 else S (prefix_len p r)
  end%nat.

Section prefix_len.
Context {A : Type} (p : A -> bool).
Implicit Types (l r : list A).

Lemma prefix_len_le l : (prefix_len p l <= length l)%nat.
Proof. induction l as [|c r IH]; cbn; [lia|]. destruct (p c); lia. Qed.

Lemma prefix_len_Forall l : Forall (fun c => p c = false) (take (prefix_len p l) l).
Proof.
  induction l as [|c r IH]; cbn; [constructor|].
  destruct (p c) eqn:E; cbn; constructor; done.
Qed.

Lemma prefix_len_stop l c : l !! prefix_len p l = Some c -> p c = true.
Proof.
  induction l as [|d r IH]; cbn; [done|].
  destruct (p d) eqn:E; cbn; [naive_solver|done].
Qed.

Lemma prefix_len_before l n c :
  (n < prefix_len p l)%nat -> l !! n = Some c -> p c = false.
Proof.
  revert n. induction l as [|d r IH]; intros n; cbn; [done|].
  destruct (p d) eqn:E; [lia|]. destruct n as [|n]; cbn; [naive_solver|].
  intros ? ?. eapply IH; [|done]. lia.
Qed.

Lemma prefix_len_all l : Forall (fun c => p c = false) l -> prefix_len p l = length l.
Proof. induction 1 as [|c r E _ IH]; cbn; [done|]. rewrite E, IH. done. Qed.

Lemma prefix_len_app l c r :
  Forall (fun c => p c = false) l -> p c = true -> prefix_len p (l ++ c :: r) = length l.
Proof.
  intros Hl Hc. induction Hl as [|d l' E _ IH]; cbn; [by rewrite Hc|]. by rewrite E, IH.
Qed.

Lemma prefix_len_skip l r :
  Forall (fun c => p c = false) l ->
  prefix_len p (l ++ r) = (length l + prefix_len p r)%nat.
Proof. induction 1 as [|d l' E _ IH]; cbn; [done|]. rewrite E, IH; done. Qed.
End prefix_len.

Lemma drop_app_len {A} (l r : list A) n : n = length l -> drop n (l ++ r) = r.
Proof. intros ->. apply drop_app_length. Qed.

Lemma take_app_len {A} (l r : list A) n : n = length l -> take n (l ++ r) = l.
Proof. intros ->. apply take_app_length. Qed.

(** ** Automation *)

Create HintDb httpoll.
#[export] Hint Resolve b2z_range u32_range u64_range prefix_len_le : httpoll.
Create Rewrite HintDb httpoll_rw.
#[export] Hint Rewrite @bind_Ok_l @length_app @length_take @length_drop @length_cons
  @length_nil : httpoll_rw.

(** Step through the boolean tests of the code under verification: every
    [if] on a decidable arithmetic test is decided by [lia] when possible and
    otherwise split into its two cases. *)
Ltac case_test :=
  match goal with
  | |- context [if (?a <? ?b)%nat then _ else _] => destruct (Nat.ltb_spec a b)
  | |- context [if (?a <=? ?b)%nat then _ else _] => destruct (Nat.leb_spec a b)
  | |- context [if (?a =? ?b)%nat then _ else _] => destruct (Nat.eqb_spec a b)
  | |- context [if ?a <? ?b then _ else _] => destruct (Z.ltb_spec a b)
  | |- context [if ?a <=? ?b then _ else _] => destruct (Z.leb_spec a b)
  | |- context [if ?a =? ?b then _ else _] => destruct (Z.eqb_spec a b)
  end; try lia.
Ltac case_tests := repeat case_test.

(** Remove, innermost first, the [size_t] wraps that do not change the value. *)
Ltac u64_simpl :=
  repeat match goal with
  | |- context [u64 ?x] =>
      lazymatch x with
      | context [u64 _] => fail
      | _ => rewrite (u64_small x) by lia
      end
  end.
