(* ===== verification/CString.v ===== *)
(** * C strings, and the helpers of hpl_str.h

    The storage behind a [std::string] is its characters followed by a NUL
    ([data()[size()]] is NUL by the C++ standard): a read at an offset up to
    [size()] is defined, a read beyond it is a fault.  On top of that storage
    this file models the reads the code makes through [data()]: 32-bit loads,
    [std::string_view] built from a pointer, [atoi], and the two case-insensitive
    helpers of src/hpl_str.h. *)

From S2P Require Import Prelude.

Implicit Types (s l r : bytes) (c : byte).

(** The character at offset [i] of the storage of [s]. *)
Definition peek (s : bytes) (i : nat) : outcome byte :=
  of_option OutOfBounds ((s ++ [NUL]) !! i).

(** The characters before the first NUL. *)
Fixpoint until_nul (l : bytes) : bytes :=
  match l with
  | [] => []
  | c :: r => if decide (c = NUL) then [] else c :: until_nul r
  end.

(** [std::string_view(s.data() + off)]: up to the first NUL at or after [off]. *)
Definition c_str_at (s : bytes) (off : nat) : outcome bytes :=
  if (off <=? length s)%nat then Ok (until_nul (drop off s)) else Fault OutOfBounds.

(** A little-endian 4-byte load at [s.data() + off], as a signed [int]. *)
Definition load32 (s : bytes) (off : nat) : outcome Z :=
  b0 ← peek s off;
  b1 ← peek s (off + 1);
  b2 ← peek s (off + 2);
  b3 ← peek s (off + 3);
  Ok (i32 (b2z b0 + b2z b1 * 2 ^ 8 + b2z b2 * 2 ^ 16 + b2z b3 * 2 ^ 24)).

(** A [std::string_view] into the storage of a string. *)
Record string_view := SV { sv_base : bytes; sv_off : nat; sv_len : nat }.

Definition sv_of_string (s : bytes) : string_view := SV s 0 (length s).
Definition sv_chars (v : string_view) : bytes := take (sv_len v) (drop (sv_off v) (sv_base v)).
Definition sv_of_cptr (s : bytes) (off : nat) : outcome string_view :=
  cs ← c_str_at s off; Ok (SV s off (length cs)).
(** A load through an [int] pointer at [v.data() + k]. *)
Definition sv_load32 (v : string_view) (k : nat) : outcome Z := load32 (sv_base v) (sv_off v + k).

(** ** Characters ("C" locale) *)

Definition tolower (c : byte) : byte :=
  if (65 <=? b2z c) && (b2z c <=? 90) then z2b (b2z c + 32) else c.
Definition isspace (c : byte) : bool :=
  (b2z c =? 32) || ((9 <=? b2z c) && (b2z c <=? 13)).
Definition isdigit (c : byte) : bool := (48 <=? b2z c) && (b2z c <=? 57).

(** ** [atoi] *)

Fixpoint digits_value (acc : Z) (l : bytes) : Z :=
  match l with
  | c :: r => if isdigit c then digits_value (acc * 10 + (b2z c - 48)) r else acc
  | [] => acc
  end.

(** The value is undefined when it does not fit an [int]. *)
Definition atoi (l : bytes) : outcome Z :=
  let l := drop (prefix_len (fun c => negb (isspace c)) l) l in
  let v := match l with
           | c :: r => if decide (c = "-"%byte) then - digits_value 0 r
                       else if decide (c = "+"%byte) then digits_value 0 r
                       else digits_value 0 l
           | [] => 0
           end in
  if (- 2 ^ 31 <=? v) && (v <? 2 ^ 31) then Ok v else Fault Overflow.

(** ** hpl_str.h *)

(** [std::equal] over two ranges of the same or different lengths. *)
Fixpoint std_equal (pred : byte -> byte -> bool) (s1 s2 : bytes) : bool :=
  match s1, s2 with
  | [], [] => true
  | c1 :: r1, c2 :: r2 => pred c1 c2 && std_equal pred r1 r2
  | _, _ => false
  end.

Definition icase_eqb (c1 c2 : byte) : bool := bool_decide (tolower c1 = tolower c2).

Definition icase_cmp (s1 s2 : bytes) : bool :=
  let distance := if (length s1 <? length s2)%nat then length s1 else length s2 in
  std_equal icase_eqb (take distance s1) (take distance s2).

(** [std::search]: the offset of the first match of [s2], or the end. *)
Fixpoint std_search (pred : byte -> byte -> bool) (s1 s2 : bytes) : nat :=
  if (length s2 <=? length s1)%nat && std_equal pred (take (length s2) s1) s2 then 0
  else match s1 with
       | [] => 0
       | _ :: r => S (std_search pred r s2)
       end.

Definition icase_find (s1 : bytes) (s1_off : nat) (s2 : bytes) : nat :=
  s1_off + std_search icase_eqb (drop s1_off s1) s2.

(** ** Lemmas: reads *)

Definition no_nul (s : bytes) : Prop := Forall (fun c => c <> NUL) s.

Lemma until_nul_app l r : no_nul l -> until_nul (l ++ r) = l ++ until_nul r.
Proof. induction 1; cbn; [done|]. case_decide; [done|]. by f_equal. Qed.

Lemma until_nul_id l : no_nul l -> until_nul l = l.
Proof. intros H. rewrite <- (app_nil_r l) at 1. rewrite until_nul_app by done. apply app_nil_r. Qed.

Lemma until_nul_no_nul l : no_nul (until_nul l).
Proof. induction l; cbn; [constructor|]. case_decide; constructor; done. Qed.

Lemma until_nul_length l : (length (until_nul l) <= length l)%nat.
Proof. induction l; cbn; [lia|]. case_decide; cbn; lia. Qed.

Lemma c_str_at_Ok s off :
  (off <= length s)%nat -> c_str_at s off = Ok (until_nul (drop off s)).
Proof. intros. unfold c_str_at. by case_tests. Qed.

Lemma peek_lookup s i c : s !! i = Some c -> peek s i = Ok c.
Proof.
  intros H. unfold peek. rewrite lookup_app_l by (by eapply lookup_lt_Some). by rewrite H.
Qed.

Lemma peek_end s : peek s (length s) = Ok NUL.
Proof. unfold peek. rewrite lookup_app_r by lia. by rewrite Nat.sub_diag. Qed.

Lemma peek_Ok s i : is_Ok (peek s i) <-> (i <= length s)%nat.
Proof.
  unfold is_Ok, peek. setoid_rewrite of_option_Ok.
  transitivity (is_Some ((s ++ [NUL]) !! i)); [done|].
  rewrite lookup_lt_is_Some. autorewrite with httpoll_rw. lia.
Qed.

Lemma peek_fault s i : (length s < i)%nat -> peek s i = Fault OutOfBounds.
Proof.
  intros. unfold peek. rewrite lookup_ge_None_2; [done|]. autorewrite with httpoll_rw. lia.
Qed.

Lemma peek_drop s off k : (off <= length s)%nat -> peek (drop off s) k = peek s (off + k).
Proof.
  intros. unfold peek. by rewrite <- drop_app_le, lookup_drop.
Qed.

(** The value of a load from its four bytes. *)
Definition word_of (b0 b1 b2 b3 : byte) : Z :=
  b2z b0 + b2z b1 * 2 ^ 8 + b2z b2 * 2 ^ 16 + b2z b3 * 2 ^ 24.

Lemma load32_peeks s off b0 b1 b2 b3 :
  peek s off = Ok b0 -> peek s (off + 1) = Ok b1 ->
  peek s (off + 2) = Ok b2 -> peek s (off + 3) = Ok b3 ->
  load32 s off = Ok (i32 (word_of b0 b1 b2 b3)).
Proof. intros H0 H1 H2 H3. unfold load32. by rewrite H0, H1, H2, H3. Qed.

(** A load is defined exactly when it ends at or before the terminator. *)
Lemma load32_Ok s off : is_Ok (load32 s off) <-> (off + 3 <= length s)%nat.
Proof.
  split.
  - intros [v H]. unfold load32 in H.
    apply bind_Ok in H as (? & _ & H). apply bind_Ok in H as (? & _ & H).
    apply bind_Ok in H as (? & _ & H). apply bind_Ok in H as (? & H & _).
    apply peek_Ok. by eexists.
  - intros H.
    destruct (proj2 (peek_Ok s off)) as [b0 H0]; [lia|].
    destruct (proj2 (peek_Ok s (off + 1))) as [b1 H1]; [lia|].
    destruct (proj2 (peek_Ok s (off + 2))) as [b2 H2]; [lia|].
    destruct (proj2 (peek_Ok s (off + 3))) as [b3 H3]; [lia|].
    eexists. by apply load32_peeks.
Qed.

Lemma load32_inv s off v :
  load32 s off = Ok v ->
  exists b0 b1 b2 b3,
    peek s off = Ok b0 /\ peek s (off + 1) = Ok b1 /\
    peek s (off + 2) = Ok b2 /\ peek s (off + 3) = Ok b3 /\
    v = i32 (word_of b0 b1 b2 b3).
Proof.
  intros H. unfold load32 in H.
  apply bind_Ok in H as (b0 & H0 & H). apply bind_Ok in H as (b1 & H1 & H).
  apply bind_Ok in H as (b2 & H2 & H). apply bind_Ok in H as (b3 & H3 & [= <-]).
  exists b0, b1, b2, b3. done.
Qed.

Lemma load32_fault s off : (length s < off + 3)%nat -> load32 s off = Fault OutOfBounds.
Proof.
  intros H. unfold load32.
  destruct (decide (length s < off)%nat); [by rewrite (peek_fault s off)|].
  destruct (proj2 (peek_Ok s off)) as [b0 ->]; [lia|]. cbn.
  destruct (decide (length s < off + 1)%nat); [by rewrite (peek_fault s (off + 1))|].
  destruct (proj2 (peek_Ok s (off + 1))) as [b1 ->]; [lia|]. cbn.
  destruct (decide (length s < off + 2)%nat); [by rewrite (peek_fault s (off + 2))|].
  destruct (proj2 (peek_Ok s (off + 2))) as [b2 ->]; [lia|]. cbn.
  by rewrite (peek_fault s (off + 3)).
Qed.

Lemma word_of_range b0 b1 b2 b3 : 0 <= word_of b0 b1 b2 b3 < 2 ^ 32.
Proof.
  unfold word_of. pose proof (b2z_range b0). pose proof (b2z_range b1).
  pose proof (b2z_range b2). pose proof (b2z_range b3). lia.
Qed.

(** The three low bytes of a loaded [int], as the code masks them out. *)
Lemma i32_low24 b0 b1 b2 b3 :
  Z.land (i32 (word_of b0 b1 b2 b3)) 0x00ffffff = b2z b0 + b2z b1 * 2 ^ 8 + b2z b2 * 2 ^ 16.
Proof.
  change 0x00ffffff with (Z.ones 24). rewrite Z.land_ones by lia.
  unfold i32, word_of.
  pose proof (b2z_range b0). pose proof (b2z_range b1).
  pose proof (b2z_range b2). pose proof (b2z_range b3).
  Z.div_mod_to_equations. lia.
Qed.

Lemma i32_inj x y : 0 <= x < 2 ^ 32 -> 0 <= y < 2 ^ 32 -> i32 x = i32 y -> x = y.
Proof. unfold i32. intros. Z.div_mod_to_equations. lia. Qed.

Lemma low24_eq b0 b1 b2 a0 a1 a2 :
  b2z b0 + b2z b1 * 2 ^ 8 + b2z b2 * 2 ^ 16 = b2z a0 + b2z a1 * 2 ^ 8 + b2z a2 * 2 ^ 16 <->
  b0 = a0 /\ b1 = a1 /\ b2 = a2.
Proof.
  pose proof (b2z_range b0). pose proof (b2z_range b1). pose proof (b2z_range b2).
  pose proof (b2z_range a0). pose proof (b2z_range a1). pose proof (b2z_range a2).
  split; [|naive_solver]. intros. repeat split; apply b2z_inj; lia.
Qed.

Lemma word_eq b0 b1 b2 b3 a0 a1 a2 a3 :
  i32 (word_of b0 b1 b2 b3) = i32 (word_of a0 a1 a2 a3) <->
  b0 = a0 /\ b1 = a1 /\ b2 = a2 /\ b3 = a3.
Proof.
  split; [|naive_solver]. intros H%i32_inj; [|apply word_of_range..].
  unfold word_of in H.
  pose proof (b2z_range b0). pose proof (b2z_range b1). pose proof (b2z_range b2).
  pose proof (b2z_range b3). pose proof (b2z_range a0). pose proof (b2z_range a1).
  pose proof (b2z_range a2). pose proof (b2z_range a3).
  repeat split; apply b2z_inj; lia.
Qed.

(** ** Lemmas: case-insensitive comparison *)

(** Two strings that differ only in the case of ASCII letters. *)
Definition icase_equiv (s1 s2 : bytes) : Prop := map tolower s1 = map tolower s2.

#[export] Instance icase_equiv_equivalence : Equivalence icase_equiv.
Proof. split; unfold icase_equiv; congruence. Qed.

#[export] Instance icase_equiv_dec : RelDecision icase_equiv.
Proof. intros s1 s2. unfold icase_equiv. apply _. Defined.

Lemma icase_equiv_length s1 s2 : icase_equiv s1 s2 -> length s1 = length s2.
Proof. intros H%(f_equal length). by rewrite !length_map in H. Qed.

#[export] Instance icase_equiv_app :
  Proper (icase_equiv ==> icase_equiv ==> icase_equiv) (@app byte).
Proof. intros a b H a' b' H'. unfold icase_equiv in *. rewrite !map_app. congruence. Qed.

#[export] Instance icase_equiv_take n : Proper (icase_equiv ==> icase_equiv) (@take byte n).
Proof. intros a b H. unfold icase_equiv in *. rewrite <- !firstn_map. congruence. Qed.

#[export] Instance icase_equiv_drop n : Proper (icase_equiv ==> icase_equiv) (@drop byte n).
Proof. intros a b H. unfold icase_equiv in *. rewrite <- !skipn_map. congruence. Qed.

Lemma std_equal_icase s1 s2 : std_equal icase_eqb s1 s2 = true <-> icase_equiv s1 s2.
Proof.
  unfold icase_equiv. revert s2. induction s1 as [|c1 r1 IH]; intros [|c2 r2]; cbn; try done.
  rewrite andb_true_iff, IH. unfold icase_eqb. rewrite bool_decide_eq_true.
  split; [intros [-> ->]; done | intros [= -> ->]; done].
Qed.

Lemma icase_cmp_min s1 s2 :
  icase_cmp s1 s2 = true <->
  icase_equiv (take (Nat.min (length s1) (length s2)) s1)
              (take (Nat.min (length s1) (length s2)) s2).
Proof.
  unfold icase_cmp. rewrite std_equal_icase.
  case_test; [rewrite Nat.min_l by lia | rewrite Nat.min_r by lia]; done.
Qed.

#[export] Instance icase_cmp_proper : Proper (icase_equiv ==> icase_equiv ==> eq) icase_cmp.
Proof.
  intros a b H a' b' H'. apply eq_true_iff_eq. rewrite !icase_cmp_min.
  rewrite (icase_equiv_length _ _ H), (icase_equiv_length _ _ H'). by rewrite H, H'.
Qed.

(** A text that starts with the keyword, in any case, is recognised. *)
Lemma icase_cmp_keyword k s pat : icase_equiv k pat -> icase_cmp (k ++ s) pat = true.
Proof.
  intros H. apply icase_cmp_min. pose proof (icase_equiv_length _ _ H) as E.
  autorewrite with httpoll_rw. rewrite Nat.min_r by lia. rewrite take_app_len by done.
  by rewrite take_ge.
Qed.

(** A text that differs from the keyword at a position both have is not. *)
Lemma icase_cmp_differ s pat i a b :
  s !! i = Some a -> pat !! i = Some b -> tolower a <> tolower b -> icase_cmp s pat = false.
Proof.
  intros Ha Hb Hne. apply not_true_iff_false. rewrite icase_cmp_min. intros H.
  pose proof (lookup_lt_Some _ _ _ Ha). pose proof (lookup_lt_Some _ _ _ Hb).
  apply Hne. unfold icase_equiv in H. apply (f_equal (fun l => l !! i)) in H.
  rewrite !list_lookup_fmap, !lookup_take_lt, Ha, Hb in H by lia. cbn in H. congruence.
Qed.

(** On texts at least as long as the keyword, recognition is exactly a
    case-insensitive prefix. *)
Lemma icase_cmp_long s pat :
  (length pat <= length s)%nat ->
  icase_cmp s pat = true <-> icase_equiv (take (length pat) s) pat.
Proof.
  intros. rewrite icase_cmp_min. rewrite Nat.min_r by lia. by rewrite (take_ge pat).
Qed.

Lemma std_search_le pred s1 s2 : (std_search pred s1 s2 <= length s1)%nat.
Proof. induction s1; cbn; destruct (_ && _); cbn; lia. Qed.

Lemma std_search_match s1 s2 i :
  std_search icase_eqb s1 s2 = i -> (i < length s1)%nat ->
  icase_equiv (take (length s2) (drop i s1)) s2.
Proof.
  revert i. induction s1 as [|c r IH]; intros i; cbn [std_search].
  - cbn. destruct (_ && _); lia.
  - destruct (_ && _) eqn:E.
    + intros <- _. cbn. apply andb_true_iff in E as [_ E]. by apply std_equal_icase.
    + intros <- Hi. cbn. apply IH; [done|]. cbn in Hi. lia.
Qed.

Lemma std_search_first s1 s2 i :
  (i < std_search icase_eqb s1 s2)%nat -> ~ icase_equiv (take (length s2) (drop i s1)) s2.
Proof.
  revert i. induction s1 as [|c r IH]; intros i; cbn [std_search].
  - destruct (_ && _); lia.
  - destruct (_ && _) eqn:E; [lia|]. destruct i as [|i].
    + intros _ H. apply not_true_iff_false in E. apply E. apply andb_true_iff.
      split; [|by apply std_equal_icase].
      apply Nat.leb_le. apply icase_equiv_length in H. rewrite length_take in H. cbn in *. lia.
    + intros Hi. cbn. apply IH. lia.
Qed.

(** ** Lemmas: [atoi] *)

Lemma digits_value_stop acc ds c r :
  Forall (fun d => isdigit d = true) ds -> isdigit c = false ->
  digits_value acc (ds ++ c :: r) = digits_value acc ds.
Proof.
  intros H Hc. revert acc. induction H as [|d ds E _ IH]; intros acc; cbn; [by rewrite Hc|].
  by rewrite E.
Qed.

Lemma digits_value_nonneg acc ds : 0 <= acc -> 0 <= digits_value acc ds.
Proof.
  revert acc. induction ds as [|d ds IH]; intros acc Hacc; cbn; [done|].
  destruct (isdigit d) eqn:E; [|done]. apply IH.
  unfold isdigit in E. apply andb_true_iff in E as [E _]. apply Z.leb_le in E. lia.
Qed.

(** The sign characters and the blanks are not digits. *)
Lemma isdigit_props d :
  isdigit d = true -> isspace d = false /\ d <> "-"%byte /\ d <> "+"%byte /\ d <> SP /\ d <> NUL.
Proof. by destruct d. Qed.

Lemma atoi_digits ds c r :
  ds <> [] -> Forall (fun d => isdigit d = true) ds -> isdigit c = false ->
  digits_value 0 ds < 2 ^ 31 ->
  atoi (ds ++ c :: r) = Ok (digits_value 0 ds).
Proof.
  intros Hne Hds Hc Hv. unfold atoi.
  destruct ds as [|d ds]; [done|].
  destruct (isdigit_props d) as (E1 & E2 & E3 & _ & _); [by inversion Hds|].
  cbn [app prefix_len]. rewrite E1. cbn [negb drop].
  rewrite !decide_False by done.
  change (d :: ds ++ c :: r) with ((d :: ds) ++ c :: r). rewrite digits_value_stop by done.
  pose proof (digits_value_nonneg 0 (d :: ds) ltac:(lia)).
  set (v := digits_value 0 (d :: ds)) in *. clearbody v.
  destruct (Z.leb_spec (- 2 ^ 31) v), (Z.ltb_spec v (2 ^ 31)); cbn; done || lia.
Qed.

(** ** Lemmas: prefixes *)

Definition starts_with (p s : bytes) : bool := bool_decide (take (length p) s = p).

Lemma starts_with_app p s : starts_with p (p ++ s) = true.
Proof. unfold starts_with. by rewrite take_app_length, bool_decide_eq_true. Qed.

Lemma starts_with_true p s : starts_with p s = true -> s = p ++ drop (length p) s.
Proof. unfold starts_with. rewrite bool_decide_eq_true. intros H. rewrite <- H at 1. by rewrite take_drop. Qed.

(** The shape of the storage seen by a load that is in bounds. *)
Lemma load32_in_bounds s off :
  (off + 3 <= length s)%nat ->
  exists b0 b1 b2 r,
    drop off s = b0 :: b1 :: b2 :: r /\
    load32 s off = Ok (i32 (word_of b0 b1 b2 (hd NUL r))).
Proof.
  intros H. pose proof (length_drop s off) as Hlen.
  destruct (drop off s) as [|b0 [|b1 [|b2 r]]] eqn:E; cbn in Hlen; try lia.
  exists b0, b1, b2, r. split; [done|].
  assert (Hp : forall k c, ((b0 :: b1 :: b2 :: r) ++ [NUL]) !! k = Some c -> peek s (off + k) = Ok c).
  { intros k c Hk. rewrite <- peek_drop, E by lia. unfold peek. by rewrite Hk. }
  apply load32_peeks; [rewrite <- (Nat.add_0_r off) | | |]; apply Hp; try done.
  by destruct r.
Qed.

Lemma starts_with_3 a0 a1 a2 b0 b1 b2 r :
  starts_with [a0; a1; a2] (b0 :: b1 :: b2 :: r) = true <-> b0 = a0 /\ b1 = a1 /\ b2 = a2.
Proof. unfold starts_with. cbn. rewrite bool_decide_eq_true. naive_solver. Qed.

Lemma starts_with_4 a0 a1 a2 a3 b0 b1 b2 r :
  a3 <> NUL ->
  starts_with [a0; a1; a2; a3] (b0 :: b1 :: b2 :: r) = true <->
  b0 = a0 /\ b1 = a1 /\ b2 = a2 /\ hd NUL r = a3.
Proof.
  intros. unfold starts_with. rewrite bool_decide_eq_true.
  destruct r as [|b3 r]; cbn; naive_solver.
Qed.

#[global] Arguments icase_cmp : simpl never.
