(* ===== verification/StdMap.v ===== *)
(** * std::map with string keys

    What the code uses of [std::map<std::string, V>]: [find], [emplace] (which
    keeps the old value of a key), assignment through [operator[]] (which
    replaces it) and iteration in key order.  A map is the list of its entries
    in iteration order; [map_wf] says that the order is the strict lexicographic
    order on unsigned characters, which is what [std::less<std::string>]
    compares. *)

From Stdlib Require Import Sorting.Sorted.
From S2P Require Import Prelude.

Fixpoint bytes_compare (a b : bytes) : comparison :=
  match a, b with
  | [], [] => Eq
  | [], _ :: _ => Lt
  | _ :: _, [] => Gt
  | x :: a', y :: b' =>
      match b2z x ?= b2z y with Eq => bytes_compare a' b' | c => c end
  end.

Definition bytes_lt (a b : bytes) : Prop := bytes_compare a b = Lt.

Abbreviation std_map V := (list (bytes * V)).

Section operations.
Context {V : Type}.

Fixpoint map_find (k : bytes) (m : std_map V) : option V :=
  match m with
  | [] => None
  | (k', v) :: r => if decide (k = k') then Some v else map_find k r
  end.

(** [m.emplace(k, v)]. *)
Fixpoint map_emplace (k : bytes) (v : V) (m : std_map V) : std_map V :=
  match m with
  | [] => [(k, v)]
  | (k', v') :: r =>
      match bytes_compare k k' with
      | Lt => (k, v) :: m
      | Eq => m
      | Gt => (k', v') :: map_emplace k v r
      end
  end.

(** [m[k] = v]. *)
Fixpoint map_assign (k : bytes) (v : V) (m : std_map V) : std_map V :=
  match m with
  | [] => [(k, v)]
  | (k', v') :: r =>
      match bytes_compare k k' with
      | Lt => (k, v) :: m
      | Eq => (k', v) :: r
      | Gt => (k', v') :: map_assign k v r
      end
  end.
End operations.

(** Strictly increasing keys. *)
Definition map_wf {V} (m : std_map V) : Prop :=
  StronglySorted (fun p q => bytes_lt p.1 q.1) m.

(** ** The key order *)

Lemma bytes_compare_refl a : bytes_compare a a = Eq.
Proof. induction a as [|x a IH]; cbn; [done|]. by rewrite Z.compare_refl. Qed.

Lemma bytes_compare_eq a b : bytes_compare a b = Eq <-> a = b.
Proof.
  split; [|intros ->; apply bytes_compare_refl].
  revert b. induction a as [|x a IH]; intros [|y b]; cbn; try done.
  destruct (Z.compare_spec (b2z x) (b2z y)) as [E| |]; try done.
  intros H. apply b2z_inj in E. f_equal; auto.
Qed.

Lemma bytes_compare_antisym a b : bytes_compare b a = CompOpp (bytes_compare a b).
Proof.
  revert b. induction a as [|x a IH]; intros [|y b]; cbn; try done.
  rewrite (Z.compare_antisym (b2z x) (b2z y)). by destruct (b2z x ?= b2z y); cbn.
Qed.

#[export] Instance bytes_lt_strict : StrictOrder bytes_lt.
Proof.
  split.
  - intros a H. unfold bytes_lt in H. by rewrite bytes_compare_refl in H.
  - unfold bytes_lt. intros a. induction a as [|x a IH]; intros [|y b] [|z c]; cbn; try done.
    destruct (Z.compare_spec (b2z x) (b2z y)), (Z.compare_spec (b2z y) (b2z z)); try done;
      destruct (Z.compare_spec (b2z x) (b2z z)); try done; try lia; eauto.
Qed.

Lemma bytes_compare_gt a b : bytes_compare a b = Gt -> bytes_lt b a.
Proof. intros H. unfold bytes_lt. rewrite bytes_compare_antisym, H. done. Qed.

(** ** Map laws *)

Section laws.
Context {V : Type}.
Implicit Types (m : std_map V) (k : bytes) (v : V).

Ltac compare_keys :=
  match goal with
  | |- context [bytes_compare ?a ?b] => destruct (bytes_compare a b) eqn:?
  end;
  repeat match goal with
  | H : bytes_compare _ _ = Eq |- _ => apply bytes_compare_eq in H; subst
  end.

Lemma Forall_lt_trans k k' m :
  bytes_lt k k' -> Forall (fun p => bytes_lt k' p.1) m -> Forall (fun p => bytes_lt k p.1) m.
Proof. intros ?. induction 1; constructor; [by etransitivity|done]. Qed.

Lemma map_find_Forall k m : Forall (fun p => bytes_lt k p.1) m -> map_find k m = None.
Proof.
  induction 1 as [|[k' v'] r H _ IH]; cbn in *; [done|].
  case_decide; [|done]. subst. by apply irreflexivity in H; [|apply _].
Qed.

Lemma map_find_emplace k k' v m :
  map_wf m ->
  map_find k' (map_emplace k v m) =
    match map_find k' m with
    | Some v' => Some v'
    | None => if decide (k' = k) then Some v else None
    end.
Proof.
  induction 1 as [|[k1 v1] r Hwf IH Hlt]; cbn; [done|].
  compare_keys; cbn.
  - repeat case_decide; try done; subst. by destruct (map_find k' r).
  - case_decide; [|by case_decide; [|destruct (map_find k' r)]]. subst.
    case_decide; [subst; by rewrite bytes_compare_refl in *|].
    rewrite map_find_Forall; [done|].
    by eapply Forall_lt_trans.
  - by destruct (decide (k' = k1)).
Qed.

Lemma map_find_assign k k' v m :
  map_wf m ->
  map_find k' (map_assign k v m) = if decide (k' = k) then Some v else map_find k' m.
Proof.
  induction 1 as [|[k1 v1] r Hwf IH Hlt]; cbn; [done|].
  compare_keys; cbn.
  - by repeat case_decide.
  - by repeat case_decide.
  - rewrite IH. repeat case_decide; try done. subst. by rewrite bytes_compare_refl in *.
Qed.

Lemma Forall_emplace (P : bytes * V -> Prop) k v m :
  P (k, v) -> Forall P m -> Forall P (map_emplace k v m).
Proof.
  intros Hk. induction 1 as [|[k1 v1] r H Hr IH]; cbn; [by constructor|].
  compare_keys; repeat constructor; done.
Qed.

Lemma Forall_assign (P : bytes -> Prop) k v m :
  P k -> Forall (fun p => P p.1) m -> Forall (fun p => P p.1) (map_assign k v m).
Proof.
  intros Hk. induction 1 as [|[k1 v1] r H Hr IH]; cbn; [by constructor|].
  compare_keys; repeat constructor; done.
Qed.

Lemma Forall_assign_value (P : V -> Prop) k v m :
  P v -> Forall (fun p => P p.2) m -> Forall (fun p => P p.2) (map_assign k v m).
Proof.
  intros Hk. induction 1 as [|[k1 v1] r H Hr IH]; cbn; [by constructor|].
  compare_keys; repeat constructor; done.
Qed.

Lemma map_emplace_wf k v m : map_wf m -> map_wf (map_emplace k v m).
Proof.
  induction 1 as [|[k1 v1] r Hwf IH Hlt]; cbn; [repeat constructor|].
  compare_keys.
  - by constructor.
  - constructor; [by constructor|]. constructor; [done|].
    by eapply Forall_lt_trans.
  - constructor; [done|]. apply Forall_emplace; [|done]. by apply bytes_compare_gt.
Qed.

Lemma map_assign_wf k v m : map_wf m -> map_wf (map_assign k v m).
Proof.
  induction 1 as [|[k1 v1] r Hwf IH Hlt]; cbn; [repeat constructor|].
  compare_keys.
  - by constructor.
  - constructor; [by constructor|]. constructor; [done|].
    by eapply Forall_lt_trans.
  - constructor; [done|].
    apply (Forall_assign (fun k' => bytes_lt k1 k')); [|done]. by apply bytes_compare_gt.
Qed.

Lemma map_wf_nil : map_wf ([] : std_map V).
Proof. constructor. Qed.

Lemma map_find_in k v m : map_wf m -> (map_find k m = Some v <-> In (k, v) m).
Proof.
  induction 1 as [|[k1 v1] r Hwf IH Hlt]; cbn; [done|].
  case_decide as E.
  - subst. split; [intros [= ->]; by left|]. intros [[= ->]|Hin]; [done|].
    rewrite Forall_forall in Hlt. specialize (Hlt _ (proj2 (list_elem_of_In _ _) Hin)).
    cbn in Hlt. by apply irreflexivity in Hlt; [|apply _].
  - rewrite IH. split; [by right|]. intros [[= <- <-]|?]; done.
Qed.
End laws.

#[export] Hint Resolve map_wf_nil map_emplace_wf map_assign_wf : httpoll.
