(* ===== verification/Method.v ===== *)
(** * Request methods: src/hpl_method.h and src/hpl_method.cc *)

From S2P Require Import Prelude CString.

Module HttpMethod.
Inductive http_method : Set :=
| GET | POST | PUT | DELETE | HEAD | CONNECT | OPTIONS | TRACE | PATCH
| UNKNOWN.

(** [static_cast<int>(method)]. *)
Definition to_int (m : http_method) : nat :=
  match m with
  | GET => 0 | POST => 1 | PUT => 2 | DELETE => 3 | HEAD => 4 | CONNECT => 5
  | OPTIONS => 6 | TRACE => 7 | PATCH => 8 | UNKNOWN => 9
  end.

#[export] Instance http_method_eq_dec : EqDecision http_method.
Proof. solve_decision. Defined.
End HttpMethod.
Export (hints) HttpMethod.
Import HttpMethod.

(** A multi-character [int] constant such as ['G' | 'E' << 8 | 'T' << 16]. *)
Definition int3 (c0 c1 c2 : byte) : Z :=
  Z.lor (Z.lor (b2z c0) (Z.shiftl (b2z c1) 8)) (Z.shiftl (b2z c2) 16).
Definition int4 (c0 c1 c2 c3 : byte) : Z :=
  Z.lor (int3 c0 c1 c2) (Z.shiftl (b2z c3) 24).

(** [end_pos] is an output parameter: it keeps its value when no method is
    recognised. *)
Definition ParseHttpMethod (method : string_view) (pos end_pos : nat)
  : outcome (http_method * nat) :=
  let IntGET := int3 "G" "E" "T" in
  v ← sv_load32 method pos;
  if Z.land v 0x00ffffff =? IntGET then Ok (GET, (pos + 3)%nat) else
  let IntPUT := int3 "P" "U" "T" in
  if Z.land v 0x00ffffff =? IntPUT then Ok (PUT, (pos + 3)%nat) else
  let IntPOST := int4 "P" "O" "S" "T" in
  if v =? IntPOST then Ok (POST, (pos + 4)%nat) else
  Ok (UNKNOWN, end_pos).

(** ** Lemmas *)

(** A masked load equals a three-character constant exactly when the text
    starts with these characters. *)
Lemma int3_test b0 b1 b2 b3 r c0 c1 c2 k :
  k = b2z c0 + b2z c1 * 2 ^ 8 + b2z c2 * 2 ^ 16 ->
  (Z.land (i32 (word_of b0 b1 b2 b3)) 0x00ffffff =? k) =
  starts_with [c0; c1; c2] (b0 :: b1 :: b2 :: r).
Proof.
  intros ->. rewrite i32_low24. apply eq_true_iff_eq.
  by rewrite Z.eqb_eq, low24_eq, starts_with_3.
Qed.

Lemma int4_test b0 b1 b2 r c0 c1 c2 c3 k :
  k = i32 (word_of c0 c1 c2 c3) -> c3 <> NUL ->
  (i32 (word_of b0 b1 b2 (hd NUL r)) =? k) =
  starts_with [c0; c1; c2; c3] (b0 :: b1 :: b2 :: r).
Proof.
  intros -> ?. apply eq_true_iff_eq.
  by rewrite Z.eqb_eq, word_eq, starts_with_4.
Qed.

(** The methods the parser knows, as a prefix test on the text. *)
Definition method_prefix (l : bytes) : option (http_method * nat) :=
  if starts_with (str "GET") l then Some (GET, 3%nat)
  else if starts_with (str "PUT") l then Some (PUT, 3%nat)
  else if starts_with (str "POST") l then Some (POST, 4%nat)
  else None.

Lemma ParseHttpMethod_prefix s off n pos end_pos :
  (off + pos + 3 <= length s)%nat ->
  ParseHttpMethod (SV s off n) pos end_pos =
    Ok match method_prefix (drop (off + pos) s) with
       | Some (m, k) => (m, (pos + k)%nat)
       | None => (UNKNOWN, end_pos)
       end.
Proof.
  intros H. destruct (load32_in_bounds s (off + pos) H) as (b0 & b1 & b2 & r & E & L).
  unfold ParseHttpMethod, sv_load32. cbn [sv_base sv_off]. rewrite L. cbn [mbind outcome_bind].
  rewrite (int3_test _ _ _ _ r "G" "E" "T") by reflexivity.
  rewrite (int3_test _ _ _ _ r "P" "U" "T") by reflexivity.
  rewrite (int4_test _ _ _ _ "P" "O" "S" "T") by done.
  unfold method_prefix. rewrite E.
  change (str "GET") with ["G"; "E"; "T"]%byte. change (str "PUT") with ["P"; "U"; "T"]%byte.
  change (str "POST") with ["P"; "O"; "S"; "T"]%byte.
  by repeat destruct (starts_with _ _).
Qed.

Lemma ParseHttpMethod_short s off n pos end_pos :
  (length s < off + pos + 3)%nat ->
  ParseHttpMethod (SV s off n) pos end_pos = Fault OutOfBounds.
Proof.
  intros H. unfold ParseHttpMethod, sv_load32. cbn [sv_base sv_off].
  by rewrite load32_fault.
Qed.

Lemma method_prefix_known l m k :
  method_prefix l = Some (m, k) -> m <> UNKNOWN /\ (k <= length l)%nat.
Proof.
  unfold method_prefix.
  repeat case_match; intros [= <- <-]; split; try done;
    match goal with H : starts_with _ _ = true |- _ => apply starts_with_true in H; rewrite H end;
    cbn; lia.
Qed.
