(* ===== verification/Version.v ===== *)
(** * Protocol versions: src/hpl_version.h and src/hpl_version.cc *)

From S2P Require Import Prelude CString Method.

Module HttpVersion.
Inductive http_version : Set :=
| HTTP_1_0
| HTTP_1_1
| HTTP_2_0
| WS
| UNKNOWN.

#[export] Instance http_version_eq_dec : EqDecision http_version.
Proof. solve_decision. Defined.
End HttpVersion.
Export (hints) HttpVersion.
Import HttpVersion.

Definition IntHTTP : Z := int4 "H" "T" "T" "P".
Definition IntWS : Z := int4 "W" "S" "S" "/".
Definition Int1_0 : Z := int3 "1" "." "0".
Definition Int1_1 : Z := int3 "1" "." "1".
Definition Int2_0 : Z := int3 "2" "." "0".

(** The file-local [HttpVersion] function. *)
Definition HttpVersion_digits (version : string_view) (end_pos : nat)
  : outcome (http_version * nat) :=
  v ← sv_load32 version 0;
  let v := Z.land v 0x00ffffff in
  if v =? Int1_0 then Ok (HTTP_1_0, 3%nat)
  else if v =? Int1_1 then Ok (HTTP_1_1, 3%nat)
  else if v =? Int2_0 then Ok (HTTP_2_0, 3%nat)
  else Ok (UNKNOWN, end_pos).

Definition WsVersion (version : string_view) (end_pos : nat) : http_version * nat :=
  (WS, end_pos).

Definition ParseHttpVersion (version : string_view) (end_pos : nat)
  : outcome (http_version * nat) :=
  v ← sv_load32 version 0;
  if (v =? IntHTTP) && (4 <? sv_len version)%nat &&
     bool_decide (sv_chars version !! 4%nat = Some "/"%byte)
  then rest ← sv_of_cptr (sv_base version) (sv_off version + 5);
       HttpVersion_digits rest end_pos
  else if v =? IntWS
  then rest ← sv_of_cptr (sv_base version) (sv_off version + 4);
       Ok (WsVersion rest end_pos)
  else Ok (UNKNOWN, end_pos).

Definition HttpVersionToString (version : http_version) : bytes :=
  match version with
  | HTTP_1_0 => str "HTTP/1.0"
  | HTTP_1_1 => str "HTTP/1.1"
  | HTTP_2_0 => str "HTTP/2.0"
  | WS => str "WS"
  | UNKNOWN => str "UNKNOWN"
  end.

(** ** Lemmas *)

(** The digits of a version, as a prefix test. *)
Definition digits_prefix (l : bytes) : http_version :=
  if starts_with (str "1.0") l then HTTP_1_0
  else if starts_with (str "1.1") l then HTTP_1_1
  else if starts_with (str "2.0") l then HTTP_2_0
  else UNKNOWN.

Lemma HttpVersion_digits_prefix s off n end_pos :
  (off + 3 <= length s)%nat ->
  exists e, HttpVersion_digits (SV s off n) end_pos = Ok (digits_prefix (drop off s), e).
Proof.
  intros H. destruct (load32_in_bounds s off H) as (b0 & b1 & b2 & r & E & L).
  unfold HttpVersion_digits, sv_load32. cbn [sv_base sv_off].
  rewrite Nat.add_0_r, L. cbn [mbind outcome_bind].
  rewrite (int3_test _ _ _ _ r "1" "." "0") by reflexivity.
  rewrite (int3_test _ _ _ _ r "1" "." "1") by reflexivity.
  rewrite (int3_test _ _ _ _ r "2" "." "0") by reflexivity.
  unfold digits_prefix. rewrite E.
  change (str "1.0") with ["1"; "."; "0"]%byte. change (str "1.1") with ["1"; "."; "1"]%byte.
  change (str "2.0") with ["2"; "."; "0"]%byte.
  repeat destruct (starts_with _ _); eauto.
Qed.

(** The text of a version field, up to its terminator. *)
Definition version_prefix (l : bytes) : http_version :=
  if starts_with (str "HTTP/") l then digits_prefix (drop 5 l)
  else if starts_with (str "WSS/") l then WS
  else UNKNOWN.

(** How many characters of the field the parser reads, terminator included. *)
Definition version_reads (l : bytes) : nat :=
  if starts_with (str "HTTP/") l then 9 else 4.

Lemma until_nul_slash b0 b1 b2 r :
  b0 = "H"%byte -> b1 = "T"%byte -> b2 = "T"%byte -> hd NUL r = "P"%byte ->
  let l := b0 :: b1 :: b2 :: r in
  (4 <? length (until_nul l))%nat &&
  bool_decide (take (length (until_nul l)) l !! 4%nat = Some "/"%byte) =
  starts_with (str "HTTP/") l.
Proof.
  intros -> -> -> H. destruct r as [|b3 r]; [done|]. cbn in H; subst b3.
  cbv zeta. change ("H" :: "T" :: "T" :: "P" :: r)%byte with (["H"; "T"; "T"; "P"]%byte ++ r).
  rewrite until_nul_app by (repeat constructor; done).
  destruct r as [|b4 r]; [done|]. cbn [until_nul]. case_decide as D.
  - subst b4. done.
  - cbn. unfold starts_with. cbn. apply bool_decide_ext. naive_solver.
Qed.

Lemma ParseHttpVersion_prefix s off view end_pos :
  sv_of_cptr s off = Ok view ->
  (off + version_reads (drop off s) <= length s + 1)%nat ->
  exists e, ParseHttpVersion view end_pos = Ok (version_prefix (drop off s), e).
Proof.
  intros Hv H. unfold sv_of_cptr in Hv. apply bind_Ok in Hv as (cs & Hcs & [= <-]).
  unfold version_reads in H.
  destruct (load32_in_bounds s off) as (b0 & b1 & b2 & r & E & L); [case_match; lia|].
  unfold c_str_at in Hcs. destruct (off <=? length s)%nat; [|done]. injection Hcs as <-.
  unfold ParseHttpVersion, sv_load32. cbn [sv_base sv_off sv_len].
  rewrite Nat.add_0_r, L. cbn [mbind outcome_bind]. unfold sv_chars.
  cbn [sv_base sv_off sv_len]. rewrite E in *. unfold version_prefix.
  change (str "WSS/") with ["W"; "S"; "S"; "/"]%byte.
  rewrite (int4_test _ _ _ _ "W" "S" "S" "/" IntWS) by done.
  destruct (i32 _ =? IntHTTP) eqn:EH; rewrite (int4_test _ _ _ _ "H" "T" "T" "P" IntHTTP) in EH by done.
  - apply starts_with_4 in EH as (? & ? & ? & ?); [|done].
    rewrite andb_true_l, until_nul_slash by done.
    destruct (starts_with (str "HTTP/") _) eqn:ES.
    + unfold sv_of_cptr. rewrite c_str_at_Ok by lia. cbn [mbind outcome_bind].
      destruct (HttpVersion_digits_prefix s (off + 5)
        (length (until_nul (drop (off + 5) s))) end_pos) as [e He]; [lia|].
      exists e. rewrite He, <- E, drop_drop. done.
    + subst. eauto.
  - assert (starts_with (str "HTTP/") (b0 :: b1 :: b2 :: r) = false) as ->.
    { apply not_true_iff_false. intros Ht. apply not_true_iff_false in EH. apply EH.
      apply starts_with_true in Ht. cbn in Ht. injection Ht as -> -> -> ->. done. }
    cbn [andb]. destruct (starts_with ["W"; "S"; "S"; "/"]%byte _) eqn:EW; [|eauto].
    apply starts_with_true in EW. pose proof (length_drop s off) as Hl. rewrite E, EW in Hl.
    cbn in Hl. unfold sv_of_cptr. rewrite c_str_at_Ok by lia. cbn. eauto.
Qed.

Lemma ParseHttpVersion_short s off view end_pos :
  sv_of_cptr s off = Ok view ->
  (length s + 1 < off + version_reads (drop off s))%nat ->
  ParseHttpVersion view end_pos = Fault OutOfBounds.
Proof.
  intros Hv H. unfold sv_of_cptr in Hv. apply bind_Ok in Hv as (cs & Hcs & [= <-]).
  unfold c_str_at in Hcs. destruct (Nat.leb_spec off (length s)); [|done]. injection Hcs as <-.
  unfold ParseHttpVersion, sv_load32. cbn [sv_base sv_off sv_len]. rewrite Nat.add_0_r.
  destruct (decide (length s < off + 3)%nat) as [|Hlen]; [by rewrite load32_fault|].
  destruct (load32_in_bounds s off) as (b0 & b1 & b2 & r & E & L); [lia|].
  rewrite L. cbn [mbind outcome_bind]. unfold version_reads in H.
  destruct (starts_with (str "HTTP/") (drop off s)) eqn:ES; [|lia].
  pose proof (starts_with_true _ _ ES) as ES'. unfold sv_chars. cbn [sv_base sv_off sv_len].
  rewrite E in *. cbn in ES'.
  assert (b0 = "H" /\ b1 = "T" /\ b2 = "T" /\ hd NUL r = "P")%byte as (? & ? & ? & ?).
  { injection ES' as -> -> -> Hr. by rewrite Hr. }
  assert (2 <= length r)%nat by (injection ES' as _ _ _ Hr; rewrite Hr; cbn; lia).
  rewrite (int4_test _ _ _ _ "H" "T" "T" "P" IntHTTP) by done.
  replace (starts_with ["H"; "T"; "T"; "P"]%byte _) with true
    by (symmetry; by apply starts_with_4).
  rewrite andb_true_l, until_nul_slash, ES by done.
  unfold sv_of_cptr. pose proof (length_drop s off) as Hl. rewrite E in Hl. cbn in Hl.
  rewrite c_str_at_Ok by lia. cbn [mbind outcome_bind].
  unfold HttpVersion_digits, sv_load32. cbn [sv_base sv_off].
  rewrite load32_fault by lia. done.
Qed.
