(* ===== verification/HeaderParser.v ===== *)
(** * The request parser: src/hpl_header_parser.h and src/hpl_header_parser.cc

    [PushLine] consumes one line of a request at a time.  A position in a line
    (an iterator in the code) is its offset from the beginning; the end iterator
    is the length of the line.  The code advances iterators past the end in
    places; the only use it then makes of them is the bound test of [next_char],
    so an offset beyond the length stands for them. *)

From S2P Require Import Prelude CString StdMap Method Version.

Module HttpHeaderParser.

(** ** Data *)

Inductive parser_state : Set := FirstLine | Headers | Body | Done.

#[export] Instance parser_state_eq_dec : EqDecision parser_state.
Proof. solve_decision. Defined.

Definition ConnectionClose : Z := 1.
Definition ConnectionKeepAlive : Z := 2.
Definition ConnectionUpgrade : Z := 4.
Definition UpgradeWebSocket : Z := 1.

Record http_header_parser := Parser {
  method_ : HttpMethod.http_method;
  uri_ : bytes;
  version_ : HttpVersion.http_version;
  headers_ : std_map bytes;
  connection_flags_ : Z;
  upgrade_flags_ : Z;
  host_ : bytes;
  connection_ : bytes;
  user_agent_ : bytes;
  content_length_ : option Z;
  body_length_ : Z;
  state_ : parser_state
}.

(** A default-constructed parser. *)
Definition init : http_header_parser :=
  Parser HttpMethod.UNKNOWN [] HttpVersion.UNKNOWN [] 0 0 [] [] [] None 0 FirstLine.

Definition set_first_line m u v '(Parser _ _ _ h cf uf ho co ua cl bl s) :=
  Parser m u v h cf uf ho co ua cl bl s.
Definition set_headers h '(Parser m u v _ cf uf ho co ua cl bl s) :=
  Parser m u v h cf uf ho co ua cl bl s.
Definition set_connection_flags cf '(Parser m u v h _ uf ho co ua cl bl s) :=
  Parser m u v h cf uf ho co ua cl bl s.
Definition set_upgrade_flags uf '(Parser m u v h cf _ ho co ua cl bl s) :=
  Parser m u v h cf uf ho co ua cl bl s.
Definition set_host ho '(Parser m u v h cf uf _ co ua cl bl s) :=
  Parser m u v h cf uf ho co ua cl bl s.
Definition set_user_agent ua '(Parser m u v h cf uf ho co _ cl bl s) :=
  Parser m u v h cf uf ho co ua cl bl s.
Definition set_content_length cl '(Parser m u v h cf uf ho co ua _ bl s) :=
  Parser m u v h cf uf ho co ua cl bl s.
Definition set_body_length bl '(Parser m u v h cf uf ho co ua cl _ s) :=
  Parser m u v h cf uf ho co ua cl bl s.
Definition set_state s '(Parser m u v h cf uf ho co ua cl bl _) :=
  Parser m u v h cf uf ho co ua cl bl s.

(** ** Accessors *)

Definition GetState (p : http_header_parser) : parser_state := state_ p.
Definition GetMethod (p : http_header_parser) : HttpMethod.http_method := method_ p.
Definition GetUri (p : http_header_parser) : bytes := uri_ p.
Definition GetVersion (p : http_header_parser) : HttpVersion.http_version := version_ p.
Definition GetHost (p : http_header_parser) : bytes := host_ p.
Definition GetUserAgent (p : http_header_parser) : bytes := user_agent_ p.
Definition GetHeaders (p : http_header_parser) : std_map bytes := headers_ p.
Definition GetConnectionFlags (p : http_header_parser) : Z := connection_flags_ p.
Definition GetContentLength (p : http_header_parser) : option Z := content_length_ p.
Definition GetUpgradeFlags (p : http_header_parser) : Z := upgrade_flags_ p.

(** [GetHeader]: an empty view when the header is absent. *)
Definition GetHeader (p : http_header_parser) (key : bytes) : bytes :=
  match map_find key (headers_ p) with
  | Some v => v
  | None => []
  end.

(** ** The request line *)

(** [while (line[pos] == ' ') ++pos]: it stops at the terminator at the latest. *)
Definition skip_spaces (line : bytes) (pos : nat) : nat :=
  pos + prefix_len (fun c => negb (bool_decide (c = SP))) (drop pos line).

(** [line.find(c, pos)]. *)
Definition find_char (line : bytes) (c : byte) (pos : nat) : Z :=
  let i := (pos + prefix_len (fun d => bool_decide (d = c)) (drop pos line))%nat in
  if (i <? length line)%nat then Z.of_nat i else npos.

(** [line.substr(pos, n)]. *)
Definition substr (line : bytes) (pos : nat) (n : Z) : outcome bytes :=
  if (pos <=? length line)%nat
  then Ok (take (Z.to_nat (Z.min n (Z.of_nat (length line - pos)))) (drop pos line))
  else Fault Throws.

Definition ParseFirstLine (line : bytes)
  : outcome (HttpMethod.http_method * bytes * HttpVersion.http_version) :=
  '(method, pos) ← ParseHttpMethod (sv_of_string line) 0 0;
  if decide (method = HttpMethod.UNKNOWN)
  then Ok (HttpMethod.UNKNOWN, [], HttpVersion.UNKNOWN)
  else
    let pos := skip_spaces line pos in
    let next_pos := find_char line SP pos in
    uri ← substr line pos (u64 (next_pos - Z.of_nat pos));
    view ← sv_of_cptr line (Z.to_nat (u64 (next_pos + 1)));
    '(version, _) ← ParseHttpVersion view pos;
    Ok (method, uri, version).

(** ** Header lines *)

(** The first position at or after [off] whose character satisfies [pred]. *)
Definition next_char (s : bytes) (off : nat) (pred : byte -> bool) : nat :=
  if (length s <=? off)%nat then length s
  else (off + prefix_len pred (drop off s))%nat.

Definition not_space (c : byte) : bool := negb (bool_decide (c = SP)).
Definition is_comma (c : byte) : bool := bool_decide (c = ","%byte).
Definition is_colon (c : byte) : bool := bool_decide (c = ":"%byte).
Definition is_eol (c : byte) : bool := bool_decide (c = CR) || bool_decide (c = LF).

(** [std::string(s.begin() + i, s.begin() + j)]. *)
Definition slice (s : bytes) (i j : nat) : bytes := take (j - i) (drop i s).

Definition kContentLength : bytes := str "content-length:".
Definition kHost : bytes := str "host:".
Definition kConnection : bytes := str "connection:".
Definition kUpgrade : bytes := str "upgrade:".
Definition kUserAgent : bytes := str "user-agent:".
Definition kUpgradeWs : bytes := str "websocket".

(** The trimmed value that starts at offset [off] and ends at the line end. *)
Definition header_value (line : bytes) (off : nat) : bytes :=
  let iter := next_char line off not_space in
  let end_iter := next_char line iter is_eol in
  slice line iter end_iter.

Definition push_content_length (line : bytes) (iter : nat) : outcome Z :=
  let iter := (iter + length kContentLength)%nat in
  let idx := next_char line iter not_space in
  text ← c_str_at line idx;
  n ← atoi text;
  Ok (u32 n).

(** The [do ... while (iter != line.end())] loop of the [Upgrade] header.  Its
    first test reads [c != ' ' || c != '\r' || c != '\n'], which holds of every
    character. *)
Fixpoint upgrade_loop (fuel : nat) (line : bytes) (iter : nat) (flags : Z) : outcome Z :=
  match fuel with
  | O => OutOfFuel
  | S fuel =>
      let iter := next_char line (iter + 1) (fun c =>
        negb (bool_decide (c = SP)) || negb (bool_decide (c = CR)) ||
        negb (bool_decide (c = LF))) in
      if (iter =? length line)%nat then Ok flags else
      value_sv ← c_str_at line iter;
      let '(flags, iter) :=
        if icase_cmp value_sv kUpgradeWs
        then (Z.lor flags UpgradeWebSocket, next_char line (iter + 1) is_comma)
        else (flags, iter) in
      if (iter =? length line)%nat then Ok flags else upgrade_loop fuel line iter flags
  end.

Definition push_upgrade (line : bytes) (iter : nat) (flags : Z) : outcome Z :=
  upgrade_loop (length line + 2) line (iter + length kUpgrade) flags.

(** The [do ... while (true)] loop of the [Connection] header.  When the text at
    [iter] is none of the three tokens, the code goes round with [iter] where it
    is. *)
Fixpoint connection_loop (fuel : nat) (line : bytes) (iter : nat) (flags : Z) : outcome Z :=
  match fuel with
  | O => OutOfFuel
  | S fuel =>
      let iter := next_char line iter not_space in
      if (iter =? length line)%nat then Ok flags else
      value_sv ← c_str_at line iter;
      if icase_cmp value_sv (str "upgrade")
      then connection_loop fuel line
             (next_char line (iter + length (str "upgrade")) is_comma + 1)
             (Z.lor flags ConnectionUpgrade)
      else if icase_cmp value_sv (str "keep-alive")
      then connection_loop fuel line
             (next_char line (iter + length (str "keep-alive")) is_comma + 1)
             (Z.lor flags ConnectionKeepAlive)
      else if icase_cmp value_sv (str "close")
      then connection_loop fuel line
             (next_char line (iter + length (str "close")) is_comma + 1)
             (Z.lor flags ConnectionClose)
      else connection_loop fuel line iter flags
  end.

Definition push_connection (line : bytes) (iter : nat) (flags : Z) : outcome Z :=
  connection_loop (length line + 2) line (iter + length kConnection + 1) flags.

Definition push_header (p : http_header_parser) (line : bytes) : outcome http_header_parser :=
  let iter := next_char line 0 not_space in
  key ← c_str_at line iter;
  if icase_cmp key kContentLength then
    n ← push_content_length line iter; Ok (set_content_length (Some n) p)
  else if icase_cmp key kUpgrade then
    f ← push_upgrade line iter (upgrade_flags_ p); Ok (set_upgrade_flags f p)
  else if icase_cmp key kHost then
    Ok (set_host (header_value line (iter + length kHost)) p)
  else if icase_cmp key kConnection then
    f ← push_connection line iter (connection_flags_ p); Ok (set_connection_flags f p)
  else if icase_cmp key kUserAgent then
    Ok (set_user_agent (header_value line (iter + length kUserAgent)) p)
  else
    let iter := next_char line iter is_colon in
    if (iter =? length line)%nat then Ok p
    else Ok (set_headers (map_emplace (slice line 0 iter) (header_value line (iter + 1))
                            (headers_ p)) p).

(** ** [PushLine] *)

Definition PushLine (p : http_header_parser) (line : bytes)
  : outcome (http_header_parser * parser_state) :=
  p' ← match state_ p with
       | FirstLine =>
           '(m, sv, v) ← ParseFirstLine line;
           Ok (set_state Headers (set_first_line m sv v p))
       | Headers =>
           if decide (line = CRLF)
           then Ok (set_state (match content_length_ p with Some _ => Body | None => Done end) p)
           else push_header p line
       | Body =>
           let n := u32 (body_length_ p + Z.of_nat (length line)) in
           let p := set_body_length n p in
           match content_length_ p with
           | Some c => Ok (if c <=? n then set_state Done p else p)
           | None => Ok p
           end
       | Done => Ok p
       end;
  Ok (p', state_ p').

(** Pushing the lines of a request in order. *)
Fixpoint push_lines (p : http_header_parser) (lines : list bytes)
  : outcome http_header_parser :=
  match lines with
  | [] => Ok p
  | l :: ls => '(p', _) ← PushLine p l; push_lines p' ls
  end.

End HttpHeaderParser.
