(* ===== verification/HeaderParserSpec.v ===== *)
(** * What the request parser does: theorems about src/hpl_header_parser.cc

    First the lemmas on scanning and on header names, then the loops of the
    [Upgrade] and [Connection] headers, then [PushLine] as a state machine, and
    last whole requests. *)

From S2P Require Import Prelude CString StdMap Method Version HeaderParser.
Import HttpHeaderParser.

Implicit Types (line k v s l r : bytes) (p : http_header_parser).

(** ** Scanning *)

Section next_char.
Context (pred : byte -> bool).

Lemma next_char_le s off : (next_char s off pred <= length s)%nat.
Proof.
  unfold next_char. case_test.
  pose proof (prefix_len_le pred (drop off s)). autorewrite with httpoll_rw in *. lia.
Qed.

Lemma next_char_ge s off : (off <= length s)%nat -> (off <= next_char s off pred)%nat.
Proof. unfold next_char. intros. case_test. Qed.

Lemma next_char_stop s off c : s !! next_char s off pred = Some c -> pred c = true.
Proof.
  unfold next_char. case_test.
  - intros Hc%lookup_lt_Some. lia.
  - rewrite <- lookup_drop. apply prefix_len_stop.
Qed.

(** Scanning from the end of a known part of the text. *)
Lemma next_char_app s pre a c r off :
  s = pre ++ a ++ c :: r -> off = length pre ->
  Forall (fun d => pred d = false) a -> pred c = true ->
  next_char s off pred = (off + length a)%nat.
Proof.
  intros -> -> Ha Hc. unfold next_char. case_test.
  - autorewrite with httpoll_rw in *. cbn in *. lia.
  - by rewrite drop_app_length, prefix_len_app.
Qed.

Lemma next_char_none s pre a off :
  s = pre ++ a -> off = length pre -> Forall (fun d => pred d = false) a ->
  next_char s off pred = length s.
Proof.
  intros -> -> Ha. unfold next_char. case_test.
  rewrite drop_app_length, prefix_len_all by done. by rewrite length_app.
Qed.
End next_char.

Lemma slice_app s pre a r i j :
  s = pre ++ a ++ r -> i = length pre -> j = (i + length a)%nat -> slice s i j = a.
Proof.
  intros -> -> ->. unfold slice. rewrite drop_app_length.
  replace (_ - _)%nat with (length a) by lia. apply take_app_length.
Qed.

(** ** Header names *)

Lemma icase_cmp_nil_l s : icase_cmp [] s = true.
Proof. by destruct s. Qed.

Lemma icase_cmp_cons c1 c2 (r1 r2 : bytes) :
  icase_cmp (c1 :: r1) (c2 :: r2) = icase_eqb c1 c2 && icase_cmp r1 r2.
Proof.
  unfold icase_cmp. cbn [length].
  destruct (Nat.ltb_spec (S (length r1)) (S (length r2))),
    (Nat.ltb_spec (length r1) (length r2)); try lia; done.
Qed.

(** The characters of a header name. *)
Definition name_char (c : byte) : Prop := c <> ":"%byte /\ c <> NUL /\ c <> SP.
Definition field_name (k : bytes) : Prop := Forall name_char k.

#[export] Instance name_char_dec c : Decision (name_char c).
Proof. unfold name_char. apply _. Defined.
#[export] Instance field_name_dec k : Decision (field_name k).
Proof. unfold field_name. apply _. Defined.

Lemma tolower_colon c : tolower c = tolower ":"%byte <-> c = ":"%byte.
Proof. by destruct c. Qed.

Lemma icase_eqb_true c1 c2 : icase_eqb c1 c2 = bool_decide (tolower c1 = tolower c2).
Proof. done. Qed.

(** The prefix comparison of the code is an exact comparison of names once both
    names are followed by a colon. *)
Lemma header_name_test k name v :
  Forall (fun c => c <> ":"%byte) k -> Forall (fun c => c <> ":"%byte) name ->
  icase_cmp (k ++ ":"%byte :: v) (name ++ [":"%byte]) = bool_decide (icase_equiv k name).
Proof.
  intros Hk. revert name. induction Hk as [|c k Hc Hk IH]; intros name Hn.
  - destruct Hn as [|d name Hd Hn]; cbn [app]; [by destruct v|].
    rewrite icase_cmp_cons, icase_eqb_true. rewrite bool_decide_eq_false_2.
    + symmetry. apply bool_decide_eq_false_2. by unfold icase_equiv.
    + intros E. by apply Hd, tolower_colon.
  - destruct Hn as [|d name Hd Hn]; cbn [app]; rewrite icase_cmp_cons, icase_eqb_true.
    + rewrite bool_decide_eq_false_2; [symmetry; apply bool_decide_eq_false_2; by unfold icase_equiv|].
      rewrite tolower_colon. exact Hc.
    + rewrite IH by done. unfold icase_equiv. cbn [map].
      destruct (decide (tolower c = tolower d)) as [E|E].
      * rewrite bool_decide_eq_true_2 by done. cbn. apply bool_decide_ext. split; [congruence|]. by intros [= _ ?].
      * rewrite bool_decide_eq_false_2 by done. cbn. rewrite bool_decide_eq_false_2; [done|].
        congruence.
Qed.

(** [push_header] on a line [name: rest], by the header's name. *)
Lemma push_header_by_name p k v :
  field_name k ->
  let line := k ++ ":"%byte :: v in
  push_header p line =
    if decide (icase_equiv k (str "content-length")) then
      n ← push_content_length line 0; Ok (set_content_length (Some n) p)
    else if decide (icase_equiv k (str "upgrade")) then
      f ← push_upgrade line 0 (upgrade_flags_ p); Ok (set_upgrade_flags f p)
    else if decide (icase_equiv k (str "host")) then
      Ok (set_host (header_value line 5) p)
    else if decide (icase_equiv k (str "connection")) then
      f ← push_connection line 0 (connection_flags_ p); Ok (set_connection_flags f p)
    else if decide (icase_equiv k (str "user-agent")) then
      Ok (set_user_agent (header_value line 11) p)
    else Ok (set_headers (map_emplace k (header_value line (length k + 1)) (headers_ p)) p).
Proof.
  intros Hk line.
  assert (Hcolon : Forall (fun c => c <> ":"%byte) k) by (eapply Forall_impl; [exact Hk|]; by intros ? [??]).
  assert (Hnul : no_nul k) by (eapply Forall_impl; [exact Hk|]; by intros ? (?&?&?)).
  assert (H0 : next_char line 0 not_space = 0%nat).
  { destruct k as [|c k].
    - by apply (next_char_app _ _ [] [] ":"%byte v).
    - apply (next_char_app _ _ [] [] c (k ++ ":"%byte :: v)); try done.
      inversion Hk as [|?? [? [? ?]]]; subst. unfold not_space. by rewrite bool_decide_eq_false_2. }
  unfold push_header. rewrite H0, c_str_at_Ok by lia. cbn [mbind outcome_bind].
  rewrite drop_0.
  assert (until_nul line = k ++ ":"%byte :: until_nul v) as ->
    by (unfold line; by rewrite until_nul_app).
  change kContentLength with (str "content-length" ++ [":"%byte]).
  change kUpgrade with (str "upgrade" ++ [":"%byte]).
  change kHost with (str "host" ++ [":"%byte]).
  change kConnection with (str "connection" ++ [":"%byte]).
  change kUserAgent with (str "user-agent" ++ [":"%byte]).
  rewrite !header_name_test by (done || (repeat constructor; done)).
  assert (Hc : next_char line 0 is_colon = length k).
  { erewrite (next_char_app is_colon line [] k ":"%byte v); try done.
    eapply Forall_impl; [exact Hcolon|]. intros c Hc. unfold is_colon. by rewrite bool_decide_eq_false_2. }
  rewrite Hc. assert (length k <> length line) as Hne.
  { unfold line. autorewrite with httpoll_rw. lia. }
  apply Nat.eqb_neq in Hne. rewrite Hne.
  rewrite (slice_app line [] k (":"%byte :: v)) by done.
  unfold bool_decide. repeat case_decide; try done.
Qed.

(** ** Values *)

(** A trimmed value: it has no line end in it and does not start with a space. *)
Definition field_value (v : bytes) : Prop :=
  Forall (fun c => is_eol c = false) v /\ head v <> Some SP.

#[export] Instance field_value_dec v : Decision (field_value v).
Proof. unfold field_value. apply _. Defined.

Lemma header_value_trim line pre n v r :
  line = pre ++ replicate n SP ++ v ++ CRLF ++ r -> field_value v ->
  header_value line (length pre) = v.
Proof.
  intros -> [Hv Hhd]. unfold header_value.
  assert (Hn : next_char (pre ++ replicate n SP ++ v ++ CRLF ++ r) (length pre) not_space
               = (length pre + n)%nat).
  { destruct v as [|c v].
    - erewrite (next_char_app _ _ pre (replicate n SP) CR (LF :: r)); try done.
      + by rewrite length_replicate.
      + by apply Forall_replicate.
    - erewrite (next_char_app _ _ pre (replicate n SP) c (v ++ CRLF ++ r)); try done.
      + by rewrite length_replicate.
      + by apply Forall_replicate.
      + cbn in Hhd. unfold not_space. rewrite bool_decide_eq_false_2 by congruence. done. }
  rewrite Hn.
  erewrite (next_char_app is_eol _ (pre ++ replicate n SP) v CR (LF :: r)); try done.
  - apply (slice_app _ (pre ++ replicate n SP) v (CRLF ++ r)); [by rewrite <- app_assoc| |done].
    by rewrite length_app, length_replicate.
  - by rewrite <- app_assoc.
  - by rewrite length_app, length_replicate.
Qed.

(** ** The loop of the [Upgrade] header *)

(** The test the loop makes at each position it looks at. *)
Definition websocket_at (line : bytes) (i : nat) : bool :=
  icase_cmp (until_nul (drop i line)) kUpgradeWs.

Definition websocket_from (line : bytes) (i : nat) : bool :=
  existsb (websocket_at line) (seq i (length line - i)).

Lemma websocket_from_end line i : (length line <= i)%nat -> websocket_from line i = false.
Proof. intros. unfold websocket_from. by replace (length line - i)%nat with 0%nat by lia. Qed.

Lemma websocket_from_step line i :
  (i < length line)%nat ->
  websocket_from line i = websocket_at line i || websocket_from line (i + 1).
Proof.
  intros. unfold websocket_from.
  replace (length line - i)%nat with (S (length line - (i + 1))) by lia.
  cbn. by replace (S i) with (i + 1)%nat by lia.
Qed.

Lemma lor_absorb f x : Z.lor (Z.lor f x) x = Z.lor f x.
Proof. by rewrite <- Z.lor_assoc, Z.lor_diag. Qed.

Lemma next_char_any s off :
  next_char s off (fun c =>
    negb (bool_decide (c = SP)) || negb (bool_decide (c = CR)) || negb (bool_decide (c = LF))) =
  Nat.min off (length s).
Proof.
  unfold next_char. case_test.
  destruct (drop off s) as [|c r] eqn:E.
  - apply (f_equal length) in E. rewrite length_drop in E. cbn in E. lia.
  - cbn. assert (negb (bool_decide (c = SP)) || negb (bool_decide (c = CR)) ||
      negb (bool_decide (c = LF)) = true) as ->; [|lia].
    by destruct c.
Qed.

(** The loop ends on every line, and sets the flag when one of the positions
    after [iter] passes its test. *)
Lemma upgrade_loop_result fuel line iter flags :
  (length line < fuel + iter)%nat -> (0 < fuel)%nat ->
  upgrade_loop fuel line iter flags =
    Ok (if websocket_from line (iter + 1) then Z.lor flags UpgradeWebSocket else flags).
Proof.
  revert iter flags. induction fuel as [|fuel IH]; intros iter flags Hfuel Hpos; [lia|].
  cbn [upgrade_loop]. rewrite next_char_any. case_test.
  - by rewrite websocket_from_end by lia.
  - assert (iter + 1 < length line)%nat by lia. rewrite Nat.min_l by lia. rewrite c_str_at_Ok by lia. cbn [mbind outcome_bind].
    rewrite websocket_from_step by lia. fold (websocket_at line (iter + 1)).
    destruct (websocket_at line (iter + 1)) eqn:E; cbn [orb].
    + pose proof (next_char_le is_comma line (iter + 1 + 1)).
      pose proof (next_char_ge is_comma line (iter + 1 + 1) ltac:(lia)).
      case_test; [done|]. rewrite IH by lia. rewrite lor_absorb. by destruct (websocket_from _ _).
    + case_test. rewrite IH by lia. done.
Qed.

(** ** The loop of the [Connection] header *)

(** The tokens of a comma-separated value. *)
Fixpoint split_comma (l : bytes) : list bytes :=
  match l with
  | [] => [[]]
  | c :: r => if is_comma c then [] :: split_comma r
              else match split_comma r with
                   | t :: ts => (c :: t) :: ts
                   | [] => [[c]]
                   end
  end.

(** A token is recognised by what it starts with after its leading spaces. *)
Definition starts_with_icase (pat s : bytes) : bool :=
  (length pat <=? length s)%nat && bool_decide (icase_equiv (take (length pat) s) pat).

Definition token_flag (t : bytes) : option Z :=
  let t := drop (prefix_len not_space t) t in
  if starts_with_icase (str "upgrade") t then Some ConnectionUpgrade
  else if starts_with_icase (str "keep-alive") t then Some ConnectionKeepAlive
  else if starts_with_icase (str "close") t then Some ConnectionClose
  else None.

(** The flags of a whole value; [None] when some token is not recognised. *)
Fixpoint tokens_flags (flags : Z) (ts : list bytes) : option Z :=
  match ts with
  | [] => Some flags
  | t :: ts => match token_flag t with
               | Some f => tokens_flags (Z.lor flags f) ts
               | None => None
               end
  end.

Lemma split_comma_none l : Forall (fun c => is_comma c = false) l -> split_comma l = [l].
Proof. induction 1 as [|c l H _ IH]; cbn; [done|]. by rewrite H, IH. Qed.

Lemma split_comma_app l r :
  Forall (fun c => is_comma c = false) l ->
  split_comma (l ++ ","%byte :: r) = l :: split_comma r.
Proof. induction 1 as [|c l H _ IH]; cbn; [done|]. by rewrite H, IH. Qed.

(** Every text is a first token and a rest. *)
Lemma split_comma_cases l :
  exists t, Forall (fun c => is_comma c = false) t /\
    (l = t /\ split_comma l = [t] \/
     exists r, l = t ++ ","%byte :: r /\ split_comma l = t :: split_comma r).
Proof.
  induction l as [|c l (t & Ht & IH)]; [exists []; split; [constructor|by left]|].
  destruct (is_comma c) eqn:E.
  - exists []. split; [constructor|]. right. exists l.
    unfold is_comma in E. apply bool_decide_eq_true in E. by subst.
  - exists (c :: t). split; [by constructor|]. destruct IH as [[-> H]|(r & -> & H)].
    + left. split; [done|]. cbn. by rewrite E, H.
    + right. exists r. split; [done|]. cbn. by rewrite E, H.
Qed.

(** A keyword of the loop: no comma, space, NUL or line end in it. *)
Definition keyword_char (c : byte) : bool :=
  negb (is_comma c || is_eol c || bool_decide (c = SP) || bool_decide (c = NUL)).

Lemma tolower_keyword c d : tolower c = tolower d -> keyword_char d = true -> keyword_char c = true.
Proof.
  intros H Hd. assert (forall x, keyword_char x = keyword_char (tolower x)) as Hx by by intros [].
  by rewrite Hx, H, <- Hx.
Qed.

Lemma icase_keyword k pat :
  icase_equiv k pat -> Forall (fun c => keyword_char c = true) pat ->
  Forall (fun c => keyword_char c = true) k.
Proof.
  unfold icase_equiv. revert pat. induction k as [|c k IH]; intros [|d pat] H Hp; try done.
  cbn in H. injection H as H1 H2. inversion Hp; subst. constructor; [by eapply tolower_keyword|eauto].
Qed.

(** The prefix comparison of the loop is exact on a text that ends its line. *)
Lemma icase_cmp_lf s pat :
  last s = Some LF -> Forall (fun c => keyword_char c = true) pat ->
  icase_cmp s pat = starts_with_icase pat s.
Proof.
  intros Hlast Hpat. unfold starts_with_icase. destruct (Nat.leb_spec (length pat) (length s)).
  - rewrite andb_true_l. apply eq_true_iff_eq. by rewrite bool_decide_eq_true, icase_cmp_long.
  - rewrite andb_false_l. apply not_true_iff_false. rewrite icase_cmp_min, Nat.min_l by lia.
    rewrite take_ge by done. intros E.
    apply icase_keyword in E; [|by apply Forall_take].
    apply last_Some in Hlast as [l ->]. apply Forall_app in E as [_ E].
    by inversion E.
Qed.

Lemma starts_with_icase_comma pat t r :
  Forall (fun c => is_comma c = false) t -> Forall (fun c => keyword_char c = true) pat ->
  starts_with_icase pat (t ++ ","%byte :: r) = starts_with_icase pat t.
Proof.
  intros Ht Hpat. unfold starts_with_icase.
  destruct (Nat.leb_spec (length pat) (length t)).
  - rewrite take_app_le by done.
    by rewrite (proj2 (Nat.leb_le _ _)) by (rewrite length_app; lia).
  - cbn [andb]. apply andb_false_intro2. apply bool_decide_eq_false_2. intros E.
    apply icase_keyword in E; [|done].
    rewrite take_app_ge in E by lia. apply Forall_app in E as [_ E].
    destruct (length pat - length t)%nat eqn:?; [lia|]. by inversion E.
Qed.

Lemma starts_with_icase_split pat s :
  starts_with_icase pat s = true -> exists k u, s = k ++ u /\ icase_equiv k pat.
Proof.
  unfold starts_with_icase. intros [_ H]%andb_true_iff. apply bool_decide_eq_true in H.
  exists (take (length pat) s), (drop (length pat) s). by rewrite take_drop.
Qed.

(** What is left of a line at a position of the loop: a first token, and either
    nothing or a comma and more. *)
Definition at_token (line : bytes) (iter : nat) (t tail : bytes) : Prop :=
  no_nul line /\ last line = Some LF /\ drop iter line = t ++ tail /\ t ++ tail <> [] /\
  Forall (fun c => is_comma c = false) t /\
  (tail = [] \/ exists r, tail = ","%byte :: r).

Lemma at_token_last line iter t tail : at_token line iter t tail -> last (t ++ tail) = Some LF.
Proof.
  intros (_ & Hlast & Hd & Hne & _). rewrite <- Hd in *.
  rewrite <- (take_drop iter line), last_app in Hlast.
  destruct (last (drop iter line)) eqn:E; [done|]. by apply last_None in E.
Qed.

(** The loop first moves over the spaces of the token. *)
Lemma at_token_spaces line iter t tail :
  at_token line iter t tail ->
  let n := prefix_len not_space t in
  next_char line iter not_space = (iter + n)%nat /\ (iter + n < length line)%nat /\
  at_token line (iter + n) (drop n t) tail.
Proof.
  intros H n. pose proof (at_token_last _ _ _ _ H) as Hlast.
  destruct H as (Hnul & Hlf & Hd & Hne & Ht & Htail).
  assert (Hlen : (iter < length line)%nat).
  { apply Nat.nle_gt. intros Hle. rewrite drop_ge in Hd by done. congruence. }
  assert (Hn : prefix_len not_space (t ++ tail) = n /\ (n < length (t ++ tail))%nat).
  { unfold n. pose proof (prefix_len_le not_space t).
    destruct (decide (prefix_len not_space t = length t)) as [E|E].
    - assert (Forall (fun c => not_space c = false) t) as Hsp.
      { pose proof (prefix_len_Forall not_space t) as Hf. by rewrite E, take_ge in Hf by lia. }
      destruct Htail as [->|[r ->]].
      + exfalso. rewrite app_nil_r in *. apply last_Some in Hlast as [l ->].
        apply Forall_app in Hsp as [_ Hsp]. by inversion Hsp.
      + rewrite prefix_len_app, E by done. autorewrite with httpoll_rw. lia.
    - destruct (lookup_lt_is_Some_2 t (prefix_len not_space t)) as [c Hc]; [lia|].
      pose proof (prefix_len_stop _ _ _ Hc) as Hns.
      rewrite <- (take_drop_middle _ _ _ Hc) at 1. rewrite <- app_assoc. cbn.
      rewrite prefix_len_app; [|apply prefix_len_Forall|done].
      autorewrite with httpoll_rw. lia. }
  destruct Hn as [Hn Hlt]. rewrite <- Hd, length_drop in Hlt.
  assert (drop (iter + n) line = drop n t ++ tail) as Hdrop.
  { rewrite <- drop_drop, Hd. rewrite drop_app_le; [done|]. apply prefix_len_le. }
  split; [|split; [lia|]].
  - unfold next_char. case_test. by rewrite Hd, Hn.
  - split; [done|]. split; [done|]. split; [done|]. split; [|split; [by apply Forall_drop|done]].
    rewrite <- Hdrop. intros E. apply (f_equal length) in E. rewrite length_drop in E. cbn in E. lia.
Qed.

Lemma at_token_value line iter t tail pat :
  at_token line iter t tail -> Forall (fun c => keyword_char c = true) pat ->
  icase_cmp (until_nul (drop iter line)) pat = starts_with_icase pat t.
Proof.
  intros H Hpat. pose proof (at_token_last _ _ _ _ H) as Hlast.
  destruct H as (Hnul & _ & Hd & _ & Ht & Htail).
  rewrite until_nul_id by (by apply Forall_drop). rewrite Hd, icase_cmp_lf by done.
  destruct Htail as [->|[r ->]]; [by rewrite app_nil_r|]. by apply starts_with_icase_comma.
Qed.

(** After a recognised token the loop goes to the character after the comma. *)
Lemma at_token_next line iter t tail pat :
  at_token line iter t tail -> Forall (fun c => keyword_char c = true) pat ->
  starts_with_icase pat t = true ->
  next_char line (iter + length pat) is_comma = (iter + length t)%nat.
Proof.
  intros (_ & _ & Hd & Hne & Ht & Htail) Hpat Hst.
  apply starts_with_icase_split in Hst as (k & u & -> & Hk).
  pose proof (icase_equiv_length _ _ Hk) as Hlen. apply Forall_app in Ht as [_ Hu].
  assert (Hit : (iter < length line)%nat).
  { apply Nat.nle_gt. intros Hle. rewrite drop_ge in Hd by done. congruence. }
  assert (Hline : line = (take iter line ++ k) ++ u ++ tail).
  { rewrite <- (take_drop iter line) at 1. by rewrite Hd, <- !app_assoc. }
  assert (Hpre : (iter + length pat)%nat = length (take iter line ++ k)).
  { rewrite length_app, length_take. lia. }
  destruct Htail as [->|[r ->]].
  - rewrite app_nil_r in Hline. rewrite (next_char_none _ _ _ _ _ Hline Hpre Hu).
    apply (f_equal length) in Hd. autorewrite with httpoll_rw in *. cbn in *. lia.
  - rewrite (next_char_app _ _ _ _ _ _ _ Hline Hpre Hu) by done.
    autorewrite with httpoll_rw. lia.
Qed.

(** One round of the loop. *)
Lemma connection_loop_step fuel line iter t tail flags :
  at_token line iter t tail ->
  let n := prefix_len not_space t in
  connection_loop (S fuel) line iter flags =
    match token_flag t with
    | Some f => connection_loop fuel line (iter + length t + 1) (Z.lor flags f)
    | None => connection_loop fuel line (iter + n) flags
    end.
Proof.
  intros H n. destruct (at_token_spaces _ _ _ _ H) as (Hn & Hlt & H'). fold n in Hn, Hlt, H'.
  cbn [connection_loop]. rewrite Hn. case_test. rewrite c_str_at_Ok by lia. cbn [mbind outcome_bind].
  unfold token_flag. fold n.
  assert (Hl : length (drop n t) = (length t - n)%nat) by apply length_drop.
  assert (Hle : (n <= length t)%nat) by apply prefix_len_le.
  rewrite !(at_token_value _ _ _ _ _ H') by (repeat constructor; done).
  repeat (case_match;
    [erewrite at_token_next by (done || (repeat constructor; done));
     rewrite Hl; f_equal; lia|]).
  done.
Qed.

(** A token that is not recognised keeps the loop where it is. *)
Lemma connection_loop_stuck fuel line iter t tail flags :
  at_token line iter t tail -> token_flag t = None ->
  connection_loop fuel line iter flags = OutOfFuel.
Proof.
  revert iter t flags. induction fuel as [|fuel IH]; intros iter t flags H Hn; [done|].
  erewrite connection_loop_step by done. rewrite Hn.
  destruct (at_token_spaces _ _ _ _ H) as (_ & _ & H'). eapply IH; [exact H'|].
  revert Hn. unfold token_flag.
  set (n := prefix_len not_space t).
  assert (prefix_len not_space (drop n t) = 0%nat) as ->; [|by rewrite drop_0].
  destruct (drop n t) as [|c u] eqn:E; [done|]. cbn.
  assert (t !! n = Some c) as Hc.
  { rewrite <- (Nat.add_0_r n), <- lookup_drop, E. done. }
  by rewrite (prefix_len_stop _ _ _ Hc).
Qed.

Lemma connection_loop_end fuel line iter flags :
  (length line <= iter)%nat -> (0 < fuel)%nat -> connection_loop fuel line iter flags = Ok flags.
Proof.
  intros Hi Hf. destruct fuel as [|fuel]; [lia|]. cbn. unfold next_char at 1.
  case_test. by rewrite Nat.eqb_refl.
Qed.

(** The whole loop, by the tokens of the value. *)
Lemma connection_loop_tokens fuel line iter flags :
  no_nul line -> last line = Some LF -> (iter < length line)%nat ->
  match tokens_flags flags (split_comma (drop iter line)) with
  | Some f => (length (split_comma (drop iter line)) < fuel)%nat ->
              connection_loop fuel line iter flags = Ok f
  | None => connection_loop fuel line iter flags = OutOfFuel
  end.
Proof.
  intros Hnul Hlf. revert iter flags. induction fuel as [|fuel IH]; intros iter flags Hi.
  { case_match; [lia|done]. }
  destruct (split_comma_cases (drop iter line)) as (t & Ht & Hl).
  assert (Hne : drop iter line <> []).
  { intros E. apply (f_equal length) in E. rewrite length_drop in E. cbn in E. lia. }
  destruct Hl as [[Hl Hs]|(r & Hl & Hs)]; rewrite Hs; cbn [tokens_flags length].
  - assert (Hat : at_token line iter t []).
    { repeat split; auto; rewrite app_nil_r; congruence. }
    destruct (token_flag t) as [f|] eqn:Hf; [|by eapply connection_loop_stuck].
    intros Hfuel. erewrite connection_loop_step by done. rewrite Hf.
    apply connection_loop_end; [|lia].
    apply (f_equal length) in Hl. rewrite length_drop in Hl. lia.
  - assert (Hat : at_token line iter t (","%byte :: r)).
    { repeat split; eauto. congruence. }
    destruct (token_flag t) as [f|] eqn:Hf; [|by eapply connection_loop_stuck].
    assert (Hdrop : drop (iter + length t + 1) line = r).
    { rewrite <- !drop_drop, Hl. by rewrite drop_app_length. }
    assert (Hlast := at_token_last _ _ _ _ Hat). rewrite last_app in Hlast.
    destruct r as [|d r]; [done|].
    erewrite connection_loop_step by done. rewrite Hf.
    assert (Hi' : (iter + length t + 1 < length line)%nat).
    { apply (f_equal length) in Hdrop. rewrite length_drop in Hdrop. cbn in Hdrop. lia. }
    specialize (IH (iter + length t + 1)%nat (Z.lor flags f) Hi'). rewrite Hdrop in IH.
    destruct (tokens_flags (Z.lor flags f) (split_comma (d :: r))); [|done].
    intros. apply IH. lia.
Qed.

Lemma split_comma_length l : (length (split_comma l) <= S (length l))%nat.
Proof.
  induction l as [|c l IH]; cbn; [lia|]. destruct (is_comma c); cbn; [lia|].
  destruct (split_comma l); cbn in *; lia.
Qed.

(** ** Header lines *)

(** A header line as a client writes it. *)
Definition header_line (k : bytes) (n : nat) (v : bytes) : bytes :=
  k ++ [":"%byte] ++ replicate n SP ++ v ++ CRLF.

Lemma header_line_cons k n v :
  header_line k n v = k ++ ":"%byte :: (replicate n SP ++ v ++ CRLF).
Proof. done. Qed.

Definition special_names : list bytes :=
  [str "content-length"; str "upgrade"; str "host"; str "connection"; str "user-agent"].

Definition special_name (k : bytes) : Prop := Exists (icase_equiv k) special_names.

#[export] Instance special_name_dec k : Decision (special_name k).
Proof. unfold special_name. apply _. Defined.

Lemma header_line_value k n v off :
  off = (length k + 1)%nat -> field_value v -> header_value (header_line k n v) off = v.
Proof.
  intros -> Hv. rewrite (header_line_cons k n v).
  replace (length k + 1)%nat with (length (k ++ [":"%byte])) by (rewrite length_app; cbn; lia).
  eapply (header_value_trim _ (k ++ [":"%byte]) n v []); [|done].
  by rewrite <- app_assoc.
Qed.

Lemma push_generic_header p k n v :
  field_name k -> ~ special_name k -> field_value v ->
  push_header p (header_line k n v) = Ok (set_headers (map_emplace k v (headers_ p)) p).
Proof.
  intros Hk Hs Hv. rewrite header_line_cons, push_header_by_name by done.
  rewrite <- header_line_cons.
  unfold special_name, special_names in Hs. rewrite !Exists_cons in Hs.
  repeat (rewrite decide_False by tauto). by rewrite header_line_value.
Qed.

(** Decide which special header a name is, from the case-insensitive equation [E]
    with its lower-case form. *)
Lemma other_name k a b :
  icase_equiv k a -> bool_decide (icase_equiv a b) = false -> ~ icase_equiv k b.
Proof. intros E Hab%bool_decide_eq_false H. apply Hab. by rewrite <- E. Qed.

Ltac decide_name E :=
  repeat (rewrite decide_False by (apply (other_name _ _ _ E); reflexivity));
  rewrite decide_True by exact E.

Lemma push_host_header p k n v :
  field_name k -> icase_equiv k (str "host") -> field_value v ->
  push_header p (header_line k n v) = Ok (set_host v p).
Proof.
  intros Hk E Hv. rewrite header_line_cons, push_header_by_name by done.
  rewrite <- header_line_cons. decide_name E. rewrite header_line_value; [done| |done].
  by rewrite (icase_equiv_length _ _ E).
Qed.

Lemma push_user_agent_header p k n v :
  field_name k -> icase_equiv k (str "user-agent") -> field_value v ->
  push_header p (header_line k n v) = Ok (set_user_agent v p).
Proof.
  intros Hk E Hv. rewrite header_line_cons, push_header_by_name by done.
  rewrite <- header_line_cons. decide_name E. rewrite header_line_value; [done| |done].
  by rewrite (icase_equiv_length _ _ E).
Qed.

Lemma no_nul_header_line k n v : field_name k -> no_nul v -> no_nul (header_line k n v).
Proof.
  intros Hk Hv. unfold no_nul, header_line. rewrite !Forall_app. repeat split; try done.
  - eapply Forall_impl; [exact Hk|]. by intros ? (?&?&?).
  - by repeat constructor.
  - by apply Forall_replicate.
  - by repeat constructor.
Qed.

Lemma push_content_length_header p k n ds :
  field_name k -> icase_equiv k (str "content-length") ->
  ds <> [] -> Forall (fun d => isdigit d = true) ds -> digits_value 0 ds < 2 ^ 31 ->
  push_header p (header_line k n ds) = Ok (set_content_length (Some (digits_value 0 ds)) p).
Proof.
  intros Hk E Hne Hds Hv. rewrite header_line_cons, push_header_by_name by done.
  rewrite <- header_line_cons. decide_name E.
  assert (Hidx : next_char (header_line k n ds) 15 not_space = (15 + n)%nat).
  { destruct ds as [|d ds]; [done|].
    erewrite (next_char_app _ _ (k ++ [":"%byte]) (replicate n SP) d (ds ++ CRLF)).
    - by rewrite length_replicate.
    - by unfold header_line; rewrite <- app_assoc.
    - rewrite length_app, (icase_equiv_length _ _ E). done.
    - by apply Forall_replicate.
    - inversion Hds as [|?? Hd]; subst. destruct (isdigit_props _ Hd) as (_ & _ & _ & Hsp & _).
      unfold not_space. by rewrite bool_decide_eq_false_2. }
  unfold push_content_length. cbn [Nat.add]. change (length kContentLength) with 15%nat.
  rewrite Hidx.
  assert (Hdrop : drop (15 + n) (header_line k n ds) = ds ++ CRLF).
  { unfold header_line. rewrite !app_assoc, <- (app_assoc _ ds).
    apply drop_app_len. autorewrite with httpoll_rw. rewrite length_replicate, (icase_equiv_length _ _ E).
    done. }
  assert (Hnul : no_nul ds).
  { eapply Forall_impl; [exact Hds|]. intros d Hd. by destruct (isdigit_props _ Hd) as (_ & _ & _ & _ & ?). }
  rewrite c_str_at_Ok. 2:{ apply (f_equal length) in Hdrop. rewrite length_drop, length_app in Hdrop. cbn in Hdrop. lia. }
  rewrite Hdrop, until_nul_app by done. cbn [mbind outcome_bind].
  replace (until_nul CRLF) with (CR :: [LF]) by done.
  rewrite atoi_digits by done. cbn [mbind outcome_bind].
  pose proof (digits_value_nonneg 0 ds ltac:(lia)). rewrite u32_small by lia. done.
Qed.

(** ** The request line *)

(** What [ParseFirstLine] computes, as a direct reading of the line: the method
    prefix, the text up to the next space, and the version prefix after it; the
    version is looked for at the beginning of the line when there is no second
    space, because [npos + 1] wraps to 0.  The reads must stay within the line
    and its terminator. *)
Definition first_line_spec (line : bytes)
  : outcome (HttpMethod.http_method * bytes * HttpVersion.http_version) :=
  if (length line <? 3)%nat then Fault OutOfBounds else
  match method_prefix line with
  | None => Ok (HttpMethod.UNKNOWN, [], HttpVersion.UNKNOWN)
  | Some (m, k) =>
      let pos := skip_spaces line k in
      let n := prefix_len (fun d => bool_decide (d = SP)) (drop pos line) in
      let off := if (pos + n <? length line)%nat then S (pos + n) else 0%nat in
      if (off + version_reads (drop off line) <=? length line + 1)%nat
      then Ok (m, take n (drop pos line), version_prefix (drop off line))
      else Fault OutOfBounds
  end.

Lemma skip_spaces_le line (k : nat) : (k <= length line)%nat -> (skip_spaces line k <= length line)%nat.
Proof.
  intros. unfold skip_spaces.
  pose proof (prefix_len_le (fun c => negb (bool_decide (c = SP))) (drop k line)) as H1.
  rewrite length_drop in H1. lia.
Qed.

Lemma version_field_spec s off view end_pos {A} (K : HttpVersion.http_version -> outcome A) :
  sv_of_cptr s off = Ok view ->
  ('(version, _) ← ParseHttpVersion view end_pos; K version) =
  if (off + version_reads (drop off s) <=? length s + 1)%nat
  then K (version_prefix (drop off s)) else Fault OutOfBounds.
Proof.
  intros Hv. case_match eqn:E.
  - apply Nat.leb_le in E. by destruct (ParseHttpVersion_prefix _ _ _ end_pos Hv E) as [e ->].
  - apply Nat.leb_gt in E. by rewrite (ParseHttpVersion_short _ _ _ end_pos Hv) by lia.
Qed.

Lemma sv_of_cptr_Ok s off :
  (off <= length s)%nat ->
  sv_of_cptr s off = Ok (SV s off (length (until_nul (drop off s)))).
Proof. intros. unfold sv_of_cptr. by rewrite c_str_at_Ok. Qed.

Lemma ParseFirstLine_eq line :
  Z.of_nat (length line) < 2 ^ 63 -> ParseFirstLine line = first_line_spec line.
Proof.
  intros Hlen. unfold ParseFirstLine, first_line_spec. case_test.
  { unfold sv_of_string. by rewrite ParseHttpMethod_short by lia. }
  unfold sv_of_string at 1. rewrite ParseHttpMethod_prefix by lia. cbn [mbind outcome_bind].
  rewrite Nat.add_0_l, drop_0.
  destruct (method_prefix line) as [[m k]|] eqn:Hm; [|done].
  destruct (method_prefix_known _ _ _ Hm) as [Hu Hk]. rewrite decide_False by done.
  cbn [Nat.add]. pose proof (skip_spaces_le _ _ Hk) as Hpos.
  set (pos := skip_spaces line k) in *. unfold find_char, substr.
  set (n := prefix_len (fun d => bool_decide (d = SP)) (drop pos line)).
  assert (Hn : (n <= length line - pos)%nat) by (rewrite <- length_drop; apply prefix_len_le).
  rewrite (proj2 (Nat.leb_le _ _) Hpos). cbn [mbind outcome_bind].
  destruct (Nat.ltb_spec (pos + n) (length line)).
  - rewrite !u64_small by lia.
    replace (Z.to_nat (Z.of_nat (pos + n) + 1)) with (S (pos + n)) by lia.
    rewrite sv_of_cptr_Ok by lia. cbn [mbind outcome_bind].
    rewrite (version_field_spec line (S (pos + n))) by (apply sv_of_cptr_Ok; lia).
    by replace (Z.to_nat (_ `min` _)) with n by lia.
  - change (u64 (npos + 1)) with 0. cbn [Z.to_nat].
    rewrite sv_of_cptr_Ok by lia. cbn [mbind outcome_bind].
    rewrite (version_field_spec line 0) by (apply sv_of_cptr_Ok; lia).
    rewrite u64_small by (unfold npos; lia).
    by replace (Z.to_nat (_ `min` _)) with n by (unfold npos; lia).
Qed.

(** The text of a method the parser knows. *)
Definition method_text (m : HttpMethod.http_method) : option bytes :=
  match m with
  | HttpMethod.GET => Some (str "GET")
  | HttpMethod.PUT => Some (str "PUT")
  | HttpMethod.POST => Some (str "POST")
  | _ => None
  end.

Definition no_space (s : bytes) : Prop := Forall (fun c => c <> SP) s.
#[export] Instance no_space_dec s : Decision (no_space s).
Proof. unfold no_space. apply _. Defined.

Definition request_line (mt uri vt : bytes) : bytes := mt ++ [SP] ++ uri ++ [SP] ++ vt ++ CRLF.

Lemma method_prefix_text m mt r : method_text m = Some mt -> method_prefix (mt ++ r) = Some (m, length mt).
Proof. by destruct m; intros [= <-]. Qed.

(** Where the parser finds the fields of a request line. *)
Lemma request_line_fields m mt uri r :
  method_text m = Some mt -> uri <> [] -> no_space uri ->
  let line := mt ++ [SP] ++ uri ++ [SP] ++ r in
  skip_spaces line (length mt) = (length mt + 1)%nat /\
  prefix_len (fun d => bool_decide (d = SP)) (drop (length mt + 1) line) = length uri /\
  take (length uri) (drop (length mt + 1) line) = uri /\
  drop (S (length mt + 1 + length uri)) line = r /\
  (length mt + 1 + length uri < length line)%nat /\ (3 <= length mt)%nat.
Proof.
  intros Hm Hne Hsp line.
  assert (Hd : drop (length mt + 1) line = uri ++ SP :: r).
  { unfold line. rewrite app_assoc. apply drop_app_len. by rewrite length_app. }
  rewrite Hd. split; [|split; [|split; [|split; [|split]]]].
  - unfold skip_spaces, line. rewrite drop_app_length. cbn.
    destruct uri as [|c uri]; [done|]. inversion Hsp; subst. cbn.
    change (bool_decide (SP = SP)) with true.
    rewrite (bool_decide_eq_false_2 (c = SP)) by done. cbn. lia.
  - apply prefix_len_app; [|done]. eapply Forall_impl; [exact Hsp|]. intros c Hc. cbn.
    by apply bool_decide_eq_false_2.
  - apply take_app_length.
  - replace (S (length mt + 1 + length uri)) with ((length mt + 1) + (length uri + 1))%nat by lia.
    rewrite <- drop_drop, Hd. rewrite <- drop_drop, drop_app_length. done.
  - unfold line. autorewrite with httpoll_rw. cbn. lia.
  - destruct m; try done; injection Hm as <-; cbn; lia.
Qed.

Lemma ParseFirstLine_request m mt uri r :
  method_text m = Some mt -> uri <> [] -> no_space uri ->
  Z.of_nat (length (mt ++ [SP] ++ uri ++ [SP] ++ r)) < 2 ^ 63 ->
  ParseFirstLine (mt ++ [SP] ++ uri ++ [SP] ++ r) =
    if (version_reads r <=? length r + 1)%nat
    then Ok (m, uri, version_prefix r) else Fault OutOfBounds.
Proof.
  intros Hm Hne Hsp Hlen. rewrite ParseFirstLine_eq by done. unfold first_line_spec.
  destruct (request_line_fields m mt uri r Hm Hne Hsp) as (Hs & Hp & Ht & Hd & Hl & H3).
  rewrite (method_prefix_text m) by done.
  set (line := mt ++ [SP] ++ uri ++ [SP] ++ r) in *. rewrite Hs, Hp, Ht.
  rewrite (proj2 (Nat.ltb_ge (length line) 3)) by lia.
  rewrite (proj2 (Nat.ltb_lt _ _) Hl), Hd.
  assert (length line = S (length mt + 1 + length uri) + length r)%nat as Hll.
  { unfold line. autorewrite with httpoll_rw. cbn. lia. }
  rewrite Hll. destruct (Nat.leb_spec (version_reads r) (length r + 1)),
    (Nat.leb_spec (S (length mt + 1 + length uri) + version_reads r)
       (S (length mt + 1 + length uri) + length r + 1)); try lia; done.
Qed.

(** ** Flags *)

Lemma lor_range8 a b : 0 <= a < 8 -> 0 <= b < 8 -> 0 <= Z.lor a b < 8.
Proof.
  intros Ha Hb. split; [apply Z.lor_nonneg; lia|].
  destruct (Z.eq_dec (Z.lor a b) 0) as [->|Hne]; [lia|].
  assert (0 <= Z.lor a b) by (apply Z.lor_nonneg; lia).
  change 8 with (2 ^ 3). apply Z.log2_lt_pow2; [lia|]. rewrite Z.log2_lor by lia.
  apply Z.max_lub_lt.
  - destruct (Z.eq_dec a 0) as [->|]; [done|]. apply Z.log2_lt_pow2; lia.
  - destruct (Z.eq_dec b 0) as [->|]; [done|]. apply Z.log2_lt_pow2; lia.
Qed.

Lemma connection_loop_range fuel line iter flags f :
  0 <= flags < 8 -> connection_loop fuel line iter flags = Ok f -> 0 <= f < 8.
Proof.
  revert iter flags. induction fuel as [|fuel IH]; intros iter flags Hf; [done|].
  cbn [connection_loop]. case_match; [by intros [= <-]|].
  intros (value & _ & Hr)%bind_Ok.
  repeat case_match; (eapply IH; [|exact Hr]); try done;
    apply lor_range8; try done; unfold ConnectionUpgrade, ConnectionKeepAlive, ConnectionClose; lia.
Qed.

(** ** Pushing several lines *)

Lemma push_lines_app p ls1 ls2 :
  push_lines p (ls1 ++ ls2) = (push_lines p ls1 ≫= fun q => push_lines q ls2).
Proof.
  revert p. induction ls1 as [|l ls IH]; intros p; cbn; [done|].
  destruct (PushLine p l) as [[q s]| |]; cbn; [apply IH|done..].
Qed.

Lemma push_lines_cons p l ls q (st : parser_state) :
  PushLine p l = Ok (q, st) -> push_lines p (l :: ls) = push_lines q ls.
Proof. intros H. cbn. by rewrite H. Qed.
