(* ===== verification/HeaderParserProps.v ===== *)
(** * Properties of the request parser

    The invariant of the parser's fields, [PushLine] as a state machine, what each
    kind of line does, and the round trip of whole requests. *)

From S2P Require Import Prelude CString StdMap Method Version HeaderParser HeaderParserSpec.
Import HttpHeaderParser.

Implicit Types (line : bytes) (p : http_header_parser).

(** ** The effect of one line *)

(** What a header line can do to the parser. *)
Inductive header_effect (p : http_header_parser) : http_header_parser -> Prop :=
| effect_content_length n : header_effect p (set_content_length (Some (u32 n)) p)
| effect_upgrade (b : bool) :
    header_effect p
      (set_upgrade_flags (if b then Z.lor (upgrade_flags_ p) UpgradeWebSocket
                          else upgrade_flags_ p) p)
| effect_host h : header_effect p (set_host h p)
| effect_connection f :
    (0 <= connection_flags_ p < 8 -> 0 <= f < 8) -> header_effect p (set_connection_flags f p)
| effect_user_agent u : header_effect p (set_user_agent u p)
| effect_header k v : header_effect p (set_headers (map_emplace k v (headers_ p)) p)
| effect_none : header_effect p p.

Lemma push_header_effect p line p' : push_header p line = Ok p' -> header_effect p p'.
Proof.
  unfold push_header. intros (key & _ & H)%bind_Ok. revert H. repeat case_match.
  - intros (n & Hn & [= <-])%bind_Ok. unfold push_content_length in Hn.
    apply bind_Ok in Hn as (t & _ & Hn). apply bind_Ok in Hn as (a & _ & [= <-]). constructor.
  - intros (f & Hf & [= <-])%bind_Ok. unfold push_upgrade in Hf.
    rewrite upgrade_loop_result in Hf by lia. injection Hf as <-. constructor.
  - intros [= <-]. constructor.
  - intros (f & Hf & [= <-])%bind_Ok. constructor. intros. by eapply connection_loop_range.
  - intros [= <-]. constructor.
  - intros [= <-]. constructor.
  - intros [= <-]. constructor.
Qed.

Inductive line_effect (p : http_header_parser) (line : bytes) : http_header_parser -> Prop :=
| line_first m u v :
    state_ p = FirstLine -> ParseFirstLine line = Ok (m, u, v) ->
    line_effect p line (set_state Headers (set_first_line m u v p))
| line_blank :
    state_ p = Headers -> line = CRLF ->
    line_effect p line
      (set_state (match content_length_ p with Some _ => Body | None => Done end) p)
| line_header p' :
    state_ p = Headers -> line <> CRLF -> push_header p line = Ok p' -> line_effect p line p'
| line_body :
    state_ p = Body ->
    let n := u32 (body_length_ p + Z.of_nat (length line)) in
    line_effect p line
      (match content_length_ p with
       | Some c => if c <=? n then set_state Done (set_body_length n p) else set_body_length n p
       | None => set_body_length n p
       end)
| line_done : state_ p = Done -> line_effect p line p.

Lemma PushLine_effect p line p' s :
  PushLine p line = Ok (p', s) -> line_effect p line p' /\ s = state_ p'.
Proof.
  unfold PushLine. intros (q & H & [= <- <-])%bind_Ok. split; [|done].
  destruct (state_ p) eqn:Hs.
  - apply bind_Ok in H as ([[m u] v] & Hf & [= <-]). by constructor.
  - case_decide; [injection H as <-; by constructor|by constructor].
  - assert (content_length_ (set_body_length (u32 (body_length_ p + Z.of_nat (length line))) p)
      = content_length_ p) as E by by destruct p.
    rewrite E in H. pose proof (line_body p line Hs) as Hb. cbv zeta in Hb.
    by destruct (content_length_ p); injection H as <-.
  - injection H as <-. by constructor.
Qed.

(** ** The field invariant *)

Record parser_inv (p : http_header_parser) : Prop := {
  inv_headers : map_wf (headers_ p);
  inv_connection_flags : 0 <= connection_flags_ p < 8;
  inv_upgrade_flags : upgrade_flags_ p = 0 \/ upgrade_flags_ p = UpgradeWebSocket;
  inv_connection : connection_ p = [];
  inv_content_length : forall c, content_length_ p = Some c -> 0 <= c < 2 ^ 32;
  inv_body_length : 0 <= body_length_ p < 2 ^ 32;
  inv_first : state_ p = FirstLine -> p = init;
  inv_no_body : state_ p = Headers -> body_length_ p = 0;
  inv_body : state_ p = Body ->
    exists c, content_length_ p = Some c /\ (body_length_ p < c \/ body_length_ p = 0);
  inv_done : state_ p = Done -> forall c, content_length_ p = Some c -> c <= body_length_ p
}.

Lemma init_inv : parser_inv init.
Proof. by split; cbn; auto with httpoll; try lia. Qed.

Lemma line_effect_inv p line p' : parser_inv p -> line_effect p line p' -> parser_inv p'.
Proof.
  intros [I1 I2 I3 I4 I5 I6 I7 I8 I9 I10] H. destruct p as [m u v h cf uf ho co ua cl bl s]; cbn in *.
  inversion H as [m' u' v' Hs Hf|Hs|p'' Hs Hne Hh|Hs|Hs]; subst; cbn in *; subst s.
  - specialize (I7 eq_refl). injection I7; intros; subst.
    by split; cbn; auto with httpoll; try lia.
  - destruct cl as [c|]; split; cbn; auto; try done. intros _. exists c. auto.
  - apply push_header_effect in Hh.
    inversion Hh; subst; cbn in *; split; cbn; auto with httpoll; try done; try lia.
    + intros c [= <-]. apply u32_range.
    + destruct b; [|done]. destruct I3 as [->| ->]; by right.
  - subst n. destruct (I9 eq_refl) as (c & -> & Hb). case_test; split; cbn; auto with httpoll; try done.
    + intros ? ? [= <-]. done.
    + intros _. exists c. auto.
  - split; auto.
Qed.

(** Claim C1. Every field of the parser stays within its type and the fields agree with
    the state, whatever line is pushed: the header map stays sorted, the flag words hold
    only flags the code defines, the 32-bit counters stay in range, a parser that waits
    for its first line is untouched, one in [Body] has a content length that the body has
    not reached, and one in [Done] has received at least that many bytes. *)
Theorem PushLine_invariant p line p' s :
  parser_inv p -> PushLine p line = Ok (p', s) -> parser_inv p' /\ s = state_ p'.
Proof.
  intros Hp [He Hs]%PushLine_effect. split; [by eapply line_effect_inv|done].
Qed.

Lemma PushLine_invariant_witness :
  exists p' s, PushLine init (str "GET / HTTP/1.1" ++ CRLF) = Ok (p', s) /\
    parser_inv p' /\ s = state_ p'.
Proof.
  do 2 eexists. split; [vm_compute; reflexivity|].
  apply (PushLine_invariant init (str "GET / HTTP/1.1" ++ CRLF)); [apply init_inv|].
  vm_compute; reflexivity.
Defined.

(** ** The state machine *)

Inductive phase_step : parser_state -> parser_state -> Prop :=
| phase_first : phase_step FirstLine Headers
| phase_header : phase_step Headers Headers
| phase_body : phase_step Headers Body
| phase_no_body : phase_step Headers Done
| phase_more_body : phase_step Body Body
| phase_last_body : phase_step Body Done
| phase_done : phase_step Done Done.

Lemma header_effect_frame p p' :
  header_effect p p' -> state_ p' = state_ p /\ body_length_ p' = body_length_ p.
Proof. by destruct p; inversion 1. Qed.

(** The parsers that a sequence of lines leads to. *)
Inductive reachable : list bytes -> http_header_parser -> Prop :=
| reach_init : reachable [] init
| reach_line ls p line p' s :
    reachable ls p -> PushLine p line = Ok (p', s) -> reachable (ls ++ [line]) p'.

Definition total_length (ls : list bytes) : Z := Z.of_nat (sum_list (map length ls)).

Lemma sum_list_app (a b : list nat) : sum_list (a ++ b) = (sum_list a + sum_list b)%nat.
Proof. induction a; cbn; lia. Qed.

Lemma total_length_app a b : total_length (a ++ b) = total_length a + total_length b.
Proof. unfold total_length. rewrite map_app, sum_list_app. lia. Qed.

Lemma total_length_one line : total_length [line] = Z.of_nat (length line).
Proof. unfold total_length. cbn. lia. Qed.

(** What the lines pushed so far look like, by the state of the parser. *)
Definition request_shape (ls : list bytes) (p : http_header_parser) : Prop :=
  match state_ p with
  | FirstLine => ls = []
  | Headers => exists first hs, ls = first :: hs /\ ~ (CRLF ∈ hs)
  | Body => exists first hs body c,
      ls = first :: hs ++ CRLF :: body /\ ~ (CRLF ∈ hs) /\
      content_length_ p = Some c /\ body_length_ p = u32 (total_length body)
  | Done => exists first hs body extra,
      ls = first :: hs ++ CRLF :: body ++ extra /\ ~ (CRLF ∈ hs) /\
      match content_length_ p with
      | Some c => c <= u32 (total_length body) /\ body_length_ p = u32 (total_length body)
      | None => body = []
      end
  end.

Lemma u32_add_l a b : u32 (u32 a + b) = u32 (a + b).
Proof. unfold u32, wrap. apply Z.add_mod_idemp_l. lia. Qed.

Lemma line_effect_shape ls p line p' :
  parser_inv p -> request_shape ls p -> line_effect p line p' ->
  request_shape (ls ++ [line]) p' /\ phase_step (state_ p) (state_ p').
Proof.
  intros I Hsh He. unfold request_shape in Hsh.
  inversion He as [m u v Hs Hf|Hs ->|q Hs Hne Hh|Hs n Hq|Hs]; subst; rewrite Hs in *.
  - subst ls. destruct p; cbn. split; [|cbn; constructor].
    exists line, []. split; [done|]. apply not_elem_of_nil.
  - destruct Hsh as (first & hs & -> & Hhs). pose proof (inv_no_body _ I Hs) as Hb.
    destruct p as [????????? cl bl ?]; cbn in *. subst bl.
    destruct cl as [c|]; cbn; (split; [|cbn; constructor]).
    + by exists first, hs, [], c.
    + by exists first, hs, [], [].
  - destruct Hsh as (first & hs & -> & Hhs). apply push_header_effect in Hh.
    apply header_effect_frame in Hh as [Hst _]. rewrite Hst, Hs. unfold request_shape.
    rewrite Hst, Hs. split; [|cbn; constructor]. exists first, (hs ++ [line]). split; [done|].
    rewrite not_elem_of_app, list_elem_of_singleton. split; congruence.
  - destruct Hsh as (first & hs & body & c & -> & Hhs & Hc & Hb).
    assert (Hn : n = u32 (total_length (body ++ [line]))).
    { unfold n. by rewrite Hb, u32_add_l, total_length_app, total_length_one. }
    rewrite Hc in *. destruct p as [????????? cl bl st]; cbn in *. subst cl st.
    case_test; unfold request_shape; cbn.
    + split; [|constructor]. exists first, hs, (body ++ [line]), []. rewrite app_nil_r, <- app_assoc. cbn.
      rewrite <- Hn. done.
    + split; [|constructor]. exists first, hs, (body ++ [line]), c. rewrite <- app_assoc. done.
  - destruct Hsh as (first & hs & body & extra & -> & Hhs & Hc).
    split; [|cbn; constructor]. unfold request_shape. rewrite Hs.
    exists first, hs, body, (extra ++ [line]). split; [|done].
    cbn. by rewrite <- app_assoc; cbn; rewrite <- app_assoc.
Qed.

Lemma reachable_inv_shape ls p : reachable ls p -> parser_inv p /\ request_shape ls p.
Proof.
  induction 1 as [|ls p line p' s Hr [I Hsh] Hp]; [by split; [apply init_inv|]|].
  apply PushLine_effect in Hp as [He _].
  split; [by eapply line_effect_inv|]. by eapply line_effect_shape.
Qed.

(** Claim C28. In every parser that lines can lead to, the state tells the shape of these
    lines: none in [FirstLine]; a request line and headers without a blank line in
    [Headers]; after the blank line, in [Body], a body whose lines add up (modulo 2^32) to
    the counter; and in [Done] a body at least as long as the announced length, or no
    body at all when none was announced, with anything that came later ignored. *)
Theorem reachable_request_shape ls p : reachable ls p -> request_shape ls p.
Proof. intros [_ H]%reachable_inv_shape. done. Qed.

Definition done_parser : http_header_parser :=
  Parser HttpMethod.GET (str "/") HttpVersion.HTTP_1_1 [] 0 0 [] [] [] None 0 Done.

Lemma reachable_request_shape_witness :
  reachable [str "GET / HTTP/1.1" ++ CRLF; CRLF] done_parser /\
  request_shape [str "GET / HTTP/1.1" ++ CRLF; CRLF] done_parser.
Proof.
  assert (H : reachable [str "GET / HTTP/1.1" ++ CRLF; CRLF] done_parser).
  { eapply (reach_line [str "GET / HTTP/1.1" ++ CRLF]).
    - eapply (reach_line []); [constructor|]. vm_compute; reflexivity.
    - vm_compute; reflexivity. }
  split; [exact H|]. apply (reachable_request_shape _ _ H).
Defined.

(** [PushLine] moves only along the edges of the request state machine: from the
    first line to the headers, from the headers to the body or, without a content length,
    to the end, and never back. *)
Theorem PushLine_phase ls p line p' s :
  reachable ls p -> PushLine p line = Ok (p', s) -> phase_step (state_ p) s.
Proof.
  intros [I Hsh]%reachable_inv_shape [He ->]%PushLine_effect.
  by eapply line_effect_shape.
Qed.

Lemma PushLine_phase_witness :
  exists p' s, PushLine init (str "PUT /x HTTP/1.0" ++ CRLF) = Ok (p', s) /\
               phase_step FirstLine s.
Proof.
  do 2 eexists. split; [vm_compute; reflexivity|].
  eapply (PushLine_phase [] init (str "PUT /x HTTP/1.0" ++ CRLF)); [constructor|].
  vm_compute; reflexivity.
Defined.

(** ** The body *)

Lemma PushLine_body p line c :
  state_ p = Body -> content_length_ p = Some c ->
  let n := u32 (body_length_ p + Z.of_nat (length line)) in
  PushLine p line = Ok (if c <=? n then (set_state Done (set_body_length n p), Done)
                        else (set_body_length n p, Body)).
Proof.
  intros Hs Hc n. unfold PushLine. rewrite Hs. destruct p; cbn in *. subst. fold n.
  by destruct (c <=? n).
Qed.

Lemma push_lines_done p ls : state_ p = Done -> push_lines p ls = Ok p.
Proof.
  intros Hs. induction ls as [|l ls IH]; cbn; [done|].
  unfold PushLine. rewrite Hs. cbn. done.
Qed.

Lemma push_lines_body ls p c :
  state_ p = Body -> content_length_ p = Some c -> 0 <= body_length_ p ->
  body_length_ p + total_length ls < 2 ^ 32 -> ls <> [] ->
  exists p', push_lines p ls = Ok p' /\
    state_ p' = (if c <=? body_length_ p + total_length ls then Done else Body).
Proof.
  revert p. induction ls as [|l ls IH]; intros p Hs Hc Hb Ht Hne; [done|]. clear Hne.
  change (l :: ls) with ([l] ++ ls) in *. rewrite total_length_app, total_length_one in *.
  assert (Htl : 0 <= total_length ls) by (unfold total_length; lia).
  cbn [app push_lines]. rewrite (PushLine_body _ _ _ Hs Hc), u32_small by lia.
  destruct (Z.leb_spec c (body_length_ p + Z.of_nat (length l))); cbn [mbind outcome_bind].
  - rewrite push_lines_done by by destruct p. eexists; split; [done|].
    rewrite (proj2 (Z.leb_le _ _)) by lia. by destruct p.
  - destruct (decide (ls = [])) as [->|Hne].
    + eexists; split; [done|]. unfold total_length in *. cbn in *.
      rewrite (proj2 (Z.leb_gt _ _)) by lia. by destruct p.
    + destruct (IH (set_body_length (body_length_ p + Z.of_nat (length l)) p))
        as (p' & Hp' & Hst); try (by destruct p); try (destruct p; cbn in *; lia).
      exists p'. split; [done|]. rewrite Hst. destruct p; cbn. by rewrite Z.add_assoc.
Qed.

(** The body is complete exactly when its lines add up to the announced length:
    pushed onto a parser that has just entered [Body], a non-empty sequence of lines ends
    in [Done] if their total length is at least the content length and in [Body] if it is
    less, as long as the total fits the 32-bit counter. *)
Theorem body_complete p c ls :
  state_ p = Body -> content_length_ p = Some c -> body_length_ p = 0 ->
  ls <> [] -> total_length ls < 2 ^ 32 ->
  exists p', push_lines p ls = Ok p' /\
    state_ p' = (if c <=? total_length ls then Done else Body).
Proof.
  intros Hs Hc Hb Hne Ht.
  destruct (push_lines_body ls p c Hs Hc) as (p' & Hp & Hst); rewrite ?Hb; try done; try lia.
  exists p'. split; [done|]. rewrite Hst, Hb. done.
Qed.

Definition body_parser : http_header_parser :=
  Parser HttpMethod.POST (str "/") HttpVersion.HTTP_1_1 [] 0 0 [] [] [] (Some 5) 0 Body.

Lemma body_complete_witness :
  exists p', push_lines body_parser [str "abc"; str "de"] = Ok p' /\ state_ p' = Done.
Proof.
  apply (body_complete body_parser 5 [str "abc"; str "de"]); done || lia.
Defined.

(** ** Header lines *)

Lemma header_line_not_blank k n v : header_line k n v <> CRLF.
Proof.
  intros E. unfold header_line in E. apply (f_equal (fun l => bool_decide (":"%byte ∈ l))) in E.
  rewrite bool_decide_eq_true_2 in E; [by vm_compute in E|].
  rewrite !elem_of_app, list_elem_of_singleton. auto.
Qed.

Lemma PushLine_header p k n v p' :
  state_ p = Headers -> field_name k -> push_header p (header_line k n v) = Ok p' ->
  PushLine p (header_line k n v) = Ok (p', Headers).
Proof.
  intros Hs Hk Hp. unfold PushLine. rewrite Hs, decide_False by by apply header_line_not_blank.
  rewrite Hp. cbn. apply push_header_effect, header_effect_frame in Hp as [-> _]. by rewrite Hs.
Qed.

Lemma GetHeader_set_headers h p k :
  GetHeader (set_headers h p) k = match map_find k h with Some v => v | None => [] end.
Proof. by destruct p. Qed.

(** A header the parser has no special field for goes to the header map under
    the name as written, with the value trimmed of its leading spaces and its line end;
    when the name is already there the first value stays.  [GetHeader] then sees it, and
    every other name as before. *)
Theorem header_line_stored p k n v k' :
  parser_inv p -> state_ p = Headers ->
  field_name k -> ~ special_name k -> field_value v ->
  exists p', PushLine p (header_line k n v) = Ok (p', Headers) /\
    GetHeader p' k' =
      match map_find k' (headers_ p) with
      | Some old => old
      | None => if decide (k' = k) then v else []
      end.
Proof.
  intros I Hs Hk Hn Hv. eexists. split.
  - apply PushLine_header; [done..|]. by apply push_generic_header.
  - rewrite GetHeader_set_headers, map_find_emplace by apply I.
    destruct (map_find k' (headers_ p)); [done|]. by case_decide.
Qed.

Lemma header_line_stored_witness :
  exists p', PushLine (set_state Headers init) (str "Accept:  text/html" ++ CRLF) = Ok (p', Headers) /\
    GetHeader p' (str "Accept") = str "text/html".
Proof.
  assert (I : parser_inv (set_state Headers init)).
  { split; cbn; auto with httpoll; try lia; try done. }
  apply (header_line_stored (set_state Headers init) (str "Accept") 2 (str "text/html")
           (str "Accept") I).
  - reflexivity.
  - apply (bool_decide_unpack _). vm_compute. exact Logic.I.
  - apply (bool_decide_unpack _). vm_compute. exact Logic.I.
  - apply (bool_decide_unpack _). vm_compute. exact Logic.I.
Defined.

(** The three value headers are recognised in any letter case: [Host] and
    [User-Agent] keep the trimmed value, and a decimal [Content-Length] below 2^31 is read
    back as its value. *)
Theorem value_headers_recognised p k n v :
  state_ p = Headers -> field_name k -> field_value v ->
  (icase_equiv k (str "host") ->
     PushLine p (header_line k n v) = Ok (set_host v p, Headers)) /\
  (icase_equiv k (str "user-agent") ->
     PushLine p (header_line k n v) = Ok (set_user_agent v p, Headers)) /\
  (icase_equiv k (str "content-length") -> v <> [] -> Forall (fun d => isdigit d = true) v ->
     digits_value 0 v < 2 ^ 31 ->
     PushLine p (header_line k n v) = Ok (set_content_length (Some (digits_value 0 v)) p, Headers)).
Proof.
  intros Hs Hk Hv. repeat split; intros; apply PushLine_header; try done.
  - by apply push_host_header.
  - by apply push_user_agent_header.
  - by apply push_content_length_header.
Qed.

Lemma value_headers_recognised_witness :
  PushLine (set_state Headers init) (str "CONTENT-length: 013" ++ CRLF) =
    Ok (set_content_length (Some 13) (set_state Headers init), Headers).
Proof.
  apply (value_headers_recognised (set_state Headers init) (str "CONTENT-length") 1 (str "013")).
  - reflexivity.
  - apply (bool_decide_unpack _). vm_compute. exact Logic.I.
  - apply (bool_decide_unpack _). vm_compute. exact Logic.I.
  - reflexivity.
  - discriminate.
  - by repeat constructor.
  - reflexivity.
Defined.

(** ** The [Connection] and [Upgrade] headers *)

(** The part of a header line the code takes for the tokens of [Connection]: it skips the
    colon and one more character without looking at it. *)
Definition connection_value (line : bytes) : bytes := drop 12 line.

Lemma header_line_last k n v : last (header_line k n v) = Some LF.
Proof. unfold header_line. by rewrite !last_app. Qed.

Lemma header_line_length k n v : length (header_line k n v) = (length k + n + length v + 3)%nat.
Proof. unfold header_line. autorewrite with httpoll_rw. rewrite length_replicate. cbn. lia. Qed.

Lemma push_connection_header p k n v :
  field_name k -> icase_equiv k (str "connection") -> no_nul v ->
  push_header p (header_line k n v) =
    match tokens_flags (connection_flags_ p) (split_comma (connection_value (header_line k n v))) with
    | Some f => Ok (set_connection_flags f p)
    | None => OutOfFuel
    end.
Proof.
  intros Hk E Hv. rewrite header_line_cons, push_header_by_name by done.
  rewrite <- header_line_cons. decide_name E. unfold push_connection.
  change (0 + length kConnection + 1)%nat with 12%nat.
  pose proof (header_line_length k n v) as Hl. rewrite (icase_equiv_length _ _ E) in Hl. cbn in Hl.
  pose proof (connection_loop_tokens (length (header_line k n v) + 2) (header_line k n v) 12
    (connection_flags_ p) (no_nul_header_line _ _ _ Hk Hv) (header_line_last _ _ _)) as H.
  fold (connection_value (header_line k n v)) in H.
  destruct (tokens_flags _ _) as [f|].
  - rewrite H; [done|lia|]. pose proof (split_comma_length (connection_value (header_line k n v))) as Hs.
    unfold connection_value in *. rewrite length_drop in Hs. lia.
  - rewrite H by lia. done.
Qed.

(** A [Connection] header whose comma-separated tokens each start with
    [upgrade], [keep-alive] or [close], in any case and after any spaces, adds exactly the
    flags of these tokens. *)
Theorem connection_header_flags p k n v f :
  state_ p = Headers -> field_name k -> icase_equiv k (str "connection") -> no_nul v ->
  tokens_flags (connection_flags_ p) (split_comma (connection_value (header_line k n v))) = Some f ->
  PushLine p (header_line k n v) = Ok (set_connection_flags f p, Headers).
Proof.
  intros Hs Hk E Hv Hf. apply PushLine_header; [done..|].
  by rewrite push_connection_header, Hf.
Qed.

Lemma connection_header_flags_witness :
  PushLine (set_state Headers init) (str "Connection: Upgrade,  keep-alive; x" ++ CRLF) =
    Ok (set_connection_flags (Z.lor ConnectionUpgrade ConnectionKeepAlive) (set_state Headers init),
        Headers).
Proof.
  apply (connection_header_flags (set_state Headers init) (str "Connection") 1
           (str "Upgrade,  keep-alive; x")).
  - reflexivity.
  - apply (bool_decide_unpack _). vm_compute. exact Logic.I.
  - reflexivity.
  - by repeat constructor.
  - vm_compute. reflexivity.
Defined.

(** Claim C35. A [Connection] header with a token that is none of the three never returns:
    the loop goes round at the same position however many rounds it is given, so that
    pushing the line runs out of any fuel.  This includes an empty last token, and a first
    token that follows the colon without a space. *)
Theorem connection_header_diverges p k n v fuel :
  state_ p = Headers -> field_name k -> icase_equiv k (str "connection") -> no_nul v ->
  tokens_flags (connection_flags_ p) (split_comma (connection_value (header_line k n v))) = None ->
  connection_loop fuel (header_line k n v) 12 (connection_flags_ p) = OutOfFuel /\
  PushLine p (header_line k n v) = OutOfFuel.
Proof.
  intros Hs Hk E Hv Hf. split.
  - pose proof (header_line_length k n v) as Hl. rewrite (icase_equiv_length _ _ E) in Hl. cbn in Hl.
    pose proof (connection_loop_tokens fuel (header_line k n v) 12
      (connection_flags_ p) (no_nul_header_line _ _ _ Hk Hv) (header_line_last _ _ _)) as H.
    fold (connection_value (header_line k n v)) in H. rewrite Hf in H. apply H. lia.
  - unfold PushLine. rewrite Hs, decide_False by by apply header_line_not_blank.
    by rewrite push_connection_header, Hf.
Qed.

Lemma connection_header_diverges_witness :
  connection_loop 1000 (str "Connection: keep-alive, TE" ++ CRLF) 12 0 = OutOfFuel /\
  PushLine (set_state Headers init) (str "Connection: keep-alive, TE" ++ CRLF) = OutOfFuel.
Proof.
  apply (connection_header_diverges (set_state Headers init) (str "Connection") 1
           (str "keep-alive, TE") 1000).
  - reflexivity.
  - apply (bool_decide_unpack _). vm_compute. exact Logic.I.
  - reflexivity.
  - by repeat constructor.
  - vm_compute. reflexivity.
Defined.

(** The search the [Upgrade] loop amounts to. *)
Lemma websocket_from_find line i :
  no_nul line -> last line = Some LF -> (i <= length line)%nat ->
  websocket_from line i = (icase_find line i kUpgradeWs <? length line)%nat.
Proof.
  intros Hnul Hlf Hi. unfold icase_find.
  remember (length line - i)%nat as d eqn:Hd. revert i Hi Hd.
  induction d as [|d IH]; intros i Hi Hd.
  - rewrite websocket_from_end by lia. rewrite drop_ge by lia. cbn. symmetry. apply Nat.ltb_ge. lia.
  - rewrite websocket_from_step by lia. rewrite IH by lia. unfold websocket_at.
    rewrite until_nul_id by by apply Forall_drop.
    rewrite icase_cmp_lf; [| |by repeat constructor].
    2:{ rewrite <- (take_drop i line), last_app in Hlf.
        destruct (last (drop i line)) eqn:E; [done|]. apply last_None in E.
        apply (f_equal length) in E. rewrite length_drop in E. cbn in E. lia. }
    destruct (drop i line) as [|c r] eqn:E.
    { apply (f_equal length) in E. rewrite length_drop in E. cbn in E. lia. }
    assert (drop (i + 1) line = r) as -> by by rewrite <- drop_drop, E.
    cbn [std_search]. unfold starts_with_icase.
    assert (std_equal icase_eqb (take (length kUpgradeWs) (c :: r)) kUpgradeWs =
            bool_decide (icase_equiv (take (length kUpgradeWs) (c :: r)) kUpgradeWs)) as ->.
    { apply eq_true_iff_eq. by rewrite std_equal_icase, bool_decide_eq_true. }
    destruct (_ && _); cbn [orb].
    + rewrite Nat.add_0_r. symmetry. apply Nat.ltb_lt. lia.
    + f_equal. lia.
Qed.

Lemma PushLine_upgrade p k n v :
  state_ p = Headers -> field_name k -> icase_equiv k (str "upgrade") -> no_nul v ->
  PushLine p (header_line k n v) =
    Ok (set_upgrade_flags
          (if (icase_find (header_line k n v) 9 kUpgradeWs <? length (header_line k n v))%nat
           then Z.lor (upgrade_flags_ p) UpgradeWebSocket else upgrade_flags_ p) p, Headers).
Proof.
  intros Hs Hk E Hv. apply PushLine_header; [done..|].
  rewrite header_line_cons at 1. rewrite push_header_by_name by done.
  rewrite <- header_line_cons. decide_name E. unfold push_upgrade.
  change (0 + length kUpgrade)%nat with 8%nat.
  rewrite upgrade_loop_result by lia. cbn [mbind outcome_bind].
  pose proof (header_line_length k n v) as Hl. rewrite (icase_equiv_length _ _ E) in Hl. cbn in Hl.
  rewrite websocket_from_find; [done| |apply header_line_last|lia].
  by apply no_nul_header_line.
Qed.

(** Claim C34. Pushing an [Upgrade] header always returns: it sets the websocket flag
    exactly when [websocket], in any case, occurs somewhere from the second character after
    the colon on, as [icase_find] would look for it. *)
Theorem upgrade_header_search p k n v :
  state_ p = Headers -> field_name k -> icase_equiv k (str "upgrade") -> no_nul v ->
  PushLine p (header_line k n v) =
    Ok (set_upgrade_flags
          (if (icase_find (header_line k n v) 9 kUpgradeWs <? length (header_line k n v))%nat
           then Z.lor (upgrade_flags_ p) UpgradeWebSocket else upgrade_flags_ p) p, Headers).
Proof. apply PushLine_upgrade. Qed.

Lemma upgrade_header_search_witness :
  PushLine (set_state Headers init) (str "Upgrade: h2c, WebSocket" ++ CRLF) =
    Ok (set_upgrade_flags UpgradeWebSocket (set_state Headers init), Headers).
Proof.
  apply (upgrade_header_search (set_state Headers init) (str "Upgrade") 1 (str "h2c, WebSocket")).
  - reflexivity.
  - apply (bool_decide_unpack _). vm_compute. exact Logic.I.
  - reflexivity.
  - by repeat constructor.
Defined.
