(* ===== verification/Requests.v ===== *)
(** * Whole requests

    Printing a request as a client does and pushing its lines gives the request
    back; the request line alone is followed through [ParseFirstLine], with the
    lines on which its 4-byte reads leave the string. *)

From S2P Require Import Prelude CString StdMap Method Version HeaderParser HeaderParserSpec.
From S2P Require Import HeaderParserProps.
Import HttpHeaderParser.

Implicit Types (p : http_header_parser).

(** ** The request line *)

Lemma PushLine_first p line :
  state_ p = FirstLine ->
  PushLine p line =
    ('(m, u, v) ← ParseFirstLine line;
     Ok (set_state Headers (set_first_line m u v p), Headers)).
Proof.
  intros Hs. unfold PushLine. rewrite Hs.
  destruct (ParseFirstLine line) as [[[m u] v]| |]; cbn; [by destruct p|done..].
Qed.

Lemma PushLine_request_line m mt uri vt :
  method_text m = Some mt -> uri <> [] -> no_space uri ->
  Z.of_nat (length (request_line mt uri vt)) < 2 ^ 63 ->
  PushLine init (request_line mt uri vt) =
    if (version_reads (vt ++ CRLF) <=? length vt + 3)%nat
    then Ok (set_state Headers (set_first_line m uri (version_prefix (vt ++ CRLF)) init), Headers)
    else Fault OutOfBounds.
Proof.
  intros Hm Hne Hsp Hlen. rewrite PushLine_first by done. unfold request_line in *.
  rewrite (ParseFirstLine_request m) by done.
  replace (length (vt ++ CRLF) + 1)%nat with (length vt + 3)%nat by (rewrite length_app; cbn; lia).
  by case_match.
Qed.

(** A request line that fits in memory and has a version field of [n] characters
    or more. *)
Definition request_line_ok (uri vt : bytes) (n : nat) : Prop :=
  uri <> [] /\ no_space uri /\ Z.of_nat (length uri + length vt) < 2 ^ 62 /\ (n <= length vt)%nat.

#[export] Instance request_line_ok_dec uri vt n : Decision (request_line_ok uri vt n).
Proof. unfold request_line_ok. apply _. Defined.

Lemma request_line_fits m mt uri vt n :
  method_text m = Some mt -> request_line_ok uri vt n ->
  Z.of_nat (length (request_line mt uri vt)) < 2 ^ 63.
Proof.
  intros Hm (_ & _ & Hl & _).
  assert (length mt <= 4)%nat by (destruct m; try done; injection Hm as <-; cbn; lia).
  unfold request_line. autorewrite with httpoll_rw. cbn [length CRLF]. lia.
Qed.

(** A request line with one of the three methods and a version field of six
    characters or more is parsed without reading outside the line, into its method, the
    text between the two spaces, and the version its last field starts with. *)
Theorem request_line_parsed m mt uri vt :
  method_text m = Some mt -> request_line_ok uri vt 6 ->
  PushLine init (request_line mt uri vt) =
    Ok (set_state Headers (set_first_line m uri (version_prefix (vt ++ CRLF)) init), Headers).
Proof.
  intros Hm Hok. pose proof (request_line_fits _ _ _ _ _ Hm Hok). destruct Hok as (Hne & Hsp & _ & Hv).
  rewrite (PushLine_request_line m) by done. unfold version_reads.
  destruct (starts_with _ _); by rewrite (proj2 (Nat.leb_le _ _)) by lia.
Qed.

Lemma request_line_parsed_witness :
  PushLine init (str "POST /a/b?c HTTP/1.0" ++ CRLF) =
    Ok (set_state Headers (set_first_line HttpMethod.POST (str "/a/b?c") HttpVersion.HTTP_1_0 init),
        Headers).
Proof.
  apply (request_line_parsed HttpMethod.POST (str "POST") (str "/a/b?c") (str "HTTP/1.0")).
  - reflexivity.
  - apply (bool_decide_unpack _). vm_compute. exact I.
Defined.

(** Claim C36. The 4-byte loads of the parser leave the string on three kinds of first line
    that a client can send: the empty line, a request line whose version field is empty,
    and one whose version field is [HTTP/] alone. *)
Theorem short_request_line_overread m mt uri :
  method_text m = Some mt -> request_line_ok uri [] 0 ->
  PushLine init CRLF = Fault OutOfBounds /\
  PushLine init (request_line mt uri []) = Fault OutOfBounds /\
  PushLine init (request_line mt uri (str "HTTP/")) = Fault OutOfBounds.
Proof.
  intros Hm (Hne & Hsp & Hl & _). rewrite Nat.add_0_r in Hl.
  split; [by vm_compute|]. split; rewrite (PushLine_request_line m); try done.
  - eapply (request_line_fits m _ _ _ 0); [done|]. repeat split; cbn; try done; lia.
  - assert (length mt <= 4)%nat by (destruct m; try done; injection Hm as <-; cbn; lia).
    unfold request_line. autorewrite with httpoll_rw. cbn [length CRLF str String.list_byte_of_string].
    cbn. lia.
Qed.

Lemma short_request_line_overread_witness :
  PushLine init CRLF = Fault OutOfBounds /\
  PushLine init (str "GET / " ++ CRLF) = Fault OutOfBounds /\
  PushLine init (str "GET / HTTP/" ++ CRLF) = Fault OutOfBounds.
Proof.
  apply (short_request_line_overread HttpMethod.GET (str "GET") (str "/")).
  - reflexivity.
  - apply (bool_decide_unpack _). vm_compute. exact I.
Defined.

(** The parser produces no other methods than GET, PUT and POST: on any first line
    it accepts, the method is one of these when the line starts with its name, and
    otherwise it is [UNKNOWN] with an empty URI and an unknown version, whatever the line
    says.  The other methods of the enumeration never come out of it. *)
Theorem methods_recognised line p s :
  Z.of_nat (length line) < 2 ^ 63 ->
  PushLine init line = Ok (p, s) ->
  match method_prefix line with
  | Some (m, _) => method_ p = m /\ (m = HttpMethod.GET \/ m = HttpMethod.PUT \/ m = HttpMethod.POST)
  | None => method_ p = HttpMethod.UNKNOWN /\ uri_ p = [] /\ version_ p = HttpVersion.UNKNOWN
  end.
Proof.
  intros Hlen. rewrite PushLine_first, ParseFirstLine_eq by done.
  intros ([[m u] v] & H & [= <- <-])%bind_Ok. unfold first_line_spec in H. revert H.
  case_test; [done|]. destruct (method_prefix line) as [[m' k]|] eqn:E.
  - case_match; [|done]. intros [= <- <- <-]. split; [done|].
    unfold method_prefix in E. repeat case_match; naive_solver.
  - by intros [= <- <- <-].
Qed.

Lemma methods_recognised_witness :
  exists p s, PushLine init (str "DELETE /x HTTP/1.1" ++ CRLF) = Ok (p, s) /\
    method_ p = HttpMethod.UNKNOWN /\ uri_ p = [] /\ version_ p = HttpVersion.UNKNOWN.
Proof.
  exists (set_state Headers init), Headers. split; [vm_compute; reflexivity|].
  apply (methods_recognised (str "DELETE /x HTTP/1.1" ++ CRLF) (set_state Headers init) Headers).
  - reflexivity.
  - vm_compute; reflexivity.
Defined.

(** Versions print and parse back: the version field of a line that carries the
    printed version followed by the line end is read as that version, for the three HTTP
    versions.  The websocket version does not come back: it is printed as [WS], which the
    parser, looking for [WSS/], takes for an unknown version. *)
Theorem version_roundtrip v :
  version_prefix (HttpVersionToString v ++ CRLF) =
    (if decide (v = HttpVersion.WS) then HttpVersion.UNKNOWN else v) /\
  forall end_pos, exists e view,
    sv_of_cptr (HttpVersionToString v ++ CRLF) 0 = Ok view /\
    ParseHttpVersion view end_pos =
      Ok (if decide (v = HttpVersion.WS) then HttpVersion.UNKNOWN else v, e).
Proof.
  split; [by destruct v|]. intros end_pos.
  destruct v; do 2 eexists; (split; [reflexivity|]); vm_compute; reflexivity.
Qed.

(** ** Printing and parsing a request *)

Record request := Request {
  rq_method : HttpMethod.http_method;
  rq_uri : bytes;
  rq_version : HttpVersion.http_version;
  rq_host : bytes;
  rq_headers : list (bytes * bytes);
  rq_length : option bytes
}.

(** The lines of a request up to and including the blank line. *)
Definition print_request (mt : bytes) (r : request) : list bytes :=
  [request_line mt (rq_uri r) (HttpVersionToString (rq_version r));
   header_line (str "Host") 1 (rq_host r)] ++
  map (fun kv => header_line kv.1 1 kv.2) (rq_headers r) ++
  match rq_length r with
  | Some ds => [header_line (str "Content-Length") 1 ds]
  | None => []
  end ++
  [CRLF].

Definition header_ok (kv : bytes * bytes) : Prop :=
  field_name kv.1 /\ ~ special_name kv.1 /\ field_value kv.2.

Definition length_ok (ds : bytes) : Prop :=
  ds <> [] /\ Forall (fun d => isdigit d = true) ds /\ digits_value 0 ds < 2 ^ 31.

Definition request_ok (r : request) : Prop :=
  request_line_ok (rq_uri r) (HttpVersionToString (rq_version r)) 6 /\
  rq_version r <> HttpVersion.WS /\
  field_value (rq_host r) /\
  Forall header_ok (rq_headers r) /\
  match rq_length r with Some ds => length_ok ds | None => True end.

#[export] Instance header_ok_dec kv : Decision (header_ok kv).
Proof. unfold header_ok. apply _. Defined.
#[export] Instance length_ok_dec ds : Decision (length_ok ds).
Proof. unfold length_ok. apply _. Defined.
#[export] Instance request_ok_dec r : Decision (request_ok r).
Proof. unfold request_ok. destruct (rq_length r); apply _. Defined.

Definition emplace_all (hs : list (bytes * bytes)) (m : std_map bytes) : std_map bytes :=
  foldl (fun m kv => map_emplace kv.1 kv.2 m) m hs.

Lemma map_find_emplace_all hs m k :
  map_wf m ->
  map_find k (emplace_all hs m) =
    match map_find k m with Some v => Some v | None => map_find k hs end.
Proof.
  revert m. induction hs as [|[k' v'] hs IH]; intros m Hm; cbn; [by destruct (map_find k m)|].
  unfold emplace_all in IH. rewrite IH by auto with httpoll. rewrite map_find_emplace by done.
  destruct (map_find k m); [done|]. by case_decide.
Qed.

Lemma set_headers_headers p h : headers_ (set_headers h p) = h.
Proof. by destruct p. Qed.
Lemma set_headers_state p h : state_ (set_headers h p) = state_ p.
Proof. by destruct p. Qed.
Lemma set_headers_twice p h h' : set_headers h (set_headers h' p) = set_headers h p.
Proof. by destruct p. Qed.
Lemma set_headers_same p : set_headers (headers_ p) p = p.
Proof. by destruct p. Qed.

Lemma push_lines_headers p hs :
  state_ p = Headers -> Forall header_ok hs ->
  push_lines p (map (fun kv => header_line kv.1 1 kv.2) hs) =
    Ok (set_headers (emplace_all hs (headers_ p)) p).
Proof.
  intros Hs Hok. revert p Hs. induction Hok as [|[k v] hs (Hk & Hn & Hv) _ IH]; intros p Hs.
  - cbn. by rewrite set_headers_same.
  - cbn [map]. erewrite push_lines_cons;
      [|apply PushLine_header; [done..|by apply push_generic_header]].
    rewrite IH by by rewrite set_headers_state.
    by rewrite set_headers_headers, set_headers_twice.
Qed.

(** The parser of a printed request. *)
Definition parsed (r : request) : http_header_parser :=
  Parser (rq_method r) (rq_uri r) (rq_version r) (emplace_all (rq_headers r) []) 0 0 (rq_host r) [] []
    (digits_value 0 <$> rq_length r) 0 (match rq_length r with Some _ => Body | None => Done end).

Lemma print_request_pushed mt r :
  method_text (rq_method r) = Some mt -> request_ok r ->
  push_lines init (print_request mt r) = Ok (parsed r).
Proof.
  destruct r as [m uri vt host hs len]; cbn [rq_method rq_uri rq_version rq_host rq_headers rq_length].
  intros Hm (Hline & Hws & Hhost & Hhs & Hlen). unfold print_request.
  cbn [rq_method rq_uri rq_version rq_host rq_headers rq_length] in *.
  pose proof (request_line_fits _ _ _ _ _ Hm Hline) as Hfit. destruct Hline as (Hne & Hsp & _ & Hv).
  set (p0 := set_state Headers (set_first_line m uri vt init)).
  assert (H0 : PushLine init (request_line mt uri (HttpVersionToString vt)) = Ok (p0, Headers)).
  { rewrite (PushLine_request_line m) by done. by destruct vt. }
  set (p1 := set_host host p0).
  assert (H1 : PushLine p0 (header_line (str "Host") 1 host) = Ok (p1, Headers)).
  { apply PushLine_header; [done| |apply push_host_header]; try done;
      by apply (bool_decide_unpack _). }
  cbn [app]. rewrite (push_lines_cons _ _ _ _ _ H0), (push_lines_cons _ _ _ _ _ H1).
  rewrite push_lines_app, push_lines_headers by done. cbn [mbind outcome_bind].
  set (p2 := set_headers (emplace_all hs (headers_ p1)) p1).
  destruct len as [ds|]; [|done]. destruct Hlen as (Hds & Hdig & Hval).
  assert (H2 : PushLine p2 (header_line (str "Content-Length") 1 ds) =
               Ok (set_content_length (Some (digits_value 0 ds)) p2, Headers)).
  { apply PushLine_header; [done| |apply push_content_length_header]; try done;
      by apply (bool_decide_unpack _). }
  cbn [app]. by rewrite (push_lines_cons _ _ _ _ _ H2).
Qed.

(** Claim C8. Parsing a printed request gives the request back: its method, URI, version and
    host, for every name the first value printed under it (and nothing for other names),
    and its content length; the parser then waits for the body when a length was announced
    and is done when it was not. *)
Theorem request_roundtrip mt r :
  method_text (rq_method r) = Some mt -> request_ok r ->
  exists p, push_lines init (print_request mt r) = Ok p /\
    method_ p = rq_method r /\ uri_ p = rq_uri r /\ version_ p = rq_version r /\
    host_ p = rq_host r /\
    (forall k, GetHeader p k = match map_find k (rq_headers r) with Some v => v | None => [] end) /\
    content_length_ p = option_map (digits_value 0) (rq_length r) /\
    state_ p = match rq_length r with Some _ => Body | None => Done end.
Proof.
  intros Hm Hr. exists (parsed r). split; [by apply print_request_pushed|]. repeat split.
  intros k. unfold GetHeader. cbn. by rewrite map_find_emplace_all by constructor.
Qed.

Definition sample_request : request :=
  Request HttpMethod.POST (str "/upload") HttpVersion.HTTP_1_1 (str "example.com")
    [(str "Accept", str "text/html"); (str "X-Id", str "7"); (str "Accept", str "second")]
    (Some (str "42")).

Lemma request_roundtrip_witness :
  exists p, push_lines init (print_request (str "POST") sample_request) = Ok p /\
    uri_ p = str "/upload" /\ GetHeader p (str "Accept") = str "text/html" /\
    content_length_ p = Some 42 /\ state_ p = Body.
Proof.
  destruct (request_roundtrip (str "POST") sample_request) as (p & Hp & _ & Hu & _ & _ & Hh & Hl & Hs).
  - reflexivity.
  - apply (bool_decide_unpack _). vm_compute. exact I.
  - exists p. split; [exact Hp|]. split; [exact Hu|]. split; [exact (Hh (str "Accept"))|].
    split; [exact Hl|exact Hs].
Defined.
