(* ===== verification/CircularBuffer.v ===== *)
(** * The ring buffer: src/hpl_circular_buffer.h

    Sizes and positions are [size_t] values: arithmetic wraps modulo 2^64.  The
    storage is the block [malloc] returned, [None] standing for the null pointer
    (an allocation that failed, or a buffer that was moved from); reading or
    writing outside the block is a fault. *)

From S2P Require Import Prelude.

Module CircularBuffer.

Record circular_buffer := CB {
  size_ : Z;
  buffer_ : option bytes;
  read_pos_ : Z;
  write_pos_ : Z
}.

(** [memcpy] from and to a block. *)
Definition mem_read (b : option bytes) (off n : Z) : outcome bytes :=
  match b with
  | None => Fault NullDeref
  | Some b =>
      if (0 <=? off) && (off + n <=? Z.of_nat (length b))
      then Ok (take (Z.to_nat n) (drop (Z.to_nat off) b))
      else Fault OutOfBounds
  end.

Definition mem_write (b : option bytes) (off : Z) (d : bytes) : outcome (option bytes) :=
  match b with
  | None => Fault NullDeref
  | Some b =>
      if (0 <=? off) && (off + Z.of_nat (length d) <=? Z.of_nat (length b))
      then Ok (Some (take (Z.to_nat off) b ++ d ++ drop (Z.to_nat off + length d) b))
      else Fault OutOfBounds
  end.

(** The constructor; [m] is what [malloc(size)] returned. *)
Definition make (size : Z) (m : option bytes) : circular_buffer := CB size m 0 0.

(** The move constructor and the move assignment leave the source empty. *)
Definition moved_from : circular_buffer := CB 0 None 0 0.
Definition move (other : circular_buffer) : circular_buffer * circular_buffer :=
  (CB (size_ other) (buffer_ other) (read_pos_ other) (write_pos_ other), moved_from).

Definition Capacity (c : circular_buffer) : Z := u64 (size_ c - 1).

Definition Length (c : circular_buffer) : Z :=
  if write_pos_ c =? read_pos_ c then 0
  else if read_pos_ c <=? write_pos_ c then u64 (write_pos_ c - read_pos_ c)
  else u64 (u64 (size_ c - read_pos_ c) + write_pos_ c).

Definition FreeSpace (c : circular_buffer) : Z := u64 (Capacity c - Length c).

(** The offset in the block and the length of the region a client may fill. *)
Definition ContinuousWriteBuffer (c : circular_buffer) : Z * Z :=
  if write_pos_ c <? read_pos_ c
  then (write_pos_ c, u64 (u64 (read_pos_ c - write_pos_ c) - 1))
  else (write_pos_ c,
        u64 (u64 (size_ c - write_pos_ c) - (if read_pos_ c =? 0 then 1 else 0))).

Inductive seek : Set := SEEK_SET | SEEK_CUR | SEEK_END.

Definition ResetWritePos (c : circular_buffer) (offset : Z) (whence : seek) : circular_buffer :=
  CB (size_ c) (buffer_ c) (read_pos_ c)
    match whence with
    | SEEK_SET => offset
    | SEEK_CUR => u64 (write_pos_ c + offset)
    | SEEK_END => u64 (size_ c - offset)
    end.

(** The two read views: where each starts in the block ([None] is the null
    pointer) and its length. *)
Definition GetReadViews (c : circular_buffer) : (option Z * Z) * (option Z * Z) :=
  if write_pos_ c <? read_pos_ c
  then ((Some (read_pos_ c), u64 (size_ c - read_pos_ c)), (Some 0, write_pos_ c))
  else ((Some (read_pos_ c), u64 (write_pos_ c - read_pos_ c)), (None, 0)).

Definition Popout (c : circular_buffer) (len : Z) : outcome (Z * circular_buffer) :=
  if Length c <? len then Ok (0, c)
  else if size_ c =? 0 then Fault DivByZero
  else Ok (len, CB (size_ c) (buffer_ c) (u64 (read_pos_ c + len) mod size_ c) (write_pos_ c)).

(** [m] is what [malloc(new_size)] returned. *)
Definition Extend (c : circular_buffer) (new_size : Z) (m : option bytes)
  : outcome (bool * circular_buffer) :=
  if new_size <=? size_ c then Ok (false, c) else
  match m with
  | None => Ok (false, c)
  | Some _ =>
      let data_len := Length c in
      new_buffer ←
        (if 0 <? data_len
         then if read_pos_ c <? write_pos_ c
              then d ← mem_read (buffer_ c) (read_pos_ c) data_len;
                   mem_write m 0 d
              else d1 ← mem_read (buffer_ c) (read_pos_ c) (u64 (size_ c - read_pos_ c));
                   m ← mem_write m 0 d1;
                   d2 ← mem_read (buffer_ c) 0 (write_pos_ c);
                   mem_write m (u64 (size_ c - read_pos_ c)) d2
         else Ok m);
      Ok (true, CB new_size new_buffer 0 data_len)
  end.

(** ** A client *)

(** What a reader gets from the two views. *)
Definition view_bytes (c : circular_buffer) (v : option Z * Z) : outcome bytes :=
  match v with
  | (Some off, n) => mem_read (buffer_ c) off n
  | (None, _) => Ok []
  end.

Definition read_all (c : circular_buffer) : outcome bytes :=
  d1 ← view_bytes c (GetReadViews c).1;
  d2 ← view_bytes c (GetReadViews c).2;
  Ok (d1 ++ d2).

(** The use the interface is made for: copy what fits into the continuous write
    region, advance the write position over it, and go back to the beginning of
    the block when the end is reached, since the position does not wrap by
    itself. *)
Definition fill (c : circular_buffer) (d : bytes) : outcome (Z * circular_buffer) :=
  let '(off, n) := ContinuousWriteBuffer c in
  let d := take (Z.to_nat n) d in
  b ← mem_write (buffer_ c) off d;
  let c := ResetWritePos (CB (size_ c) b (read_pos_ c) (write_pos_ c))
             (Z.of_nat (length d)) SEEK_CUR in
  Ok (Z.of_nat (length d),
      if write_pos_ c =? size_ c then ResetWritePos c 0 SEEK_SET else c).

(** ** The invariant and the abstraction *)

Record wf (c : circular_buffer) (b : bytes) : Prop := {
  wf_block : buffer_ c = Some b;
  wf_length : Z.of_nat (length b) = size_ c;
  wf_size : 0 < size_ c < 2 ^ 63;
  wf_read : 0 <= read_pos_ c < size_ c;
  wf_write : 0 <= write_pos_ c < size_ c
}.

(** The queued bytes, oldest first. *)
Definition contents (c : circular_buffer) (b : bytes) : bytes :=
  let r := Z.to_nat (read_pos_ c) in
  let w := Z.to_nat (write_pos_ c) in
  if (w <? r)%nat then drop r b ++ take w b else take (w - r) (drop r b).

Lemma mem_read_Ok b off n :
  0 <= off -> 0 <= n -> off + n <= Z.of_nat (length b) ->
  mem_read (Some b) off n = Ok (take (Z.to_nat n) (drop (Z.to_nat off) b)).
Proof.
  intros. unfold mem_read.
  by rewrite (proj2 (Z.leb_le 0 off)), (proj2 (Z.leb_le (off + n) _)) by lia.
Qed.

Lemma mem_write_Ok b off d :
  0 <= off -> off + Z.of_nat (length d) <= Z.of_nat (length b) ->
  mem_write (Some b) off d =
    Ok (Some (take (Z.to_nat off) b ++ d ++ drop (Z.to_nat off + length d) b)).
Proof.
  intros. unfold mem_write.
  by rewrite (proj2 (Z.leb_le 0 off)), (proj2 (Z.leb_le (off + _) _)) by lia.
Qed.

Lemma contents_length c b : wf c b -> Length c = Z.of_nat (length (contents c b)).
Proof.
  intros [H1 H2 H3 H4 H5]. unfold Length, contents.
  case_tests; autorewrite with httpoll_rw; u64_simpl; lia.
Qed.

Lemma contents_bound c b : wf c b -> Z.of_nat (length (contents c b)) <= size_ c - 1.
Proof.
  intros [H1 H2 H3 H4 H5]. unfold contents. case_tests; autorewrite with httpoll_rw; lia.
Qed.

Lemma read_all_contents c b : wf c b -> read_all c = Ok (contents c b).
Proof.
  intros [H1 H2 H3 H4 H5]. unfold read_all, GetReadViews, contents.
  case_tests; cbn [fst snd view_bytes]; u64_simpl; rewrite H1, !mem_read_Ok by lia;
    cbn [mbind outcome_bind].
  - do 2 f_equal. apply take_ge. rewrite length_drop. lia.
  - rewrite app_nil_r. do 2 f_equal. lia.
Qed.

Lemma Popout_contents c b n :
  wf c b -> 0 <= n ->
  exists k c', Popout c n = Ok (k, c') /\ wf c' b /\
    ((n <= Z.of_nat (length (contents c b)) /\ k = n /\
      contents c' b = drop (Z.to_nat n) (contents c b)) \/
     (Z.of_nat (length (contents c b)) < n /\ k = 0 /\ c' = c)).
Proof.
  intros Hwf Hn. pose proof (contents_length _ _ Hwf) as Hl.
  pose proof (contents_bound _ _ Hwf) as Hb. destruct Hwf as [H1 H2 H3 H4 H5] eqn:E. clear E.
  unfold Popout. rewrite Hl. case_test.
  { exists 0, c. split; [done|]. split; [done|]. right. auto. }
  rewrite (proj2 (Z.eqb_neq _ _)) by lia. rewrite u64_small by lia.
  set (r' := (read_pos_ c + n) mod size_ c).
  assert (Hr' : 0 <= r' < size_ c) by (apply Z.mod_pos_bound; lia).
  do 2 eexists. split; [reflexivity|]. split; [by split|]. left. split; [lia|]. split; [done|].
  unfold contents in *. cbn [read_pos_ write_pos_ size_].
  destruct (Z.ltb_spec (read_pos_ c + n) (size_ c)).
  - assert (r' = read_pos_ c + n) as -> by (apply Z.mod_small; lia).
    revert H Hb. case_tests; autorewrite with httpoll_rw; intros; try lia.
    + rewrite drop_app_le, drop_drop by (rewrite length_drop; lia). do 2 f_equal. lia.
    + rewrite skipn_firstn_comm, drop_drop. f_equal; [lia|]. f_equal. lia.
  - assert (r' = read_pos_ c + n - size_ c) as ->.
    { unfold r'. symmetry. apply (Z.mod_unique_pos _ _ 1); lia. }
    revert H Hb. case_tests; autorewrite with httpoll_rw; intros; try lia.
    rewrite drop_app_ge by (rewrite length_drop; lia). rewrite length_drop.
    rewrite skipn_firstn_comm. f_equal; [lia|]. f_equal. lia.
Qed.

Lemma region_bound c b :
  wf c b ->
  let '(off, n) := ContinuousWriteBuffer c in
  off = write_pos_ c /\ 0 <= n /\ n <= size_ c - 1 - Z.of_nat (length (contents c b)) /\
  off + n <= size_ c /\ (0 < n <-> Z.of_nat (length (contents c b)) < size_ c - 1).
Proof.
  intros [H1 H2 H3 H4 H5]. unfold ContinuousWriteBuffer, contents.
  repeat case_test; autorewrite with httpoll_rw; u64_simpl; lia.
Qed.

Lemma fill_contents c b d :
  wf c b ->
  exists k c' b', fill c d = Ok (k, c') /\ wf c' b' /\
    contents c' b' = contents c b ++ take (Z.to_nat k) d /\
    k = Z.min (Z.of_nat (length d)) (ContinuousWriteBuffer c).2.
Proof.
  intros Hwf. pose proof (region_bound _ _ Hwf) as Hreg. pose proof Hwf as [H1 H2 H3 H4 H5].
  unfold fill. destruct (ContinuousWriteBuffer c) as [off n]. cbn [snd].
  destruct Hreg as (-> & Hn & Hfree & Hend & _).
  set (d' := take (Z.to_nat n) d).
  assert (Hd' : Z.of_nat (length d') = Z.min (Z.of_nat (length d)) n)
    by (unfold d'; rewrite length_take; lia).
  rewrite H1, mem_write_Ok by lia. cbn [mbind outcome_bind].
  set (b' := take (Z.to_nat (write_pos_ c)) b ++ d' ++ drop (Z.to_nat (write_pos_ c) + length d') b).
  assert (Hlen : length b' = length b)
    by (unfold b'; autorewrite with httpoll_rw; lia).
  assert (Htake : take (Z.to_nat (Z.min (Z.of_nat (length d)) n)) d = d').
  { unfold d'. destruct (decide (Z.of_nat (length d) <= n)).
    - rewrite !take_ge by lia. done.
    - f_equal. lia. }
  unfold ResetWritePos. cbn [size_ buffer_ read_pos_ write_pos_]. u64_simpl.
  assert (Hw : take (Z.to_nat (write_pos_ c) + length d') b' = take (Z.to_nat (write_pos_ c)) b ++ d').
  { unfold b'. rewrite app_assoc. apply take_app_len. autorewrite with httpoll_rw. lia. }
  do 3 eexists. split; [reflexivity|]. split; [|split; [|exact Hd']].
  { case_test; split; cbn; try done; lia. }
  rewrite <- Hd' in Htake. rewrite Htake. clear Htake.
  unfold contents in *.
  destruct (Z.eqb_spec (write_pos_ c + Z.of_nat (length d')) (size_ c));
    cbn [size_ buffer_ read_pos_ write_pos_].
  - (* the region ended at the end of the block *)
    assert (Z.to_nat (write_pos_ c) + length d' = length b)%nat as Hfull by lia.
    rewrite Hfull, take_ge in Hw by lia.
    repeat case_test; cbn; autorewrite with httpoll_rw in *; try lia.
    rewrite app_nil_r, Hw, drop_app_le by (rewrite length_take; lia).
    by rewrite skipn_firstn_comm.
  - replace (Z.to_nat (write_pos_ c + Z.of_nat (length d')))
      with (Z.to_nat (write_pos_ c) + length d')%nat by lia.
    repeat case_test; autorewrite with httpoll_rw in *; try lia.
    + rewrite Hw, app_assoc. f_equal. f_equal.
      unfold b'. rewrite app_assoc, drop_app_ge by (autorewrite with httpoll_rw; lia).
      rewrite drop_drop. f_equal. autorewrite with httpoll_rw. lia.
    + replace (Z.to_nat (write_pos_ c) + length d' - Z.to_nat (read_pos_ c))%nat
        with (length (drop (Z.to_nat (read_pos_ c)) (take (Z.to_nat (write_pos_ c) + length d') b')))
        by (autorewrite with httpoll_rw; lia).
      rewrite <- (take_drop (Z.to_nat (write_pos_ c) + length d') b') at 2.
      rewrite drop_app_le by (rewrite length_take; lia). rewrite take_app_length, Hw.
      rewrite drop_app_le by (rewrite length_take; lia). by rewrite skipn_firstn_comm.
Qed.

Lemma mem_write_start m d :
  (length d <= length m)%nat -> mem_write (Some m) 0 d = Ok (Some (d ++ drop (length d) m)).
Proof. intros. rewrite mem_write_Ok by lia. done. Qed.

Lemma Extend_contents c b new_size m :
  wf c b -> size_ c < new_size < 2 ^ 63 -> Z.of_nat (length m) = new_size ->
  exists c' b', Extend c new_size (Some m) = Ok (true, c') /\ wf c' b' /\
    contents c' b' = contents c b /\ size_ c' = new_size.
Proof.
  intros Hwf Hsize Hm. pose proof (contents_length _ _ Hwf) as Hl.
  pose proof (contents_bound _ _ Hwf) as Hb. pose proof Hwf as [H1 H2 H3 H4 H5].
  unfold Extend. rewrite (proj2 (Z.leb_gt _ _)) by lia. rewrite Hl, H1.
  set (q := contents c b) in *.
  assert (Hcopy : (if 0 <? Z.of_nat (length q)
     then if read_pos_ c <? write_pos_ c
          then d ← mem_read (Some b) (read_pos_ c) (Z.of_nat (length q)); mem_write (Some m) 0 d
          else d1 ← mem_read (Some b) (read_pos_ c) (u64 (size_ c - read_pos_ c));
               m ← mem_write (Some m) 0 d1;
               d2 ← mem_read (Some b) 0 (write_pos_ c);
               mem_write m (u64 (size_ c - read_pos_ c)) d2
     else Ok (Some m)) = Ok (Some (q ++ drop (length q) m))).
  { u64_simpl. unfold q, contents in *. clear q. revert Hl Hb.
    destruct (Nat.ltb_spec (Z.to_nat (write_pos_ c)) (Z.to_nat (read_pos_ c))); intros.
    - rewrite (proj2 (Z.ltb_ge (read_pos_ c) _)) by lia. autorewrite with httpoll_rw in *.
      rewrite (proj2 (Z.ltb_lt 0 _)) by lia.
      rewrite !mem_read_Ok by lia. cbn [mbind outcome_bind].
      rewrite (take_ge (drop (Z.to_nat (read_pos_ c)) b)) by (rewrite length_drop; lia).
      rewrite mem_write_start by (rewrite length_drop; lia). cbn [mbind outcome_bind].
      change (Z.to_nat 0) with 0%nat. rewrite drop_0.
      rewrite mem_write_Ok by (autorewrite with httpoll_rw; lia).
      do 2 f_equal. rewrite <- app_assoc. f_equal; [|f_equal].
      + apply take_app_len. rewrite length_drop. lia.
      + rewrite drop_app_ge by (autorewrite with httpoll_rw; lia). rewrite drop_drop.
        f_equal. autorewrite with httpoll_rw. lia.
    - autorewrite with httpoll_rw in *. case_test.
      + rewrite (proj2 (Z.ltb_lt (read_pos_ c) _)) by lia.
        rewrite mem_read_Ok by lia. cbn [mbind outcome_bind].
        rewrite mem_write_start by (autorewrite with httpoll_rw; lia).
        replace (Z.to_nat (Z.of_nat _)) with (Z.to_nat (write_pos_ c) - Z.to_nat (read_pos_ c))%nat by lia.
        do 4 f_equal. autorewrite with httpoll_rw. lia.
      + replace (Z.to_nat (write_pos_ c) - Z.to_nat (read_pos_ c))%nat with 0%nat by lia. done. }
  rewrite Hcopy. cbn [mbind outcome_bind]. do 2 eexists. split; [reflexivity|].
  split; [|split].
  - split; cbn; try done; try lia. autorewrite with httpoll_rw. lia.
  - unfold contents. cbn [read_pos_ write_pos_]. change (Z.to_nat 0) with 0%nat.
    rewrite drop_0, Nat.sub_0_r. case_test. rewrite Nat2Z.id. apply take_app_length.
  - done.
Qed.

(** ** The bounded queue it implements *)

(** The operations of a client, and what each of them lets it observe. *)
Inductive op :=
| OFill (d : bytes)
| OPeek
| OPop (n : Z)
| OExtend (new_size : Z) (m : option bytes).

Inductive obs :=
| Count (k : Z)
| Data (d : bytes)
| Flag (b : bool).

Definition run_op (c : circular_buffer) (o : op) : outcome (obs * circular_buffer) :=
  match o with
  | OFill d => '(k, c) ← fill c d; Ok (Count k, c)
  | OPeek => d ← read_all c; Ok (Data d, c)
  | OPop n => '(k, c) ← Popout c n; Ok (Count k, c)
  | OExtend n m => '(b, c) ← Extend c n m; Ok (Flag b, c)
  end.

Fixpoint run_ops (c : circular_buffer) (os : list op) : outcome (list obs * circular_buffer) :=
  match os with
  | [] => Ok ([], c)
  | o :: os =>
      '(x, c) ← run_op c o;
      '(xs, c) ← run_ops c os;
      Ok (x :: xs, c)
  end.

(** A queue of bytes that holds one byte less than its size.  Filling takes a
    prefix of what is offered, and a non-empty one as long as there is room. *)
Inductive queue_step : Z * bytes -> op -> obs -> Z * bytes -> Prop :=
| queue_fill size q d k :
    0 <= k <= Z.of_nat (length d) -> k <= size - 1 - Z.of_nat (length q) ->
    (d <> [] -> Z.of_nat (length q) < size - 1 -> 0 < k) ->
    queue_step (size, q) (OFill d) (Count k) (size, q ++ take (Z.to_nat k) d)
| queue_peek size q : queue_step (size, q) OPeek (Data q) (size, q)
| queue_pop size q n :
    n <= Z.of_nat (length q) -> queue_step (size, q) (OPop n) (Count n) (size, drop (Z.to_nat n) q)
| queue_pop_short size q n :
    Z.of_nat (length q) < n -> queue_step (size, q) (OPop n) (Count 0) (size, q)
| queue_extend size q n m :
    size < n -> queue_step (size, q) (OExtend n (Some m)) (Flag true) (n, q)
| queue_keep size q n m :
    n <= size \/ m = None -> queue_step (size, q) (OExtend n m) (Flag false) (size, q).

Inductive queue_steps : Z * bytes -> list op -> list obs -> Z * bytes -> Prop :=
| queue_stop s : queue_steps s [] [] s
| queue_next s o x s' os xs s'' :
    queue_step s o x s' -> queue_steps s' os xs s'' -> queue_steps s (o :: os) (x :: xs) s''.

(** What [malloc] and the types guarantee of an operation's arguments. *)
Definition op_ok (o : op) : Prop :=
  match o with
  | OFill _ | OPeek => True
  | OPop n => 0 <= n
  | OExtend n m => n < 2 ^ 63 /\ match m with Some m => Z.of_nat (length m) = n | None => True end
  end.

Lemma run_op_queue c b o :
  wf c b -> op_ok o ->
  exists x c' b', run_op c o = Ok (x, c') /\ wf c' b' /\
    queue_step (size_ c, contents c b) o x (size_ c', contents c' b').
Proof.
  intros Hwf Ho. destruct o as [d| |n|n m]; cbn [run_op].
  - pose proof (region_bound _ _ Hwf) as Hreg.
    destruct (fill_contents _ _ d Hwf) as (k & c' & b' & Hf & Hwf' & Hc & Hk).
    assert (size_ c' = size_ c) as Hs.
    { unfold fill in Hf. destruct (ContinuousWriteBuffer c).
      apply bind_Ok in Hf as (? & _ & Hf). injection Hf as _ <-. by case_match. }
    rewrite Hf. do 3 eexists. split; [reflexivity|]. split; [done|]. rewrite Hc, Hs.
    destruct (ContinuousWriteBuffer c) as [off r]. cbn [snd] in Hk.
    destruct Hreg as (_ & ? & ? & _ & Hpos). constructor; try lia.
    intros Hd Hroom. destruct d; [done|]. cbn in *. lia.
  - rewrite (read_all_contents _ _ Hwf). do 3 eexists. split; [reflexivity|]. split; [done|]. constructor.
  - destruct (Popout_contents _ _ n Hwf Ho) as (k & c' & Hp & Hwf' & [(? & -> & Hc)|(? & -> & ->)]).
    + assert (size_ c' = size_ c) as Hs.
      { destruct Hwf as [_ <- _ _ _], Hwf' as [_ <- _ _ _]. done. }
      rewrite Hp. do 3 eexists. split; [reflexivity|]. split; [done|]. rewrite Hc, Hs. by constructor.
    + rewrite Hp. do 3 eexists. split; [reflexivity|]. split; [done|]. by constructor.
  - destruct Ho as [Hn Hm]. destruct (Z.leb_spec n (size_ c)).
    + unfold Extend. rewrite (proj2 (Z.leb_le n _)) by lia.
      do 3 eexists. split; [reflexivity|]. split; [done|]. constructor. auto.
    + destruct m as [m|].
      * destruct (Extend_contents c b n m Hwf) as (c' & b' & He & Hwf' & Hc & Hs); [lia|done|].
        rewrite He. do 3 eexists. split; [reflexivity|]. split; [done|]. rewrite Hc, Hs. by constructor.
      * unfold Extend. rewrite (proj2 (Z.leb_gt n _)) by lia.
        do 3 eexists. split; [reflexivity|]. split; [done|]. constructor. auto.
Qed.

Lemma run_ops_queue c b os :
  wf c b -> Forall op_ok os ->
  exists xs c' b', run_ops c os = Ok (xs, c') /\ wf c' b' /\
    queue_steps (size_ c, contents c b) os xs (size_ c', contents c' b').
Proof.
  intros Hwf Hos. revert c b Hwf. induction Hos as [|o os Ho _ IH]; intros c b Hwf; cbn.
  - do 3 eexists. split; [reflexivity|]. split; [done|]. constructor.
  - destruct (run_op_queue _ _ _ Hwf Ho) as (x & c1 & b1 & Hr & Hwf1 & Hq).
    destruct (IH _ _ Hwf1) as (xs & c' & b' & Hrs & Hwf' & Hqs).
    rewrite Hr. cbn [mbind outcome_bind]. rewrite Hrs.
    do 3 eexists. split; [reflexivity|]. split; [done|]. by econstructor.
Qed.

Lemma make_wf size m :
  0 < size < 2 ^ 63 -> Z.of_nat (length m) = size -> wf (make size (Some m)) m.
Proof. intros. split; cbn; done || lia. Qed.

End CircularBuffer.

Import CircularBuffer.

(** Claim C9. The ring buffer implements a bounded byte queue: any sequence of fills, reads,
    pops and extensions, on a buffer fresh from its constructor, runs without touching memory
    outside its blocks, and shows the client exactly what the queue of capacity [size - 1]
    would, in order, across wrap-around and reallocation. *)
Theorem ring_buffer_refines_queue size m os :
  0 < size < 2 ^ 63 -> Z.of_nat (length m) = size -> Forall op_ok os ->
  exists xs c' s', run_ops (make size (Some m)) os = Ok (xs, c') /\
    queue_steps (size, []) os xs s'.
Proof.
  intros Hs Hm Hos. destruct (run_ops_queue _ _ os (make_wf size m Hs Hm) Hos)
    as (xs & c' & b' & Hr & _ & Hq). do 3 eexists. split; [exact Hr|]. exact Hq.
Qed.

Lemma ring_buffer_refines_queue_witness :
  exists xs c' s',
    run_ops (make 4 (Some (str "????"))) [OFill (str "abcd"); OPop 2; OFill (str "xyz");
                                          OFill (str "yz"); OPeek; OExtend 8 (Some (str "????????")); OPeek]
      = Ok (xs, c') /\
    queue_steps (4, []) [OFill (str "abcd"); OPop 2; OFill (str "xyz");
                         OFill (str "yz"); OPeek; OExtend 8 (Some (str "????????")); OPeek] xs s'.
Proof.
  apply (ring_buffer_refines_queue 4 (str "????")).
  - lia.
  - reflexivity.
  - repeat constructor; cbn; lia.
Defined.

Example ring_buffer_run :
  (fst <$> match run_ops (make 4 (Some (str "????")))
      [OFill (str "abcd"); OPop 2; OFill (str "xyz"); OFill (str "yz"); OPeek;
       OExtend 8 (Some (str "????????")); OPeek] with Ok r => Some r | _ => None end) =
  Some [Count 3; Count 2; Count 1; Count 1; Data (str "cxy"); Flag true; Data (str "cxy")].
Proof. reflexivity. Qed.

(** The write position does not wrap by itself: when a client has filled the block to
    its end and the reader then pops everything, the read position wraps to 0 while the write
    position stays at the end, and the drained buffer reports a full block of stale bytes. *)
Theorem drained_at_end_is_full c b :
  buffer_ c = Some b -> Z.of_nat (length b) = size_ c -> size_ c < 2 ^ 63 ->
  0 < read_pos_ c < size_ c -> write_pos_ c = size_ c ->
  exists c', Popout c (Length c) = Ok (Length c, c') /\
    Length c' = size_ c /\ read_all c' = Ok b.
Proof.
  intros Hb Hlen Hs Hr Hw. assert (Hl : Length c = size_ c - read_pos_ c).
  { unfold Length. rewrite Hw. case_tests. by u64_simpl. }
  unfold Popout. rewrite Z.ltb_irrefl, Hl, (proj2 (Z.eqb_neq _ _)) by lia.
  replace (read_pos_ c + (size_ c - read_pos_ c)) with (size_ c) by lia.
  rewrite (u64_small (size_ c)) by lia. rewrite Z.mod_same by lia.
  eexists. split; [reflexivity|]. split.
  - unfold Length. cbn. rewrite Hw. case_tests. rewrite u64_small; lia.
  - unfold read_all, GetReadViews. cbn. rewrite Hw.
    rewrite (proj2 (Z.ltb_ge _ _)) by lia. cbn. rewrite Hb, Z.sub_0_r, u64_small by lia.
    rewrite mem_read_Ok by lia. change (Z.to_nat 0) with 0%nat. rewrite drop_0.
    cbn [mbind outcome_bind]. rewrite app_nil_r, take_ge by lia. done.
Qed.

Lemma drained_at_end_is_full_witness :
  exists c', Popout (CB 4 (Some (str "abcd")) 3 4) 1 = Ok (1, c') /\
    Length c' = 4 /\ read_all c' = Ok (str "abcd").
Proof.
  apply (drained_at_end_is_full (CB 4 (Some (str "abcd")) 3 4) (str "abcd")); done || (cbn; lia).
Defined.
