(* ===== verification/Base64.v ===== *)
(** * Base64: base64_encode of src/external_helpers.h

    The destination is the block behind [dst]: a store outside it is a fault, so
    that a result [Ok] says that the function stayed inside the block.  [dst_len]
    is [None] for the null pointer.  The positions [i] and [j] are bounded by the
    lengths of the two blocks and do not wrap. *)

From S2P Require Import Prelude.

Definition b64_table : bytes :=
  str "ABCDEFGHIJKLMNOPQRSTUVWXYZabcdefghijklmnopqrstuvwxyz0123456789+/".

(** [b64[v]]. *)
Definition b64 (v : Z) : outcome byte := of_option OutOfBounds (b64_table !! Z.to_nat v).

(** [dst[j] = c]. *)
Definition store (dst : bytes) (j : nat) (c : byte) : outcome bytes :=
  if (j <? length dst)%nat then Ok (<[j := c]> dst) else Fault OutOfBounds.

(** [src[i]], as an [int]. *)
Definition fetch (src : bytes) (i : nat) : outcome Z :=
  c ← of_option OutOfBounds (src !! i); Ok (b2z c).

(** [dst[j++] = b64[v]]. *)
Definition put (dst : bytes) (j : nat) (v : Z) : outcome (bytes * nat) :=
  c ← b64 v; dst ← store dst j c; Ok (dst, S j).

Fixpoint encode_loop (fuel : nat) (src : bytes) (src_len : nat) (dst : bytes) (i j : nat)
  : outcome (bytes * nat) :=
  match fuel with
  | O => OutOfFuel
  | S fuel =>
      if (i <? src_len)%nat then
        a ← fetch src i;
        b ← (if (src_len <=? i + 1)%nat then Ok 0 else fetch src (i + 1));
        c ← (if (src_len <=? i + 2)%nat then Ok 0 else fetch src (i + 2));
        '(dst, j) ← put dst j (Z.shiftr a 2);
        '(dst, j) ← put dst j (Z.lor (Z.shiftl (Z.land a 3) 4) (Z.shiftr b 4));
        '(dst, j) ← (if (i + 1 <? src_len)%nat
                     then put dst j (Z.lor (Z.shiftl (Z.land b 15) 2) (Z.shiftr c 6))
                     else Ok (dst, j));
        '(dst, j) ← (if (i + 2 <? src_len)%nat
                     then put dst j (Z.land c 63)
                     else Ok (dst, j));
        encode_loop fuel src src_len dst (i + 3) j
      else Ok (dst, j)
  end.

(** [while (j % 4 != 0) dst[j++] = '=']: at most three rounds. *)
Fixpoint pad_loop (fuel : nat) (dst : bytes) (j : nat) : outcome (bytes * nat) :=
  match fuel with
  | O => OutOfFuel
  | S fuel =>
      if (j mod 4 =? 0)%nat then Ok (dst, j)
      else dst ← store dst j "="; pad_loop fuel dst (S j)
  end.

(** Room for the encoding of [src_len] bytes and its terminator. *)
Definition expected_len (src_len : nat) : Z :=
  u64 (u64 (u64 (Z.of_nat src_len + 2) / 3 * 4) + 1).

Definition base64_encode (src : bytes) (src_len : nat) (dst : bytes) (dst_len : option Z)
  : outcome (Z * bytes * option Z) :=
  match dst_len with
  | Some n =>
      if n <? expected_len src_len then
        dst ← (if 0 <? n then store dst 0 NUL else Ok dst);
        Ok (0, dst, Some (expected_len src_len))
      else
        '(dst, j) ← encode_loop (S src_len) src src_len dst 0 0;
        '(dst, j) ← pad_loop 4 dst j;
        dst ← store dst j NUL;
        Ok (-1, dst, Some (Z.of_nat (S j)))
  | None =>
      '(dst, j) ← encode_loop (S src_len) src src_len dst 0 0;
      '(dst, j) ← pad_loop 4 dst j;
      dst ← store dst j NUL;
      Ok (-1, dst, None)
  end.

(** ** The reference: RFC 4648, section 4

    Each group of three bytes is a 24-bit number, which four digits in base 64
    write down. *)

Definition digit (v : Z) : byte := default NUL (b64_table !! Z.to_nat v).

(** The digits of the 24-bit group of three bytes, most significant first. *)
Definition group (a b c : byte) : bytes :=
  let n := b2z a * 2 ^ 16 + b2z b * 2 ^ 8 + b2z c in
  map digit [n / 2 ^ 18; n / 2 ^ 12 mod 64; n / 2 ^ 6 mod 64; n mod 64].

(** The encoding without padding: a last group of one or two bytes is completed
    with zero bits, of which only the digits that carry bits of it are kept. *)
Fixpoint unpadded (s : bytes) : bytes :=
  match s with
  | [] => []
  | [a] => take 2 (group a NUL NUL)
  | [a; b] => take 3 (group a b NUL)
  | a :: b :: c :: r => group a b c ++ unpadded r
  end.

Definition pad_count (s : bytes) : nat :=
  match length s mod 3 with 1 => 2 | 2 => 1 | _ => 0 end%nat.

Definition rfc4648 (s : bytes) : bytes := unpadded s ++ repeat "="%byte (pad_count s).

Definition digit_value (c : byte) : option Z :=
  Z.of_nat ∘ fst <$> list_find (fun d => d = c) b64_table.

(** The reference decoder. *)
Fixpoint decode (s : bytes) : option bytes :=
  match s with
  | [] => Some []
  | c0 :: c1 :: c2 :: c3 :: r =>
      v0 ← digit_value c0; v1 ← digit_value c1;
      if decide (c2 = "="%byte)
      then if decide (c3 = "="%byte /\ r = [])
           then Some [z2b ((v0 * 2 ^ 6 + v1) / 2 ^ 4)] else None
      else
        v2 ← digit_value c2;
        if decide (c3 = "="%byte)
        then if decide (r = [])
             then let n := (v0 * 2 ^ 6 + v1) * 2 ^ 6 + v2 in
                  Some [z2b (n / 2 ^ 10); z2b (n / 2 ^ 2)] else None
        else
          v3 ← digit_value c3; rest ← decode r;
          let n := ((v0 * 2 ^ 6 + v1) * 2 ^ 6 + v2) * 2 ^ 6 + v3 in
          Some (z2b (n / 2 ^ 16) :: z2b (n / 2 ^ 8) :: z2b n :: rest)
  | _ => None
  end.

Example base64_man :
  rfc4648 (str "Man") = str "TWFu" /\ rfc4648 (str "Ma") = str "TWE=" /\
  rfc4648 (str "M") = str "TQ==" /\
  base64_encode (str "Ma") 2 (str "........") (Some 5) = Ok (-1, str "TWE=" ++ NUL :: str "...", Some 5)
  /\ decode (str "TWFuTQ==") = Some (str "ManM").
Proof. vm_compute. done. Qed.

(** ** Lemmas *)

(** The bit operations of the code, as arithmetic. *)
Lemma bits_arith a b c :
  Z.shiftr (b2z a) 2 = b2z a / 4 /\
  Z.lor (Z.shiftl (Z.land (b2z a) 3) 4) (Z.shiftr (b2z b) 4) = b2z a mod 4 * 16 + b2z b / 16 /\
  Z.lor (Z.shiftl (Z.land (b2z b) 15) 2) (Z.shiftr (b2z c) 6) = b2z b mod 16 * 4 + b2z c / 64 /\
  Z.land (b2z c) 63 = b2z c mod 64.
Proof.
  pose proof (b2z_range a). pose proof (b2z_range b). pose proof (b2z_range c).
  rewrite !Z.shiftr_div_pow2 by lia.
  change 3 with (Z.ones 2). change 15 with (Z.ones 4). change 63 with (Z.ones 6).
  rewrite !Z.land_ones by lia.
  rewrite !lor_shiftl_add by
    first [lia | split; [apply Z.div_pos | apply Z.div_lt_upper_bound]; lia].
  done.
Qed.

(** They are the digits of the group. *)
Lemma group_bits a b c :
  group a b c =
    map digit [b2z a / 4; b2z a mod 4 * 16 + b2z b / 16; b2z b mod 16 * 4 + b2z c / 64;
               b2z c mod 64].
Proof.
  pose proof (b2z_range a). pose proof (b2z_range b). pose proof (b2z_range c).
  unfold group. cbv zeta. f_equal.
  repeat apply (f_equal2 (@cons Z)); [..|done]; Z.div_mod_to_equations; lia.
Qed.

Lemma bits_range a b :
  0 <= b2z a / 4 < 64 /\ 0 <= b2z a mod 4 * 16 + b2z b / 16 < 64 /\
  0 <= b2z a mod 16 * 4 + b2z b / 64 < 64 /\ 0 <= b2z a mod 64 < 64.
Proof.
  pose proof (b2z_range a). pose proof (b2z_range b).
  repeat split; Z.div_mod_to_equations; lia.
Qed.

Lemma b64_digit v : 0 <= v < 64 -> b64 v = Ok (digit v).
Proof.
  intros Hv. unfold b64, digit.
  assert (Z.to_nat v < length b64_table)%nat as [c ->]%lookup_lt_is_Some_2; [|done].
  change (length b64_table) with 64%nat. lia.
Qed.

Lemma store_app d x r c : store (d ++ x :: r) (length d) c = Ok ((d ++ [c]) ++ r).
Proof.
  unfold store. rewrite (proj2 (Nat.ltb_lt _ _)) by (autorewrite with httpoll_rw; cbn; lia).
  rewrite insert_app_r_alt, Nat.sub_diag by lia. by rewrite <- app_assoc.
Qed.

Lemma put_app d x r v :
  0 <= v < 64 -> put (d ++ x :: r) (length d) v = Ok ((d ++ [digit v]) ++ r, length (d ++ [digit v])).
Proof.
  intros Hv. unfold put. rewrite b64_digit by done. cbn [mbind outcome_bind].
  rewrite store_app, length_app. cbn. by rewrite Nat.add_1_r.
Qed.

Lemma fetch_app pre s i k c :
  i = (length pre + k)%nat -> s !! k = Some c -> fetch (pre ++ s) i = Ok (b2z c).
Proof.
  intros -> H. unfold fetch. rewrite lookup_app_r by lia.
  replace (length pre + k - length pre)%nat with k by lia. by rewrite H.
Qed.

Lemma three_ind (P : bytes -> Prop) :
  P [] -> (forall a, P [a]) -> (forall a b, P [a; b]) ->
  (forall a b c r, P r -> P (a :: b :: c :: r)) -> forall s, P s.
Proof.
  intros H0 H1 H2 H3. fix IH 1. intros [|a [|b [|c r]]]; [done|apply H1|apply H2|].
  apply H3, IH.
Qed.

Lemma unpadded_length s :
  length (unpadded s) = (length s / 3 * 4 + match length s mod 3 with 0 => 0 | 1 => 2 | _ => 3 end)%nat.
Proof.
  induction s as [| | |a b c r IH] using three_ind; [done..|].
  cbn [unpadded length]. rewrite length_app, IH. change (length (group a b c)) with 4%nat.
  replace (S (S (S (length r)))) with (length r + 1 * 3)%nat by lia.
  rewrite Nat.Div0.mod_add, Nat.div_add by lia. lia.
Qed.

Lemma rfc4648_length s : length (rfc4648 s) = ((length s + 2) / 3 * 4)%nat.
Proof.
  unfold rfc4648, pad_count. rewrite length_app, unpadded_length, repeat_length.
  pose proof (Nat.div_mod_eq (length s) 3). pose proof (Nat.mod_upper_bound (length s) 3).
  destruct (length s mod 3)%nat as [|[|[|?]]] eqn:E; [| | |lia].
  - rewrite <- (Nat.div_unique (length s + 2) 3 (length s / 3) 2); lia.
  - rewrite <- (Nat.div_unique (length s + 2) 3 (length s / 3 + 1) 0); lia.
  - rewrite <- (Nat.div_unique (length s + 2) 3 (length s / 3 + 1) 1); lia.
Qed.

(** Run the stores of one round: each one falls into the space reserved for it. *)
Ltac run_round :=
  repeat (first [ rewrite put_app by lia; cbn [mbind outcome_bind] | case_test ]).

Lemma encode_loop_end fuel src n dst i j :
  (n <= i)%nat -> encode_loop (S fuel) src n dst i j = Ok (dst, j).
Proof. intros. cbn [encode_loop]. by rewrite (proj2 (Nat.ltb_ge _ _)) by lia. Qed.

(** The loop writes the unpadded encoding of what is left of the source. *)
Lemma encode_loop_spec s : forall fuel pre d e r,
  (length s < fuel)%nat -> length e = length (unpadded s) ->
  encode_loop fuel (pre ++ s) (length pre + length s) (d ++ e ++ r) (length pre) (length d) =
    Ok ((d ++ unpadded s) ++ r, length (d ++ unpadded s)).
Proof.
  induction s as [|a|a b|a b c s IH] using three_ind; intros [|fuel] pre d e r Hf He;
    cbn [length] in Hf, He; try lia.
  - destruct e; [|done]. cbn [length]. rewrite encode_loop_end by lia. cbn [unpadded app].
    by rewrite app_nil_r.
  - destruct (bits_arith a NUL NUL) as (E1 & E2 & _), (bits_range a NUL) as (R1 & R2 & _).
    destruct e as [|x0 [|x1 [|]]]; try done. cbn [encode_loop length app]. case_tests.
    rewrite (fetch_app pre [a] (length pre) 0 a) by (done || lia). cbn [mbind outcome_bind].
    change 0 with (b2z NUL). rewrite E1, E2. run_round.
    destruct fuel as [|fuel]; [lia|]. rewrite encode_loop_end by lia.
    cbn [unpadded]. rewrite group_bits. by rewrite <- (app_assoc d).
  - destruct (bits_arith a b NUL) as (E1 & E2 & E3 & _),
      (bits_range a b) as (R1 & R2 & _), (bits_range b NUL) as (_ & _ & R3 & _).
    destruct e as [|x0 [|x1 [|x2 [|]]]]; try done. cbn [encode_loop length app]. case_tests.
    rewrite (fetch_app pre [a; b] (length pre) 0 a), (fetch_app pre [a; b] (length pre + 1) 1 b) by (done || lia).
    cbn [mbind outcome_bind].
    change 0 with (b2z NUL). rewrite E1, E2, E3. run_round.
    destruct fuel as [|fuel]; [lia|]. rewrite encode_loop_end by lia.
    cbn [unpadded]. rewrite group_bits. by rewrite <- !(app_assoc d).
  - destruct (bits_arith a b c) as (E1 & E2 & E3 & E4),
      (bits_range a b) as (R1 & R2 & _), (bits_range b c) as (_ & _ & R3 & _),
      (bits_range c c) as (_ & _ & _ & R4).
    cbn [unpadded] in He. rewrite length_app in He.
    destruct e as [|x0 [|x1 [|x2 [|x3 e]]]]; try done. cbn [encode_loop length app]. case_tests.
    rewrite (fetch_app pre _ (length pre) 0 a), (fetch_app pre _ (length pre + 1) 1 b), (fetch_app pre _ (length pre + 2) 2 c)
      by (done || lia).
    cbn [mbind outcome_bind]. rewrite E1, E2, E3, E4. run_round.
    change (a :: b :: c :: s) with ([a; b; c] ++ s) at 1. rewrite (app_assoc pre).
    replace (length pre + 3)%nat with (length (pre ++ [a; b; c])) by by rewrite length_app.
    replace (length pre + S (S (S (length s))))%nat with (length (pre ++ [a; b; c]) + length s)%nat
      by (rewrite length_app; cbn; lia).
    rewrite IH by (cbn in He; lia).
    cbn [unpadded]. rewrite group_bits. by rewrite <- !(app_assoc d).
Qed.

Lemma pad_loop_spec n : forall fuel d e r,
  (n < fuel)%nat -> (n < 4)%nat -> ((length d + n) mod 4 = 0)%nat -> length e = n ->
  pad_loop fuel (d ++ e ++ r) (length d) =
    Ok ((d ++ repeat "="%byte n) ++ r, length (d ++ repeat "="%byte n)).
Proof.
  induction n as [|n IH]; intros [|fuel] d e r Hf Hn Hm He; try lia.
  - destruct e; [|done]. rewrite Nat.add_0_r in Hm. cbn [pad_loop repeat]. rewrite Hm, app_nil_r.
    done.
  - destruct e as [|x e]; [done|]. cbn [pad_loop].
    assert (length d mod 4 <> 0)%nat.
    { intros H0. rewrite Nat.Div0.add_mod, H0, Nat.add_0_l, Nat.Div0.mod_mod, Nat.mod_small in Hm; lia. }
    case_test. cbn [app]. rewrite store_app. cbn [mbind outcome_bind].
    replace (S (length d)) with (length (d ++ ["="%byte])) by (rewrite length_app; cbn; lia).
    cbn in He. rewrite IH; [|lia..| |lia].
    + cbn [repeat]. by rewrite <- !(app_assoc d).
    + rewrite length_app, <- Nat.add_assoc. exact Hm.
Qed.

Lemma pad_count_spec s :
  (pad_count s < 4)%nat /\ ((length (unpadded s) + pad_count s) mod 4 = 0)%nat.
Proof.
  split; [unfold pad_count; repeat case_match; lia|].
  pose proof (rfc4648_length s) as H. unfold rfc4648 in H.
  rewrite length_app, repeat_length in H. rewrite H. apply Nat.Div0.mod_mul.
Qed.

(** Encoding and padding together, in a block with room [e] for the result. *)
Lemma encode_and_pad src e r :
  length e = length (rfc4648 src) ->
  ('(dst, j) ← encode_loop (S (length src)) src (length src) (e ++ r) 0 0; pad_loop 4 dst j) =
    Ok (rfc4648 src ++ r, length (rfc4648 src)).
Proof.
  intros He. destruct (pad_count_spec src) as [Hp Hm]. unfold rfc4648 in *.
  rewrite length_app, repeat_length in He.
  rewrite <- (take_drop (length (unpadded src)) e), <- app_assoc.
  pose proof (encode_loop_spec src (S (length src)) [] [] (take (length (unpadded src)) e)
                (drop (length (unpadded src)) e ++ r)) as H.
  cbn [app length Nat.add] in H. rewrite H by (rewrite ?length_take; lia).
  cbn [mbind outcome_bind]. apply pad_loop_spec; [done..|]. rewrite length_drop. lia.
Qed.

Lemma expected_len_spec src :
  Z.of_nat (length src) < 2 ^ 62 ->
  expected_len (length src) = Z.of_nat (length (rfc4648 src)) + 1.
Proof.
  intros H. rewrite rfc4648_length. unfold expected_len.
  rewrite Nat2Z.inj_mul, Nat2Z.inj_div, Nat2Z.inj_add.
  change (Z.of_nat 2) with 2. change (Z.of_nat 3) with 3. change (Z.of_nat 4) with 4.
  assert (0 <= 3 * ((Z.of_nat (length src) + 2) / 3) <= Z.of_nat (length src) + 2)
    by (Z.div_mod_to_equations; lia).
  by u64_simpl.
Qed.

(** Everything the function does once the room is checked. *)
Lemma encode_write {A} src dst (k : bytes -> nat -> outcome A) :
  let len := length (rfc4648 src) in
  (len < length dst)%nat ->
  ('(dst, j) ← encode_loop (S (length src)) src (length src) dst 0 0;
   '(dst, j) ← pad_loop 4 dst j;
   dst ← store dst j NUL;
   k dst j) = k (rfc4648 src ++ NUL :: drop (S len) dst) len.
Proof.
  intros len H. destruct (lookup_lt_is_Some_2 _ _ H) as [x Hx].
  pose proof (encode_and_pad src (take len dst) (x :: drop (S len) dst)) as E.
  rewrite take_drop_middle in E by done.
  specialize (E ltac:(rewrite length_take; lia)).
  destruct (encode_loop _ _ _ _ _ _) as [[d j]| |]; cbn [mbind outcome_bind] in *; [|done..].
  rewrite E. cbn [mbind outcome_bind]. unfold len at 2. rewrite store_app. cbn [mbind outcome_bind].
  by rewrite <- app_assoc.
Qed.

(** Digits decode to their value, and are not the padding character. *)
Lemma digit_spec v : 0 <= v < 64 -> digit_value (digit v) = Some v /\ digit v <> "="%byte.
Proof.
  apply (Z_range_check 64 (fun v => digit_value (digit v) = Some v /\ digit v <> "="%byte)).
  vm_compute. reflexivity.
Qed.

Lemma digit_value_digit v : 0 <= v < 64 -> digit_value (digit v) = Some v.
Proof. apply digit_spec. Qed.
Lemma digit_not_pad v : 0 <= v < 64 -> digit v <> "="%byte.
Proof. apply digit_spec. Qed.

Lemma z2b_eq z c : z mod 256 = b2z c -> z2b z = c.
Proof. intros H. apply b2z_inj. by rewrite b2z_z2b. Qed.

Lemma decode_rfc4648 s : decode (rfc4648 s) = Some s.
Proof.
  induction s as [|a|a b|a b c s IH] using three_ind; [done| | |].
  - destruct (bits_range a NUL) as (R1 & R2 & _). pose proof (b2z_range a).
    cbv [rfc4648 pad_count unpadded]. rewrite group_bits. cbn [length map take repeat app].
    change (1 mod 3)%nat with 1%nat. cbn [repeat app decode].
    rewrite !digit_value_digit by done. cbn [mbind option_bind].
    rewrite decide_True by done. rewrite decide_True by done.
    do 2 f_equal. apply z2b_eq. change (b2z NUL) with 0. Z.div_mod_to_equations; lia.
  - destruct (bits_range a b) as (R1 & R2 & _), (bits_range b NUL) as (_ & _ & R3 & _).
    pose proof (b2z_range a). pose proof (b2z_range b).
    cbv [rfc4648 pad_count unpadded]. rewrite group_bits. cbn [length map take repeat app].
    change (2 mod 3)%nat with 2%nat. cbn [repeat app decode].
    rewrite !digit_value_digit by done. cbn [mbind option_bind].
    rewrite decide_False by (by apply digit_not_pad). rewrite !decide_True by done.
    do 2 f_equal; [|f_equal]; apply z2b_eq; change (b2z NUL) with 0; Z.div_mod_to_equations; lia.
  - destruct (bits_range a b) as (R1 & R2 & _), (bits_range b c) as (_ & _ & R3 & _),
      (bits_range c c) as (_ & _ & _ & R4).
    pose proof (b2z_range a). pose proof (b2z_range b). pose proof (b2z_range c).
    assert (E : rfc4648 (a :: b :: c :: s) = group a b c ++ rfc4648 s).
    { unfold rfc4648, pad_count. cbn [length unpadded].
      replace (S (S (S (length s)))) with (length s + 1 * 3)%nat by lia.
      by rewrite Nat.Div0.mod_add, <- app_assoc. }
    rewrite E, group_bits. cbn [map app decode].
    rewrite !digit_value_digit by done. cbn [mbind option_bind].
    rewrite !decide_False by (by apply digit_not_pad). rewrite IH. cbn [mbind option_bind].
    do 2 f_equal; [|f_equal; [|f_equal]]; apply z2b_eq; Z.div_mod_to_equations; lia.
Qed.

(** ** Claims *)

(** Claim C25. [base64_encode] writes exactly the RFC 4648 encoding followed by a terminator,
    stays inside the destination block, and reports the number of bytes written; with a
    [dst_len] too small for that it writes nothing but an empty string (and not even that
    when [dst_len] is zero) and reports the length it needs. *)
Theorem base64_encode_rfc4648 src dst n :
  Z.of_nat (length src) < 2 ^ 62 -> n <= Z.of_nat (length dst) ->
  let len := length (rfc4648 src) in
  base64_encode src (length src) dst (Some n) =
    (if n <? Z.of_nat len + 1
     then Ok (0, if 0 <? n then NUL :: drop 1 dst else dst, Some (Z.of_nat len + 1))
     else Ok (-1, rfc4648 src ++ NUL :: drop (S len) dst, Some (Z.of_nat len + 1))) /\
  ((len < length dst)%nat ->
   base64_encode src (length src) dst None = Ok (-1, rfc4648 src ++ NUL :: drop (S len) dst, None)).
Proof.
  intros Hs Hn len. unfold base64_encode. rewrite expected_len_spec by done. fold len.
  split; [|intros H; by rewrite encode_write].
  destruct (Z.ltb_spec n (Z.of_nat len + 1)).
  - destruct (Z.ltb_spec 0 n); [|done]. by destruct dst as [|x dst]; [cbn in Hn; lia|].
  - rewrite encode_write by lia. f_equal. do 2 f_equal. lia.
Qed.

Lemma base64_encode_rfc4648_witness :
  base64_encode (str "Man!") 4 (repeat NUL 12) (Some 9) =
    Ok (-1, str "TWFuIQ==" ++ repeat NUL 4, Some 9) /\
  base64_encode (str "Man!") 4 (repeat NUL 12) (Some 8) = Ok (0, repeat NUL 12, Some 9).
Proof.
  split.
  - apply (base64_encode_rfc4648 (str "Man!") (repeat NUL 12) 9); cbn; lia.
  - apply (base64_encode_rfc4648 (str "Man!") (repeat NUL 12) 8); cbn; lia.
Defined.

(** The encoding loses nothing: given room, [base64_encode] succeeds and a reference
    decoder gets the source back from the bytes before the terminator. *)
Theorem base64_decodes src dst n :
  Z.of_nat (length src) < 2 ^ 62 ->
  Z.of_nat (length (rfc4648 src)) < n <= Z.of_nat (length dst) ->
  exists dst' m, base64_encode src (length src) dst (Some n) = Ok (-1, dst', Some (Z.of_nat m + 1)) /\
    decode (take m dst') = Some src /\ dst' !! m = Some NUL /\ length dst' = length dst.
Proof.
  intros Hs Hn. exists (rfc4648 src ++ NUL :: drop (S (length (rfc4648 src))) dst), (length (rfc4648 src)).
  unfold base64_encode. rewrite expected_len_spec by done.
  rewrite (proj2 (Z.ltb_ge _ _)), encode_write by lia. split; [do 3 f_equal; lia|].
  rewrite take_app_length, decode_rfc4648. split; [done|].
  split; [by rewrite lookup_app_r, Nat.sub_diag|].
  autorewrite with httpoll_rw. lia.
Qed.

Lemma base64_decodes_witness :
  exists dst' m, base64_encode [xff; x00] 2 (repeat NUL 6) (Some 5) = Ok (-1, dst', Some (Z.of_nat m + 1)) /\
    decode (take m dst') = Some [xff; x00] /\ dst' !! m = Some NUL /\ length dst' = 6%nat.
Proof. apply (base64_decodes [xff; x00] (repeat NUL 6) 5); cbn; lia. Defined.
