(* ===== verification/WsFrame.v ===== *)
(** * WebSocket frames: src/hpl_websocket_utils.cc and the frame reader of
      src/hpl_websocket_connection.cc

    [MakeWebsocketHeader] writes the header of an outgoing frame; [read_frame] is
    the part of [WebsocketConnection::Read] that takes the received bytes apart
    in place.  The code checks no length: a read or write outside the received
    bytes is a fault. *)

From S2P Require Import Prelude.

(** ** Frame types (src/hpl_request_handler.h)

    An unscoped enumeration that is also built from any 4-bit opcode. *)
Module WsFrameType.

Definition kTypeContinuation : Z := 0.
Definition kTypeText : Z := 1.
Definition kTypeBinary : Z := 2.
Definition kTypeClose : Z := 8.
Definition kTypePing : Z := 9.
Definition kTypePong : Z := 10.

End WsFrameType.
Import WsFrameType.

(** ** Outgoing headers *)

(** Assignment to an element of [char header[16]]. *)
Definition set_header (i : nat) (v : Z) (header : bytes) : bytes := <[i := z2b v]> header.

Definition MakeWebsocketHeader (message_length : Z) (type : Z) : bytes * Z :=
  let header := replicate 16 NUL in
  let header := set_header 0 (Z.lor 0x80 type) header in
  if message_length <? 126 then
    let header := set_header 1 message_length header in
    (header, 2)
  else if message_length <? 0xffff then
    let header := set_header 1 126 header in
    let header := set_header 2 (Z.land (Z.shiftr message_length 8) 0xff) header in
    let header := set_header 3 (Z.land message_length 0xff) header in
    (header, 4)
  else
    let header := set_header 1 127 header in
    let header := set_header 2 (Z.land (Z.shiftr message_length 56) 0xff) header in
    let header := set_header 3 (Z.land (Z.shiftr message_length 48) 0xff) header in
    let header := set_header 4 (Z.land (Z.shiftr message_length 40) 0xff) header in
    (header, 6).

(** The bytes the callers send: the first [header_size] of the array. *)
Definition header_bytes (h : bytes * Z) : bytes := take (Z.to_nat h.2) h.1.

(** ** Incoming frames *)

Definition byte_at (buf : bytes) (i : nat) : outcome Z :=
  c ← of_option OutOfBounds (buf !! i); Ok (b2z c).

(** [ntohs] of a 2-byte load. *)
Definition load_be16 (buf : bytes) (i : nat) : outcome Z :=
  b0 ← byte_at buf i; b1 ← byte_at buf (i + 1);
  Ok (b0 * 2 ^ 8 + b1).

(** [ntohl] of the low half of an 8-byte load: the code dereferences a
    [uint64_t] pointer, so all the eight bytes are read. *)
Definition load_be32_of_64 (buf : bytes) (i : nat) : outcome Z :=
  b0 ← byte_at buf i; b1 ← byte_at buf (i + 1);
  b2 ← byte_at buf (i + 2); b3 ← byte_at buf (i + 3);
  _ ← byte_at buf (i + 7);
  Ok (b0 * 2 ^ 24 + b1 * 2 ^ 16 + b2 * 2 ^ 8 + b3).

Definition xor_byte (a b : byte) : byte := z2b (Z.lxor (b2z a) (b2z b)).

(** [for (i = 0; i < payload_len && header->mask; ++i) buf[offset + i] ^= mask[i & 3]]. *)
Fixpoint unmask_loop (fuel : nat) (mask : bytes) (offset i : nat) (payload_len : Z) (buf : bytes)
  : outcome bytes :=
  match fuel with
  | O => OutOfFuel
  | S fuel =>
      if Z.of_nat i <? payload_len then
        c ← of_option OutOfBounds (buf !! (offset + i)%nat);
        m ← of_option OutOfBounds (mask !! Z.to_nat (Z.land (Z.of_nat i) 3));
        unmask_loop fuel mask offset (i + 1) payload_len
          (<[(offset + i)%nat := xor_byte c m]> buf)
      else Ok buf
  end.

Record frame := Frame {
  opcode : Z;
  fin : bool;
  payload : bytes
}.

(** The payload length and the offset of what follows it. *)
Definition read_length (buf : bytes) (payload_prefix : Z) : outcome (Z * nat) :=
  if payload_prefix =? 126
  then n ← load_be16 buf 2; Ok (n, 4%nat)
  else if payload_prefix =? 127
  then l ← load_be32_of_64 buf 2;
       h ← load_be32_of_64 buf (2 + 4);
       Ok (Z.lor (Z.shiftl h 32) l, 10%nat)
  else Ok (payload_prefix, 2%nat).

(** The masking key is copied and the payload unmasked in place. *)
Definition unmask (buf : bytes) (has_mask : bool) (offset : nat) (payload_len : Z)
  : outcome (bytes * nat) :=
  if has_mask
  then _ ← byte_at buf (offset + 3);
       let mask := take 4 (drop offset buf) in
       buf ← unmask_loop (S (length buf)) mask (offset + 4) 0 payload_len buf;
       Ok (buf, (offset + 4)%nat)
  else Ok (buf, offset).

(** The payload is the part of the buffer that the code appends to
    [last_payload_] and echoes in a pong. *)
Definition read_frame (buf : bytes) : outcome frame :=
  b0 ← byte_at buf 0;
  b1 ← byte_at buf 1;
  '(payload_len, offset) ← read_length buf (Z.land b1 127);
  '(buf, offset) ← unmask buf (Z.testbit b1 7) offset payload_len;
  if Z.of_nat offset + payload_len <=? Z.of_nat (length buf)
  then Ok (Frame (Z.land b0 15) (Z.testbit b0 7) (take (Z.to_nat payload_len) (drop offset buf)))
  else Fault OutOfBounds.

(** ** The reference: RFC 6455, section 5.2 *)

(** Big-endian numbers. *)
Fixpoint be_bytes (n : nat) (v : Z) : bytes :=
  match n with
  | O => []
  | S n => z2b (v / 2 ^ (8 * Z.of_nat n)) :: be_bytes n v
  end.

Definition be_value (l : bytes) : Z := fold_left (fun acc c => acc * 256 + b2z c) l 0.

(** The shortest of the three length encodings, with the mask bit [m]. *)
Definition rfc_length (m : bool) (len : Z) : bytes :=
  let b := if m then 128 else 0 in
  if len <? 126 then [z2b (b + len)]
  else if len <? 2 ^ 16 then z2b (b + 126) :: be_bytes 2 len
  else z2b (b + 127) :: be_bytes 8 len.

Definition rfc_first (f : bool) (op : Z) : byte := z2b ((if f then 128 else 0) + op).

Fixpoint mask_from (i : nat) (key data : bytes) : bytes :=
  match data with
  | [] => []
  | c :: r => xor_byte c (default NUL (key !! (i mod 4)%nat)) :: mask_from (i + 1) key r
  end.

(** A frame as a client sends it (masked) and as a server sends it. *)
Definition client_frame (f : bool) (op : Z) (key data : bytes) : bytes :=
  rfc_first f op :: rfc_length true (Z.of_nat (length data)) ++ key ++ mask_from 0 key data.
Definition server_frame (f : bool) (op : Z) (data : bytes) : bytes :=
  rfc_first f op :: rfc_length false (Z.of_nat (length data)) ++ data.

(** What a client that follows the RFC reads from the front of a stream: FIN, opcode, payload
    length and the offset of the payload, for an unmasked frame. *)
Definition rfc_read (s : bytes) : option (bool * Z * Z * nat) :=
  match s with
  | b0 :: b1 :: r =>
      let head len off := Some (Z.testbit (b2z b0) 7, Z.land (b2z b0) 15, len, off) in
      if b2z b1 =? 126 then
        if (2 <=? length r)%nat then head (be_value (take 2 r)) 4%nat else None
      else if b2z b1 =? 127 then
        if (8 <=? length r)%nat then head (be_value (take 8 r)) 10%nat else None
      else if b2z b1 <? 126 then head (b2z b1) 2%nat
      else None
  | _ => None
  end.

(** The example frames of RFC 6455, section 5.7. *)
Example rfc_hello :
  client_frame true kTypeText [x37; xfa; x21; x3d] (str "Hello") =
    [x81; x85; x37; xfa; x21; x3d; x7f; x9f; x4d; x51; x58] /\
  server_frame true kTypeText (str "Hello") = [x81; x05] ++ str "Hello" /\
  read_frame [x81; x85; x37; xfa; x21; x3d; x7f; x9f; x4d; x51; x58] =
    Ok (Frame kTypeText true (str "Hello")) /\
  header_bytes (MakeWebsocketHeader 5 kTypeText) = [x81; x05].
Proof. vm_compute. done. Qed.

(** ** Lemmas: loads *)

Lemma byte_at_lookup buf i c : buf !! i = Some c -> byte_at buf i = Ok (b2z c).
Proof. intros H. unfold byte_at. by rewrite H. Qed.

Lemma byte_at_fault buf i : (length buf <= i)%nat -> byte_at buf i = Fault OutOfBounds.
Proof. intros H. unfold byte_at. by rewrite lookup_ge_None_2. Qed.

(** The first bytes of a part of the buffer. *)
Lemma drop_cons {A} (l : list A) i :
  (i < length l)%nat -> exists x, l !! i = Some x /\ drop i l = x :: drop (S i) l.
Proof.
  intros H. destruct (lookup_lt_is_Some_2 _ _ H) as [x Hx]. exists x. split; [done|].
  by apply drop_S.
Qed.

Lemma load_be16_spec buf i :
  load_be16 buf i =
    if (i + 2 <=? length buf)%nat then Ok (be_value (take 2 (drop i buf))) else Fault OutOfBounds.
Proof.
  unfold load_be16. case_test.
  - destruct (drop_cons buf i) as (b0 & H0 & ->); [lia|].
    destruct (drop_cons buf (S i)) as (b1 & H1 & ->); [lia|].
    rewrite (byte_at_lookup _ _ _ H0). replace (i + 1)%nat with (S i) by lia.
    rewrite (byte_at_lookup _ _ _ H1). cbn. f_equal.
  - unfold byte_at. rewrite (lookup_ge_None_2 buf (i + 1)) by lia. by destruct (buf !! i).
Qed.

Lemma load_be32_of_64_spec buf i :
  load_be32_of_64 buf i =
    if (i + 8 <=? length buf)%nat then Ok (be_value (take 4 (drop i buf))) else Fault OutOfBounds.
Proof.
  unfold load_be32_of_64. case_test.
  - destruct (drop_cons buf i) as (b0 & H0 & ->); [lia|].
    destruct (drop_cons buf (S i)) as (b1 & H1 & ->); [lia|].
    destruct (drop_cons buf (S (S i))) as (b2 & H2 & ->); [lia|].
    destruct (drop_cons buf (S (S (S i)))) as (b3 & H3 & ->); [lia|].
    destruct (drop_cons buf (i + 7)) as (b7 & H7 & _); [lia|].
    replace (i + 1)%nat with (S i) by lia. replace (i + 2)%nat with (S (S i)) by lia.
    replace (i + 3)%nat with (S (S (S i))) by lia.
    rewrite (byte_at_lookup _ _ _ H0), (byte_at_lookup _ _ _ H1), (byte_at_lookup _ _ _ H2),
      (byte_at_lookup _ _ _ H3), (byte_at_lookup _ _ _ H7).
    unfold be_value. cbn [take fold_left mbind outcome_bind]. rewrite take_0. cbn [fold_left]. f_equal. lia.
  - unfold byte_at. rewrite (lookup_ge_None_2 buf (i + 7)) by lia.
    by destruct (buf !! i), (buf !! (i + 1)%nat), (buf !! (i + 2)%nat), (buf !! (i + 3)%nat).
Qed.

(** ** Lemmas: unmasking *)

Lemma mask_from_length i key data : length (mask_from i key data) = length data.
Proof. revert i. induction data as [|c r IH]; intros i; cbn; [done|]. by rewrite IH. Qed.

Lemma b2z_xor_byte c m : b2z (xor_byte c m) = Z.lxor (b2z c) (b2z m).
Proof.
  unfold xor_byte. rewrite b2z_z2b. pose proof (b2z_range c). pose proof (b2z_range m).
  assert (0 <= Z.lxor (b2z c) (b2z m)) by (apply Z.lxor_nonneg; lia).
  apply Z.mod_small. split; [done|]. apply Z.nle_gt. intros Hge.
  assert (H8 : Z.shiftr (Z.lxor (b2z c) (b2z m)) 8 = 0).
  { rewrite Z.shiftr_lxor, !Z.shiftr_div_pow2, !Z.div_small by lia. done. }
  rewrite Z.shiftr_div_pow2 in H8 by lia. Z.div_mod_to_equations; lia.
Qed.

Lemma xor_byte_involutive c m : xor_byte (xor_byte c m) m = c.
Proof.
  apply b2z_inj. by rewrite !b2z_xor_byte, Z.lxor_assoc, Z.lxor_nilpotent, Z.lxor_0_r.
Qed.

Lemma mask_from_involutive i key data : mask_from i key (mask_from i key data) = data.
Proof.
  revert i. induction data as [|c r IH]; intros i; cbn; [done|]. by rewrite xor_byte_involutive, IH.
Qed.

Lemma key_index i : Z.to_nat (Z.land (Z.of_nat i) 3) = (i mod 4)%nat.
Proof.
  change 3 with (Z.ones 2). rewrite Z.land_ones by lia. change (2 ^ 2) with (Z.of_nat 4).
  by rewrite <- Nat2Z.inj_mod, Nat2Z.id.
Qed.

Lemma key_lookup key i : length key = 4%nat -> key !! (i mod 4)%nat = Some (default NUL (key !! (i mod 4)%nat)).
Proof.
  intros Hk. pose proof (Nat.mod_upper_bound i 4).
  destruct (lookup_lt_is_Some_2 key (i mod 4)) as [m ->]; [lia|done].
Qed.

Section unmask_loop.
Context (key : bytes) (offset : nat).
Hypothesis (Hkey : length key = 4%nat).

Lemma unmask_loop_step fuel i len buf c :
  Z.of_nat i < len -> buf !! (offset + i)%nat = Some c ->
  unmask_loop (S fuel) key offset i len buf =
    unmask_loop fuel key offset (i + 1) len
      (<[(offset + i)%nat := xor_byte c (default NUL (key !! (i mod 4)%nat))]> buf).
Proof.
  intros Hi Hc. cbn [unmask_loop]. rewrite (proj2 (Z.ltb_lt _ _)) by done.
  rewrite Hc, key_index, key_lookup by done. done.
Qed.

(** A payload that is all there is unmasked in place. *)
Lemma unmask_loop_payload data : forall fuel i len pre post,
  (length data < fuel)%nat -> length pre = (offset + i)%nat ->
  len = Z.of_nat (i + length data) ->
  unmask_loop fuel key offset i len (pre ++ data ++ post) = Ok (pre ++ mask_from i key data ++ post).
Proof.
  induction data as [|c r IH]; intros [|fuel] i len pre post Hf Hp ->; cbn [length] in *; try lia.
  - cbn [unmask_loop]. by rewrite (proj2 (Z.ltb_ge _ _)) by lia.
  - rewrite unmask_loop_step with (c := c); [|lia|].
    + cbn [app mask_from]. rewrite insert_app_r_alt by lia.
      replace (offset + i - length pre)%nat with 0%nat by lia. cbn [insert list_insert].
      rewrite cons_middle, (app_assoc pre), IH; [by rewrite <- app_assoc|lia| |lia].
      rewrite length_app. cbn. lia.
    + rewrite lookup_app_r by lia. by replace (offset + i - length pre)%nat with 0%nat by lia.
Qed.

(** One that is not runs over the end of the buffer. *)
Lemma unmask_loop_overrun n : forall fuel i len buf,
  length buf = (offset + i + n)%nat -> (n < fuel)%nat ->
  Z.of_nat (length buf) < Z.of_nat offset + len ->
  unmask_loop fuel key offset i len buf = Fault OutOfBounds.
Proof.
  induction n as [|n IH]; intros [|fuel] i len buf Hl Hf Hlen; try lia.
  - cbn [unmask_loop]. rewrite (proj2 (Z.ltb_lt _ _)) by lia.
    by rewrite (lookup_ge_None_2 buf) by lia.
  - assert (is_Some (buf !! (offset + i)%nat)) as [c Hc] by (apply lookup_lt_is_Some_2; lia).
    rewrite unmask_loop_step with (c := c); [|lia|done].
    apply IH; rewrite ?length_insert; lia.
Qed.
End unmask_loop.

(** ** What [read_frame] computes *)

Lemma be_value_acc l : forall acc,
  fold_left (fun acc c => acc * 256 + b2z c) l acc = acc * 256 ^ Z.of_nat (length l) + be_value l.
Proof.
  unfold be_value. induction l as [|c r IH]; intros acc; cbn [fold_left length].
  - rewrite Z.pow_0_r. lia.
  - rewrite IH, (IH (0 * 256 + b2z c)), Nat2Z.inj_succ, Z.pow_succ_r by lia. lia.
Qed.

Lemma be_value_cons c l : be_value (c :: l) = b2z c * 256 ^ Z.of_nat (length l) + be_value l.
Proof. unfold be_value at 1. cbn [fold_left]. by rewrite be_value_acc. Qed.

Lemma be_value_range l : 0 <= be_value l < 256 ^ Z.of_nat (length l).
Proof.
  induction l as [|c r IH]; [done|]. rewrite be_value_cons. cbn [length].
  rewrite Nat2Z.inj_succ, Z.pow_succ_r by lia. pose proof (b2z_range c). nia.
Qed.

(** The bytes the code reads before it knows the length, where the length ends, and the length
    it takes from them. *)
Definition length_reads (prefix : Z) : nat :=
  if prefix =? 126 then 4 else if prefix =? 127 then 14 else 2.
Definition length_end (prefix : Z) : nat :=
  if prefix =? 126 then 4 else if prefix =? 127 then 10 else 2.
Definition code_length (prefix : Z) (buf : bytes) : Z :=
  if prefix =? 126 then be_value (take 2 (drop 2 buf))
  else if prefix =? 127
  then be_value (take 4 (drop 6 buf)) * 2 ^ 32 + be_value (take 4 (drop 2 buf))
  else prefix.

Lemma be_value_take n l : (n <= length l)%nat -> 0 <= be_value (take n l) < 256 ^ Z.of_nat n.
Proof.
  intros H. pose proof (be_value_range (take n l)) as R. rewrite length_take in R.
  by replace (n `min` length l)%nat with n in R by lia.
Qed.

Lemma read_length_spec buf prefix :
  (2 <= length buf)%nat ->
  read_length buf prefix =
    if (length_reads prefix <=? length buf)%nat
    then Ok (code_length prefix buf, length_end prefix) else Fault OutOfBounds.
Proof.
  intros Hl. unfold read_length, length_reads, code_length, length_end.
  destruct (prefix =? 126); [|destruct (prefix =? 127)].
  - rewrite load_be16_spec. change (2 + 2)%nat with 4%nat. by case_test.
  - rewrite !load_be32_of_64_spec. repeat (case_test; cbn [mbind outcome_bind]); try done.
    do 2 f_equal. apply lor_shiftl_add; [lia|].
    pose proof (be_value_take 4 (drop 2 buf)) as R. rewrite length_drop in R. apply R. lia.
  - by case_test.
Qed.

Lemma code_length_nonneg prefix buf : 0 <= prefix -> 0 <= code_length prefix buf.
Proof.
  intros H. unfold code_length. pose proof (be_value_range (take 2 (drop 2 buf))).
  pose proof (be_value_range (take 4 (drop 6 buf))). pose proof (be_value_range (take 4 (drop 2 buf))).
  repeat case_match; lia.
Qed.

(** The masked payload of a buffer that holds all of it. *)
Lemma unmask_spec buf offset len :
  (offset + 4 <= length buf)%nat -> 0 <= len ->
  let key := take 4 (drop offset buf) in
  let data := take (Z.to_nat len) (drop (offset + 4) buf) in
  unmask buf true offset len =
    if Z.of_nat (offset + 4) + len <=? Z.of_nat (length buf)
    then Ok (take (offset + 4) buf ++ mask_from 0 key data ++ drop (offset + 4 + Z.to_nat len) buf,
             (offset + 4)%nat)
    else Fault OutOfBounds.
Proof.
  intros Ho Hlen key data. unfold unmask.
  assert (Hk : length key = 4%nat) by (unfold key; rewrite length_take, length_drop; lia).
  destruct (drop_cons buf (offset + 3)) as (c & Hc & _); [lia|].
  rewrite (byte_at_lookup _ _ _ Hc). cbn [mbind outcome_bind]. fold key.
  destruct (Z.leb_spec (Z.of_nat (offset + 4) + len) (Z.of_nat (length buf))).
  - assert (Hd : length data = Z.to_nat len) by (unfold data; rewrite length_take, length_drop; lia).
    assert (E : buf = take (offset + 4) buf ++ data ++ drop (offset + 4 + Z.to_nat len) buf).
    { unfold data. by rewrite <- (drop_drop buf _ (offset + 4)), !take_drop. }
    rewrite E at 2. rewrite unmask_loop_payload; [done|done| | |]; rewrite ?length_take; lia.
  - rewrite (unmask_loop_overrun key (offset + 4) Hk (length buf - (offset + 4))); [done|lia..].
Qed.

Definition frame_data (buf : bytes) (has_mask : bool) (offset : nat) (len : Z) : bytes :=
  let data off := take (Z.to_nat len) (drop off buf) in
  if has_mask then mask_from 0 (take 4 (drop offset buf)) (data (offset + 4)%nat) else data offset.

Lemma read_frame_spec b0 b1 r :
  let buf := b0 :: b1 :: r in
  let prefix := Z.land (b2z b1) 127 in
  let has_mask := Z.testbit (b2z b1) 7 in
  let len := code_length prefix buf in
  let size := Z.of_nat (length_end prefix) + (if has_mask then 4 else 0) + len in
  read_frame buf =
    if (length_reads prefix <=? length buf)%nat && (size <=? Z.of_nat (length buf))
    then Ok (Frame (Z.land (b2z b0) 15) (Z.testbit (b2z b0) 7)
               (frame_data buf has_mask (length_end prefix) len))
    else Fault OutOfBounds.
Proof.
  intros buf prefix has_mask len size. unfold read_frame.
  change (byte_at buf 0) with (Ok (b2z b0)). change (byte_at buf 1) with (Ok (b2z b1)).
  cbn [mbind outcome_bind]. fold prefix has_mask.
  rewrite read_length_spec by (cbn; lia).
  case_test; [|done]. cbn [mbind outcome_bind andb]. fold len.
  assert (0 <= len).
  { apply code_length_nonneg. apply Z.land_nonneg. pose proof (b2z_range b1). lia. }
  unfold size, frame_data. destruct has_mask.
  - destruct (Nat.leb_spec (length_end prefix + 4) (length buf)).
    + rewrite unmask_spec by done. case_tests; cbn [mbind outcome_bind]; [|done].
      set (d := mask_from _ _ _).
      assert (Hd : length d = Z.to_nat len)
        by (unfold d; rewrite mask_from_length, length_take, length_drop; lia).
      assert (Ht : length (take (length_end prefix + 4) buf) = (length_end prefix + 4)%nat)
        by (rewrite length_take; lia).
      autorewrite with httpoll_rw. rewrite Hd. case_test.
      rewrite drop_app_len, take_app_len by done. done.
    + unfold unmask. rewrite byte_at_fault by lia. by case_test.
  - cbn [unmask mbind outcome_bind]. rewrite Z.add_0_r. by case_test.
Qed.

(** ** Lemmas: the reference *)

Lemma rfc_first_bits f op :
  0 <= op < 16 ->
  Z.land (b2z (rfc_first f op)) 15 = op /\ Z.testbit (b2z (rfc_first f op)) 7 = f.
Proof.
  apply (Z_range_check 16 (fun op => Z.land (b2z (rfc_first f op)) 15 = op /\
                                     Z.testbit (b2z (rfc_first f op)) 7 = f)).
  destruct f; reflexivity.
Qed.

(** The second byte of a frame: the mask bit and a 7-bit length code. *)
Definition second (m : bool) (code : Z) : byte := z2b ((if m then 128 else 0) + code).

Lemma second_bits m code :
  0 <= code < 128 ->
  Z.land (b2z (second m code)) 127 = code /\ Z.testbit (b2z (second m code)) 7 = m.
Proof.
  apply (Z_range_check 128 (fun code => Z.land (b2z (second m code)) 127 = code /\
                                     Z.testbit (b2z (second m code)) 7 = m)).
  destruct m; vm_compute; reflexivity.
Qed.

Lemma be_bytes_length n v : length (be_bytes n v) = n.
Proof. induction n as [|n IH]; cbn [be_bytes length]; [done|]. by rewrite IH. Qed.

Lemma be_value_be_bytes n v : be_value (be_bytes n v) = v mod 256 ^ Z.of_nat n.
Proof.
  induction n as [|n IH]; [by rewrite Z.mod_1_r|].
  cbn [be_bytes]. rewrite be_value_cons, be_bytes_length, IH, b2z_z2b.
  rewrite Nat2Z.inj_succ, Z.pow_succ_r, (Z.mul_comm 256) by lia.
  replace (2 ^ (8 * Z.of_nat n)) with (256 ^ Z.of_nat n) by (rewrite Z.pow_mul_r by lia; done).
  rewrite Z.rem_mul_r by lia. lia.
Qed.

Lemma be_bytes_app n k v :
  be_bytes (n + k) v = be_bytes n (v / 2 ^ (8 * Z.of_nat k)) ++ be_bytes k v.
Proof.
  induction n as [|n IH]; [done|]. cbn [Nat.add be_bytes app]. rewrite IH. f_equal. f_equal.
  rewrite Z.div_div by (apply Z.pow_nonzero || apply Z.pow_pos_nonneg; lia).
  rewrite <- Z.pow_add_r by lia. do 2 f_equal. lia.
Qed.

(** The length of a frame as a 7-bit code and the bytes that follow it. *)
Definition length_code (len : Z) : Z :=
  if len <? 126 then len else if len <? 2 ^ 16 then 126 else 127.
Definition length_ext (len : Z) : bytes :=
  if len <? 126 then [] else if len <? 2 ^ 16 then be_bytes 2 len else be_bytes 8 len.

Lemma rfc_length_eq m len : rfc_length m len = second m (length_code len) :: length_ext len.
Proof. unfold rfc_length, length_code, length_ext, second. by repeat case_match. Qed.

Lemma length_code_range len : 0 <= len -> 0 <= length_code len < 128.
Proof. intros. unfold length_code. case_tests; lia. Qed.

Lemma length_end_ext len : length_end (length_code len) = (2 + length (length_ext len))%nat.
Proof.
  unfold length_end, length_code, length_ext. by repeat (case_test; try done).
Qed.

Lemma length_reads_ext len :
  length_reads (length_code len) = (length_end (length_code len) + if (len <? 2 ^ 16)%Z then 0 else 4)%nat.
Proof. unfold length_reads, length_end, length_code. by case_tests. Qed.

(** The 32-bit halves of a 64-bit number, exchanged. *)
Definition swap_halves (v : Z) : Z := v mod 2 ^ 32 * 2 ^ 32 + v / 2 ^ 32.

Lemma code_length_ext len b0 b1 rest :
  0 <= len < 2 ^ 64 ->
  code_length (length_code len) (b0 :: b1 :: length_ext len ++ rest) =
    if len <? 2 ^ 16 then len else swap_halves len.
Proof.
  intros Hlen. unfold code_length, length_code, length_ext. cbn [drop].
  destruct (Z.ltb_spec len 126); [case_tests|destruct (Z.ltb_spec len (2 ^ 16))].
  - change (126 =? 126) with true. cbv iota.
    rewrite drop_0, take_app_len, be_value_be_bytes by (by rewrite be_bytes_length).
    change (256 ^ Z.of_nat 2) with (2 ^ 16). apply Z.mod_small. lia.
  - change (127 =? 126) with false. change (127 =? 127) with true. cbv iota.
    change (be_bytes 8 len) with (be_bytes (4 + 4) len). rewrite be_bytes_app, <- app_assoc.
    rewrite drop_0, drop_app_len by (by rewrite be_bytes_length).
    rewrite !take_app_len by (by rewrite be_bytes_length). rewrite !be_value_be_bytes.
    change (256 ^ Z.of_nat 4) with (2 ^ 32). change (8 * Z.of_nat 4) with 32.
    unfold swap_halves. f_equal. apply Z.mod_small. Z.div_mod_to_equations; lia.
Qed.

(** A frame of the reference, in front of anything. *)
Definition wire_frame (m f : bool) (op len : Z) (rest : bytes) : bytes :=
  rfc_first f op :: second m (length_code len) :: length_ext len ++ rest.

Lemma client_frame_wire f op key data rest :
  client_frame f op key data ++ rest =
    wire_frame true f op (Z.of_nat (length data)) (key ++ mask_from 0 key data ++ rest).
Proof.
  unfold client_frame, wire_frame. rewrite rfc_length_eq. cbn [app]. by rewrite <- !app_assoc.
Qed.

Lemma server_frame_wire f op data rest :
  server_frame f op data ++ rest = wire_frame false f op (Z.of_nat (length data)) (data ++ rest).
Proof.
  unfold server_frame, wire_frame. rewrite rfc_length_eq. cbn [app]. by rewrite <- !app_assoc.
Qed.

(** [read_frame] on a frame of the reference: the length is understood below 2^16 and
    otherwise has its halves exchanged. *)
Lemma read_frame_wire m f op len rest :
  0 <= op < 16 -> 0 <= len < 2 ^ 64 ->
  let n := if len <? 2 ^ 16 then len else swap_halves len in
  let more := (if (len <? 2 ^ 16)%Z then 0 else 4)%nat in
  read_frame (wire_frame m f op len rest) =
    if (more <=? length rest)%nat && ((if m then 4 else 0) + n <=? Z.of_nat (length rest))
    then Ok (Frame op f (frame_data rest m 0 n)) else Fault OutOfBounds.
Proof.
  intros Hop Hlen n more. unfold wire_frame.
  rewrite read_frame_spec.
  destruct (rfc_first_bits f op Hop) as [-> ->].
  destruct (second_bits m (length_code len) (length_code_range len (proj1 Hlen))) as [-> ->].
  rewrite code_length_ext by done. fold n.
  set (ext := length_ext len).
  assert (He : length_end (length_code len) = (2 + length ext)%nat) by apply length_end_ext.
  rewrite length_reads_ext, He. fold more. cbn [length]. rewrite length_app.
  replace (2 + length ext + more <=? S (S (length ext + length rest)))%nat
    with (more <=? length rest)%nat.
  2:{ destruct (Nat.leb_spec more (length rest)), (Nat.leb_spec (2 + length ext + more)
        (S (S (length ext + length rest)))); lia. }
  replace (Z.of_nat (2 + length ext) + (if m then 4 else 0) + n <=?
           Z.of_nat (S (S (length ext + length rest))))
    with ((if m then 4 else 0) + n <=? Z.of_nat (length rest)).
  2:{ apply eq_true_iff_eq. rewrite !Z.leb_le. lia. }
  destruct (_ && _); [|done]. do 2 f_equal. unfold frame_data.
  change (rfc_first f op :: second m (length_code len) :: ext ++ rest)
    with (([rfc_first f op; second m (length_code len)] ++ ext) ++ rest).
  assert (Hd : forall k, drop (2 + length ext + k) (([rfc_first f op; second m (length_code len)] ++ ext) ++ rest)
                = drop k rest).
  { intros k. rewrite <- drop_drop, drop_app_len by done. done. }
  rewrite Hd. rewrite <- (Nat.add_0_r (2 + length ext)), !Hd. done.
Qed.

(** A cut header is read beyond its end. *)
Lemma read_frame_cut_header m f op len rest n :
  0 <= op < 16 -> 0 <= len < 2 ^ 64 -> (n < 2 + length (length_ext len))%nat ->
  read_frame (take n (wire_frame m f op len rest)) = Fault OutOfBounds.
Proof.
  intros Hop Hlen Hn. unfold wire_frame. destruct n as [|[|n]]; [done..|]. cbn [take].
  rewrite read_frame_spec.
  destruct (second_bits m (length_code len) (length_code_range len (proj1 Hlen))) as [-> _].
  rewrite length_reads_ext, length_end_ext. cbn [length].
  rewrite take_app_le by lia. rewrite length_take.
  rewrite (proj2 (Nat.leb_gt _ _)) by lia. done.
Qed.

Lemma frame_data_full m key data rest :
  length key = 4%nat ->
  frame_data ((if m : bool then key else []) ++ (if m then mask_from 0 key data else data) ++ rest)
    m 0 (Z.of_nat (length data)) = data.
Proof.
  intros Hk. unfold frame_data. destruct m; cbn [app]; rewrite ?drop_0, Nat2Z.id.
  - rewrite Nat.add_0_l, drop_app_len, !take_app_len by (by rewrite ?mask_from_length).
    apply mask_from_involutive.
  - by apply take_app_len.
Qed.

(** A frame of either kind. *)
Definition sent_frame (m f : bool) (op : Z) (key data : bytes) : bytes :=
  if m then client_frame f op key data else server_frame f op data.

Lemma sent_frame_wire m f op key data rest :
  sent_frame m f op key data ++ rest =
    wire_frame m f op (Z.of_nat (length data))
      ((if m then key else []) ++ (if m then mask_from 0 key data else data) ++ rest).
Proof. destruct m; [apply client_frame_wire | exact (server_frame_wire f op data rest)]. Qed.

Lemma sent_frame_length m f op key data :
  length key = 4%nat ->
  length (sent_frame m f op key data) =
    (2 + length (length_ext (Z.of_nat (length data))) + (if m then 4 else 0) + length data)%nat.
Proof.
  intros Hk. rewrite <- (app_nil_r (sent_frame m f op key data)), sent_frame_wire.
  unfold wire_frame. cbn [length]. rewrite app_nil_r, !length_app.
  destruct m; rewrite ?mask_from_length; cbn; lia.
Qed.

(** A complete frame is read, whatever follows it. *)
Lemma read_frame_sent m f op key data rest :
  0 <= op < 16 -> length key = 4%nat -> Z.of_nat (length data) < 2 ^ 16 ->
  read_frame (sent_frame m f op key data ++ rest) = Ok (Frame op f data).
Proof.
  intros Hop Hk Hlen.
  rewrite sent_frame_wire, read_frame_wire, (proj2 (Z.ltb_lt _ _)) by lia. cbn [Nat.leb andb].
  rewrite frame_data_full by done.
  rewrite (proj2 (Z.leb_le _ _)); [done|].
  rewrite !length_app. destruct m; rewrite ?mask_from_length, ?Hk; cbn [length]; lia.
Qed.

(** ** Claims *)

(** Claim C15. A frame of RFC 6455 with less than 2^16 bytes of payload, masked or not, whatever
    follows it in the buffer, is read as its opcode, its FIN bit and its unmasked payload;
    of the same frame with any number of bytes missing at the end, the code reads beyond the
    received bytes, since it checks no length. *)
Theorem frame_decoded m f op key data rest :
  0 <= op < 16 -> length key = 4%nat -> Z.of_nat (length data) < 2 ^ 16 ->
  read_frame (sent_frame m f op key data ++ rest) = Ok (Frame op f data) /\
  forall n, (n < length (sent_frame m f op key data))%nat ->
    read_frame (take n (sent_frame m f op key data)) = Fault OutOfBounds.
Proof.
  intros Hop Hk Hlen. split.
  - by apply read_frame_sent.
  - intros n Hn. pose proof (sent_frame_length m f op key data Hk) as Hl.
    pose proof (sent_frame_wire m f op key data []) as E. rewrite app_nil_r in E.
    rewrite E. destruct (Nat.ltb_spec n (2 + length (length_ext (Z.of_nat (length data))))) as [|Hge].
    { apply read_frame_cut_header; lia. }
    unfold wire_frame. replace n with (2 + (n - 2))%nat by lia. cbn [Nat.add take].
    rewrite take_app_ge by lia. set (r := take _ _).
    assert (Hr : (length r < (if m then 4 else 0) + length data)%nat).
    { unfold r. rewrite length_take, !length_app. destruct m; rewrite ?mask_from_length; cbn [length] in *; lia. }
    change (read_frame (wire_frame m f op (Z.of_nat (length data)) r) = Fault OutOfBounds).
    rewrite read_frame_wire, (proj2 (Z.ltb_lt _ _)) by lia. cbn [Nat.leb andb].
    rewrite (proj2 (Z.leb_gt _ _)); [done|]. destruct m; lia.
Qed.

Lemma frame_decoded_witness :
  read_frame (sent_frame true false kTypeText [x01; x02; x03; x04] (str "abcde") ++ str "next") =
    Ok (Frame kTypeText false (str "abcde")) /\
  forall n, (n < 11)%nat ->
    read_frame (take n (sent_frame true false kTypeText [x01; x02; x03; x04] (str "abcde"))) =
      Fault OutOfBounds.
Proof.
  apply (frame_decoded true false kTypeText [x01; x02; x03; x04] (str "abcde") (str "next"));
    cbn; done.
Defined.

(** Claim C37. A frame with 2^16 bytes of payload or more (but less than 2^32) never gets
    through: the halves of its 64-bit length are exchanged, so that the announced length
    exceeds any buffer of less than 2^48 bytes and the code runs over its end, however
    complete the frame is. *)
Theorem long_frame_overrun m f op key data rest :
  0 <= op < 16 -> length key = 4%nat -> 2 ^ 16 <= Z.of_nat (length data) < 2 ^ 32 ->
  Z.of_nat (length (sent_frame m f op key data ++ rest)) < 2 ^ 48 ->
  read_frame (sent_frame m f op key data ++ rest) = Fault OutOfBounds.
Proof.
  intros Hop Hk Hlen. rewrite sent_frame_wire. intros Hbuf.
  rewrite read_frame_wire, (proj2 (Z.ltb_ge _ _)) by lia.
  unfold wire_frame in Hbuf. cbn [length] in Hbuf. rewrite length_app in Hbuf.
  rewrite (proj2 (Z.leb_gt _ _)); [by rewrite andb_false_r|].
  unfold swap_halves. rewrite Z.mod_small, Z.div_small by lia. destruct m; lia.
Qed.

Lemma long_frame_overrun_witness :
  read_frame (sent_frame false true kTypeText [x00; x00; x00; x00] (replicate (Z.to_nat 65536) NUL) ++ []) =
    Fault OutOfBounds.
Proof.
  apply long_frame_overrun; rewrite ?length_app, ?length_replicate; try done.
Defined.

Lemma z2b_land_255 v : z2b (Z.land v 0xff) = z2b v.
Proof.
  apply b2z_inj. rewrite !b2z_z2b. change 0xff with (Z.ones 8). rewrite Z.land_ones by lia.
  change (2 ^ 8) with 256. apply Zmod_mod.
Qed.

Lemma lor_fin type : 0 <= type < 16 -> Z.lor 0x80 type = 128 + type.
Proof.
  apply (Z_range_check 16 (fun type => Z.lor 0x80 type = 128 + type)). reflexivity.
Qed.

(** Below 65535 bytes the header is the one of the RFC. *)
Lemma MakeWebsocketHeader_short len type :
  0 <= len < 0xffff -> 0 <= type < 16 ->
  header_bytes (MakeWebsocketHeader len type) = rfc_first true type :: rfc_length false len.
Proof.
  intros Hlen Ht. unfold MakeWebsocketHeader, rfc_length. rewrite lor_fin by done.
  case_tests; unfold header_bytes, set_header; cbn [replicate insert list_insert fst snd].
  - done.
  - change (Z.to_nat 4) with 4%nat. cbn [take be_bytes]. rewrite !z2b_land_255.
    rewrite Z.shiftr_div_pow2 by lia. change (8 * Z.of_nat 1) with 8. change (8 * Z.of_nat 0) with 0.
    by rewrite Z.pow_0_r, Z.div_1_r.
Qed.

Lemma MakeWebsocketHeader_long len type :
  0xffff <= len < 2 ^ 40 -> 0 <= type < 16 ->
  header_bytes (MakeWebsocketHeader len type) = [rfc_first true type; x7f; NUL; NUL; NUL; NUL].
Proof.
  intros Hlen Ht. unfold MakeWebsocketHeader. rewrite lor_fin by done.
  case_tests. unfold header_bytes, set_header.
  rewrite !z2b_land_255, !Z.shiftr_div_pow2, !Z.div_small by lia. reflexivity.
Qed.

Lemma rfc_read_wire f op len rest :
  0 <= op < 16 -> 0 <= len < 2 ^ 64 ->
  rfc_read (wire_frame false f op len rest) = Some (f, op, len, (2 + length (length_ext len))%nat).
Proof.
  intros Hop Hlen. unfold wire_frame, rfc_read.
  destruct (rfc_first_bits f op Hop) as [-> ->].
  assert (Hs : forall code, 0 <= code < 128 -> b2z (second false code) = code).
  { intros code Hc. unfold second. rewrite b2z_z2b. apply Z.mod_small. lia. }
  rewrite Hs by (apply length_code_range; lia).
  unfold length_code, length_ext. destruct (Z.ltb_spec len 126); [|destruct (Z.ltb_spec len (2 ^ 16))].
  - by case_tests.
  - change (126 =? 126) with true. cbv iota. rewrite length_app, be_bytes_length. cbn [Nat.leb Nat.add].
    rewrite take_app_len, be_value_be_bytes by (by rewrite be_bytes_length).
    rewrite Z.mod_small; [done|]. change (256 ^ Z.of_nat 2) with (2 ^ 16). lia.
  - change (127 =? 126) with false. change (127 =? 127) with true. cbv iota.
    rewrite length_app, be_bytes_length. cbn [Nat.leb Nat.add].
    rewrite take_app_len, be_value_be_bytes by (by rewrite be_bytes_length).
    rewrite Z.mod_small; [done|]. change (256 ^ Z.of_nat 8) with (2 ^ 64). lia.
Qed.

(** Claim C33. For a message of less than 65535 bytes, [MakeWebsocketHeader] and the message after
    it are exactly the final, unmasked frame of RFC 6455: a client reads back the type,
    the length, and where the message begins, whatever follows. *)
Theorem websocket_header_short data type rest :
  Z.of_nat (length data) < 0xffff -> 0 <= type < 16 ->
  let sent := header_bytes (MakeWebsocketHeader (Z.of_nat (length data)) type) ++ data in
  sent = server_frame true type data /\
  rfc_read (sent ++ rest) =
    Some (true, type, Z.of_nat (length data), (length sent - length data)%nat).
Proof.
  intros Hlen Ht sent. assert (E : sent = server_frame true type data).
  { unfold sent. by rewrite MakeWebsocketHeader_short by lia. }
  split; [done|]. rewrite E, server_frame_wire, rfc_read_wire by lia. do 2 f_equal.
  rewrite <- (app_nil_r (server_frame _ _ _)), server_frame_wire. unfold wire_frame.
  cbn [length]. rewrite !length_app. cbn. lia.
Qed.

Lemma websocket_header_short_witness :
  let sent := header_bytes (MakeWebsocketHeader 200 kTypeBinary) ++ repeat "x"%byte 200 in
  sent = server_frame true kTypeBinary (repeat "x"%byte 200) /\
  rfc_read (sent ++ str "more") = Some (true, kTypeBinary, 200, 4%nat).
Proof.
  apply (websocket_header_short (repeat "x"%byte 200) kTypeBinary (str "more")); cbn; done.
Defined.

(** For a message of 65535 bytes or more (below 2^40), the header is cut short: it
    announces a 64-bit length but carries four bytes of it, all zero.  A client takes the
    first four bytes of the message for the rest of the length, and the message for
    beginning after them. *)
Theorem websocket_header_long data type :
  0xffff <= Z.of_nat (length data) < 2 ^ 40 -> 0 <= type < 16 ->
  rfc_read (header_bytes (MakeWebsocketHeader (Z.of_nat (length data)) type) ++ data) =
    Some (true, type, be_value (take 4 data), 10%nat).
Proof.
  intros Hlen Ht. rewrite MakeWebsocketHeader_long by lia.
  unfold rfc_read. cbn [app]. destruct (rfc_first_bits true type Ht) as [-> ->].
  change (b2z x7f =? 126) with false. change (b2z x7f =? 127) with true. cbv iota.
  cbn [length]. rewrite (proj2 (Nat.leb_le _ _)) by lia. cbn [take].
  rewrite !be_value_cons. by rewrite !Z.mul_0_l.
Qed.

Lemma websocket_header_long_witness :
  rfc_read (header_bytes (MakeWebsocketHeader 65535 kTypeText) ++ replicate (Z.to_nat 65535) "a"%byte) =
    Some (true, kTypeText, 0x61616161, 10%nat).
Proof.
  apply (websocket_header_long (replicate (Z.to_nat 65535) "a"%byte) kTypeText);
    rewrite ?length_replicate; done.
Defined.
