(* ===== verification/State.v ===== *)
(** * Stateful code that can fault

    A computation takes the state it may change and returns a value with the new
    state, or a fault, or nothing when its fuel runs out.  [triple] is the
    Hoare triple the proofs about such code are built from: from a state in [P],
    whatever result comes back satisfies [Q]. *)

From S2P Require Import Prelude.

Definition M (S A : Type) : Type := S -> outcome (A * S).

#[export] Instance M_ret S : MRet (M S) := fun A a s => Ok (a, s).
#[export] Instance M_bind S : MBind (M S) := fun A B f m s =>
  match m s with
  | Ok (a, s') => f a s'
  | Fault e => Fault e
  | OutOfFuel => OutOfFuel
  end.

Section operations.
Context {S : Type}.

(** Code that does not touch the state. *)
Definition lift {A} (o : outcome A) : M S A := fun s =>
  match o with
  | Ok a => Ok (a, s)
  | Fault e => Fault e
  | OutOfFuel => OutOfFuel
  end.

(** A primitive that always returns. *)
Definition prim {A} (f : S -> A * S) : M S A := fun s => Ok (f s).

(** Code on the second half of a state, and on the first. *)
Definition on_snd {T A} (m : M S A) : M (T * S) A := fun '(t, s) =>
  match m s with
  | Ok (a, s') => Ok (a, (t, s'))
  | Fault e => Fault e
  | OutOfFuel => OutOfFuel
  end.

Definition run_with {T A} (t : T) (m : M (T * S) A) : M S (A * T) := fun s =>
  match m (t, s) with
  | Ok (a, (t', s')) => Ok ((a, t'), s')
  | Fault e => Fault e
  | OutOfFuel => OutOfFuel
  end.

Definition get : M S S := fun s => Ok (s, s).
Definition put_state (s : S) : M S unit := fun _ => Ok (tt, s).
Definition fault {A} (f : fault) : M S A := fun _ => Fault f.

(** ** Laws *)

Lemma M_bind_Ok {A B} (m : M S A) (k : A -> M S B) s b s' :
  (m ≫= k) s = Ok (b, s') <-> exists a t, m s = Ok (a, t) /\ k a t = Ok (b, s').
Proof.
  unfold mbind, M_bind. destruct (m s) as [[a t]| |]; split; try naive_solver.
Qed.

Lemma M_bind_eq {A B} (m : M S A) (k : A -> M S B) s a t :
  m s = Ok (a, t) -> (m ≫= k) s = k a t.
Proof. unfold mbind, M_bind. by intros ->. Qed.

Lemma M_bind_lift {A B} (a : A) (k : A -> M S B) s : (lift (Ok a) ≫= k) s = k a s.
Proof. done. Qed.

Lemma M_bind_prim {A B} (f : S -> A * S) (k : A -> M S B) s :
  (prim f ≫= k) s = let '(a, t) := f s in k a t.
Proof. unfold mbind, M_bind, prim. by destruct (f s). Qed.

Lemma M_bind_ret {A B} (a : A) (k : A -> M S B) s : (mret a ≫= k) s = k a s.
Proof. done. Qed.

Lemma M_bind_ret_r {A} (m : M S A) s : (m ≫= mret) s = m s.
Proof. unfold mbind, M_bind. by destruct (m s) as [[a t]| |]. Qed.

Lemma M_bind_assoc {A B C} (m : M S A) (k : A -> M S B) (l : B -> M S C) s :
  ((m ≫= k) ≫= l) s = (m ≫= fun a => k a ≫= l) s.
Proof. unfold mbind, M_bind. by destruct (m s) as [[a t]| |]. Qed.

Lemma lift_Ok {A} (o : outcome A) s a s' : lift o s = Ok (a, s') <-> o = Ok a /\ s' = s.
Proof. unfold lift. destruct o; naive_solver. Qed.

(** ** Triples *)

Definition triple {A} (P : S -> Prop) (m : M S A) (Q : A -> S -> Prop) : Prop :=
  forall s, P s -> forall a s', m s = Ok (a, s') -> Q a s'.

Lemma triple_ret {A} (P : S -> Prop) (a : A) (Q : A -> S -> Prop) :
  (forall s, P s -> Q a s) -> triple P (mret a) Q.
Proof. intros H s Hs a' s' [= <- <-]. by apply H. Qed.

Lemma triple_bind {A B} P (m : M S A) (k : A -> M S B) (R : A -> S -> Prop) Q :
  triple P m R -> (forall a, triple (R a) (k a) Q) -> triple P (m ≫= k) Q.
Proof.
  intros Hm Hk s Hs b s' (a & t & Ha & Hb)%M_bind_Ok. eapply Hk; [|done]. by eapply Hm.
Qed.

Lemma triple_conseq {A} (P P' : S -> Prop) (m : M S A) (Q Q' : A -> S -> Prop) :
  triple P' m Q' -> (forall s, P s -> P' s) -> (forall a s, Q' a s -> Q a s) -> triple P m Q.
Proof. intros Hm HP HQ s Hs a s' E. eapply HQ, Hm; [by apply HP|done]. Qed.
End operations.

#[global] Arguments M_bind_Ok {S A B}.
#[export] Hint Rewrite @M_bind_lift @M_bind_prim : httpoll_rw.
