(* ===== verification/RingHeap.v ===== *)
(** * Ring buffers and the heap

    CircularBuffer has a ring buffer with the bytes of its block.  Here blocks are on a heap,
    objects point to them, and the constructors, the destructor, the moves and [Extend] of
    hpl_circular_buffer.h call [malloc] and [free].  No block is ever shared, freed twice, used
    after it was freed or lost, so that each object behaves as the value of CircularBuffer. *)

From stdpp Require Import gmap.
From S2P Require Import Prelude State CircularBuffer.
Import CircularBuffer.

(** An object: its block is an address or the null pointer. *)
Record object := Obj { o_size : Z; o_block : option nat; o_read : Z; o_write : Z }.

(** The blocks that [malloc] returned and that were not freed since, and the objects that
    are alive. *)
Record store := Store { heap : gmap nat bytes; objects : gmap nat object }.

Definition set_heap h '(Store _ o) := Store h o.
Definition set_objects o '(Store h _) := Store h o.

Definition get_object (p : nat) : M store object := fun s =>
  match objects s !! p with Some o => Ok (o, s) | None => Fault UseAfterFree end.
Definition put_object (p : nat) (o : object) : M store unit :=
  prim (fun s => (tt, set_objects (<[p := o]> (objects s)) s)).
Definition remove_object (p : nat) : M store unit :=
  prim (fun s => (tt, set_objects (delete p (objects s)) s)).

(** [m] is what [malloc] returns: null, or the address of a block and what it holds. *)
Definition malloc (m : option (nat * bytes)) : M store (option nat) :=
  prim (fun s =>
    match m with
    | None => (None, s)
    | Some (b, d) => (Some b, set_heap (<[b := d]> (heap s)) s)
    end).

(** [free] does nothing with the null pointer. *)
Definition free (b : option nat) : M store unit := fun s =>
  match b with
  | None => Ok (tt, s)
  | Some b =>
      match heap s !! b with
      | None => Fault UseAfterFree
      | Some _ => Ok (tt, set_heap (delete b (heap s)) s)
      end
  end.

(** ** The special members *)

Definition construct (p : nat) (size : Z) (m : option (nat * bytes)) : M store unit :=
  b ← malloc m;
  put_object p (Obj size b 0 0).

Definition free_buffer (o : object) : M store unit :=
  match o_block o with
  | Some _ => free (o_block o)
  | None => mret tt
  end.

Definition destroy (p : nat) : M store unit :=
  o ← get_object p;
  _ ← free_buffer o;
  remove_object p.

(** The members of [q] go to [p], and [q] is left empty. *)
Definition steal (p q : nat) : M store unit :=
  o ← get_object q;
  _ ← put_object p o;
  put_object q (Obj 0 None 0 0).

Definition move_construct (p q : nat) : M store unit :=
  if decide (p = q) then mret tt else steal p q.

Definition move_assign (p q : nat) : M store unit :=
  if decide (p = q) then mret tt else
  o ← get_object p;
  _ ← free_buffer o;
  steal p q.

(** ** The other members *)

(** The object as a value. *)
Definition load (p : nat) : M store circular_buffer := fun s =>
  match objects s !! p with
  | None => Fault UseAfterFree
  | Some o =>
      match o_block o with
      | None => Ok (CB (o_size o) None (o_read o) (o_write o), s)
      | Some b =>
          match heap s !! b with
          | None => Fault UseAfterFree
          | Some d => Ok (CB (o_size o) (Some d) (o_read o) (o_write o), s)
          end
      end
  end.

(** The block [b] and the positions of the object at [p] become those of the value [c]. *)
Definition save (p : nat) (b : option nat) (c : circular_buffer) : M store unit :=
  prim (fun s =>
    (tt, Store (match b, buffer_ c with Some b, Some d => <[b := d]> (heap s) | _, _ => heap s end)
           (<[p := Obj (size_ c) b (read_pos_ c) (write_pos_ c)]> (objects s)))).

(** A member that changes nothing but the bytes and the positions. *)
Definition use {A} (p : nat) (f : circular_buffer -> outcome (A * circular_buffer)) : M store A :=
  o ← get_object p;
  c ← load p;
  '(a, c) ← lift (f c);
  _ ← save p (o_block o) c;
  mret a.

Definition extend (p : nat) (new_size : Z) (m : option (nat * bytes)) : M store bool :=
  o ← get_object p;
  if new_size <=? o_size o then mret false else
  new_buffer ← malloc m;
  match new_buffer with
  | None => mret false
  | Some _ =>
      c ← load p;
      '(ret, c) ← lift (Extend c new_size (snd <$> m));
      _ ← free (o_block o);
      _ ← save p new_buffer c;
      mret ret
  end.

(** ** Ownership *)

Definition block_of (s : store) (p : nat) : option nat := objects s !! p ≫= o_block.

(** Every block belongs to exactly one object. *)
Record owned (s : store) : Prop := {
  owned_live b : is_Some (heap s !! b) <-> exists p, block_of s p = Some b;
  owned_once p q b : block_of s p = Some b -> block_of s q = Some b -> p = q
}.

Definition alive (s : store) (p : nat) : Prop := is_Some (objects s !! p).

(** What [malloc] returns is not in use. *)
Definition fresh (m : option (nat * bytes)) (s : store) : Prop :=
  match m with None => True | Some (b, _) => heap s !! b = None end.

Lemma owned_same s s' :
  owned s -> (forall b, is_Some (heap s' !! b) <-> is_Some (heap s !! b)) ->
  (forall p, block_of s' p = block_of s p) -> owned s'.
Proof.
  intros [H1 H2] Hh Hb. split.
  - intros b. rewrite Hh, H1. by setoid_rewrite Hb.
  - intros p q b. rewrite !Hb. apply H2.
Qed.

(** An object gets a new block. *)
Lemma owned_alloc s s' p b :
  owned s -> heap s !! b = None -> block_of s p = None ->
  (forall b', is_Some (heap s' !! b') <-> b' = b \/ is_Some (heap s !! b')) ->
  (forall q, block_of s' q = if decide (p = q) then Some b else block_of s q) -> owned s'.
Proof.
  intros [H1 H2] Hf Hp Hh Hb.
  assert (Hno : forall q, block_of s q <> Some b).
  { intros q Hq. destruct (proj2 (H1 b) (ex_intro _ q Hq)). congruence. }
  split.
  - intros b'. rewrite Hh, H1. split.
    + intros [->|[q Hq]]; [exists p|exists q]; rewrite Hb; case_decide; congruence.
    + intros [q Hq]. rewrite Hb in Hq. case_decide; [left; congruence|by right; exists q].
  - intros q q' b'. rewrite !Hb. repeat case_decide; intros; simplify_eq; try done; [by destruct (Hno q')|by destruct (Hno q)|].
    by eapply H2.
Qed.

(** An object loses its block. *)
Lemma owned_drop s s' p :
  owned s ->
  (forall b, is_Some (heap s' !! b) <-> is_Some (heap s !! b) /\ block_of s p <> Some b) ->
  (forall q, block_of s' q = if decide (p = q) then None else block_of s q) -> owned s'.
Proof.
  intros [H1 H2] Hh Hb. split.
  - intros b. rewrite Hh, H1. split.
    + intros [[q Hq] Hp]. exists q. rewrite Hb. case_decide; congruence.
    + intros [q Hq]. rewrite Hb in Hq. case_decide; [done|]. split; [by exists q|].
      intros Hp. eauto.
  - intros q q' b. rewrite !Hb. repeat case_decide; try done. apply H2.
Qed.

(** A block goes from [q] to [p]. *)
Lemma owned_steal s s' p q :
  owned s -> p <> q -> block_of s p = None ->
  (forall b, is_Some (heap s' !! b) <-> is_Some (heap s !! b)) ->
  (forall r, block_of s' r = if decide (q = r) then None else if decide (p = r) then block_of s q else block_of s r) ->
  owned s'.
Proof.
  intros [H1 H2] Hpq Hp Hh Hb. split.
  - intros b. rewrite Hh, H1. split.
    + intros [r Hr]. destruct (decide (r = q)) as [->|Hrq].
      * exists p. rewrite Hb, decide_False, decide_True by congruence. done.
      * exists r. rewrite Hb, decide_False by congruence. case_decide; congruence.
    + intros [r Hr]. rewrite Hb in Hr. repeat case_decide; try done; eauto.
  - intros r r' b. rewrite !Hb. repeat case_decide; intros; simplify_eq; try done; try (by eapply H2);
      exfalso; match goal with H : q <> ?x, H' : block_of s ?x = Some b |- _ => apply H; by eapply H2 end.
Qed.

(** ** Each operation, on a heap that is owned *)

#[local] Ltac heap_simpl :=
  unfold block_of; cbn [heap objects set_heap set_objects];
  repeat (rewrite ?lookup_insert, ?lookup_delete; repeat case_decide; subst; cbn; try done).

Lemma put_object_eq p o s : put_object p o s = Ok (tt, set_objects (<[p := o]> (objects s)) s).
Proof. done. Qed.

Lemma free_buffer_Ok s p o :
  owned s -> objects s !! p = Some o ->
  exists s', free_buffer o s = Ok (tt, s') /\ objects s' = objects s /\
    forall b, heap s' !! b = if decide (o_block o = Some b) then None else heap s !! b.
Proof.
  intros [H1 _] Ho. unfold free_buffer. destruct (o_block o) as [b|] eqn:Eb; [|by exists s].
  assert (is_Some (heap s !! b)) as [d Hd] by (apply H1; exists p; unfold block_of; by rewrite Ho).
  unfold free. rewrite Hd. eexists. split; [done|]. split; [by destruct s|]. intros b'.
  destruct s as [h os]. cbn. rewrite lookup_delete. repeat case_decide; congruence.
Qed.

(** What an object is worth. *)
Definition value (s : store) (p : nat) : option circular_buffer :=
  o ← objects s !! p;
  match o_block o with
  | None => Some (CB (o_size o) None (o_read o) (o_write o))
  | Some b => d ← heap s !! b; Some (CB (o_size o) (Some d) (o_read o) (o_write o))
  end.

Lemma load_value s p c : value s p = Some c -> load p s = Ok (c, s).
Proof.
  unfold value, load. destruct (objects s !! p) as [o|]; [|done]. cbn. destruct (o_block o) as [b|].
  - destruct (heap s !! b); cbn; [|done]. by intros [= <-].
  - by intros [= <-].
Qed.

Lemma value_object s p c :
  value s p = Some c -> exists o, objects s !! p = Some o /\ o_size o = size_ c /\
    (o_block o = None <-> buffer_ c = None) /\ o_read o = read_pos_ c /\ o_write o = write_pos_ c.
Proof.
  unfold value. destruct (objects s !! p) as [o|]; [|done]. cbn. intros Hc. exists o. split; [done|].
  destruct (o_block o) as [b|]; [destruct (heap s !! b); [|done]|]; injection Hc as <-; done.
Qed.

(** In an owned heap every live object has a value. *)
Lemma owned_value s p o : owned s -> objects s !! p = Some o -> is_Some (value s p).
Proof.
  intros [H1 _] Ho. unfold value. rewrite Ho. cbn. destruct (o_block o) as [b|] eqn:Eb; [|by eexists].
  assert (is_Some (heap s !! b)) as [d ->] by (apply H1; exists p; unfold block_of; by rewrite Ho). by eexists.
Qed.

(** The value of an object only depends on it and its block. *)
Lemma value_frame s s' p :
  objects s' !! p = objects s !! p -> (forall b, block_of s p = Some b -> heap s' !! b = heap s !! b) ->
  value s' p = value s p.
Proof.
  intros Ho Hb. unfold value. rewrite Ho. unfold block_of in Hb. destruct (objects s !! p) as [o|]; [|done].
  cbn in *. destruct (o_block o) as [b|]; [|done]. by rewrite Hb.
Qed.

(** ** Programs over buffers *)

Inductive op :=
| Construct (p : nat) (size : Z) (m : option (nat * bytes))
| Destroy (p : nat)
| MoveConstruct (p q : nat)
| MoveAssign (p q : nat)
| ExtendTo (p : nat) (new_size : Z) (m : option (nat * bytes))
| Use (p : nat) (f : circular_buffer -> outcome circular_buffer).

Definition run_op (x : op) : M store unit :=
  match x with
  | Construct p size m => construct p size m
  | Destroy p => destroy p
  | MoveConstruct p q => move_construct p q
  | MoveAssign p q => move_assign p q
  | ExtendTo p n m => _ ← extend p n m; mret tt
  | Use p f => use p (fun c => c ← f c; Ok (tt, c))
  end.

Fixpoint run_ops (l : list op) : M store unit :=
  match l with
  | [] => mret tt
  | x :: l => _ ← run_op x; run_ops l
  end.

(** The same over values, with no heap. *)
#[local] Abbreviation values := (gmap nat circular_buffer).

Definition value_of (v : values) (p : nat) : outcome circular_buffer := of_option UseAfterFree (v !! p).

Definition value_op (x : op) (v : values) : outcome values :=
  match x with
  | Construct p size m => Ok (<[p := make size (snd <$> m)]> v)
  | Destroy p => _ ← value_of v p; Ok (delete p v)
  | MoveConstruct p q =>
      c ← value_of v q; Ok (<[q := (move c).2]> (<[p := (move c).1]> v))
  | MoveAssign p q =>
      if decide (p = q) then Ok v else
      _ ← value_of v p; c ← value_of v q; Ok (<[q := (move c).2]> (<[p := (move c).1]> v))
  | ExtendTo p n m => c ← value_of v p; '(_, c) ← Extend c n (snd <$> m); Ok (<[p := c]> v)
  | Use p f => c ← value_of v p; c ← f c; Ok (<[p := c]> v)
  end.

Fixpoint value_ops (l : list op) (v : values) : outcome values :=
  match l with
  | [] => Ok v
  | x :: l => v ← value_op x v; value_ops l v
  end.

(** What an operation may rely on: a new object is not an old one, [malloc] returns blocks that are
    not in use, and a member that is used keeps the block. *)
Definition op_ok (x : op) (s : store) : Prop :=
  match x with
  | Construct p _ m => objects s !! p = None /\ fresh m s
  | MoveConstruct p q => objects s !! p = None /\ p <> q
  | ExtendTo _ _ m => fresh m s
  | Use _ f => forall c c', f c = Ok c' -> (buffer_ c' = None <-> buffer_ c = None)
  | _ => True
  end.

Fixpoint ops_ok (l : list op) (s : store) : Prop :=
  match l with
  | [] => True
  | x :: l => op_ok x s /\ forall s', run_op x s = Ok (tt, s') -> ops_ok l s'
  end.

(** A heap that stands for the values [v]. *)
Definition stands_for (s : store) (v : values) : Prop := owned s /\ forall p, value s p = v !! p.

(** The heap does what the values say. *)
Definition simulates {A} (r : outcome (A * store)) (o : outcome values) : Prop :=
  match o with
  | Ok v => exists a s, r = Ok (a, s) /\ stands_for s v
  | Fault e => r = Fault e
  | OutOfFuel => r = OutOfFuel
  end.

Lemma stands_for_object s v p c :
  stands_for s v -> v !! p = Some c -> exists o, get_object p s = Ok (o, s) /\ objects s !! p = Some o /\
    o_size o = size_ c /\ (o_block o = None <-> buffer_ c = None) /\ o_read o = read_pos_ c /\ o_write o = write_pos_ c.
Proof.
  intros [_ Hv] Hc. rewrite <- Hv in Hc. destruct (value_object _ _ _ Hc) as (o & Ho & H).
  exists o. unfold get_object. by rewrite Ho.
Qed.

Lemma stands_for_none s v p : stands_for s v -> v !! p = None -> get_object p s = Fault UseAfterFree /\ objects s !! p = None.
Proof.
  intros [Ho Hv] Hc. rewrite <- Hv in Hc. unfold get_object. destruct (objects s !! p) as [o|] eqn:E; [|done].
  destruct (owned_value s p o Ho E). congruence.
Qed.

(** The object at [p] is gone, with its block. *)
Lemma stands_for_drop s v p o s' :
  stands_for s v -> objects s !! p = Some o ->
  (forall b, heap s' !! b = if decide (o_block o = Some b) then None else heap s !! b) ->
  objects s' = delete p (objects s) -> stands_for s' (delete p v).
Proof.
  intros [Hs Hv] Ho Hh Hos. assert (Hb : block_of s p = o_block o) by (unfold block_of; by rewrite Ho). split.
  - eapply (owned_drop s _ p Hs).
    + intros b. rewrite Hh, Hb. case_decide; [|tauto]. split; [by intros [? ?]|tauto].
    + intros q. unfold block_of. rewrite Hos, lookup_delete. by case_decide.
  - intros q. rewrite lookup_delete. case_decide as Hpq.
    + unfold value. by rewrite Hos, lookup_delete, decide_True.
    + rewrite <- Hv. apply value_frame; [by rewrite Hos, lookup_delete, decide_False|].
      intros b Hq. rewrite Hh. rewrite decide_False; [done|]. rewrite <- Hb. intros Hp. apply Hpq. by eapply Hs.
Qed.

(** A new object at [p], with the block [malloc] returned. *)
Lemma stands_for_make s v p size m :
  stands_for s v -> objects s !! p = None -> fresh m s ->
  simulates (construct p size m s) (Ok (<[p := make size (snd <$> m)]> v)).
Proof.
  intros [Hs Hv] Hp Hf. assert (Hb : block_of s p = None) by (unfold block_of; by rewrite Hp).
  destruct s as [h os]. destruct m as [[b d]|]; cbn in *; eexists tt, _; (split; [reflexivity|]); split.
  - eapply (owned_alloc _ _ p b Hs); [done..| |]; cbn.
    + intros b'. rewrite lookup_insert. case_decide; [naive_solver|]. naive_solver.
    + intros q. unfold block_of. cbn. rewrite lookup_insert. by case_decide.
  - intros q. rewrite lookup_insert. case_decide as Hpq; [subst q|].
    + unfold value. cbn. rewrite lookup_insert, decide_True by done. cbn. by rewrite lookup_insert, decide_True.
    + rewrite <- Hv. apply value_frame; cbn; [by rewrite lookup_insert, decide_False|].
      intros b' Hq. rewrite lookup_insert, decide_False; [done|]. intros ->.
      assert (is_Some (h !! b')) as [? ?] by (apply (owned_live _ Hs); by exists q). congruence.
  - eapply owned_same; [exact Hs|done|]. intros q. unfold block_of. cbn. rewrite lookup_insert. case_decide; [|done].
    subst. by rewrite Hp.
  - intros q. rewrite lookup_insert. case_decide as Hpq; [subst q|].
    + unfold value. cbn. by rewrite lookup_insert, decide_True.
    + rewrite <- Hv. apply value_frame; cbn; [by rewrite lookup_insert, decide_False|done].
Qed.

(** The members of [q] go to [p], where there is no block. *)
Lemma stands_for_steal s v p q c :
  owned s -> (forall r, r <> p -> value s r = v !! r) -> p <> q -> v !! q = Some c -> block_of s p = None ->
  simulates (steal p q s) (Ok (<[q := (move c).2]> (<[p := (move c).1]> v))).
Proof.
  intros Hs Hv Hpq Hc Hp. rewrite <- Hv in Hc by done. destruct (value_object _ _ _ Hc) as (o & Ho & _).
  unfold steal, get_object, mbind, M_bind. rewrite Ho. exists tt. eexists. split; [reflexivity|].
  assert (Hq : block_of s q = o_block o) by (unfold block_of; by rewrite Ho).
  destruct s as [h os]. cbn in *. split.
  - apply (owned_steal _ _ p q Hs Hpq Hp); [done|]. intros r. rewrite Hq. unfold block_of. cbn.
    rewrite !lookup_insert. repeat case_decide; done.
  - intros r. rewrite !lookup_insert. unfold value in *. cbn in *. rewrite !lookup_insert.
    case_decide; [done|]. case_decide as Hpr; [subst r|by apply Hv; congruence].
    rewrite Ho in Hc. cbn in *. rewrite Hc. by destruct c.
Qed.

Lemma steal_put p q x s : p <> q -> steal p q (set_objects (<[p := x]> (objects s)) s) = steal p q s.
Proof.
  intros Hpq. destruct s as [h os]. unfold steal, get_object, mbind, M_bind. cbn.
  rewrite lookup_insert, decide_False by done. destruct (os !! q); [|done]. cbn.
  by rewrite insert_insert, decide_True.
Qed.

Lemma destroy_simulates s v p : stands_for s v -> simulates (destroy p s) (value_op (Destroy p) v).
Proof.
  intros Hr. cbn [value_op]. unfold value_of, destroy. destruct (v !! p) as [c|] eqn:Ec; cbn.
  - destruct (stands_for_object _ _ _ _ Hr Ec) as (o & E & Ho & _). rewrite (M_bind_eq _ _ _ _ _ E).
    destruct (free_buffer_Ok s p o (proj1 Hr) Ho) as (s1 & E1 & Hos & Hh). rewrite (M_bind_eq _ _ _ _ _ E1).
    exists tt. eexists. split; [reflexivity|]. eapply (stands_for_drop s v p o); [done|done|..]; destruct s1; cbn in *; [done|by subst].
  - unfold mbind, M_bind. by rewrite (proj1 (stands_for_none _ _ _ Hr Ec)).
Qed.

Lemma move_construct_simulates s v p q :
  stands_for s v -> objects s !! p = None -> p <> q ->
  simulates (move_construct p q s) (value_op (MoveConstruct p q) v).
Proof.
  intros Hr Hp Hpq. cbn [value_op]. unfold value_of, move_construct. rewrite decide_False by done.
  destruct (v !! q) as [c|] eqn:Ec; cbn.
  - apply stands_for_steal; [apply Hr|intros r _; apply Hr|done|done|]. unfold block_of. by rewrite Hp.
  - unfold steal, mbind, M_bind. by rewrite (proj1 (stands_for_none _ _ _ Hr Ec)).
Qed.

Lemma move_assign_simulates s v p q :
  stands_for s v -> simulates (move_assign p q s) (value_op (MoveAssign p q) v).
Proof.
  intros Hr. cbn [value_op]. unfold value_of, move_assign. case_decide as Hpq; [by exists tt, s|].
  destruct (v !! p) as [c|] eqn:Ec; cbn.
  2:{ unfold mbind, M_bind. by rewrite (proj1 (stands_for_none _ _ _ Hr Ec)). }
  destruct (stands_for_object _ _ _ _ Hr Ec) as (o & E & Ho & _). rewrite (M_bind_eq _ _ _ _ _ E).
  destruct (free_buffer_Ok s p o (proj1 Hr) Ho) as (s1 & E1 & Hos & Hh). rewrite (M_bind_eq _ _ _ _ _ E1).
  destruct (v !! q) as [c'|] eqn:Ec'; cbn.
  2:{ unfold steal, mbind, M_bind, get_object. by rewrite Hos, (proj2 (stands_for_none _ _ _ Hr Ec')). }
  rewrite <- (steal_put p q (Obj 0 None 0 0)) by done.
  assert (Hb : block_of s p = o_block o) by (unfold block_of; by rewrite Ho).
  assert (Hob : forall r, r <> p -> objects (set_objects (<[p := Obj 0 None 0 0]> (objects s1)) s1) !! r = objects s !! r).
  { intros r Hrp. destruct s1; cbn in *. rewrite lookup_insert, decide_False by done. by subst. }
  assert (Hhe : heap (set_objects (<[p := Obj 0 None 0 0]> (objects s1)) s1) = heap s1) by by destruct s1.
  apply stands_for_steal; [| |done|done|].
  - apply (owned_drop s _ p); [apply Hr| |].
    + intros b. rewrite Hhe, Hh, Hb. case_decide; [|tauto]. split; [by intros [? ?]|tauto].
    + intros r. unfold block_of. case_decide as Hpr; [|by rewrite Hob].
      subst. destruct s1; cbn. by rewrite lookup_insert, decide_True.
  - intros r Hrp. rewrite <- (proj2 Hr). apply value_frame; [by apply Hob|]. intros b Hrb.
    rewrite Hhe, Hh, decide_False; [done|]. rewrite <- Hb. intros Hpb. apply Hrp. by eapply (owned_once _ (proj1 Hr)).
  - unfold block_of. destruct s1; cbn. by rewrite lookup_insert, decide_True.
Qed.

(** [save] on an object whose block only it has. *)
Lemma stands_for_save s v p b d c :
  owned s -> block_of s p = Some b -> buffer_ c = Some d -> (forall q, q <> p -> value s q = v !! q) ->
  simulates (save p (Some b) c s) (Ok (<[p := c]> v)).
Proof.
  intros Hs Hp Hc Hv. exists tt. eexists. split; [reflexivity|]. rewrite Hc.
  assert (Hl : is_Some (heap s !! b)) by (apply (owned_live _ Hs); by exists p).
  destruct s as [h os]. cbn in *. split.
  - eapply owned_same; [exact Hs| |].
    + intros b'. cbn. rewrite lookup_insert. case_decide; [subst|done]. split; [done|by eexists].
    + intros q. unfold block_of in *. cbn in *. rewrite lookup_insert. case_decide; [by subst|done].
  - intros q. rewrite lookup_insert. case_decide as Hpq; [subst q|].
    + unfold value. cbn. rewrite lookup_insert, decide_True by done. cbn. rewrite lookup_insert, decide_True by done.
      cbn. rewrite <- Hc. by destruct c.
    + rewrite <- Hv by done. apply value_frame; cbn; [by rewrite lookup_insert, decide_False|].
      intros b' Hq. rewrite lookup_insert, decide_False; [done|]. intros ->. apply Hpq. by eapply (owned_once _ Hs).
Qed.

(** The same without a block. *)
Lemma stands_for_save_null s v p c :
  owned s -> block_of s p = None -> buffer_ c = None -> (forall q, q <> p -> value s q = v !! q) ->
  simulates (save p None c s) (Ok (<[p := c]> v)).
Proof.
  intros Hs Hp Hc Hv. exists tt. eexists. split; [reflexivity|].
  destruct s as [h os]. cbn in *. split.
  - eapply owned_same; [exact Hs|done|].
    intros q. unfold block_of in *. cbn in *. rewrite lookup_insert. case_decide; [by subst|done].
  - intros q. rewrite lookup_insert. case_decide as Hpq; [subst q|].
    + unfold value. cbn. rewrite lookup_insert, decide_True by done. cbn. rewrite <- Hc. by destruct c.
    + rewrite <- Hv by done. apply value_frame; cbn; [by rewrite lookup_insert, decide_False|done].
Qed.

Lemma use_simulates s v p f :
  stands_for s v -> (forall c c', f c = Ok c' -> (buffer_ c' = None <-> buffer_ c = None)) ->
  simulates (run_op (Use p f) s) (value_op (Use p f) v).
Proof.
  intros Hr Hf. cbn [value_op run_op]. unfold value_of, use. destruct (v !! p) as [c|] eqn:Ec; cbn.
  2:{ unfold mbind, M_bind. by rewrite (proj1 (stands_for_none _ _ _ Hr Ec)). }
  destruct (stands_for_object _ _ _ _ Hr Ec) as (o & E & Ho & _ & Hn & _). rewrite (M_bind_eq _ _ _ _ _ E).
  rewrite (M_bind_eq _ _ _ _ _ (load_value s p c (eq_trans (proj2 Hr p) Ec))).
  destruct (f c) as [c'|e|] eqn:Ef; cbn; [|done..]. rewrite M_bind_lift.
  specialize (Hf _ _ Ef). assert (Hb : block_of s p = o_block o) by (unfold block_of; by rewrite Ho).
  assert (Hsim : simulates (save p (o_block o) c' s) (Ok (<[p := c']> v))).
  { destruct (o_block o) as [b|] eqn:Eb.
    - destruct (buffer_ c') as [d|] eqn:Ed; [|discriminate (proj2 Hn (proj1 Hf eq_refl))].
      apply (stands_for_save _ _ _ _ d); [apply Hr|done|done|intros; apply Hr].
    - apply stands_for_save_null; [apply Hr|done| |intros; apply Hr]. by apply Hf, Hn. }
  destruct Hsim as ([] & s' & Es & Hs'). rewrite (M_bind_eq _ _ _ _ _ Es). by exists tt, s'.
Qed.

(** [Extend] of a value keeps a block when it had one and makes one when it grows. *)
Lemma Extend_grows c n d r c' :
  (n <=? size_ c) = false -> Extend c n (Some d) = Ok (r, c') -> r = true /\ exists d', buffer_ c' = Some d'.
Proof.
  intros Hn. unfold Extend. rewrite Hn. intros (nb & Hnb & [= <- <-])%bind_Ok. split; [done|]. cbn. revert Hnb.
  assert (Hw : forall x off e y, mem_write x off e = Ok y -> exists d', y = Some d').
  { intros [x|] off e y; [|done]. unfold mem_write. case_match; [|done]. intros [= <-]. by eexists. }
  repeat case_match; [| |intros [= <-]; by eexists].
  - intros (? & _ & Hm)%bind_Ok. by eapply Hw.
  - intros (? & _ & (? & _ & (? & _ & Hm)%bind_Ok)%bind_Ok)%bind_Ok. by eapply Hw.
Qed.

(** [free] of the old block, once the new one is there. *)
Lemma free_old s s1 p o nb d :
  owned s -> objects s !! p = Some o -> objects s1 = objects s -> heap s1 = <[nb := d]> (heap s) -> heap s !! nb = None ->
  exists s2, free (o_block o) s1 = Ok (tt, s2) /\ objects s2 = objects s /\
    forall b, heap s2 !! b = if decide (o_block o = Some b) then None else if decide (nb = b) then Some d else heap s !! b.
Proof.
  intros Hs Ho Hos1 Hh1 Hf. destruct s1 as [h1 os1]. cbn in *. subst h1 os1.
  unfold free. cbn. destruct (o_block o) as [b|] eqn:Eb.
  - assert (is_Some (heap s !! b)) as [x Hx] by (apply (owned_live _ Hs); exists p; unfold block_of; by rewrite Ho).
    rewrite lookup_insert, decide_False, Hx by (intros ->; congruence). eexists. split; [reflexivity|]. split; [done|].
    intros b'. cbn. rewrite lookup_delete, lookup_insert. repeat case_decide; congruence.
  - eexists. split; [reflexivity|]. split; [done|]. intros b'. cbn. rewrite lookup_insert. repeat case_decide; congruence.
Qed.

(** The object at [p] gets the block [nb] for the one it had. *)
Lemma stands_for_replace s v p o nb (d d' : bytes) s2 c' :
  stands_for s v -> objects s !! p = Some o -> heap s !! nb = None -> buffer_ c' = Some d' -> objects s2 = objects s ->
  (forall b, heap s2 !! b = if decide (o_block o = Some b) then None else if decide (nb = b) then Some d else heap s !! b) ->
  stands_for (Store (<[nb := d']> (heap s2)) (<[p := Obj (size_ c') (Some nb) (read_pos_ c') (write_pos_ c')]> (objects s2)))
    (<[p := c']> v).
Proof.
  intros [Hs Hv] Ho Hf Hd' Hos Hh. assert (Hb : block_of s p = o_block o) by (unfold block_of; by rewrite Ho).
  assert (Hnb : o_block o <> Some nb).
  { intros E. assert (is_Some (heap s !! nb)) as [? ?] by (apply (owned_live _ Hs); exists p; congruence). congruence. }
  set (mid := Store (match o_block o with Some b => delete b (heap s) | None => heap s end) (<[p := Obj 0 None 0 0]> (objects s))).
  assert (Hmid : forall b, heap mid !! b = if decide (o_block o = Some b) then None else heap s !! b).
  { intros b. unfold mid. cbn. destruct (o_block o); [rewrite lookup_delete|]; repeat case_decide; congruence. }
  split.
  - apply (owned_alloc mid _ p nb).
    + apply (owned_drop s _ p Hs).
      * intros b. rewrite Hmid, Hb. case_decide; [|tauto]. split; [by intros [? ?]|tauto].
      * intros q. unfold block_of, mid. cbn. rewrite lookup_insert. by case_decide.
    + rewrite Hmid. by rewrite decide_False.
    + unfold block_of, mid. cbn. by rewrite lookup_insert, decide_True.
    + intros b. cbn. rewrite lookup_insert, Hh, Hmid. repeat case_decide; naive_solver.
    + intros q. unfold block_of, mid. cbn. rewrite Hos, !lookup_insert. by repeat case_decide.
  - intros q. rewrite lookup_insert. case_decide as Hpq; [subst q|].
    + unfold value. cbn. rewrite lookup_insert, decide_True by done. cbn. rewrite lookup_insert, decide_True by done.
      cbn. rewrite <- Hd'. by destruct c'.
    + rewrite <- Hv. apply value_frame; cbn; [by rewrite Hos, lookup_insert, decide_False|].
      intros b Hq. assert (is_Some (heap s !! b)) as [x Hx] by (apply (owned_live _ Hs); by exists q).
      assert (nb <> b) by congruence.
      rewrite lookup_insert, decide_False, Hh by done. rewrite !decide_False; [done|done|].
      rewrite <- Hb. intros Hp. apply Hpq. by eapply (owned_once _ Hs).
Qed.

Lemma extend_simulates s v p n m :
  stands_for s v -> fresh m s -> simulates (run_op (ExtendTo p n m) s) (value_op (ExtendTo p n m) v).
Proof.
  intros Hr Hf. cbn [value_op run_op]. unfold value_of, extend. destruct (v !! p) as [c|] eqn:Ec; cbn.
  2:{ unfold mbind, M_bind. by rewrite (proj1 (stands_for_none _ _ _ Hr Ec)). }
  destruct (stands_for_object _ _ _ _ Hr Ec) as (o & E & Ho & Hsz & Hn & _). rewrite M_bind_assoc, (M_bind_eq _ _ _ _ _ E).
  pose proof (proj2 Hr p) as Hvp. rewrite Ec in Hvp. rewrite Hsz.
  assert (Hsame : stands_for s (<[p := c]> v)) by by rewrite insert_id.
  destruct (n <=? size_ c) eqn:En.
  { unfold Extend. rewrite En. by exists tt, s. }
  destruct m as [[nb d]|]; cbn [fst snd fmap option_fmap option_map].
  2:{ unfold Extend. rewrite En. by exists tt, s. }
  rewrite M_bind_assoc. cbn in Hf. set (s1 := set_heap (<[nb := d]> (heap s)) s).
  rewrite (M_bind_eq (malloc (Some (nb, d))) _ s (Some nb) s1 eq_refl). assert (Hs1 : objects s1 = objects s /\ heap s1 = <[nb := d]> (heap s)) by by destruct s.
  destruct Hs1 as [Hos1 Hh1].
  assert (Hv1 : forall q, value s1 q = value s q).
  { intros q. apply value_frame; [by rewrite Hos1|]. intros b Hq. rewrite Hh1, lookup_insert, decide_False; [done|].
    intros ->. assert (is_Some (heap s !! b)) as [? ?] by (apply (owned_live _ (proj1 Hr)); by exists q). congruence. }
  rewrite M_bind_assoc, (M_bind_eq _ _ _ _ _ (load_value s1 p c (eq_trans (Hv1 p) Hvp))).
  destruct (Extend c n (Some d)) as [[r c']|e|] eqn:Ex; [|done..].
  destruct (Extend_grows c n d r c' En Ex) as (-> & d' & Hd').
  rewrite M_bind_assoc, M_bind_lift, M_bind_assoc.
  assert (Hfree : exists s2, free (o_block o) s1 = Ok (tt, s2) /\ objects s2 = objects s /\
    forall b, heap s2 !! b = if decide (o_block o = Some b) then None else if decide (nb = b) then Some d else heap s !! b).
  { destruct (free_old s s1 p o nb d (proj1 Hr) Ho Hos1 Hh1 Hf) as (s2 & ? & ? & ?). by exists s2. }
  destruct Hfree as (s2 & Ef & Hos2 & Hh2). rewrite (M_bind_eq _ _ _ _ _ Ef). unfold save. rewrite M_bind_assoc, Hd'.
  exists tt. eexists. split; [reflexivity|].
  by apply (stands_for_replace s v p o nb d).
Qed.

Lemma run_op_simulates x s v :
  stands_for s v -> op_ok x s -> simulates (run_op x s) (value_op x v).
Proof.
  intros Hr Hx. destruct x; cbn [op_ok] in Hx.
  - destruct Hx. by apply stands_for_make.
  - by apply destroy_simulates.
  - destruct Hx. by apply move_construct_simulates.
  - by apply move_assign_simulates.
  - by apply extend_simulates.
  - by apply use_simulates.
Qed.

(** Claim C10. Buffers own their blocks.  A program that constructs, moves, extends, uses and
    destroys ring buffers on the heap does exactly what it does with buffers that are plain
    values, whichever addresses [malloc] returns and also when it fails: no block is shared,
    used after it was freed, or freed twice, unless an object is used that does not exist; and
    when every object is gone, so is every block. *)
Theorem buffers_own_their_blocks l s v :
  stands_for s v -> ops_ok l s ->
  simulates (run_ops l s) (value_ops l v) /\
  forall s', run_ops l s = Ok (tt, s') -> value_ops l v = Ok ∅ -> heap s' = ∅.
Proof.
  intros Hr Hl. assert (Hsim : simulates (run_ops l s) (value_ops l v)).
  { revert s v Hr Hl. induction l as [|x l IH]; intros s v Hr Hl; [by exists tt, s|].
    destruct Hl as [Hx Hl]. pose proof (run_op_simulates x s v Hr Hx) as H. cbn [run_ops value_ops].
    destruct (value_op x v) as [v'|e|]; cbn [simulates] in H.
    - destruct H as ([] & s' & E & Hr'). rewrite (M_bind_eq _ _ _ _ _ E). by apply IH; [|apply Hl].
    - unfold mbind, M_bind. by rewrite H.
    - unfold mbind, M_bind. by rewrite H. }
  split; [done|]. intros s' E Ev. rewrite Ev in Hsim. destruct Hsim as ([] & s'' & E' & Ho & Hv).
  rewrite E in E'. injection E' as <-. apply map_empty. intros b. destruct (heap s' !! b) eqn:Eb; [|done].
  destruct (proj1 (owned_live _ Ho b)) as [p Hp]; [by eexists|]. unfold block_of in Hp.
  destruct (objects s' !! p) as [o|] eqn:Eo; [|done].
  destruct (owned_value s' p o Ho Eo) as [c Hc]. rewrite Hv in Hc. by rewrite lookup_empty in Hc.
Qed.

(** ** Witness *)

Definition no_buffers : store := Store ∅ ∅.

Lemma no_buffers_stand_for : stands_for no_buffers ∅.
Proof.
  split; [split|].
  - intros b. cbn. rewrite lookup_empty. split; [by intros [? ?]|]. intros (p & Hp). unfold block_of in Hp. cbn in Hp.
    by rewrite lookup_empty in Hp.
  - intros p q b Hp. unfold block_of in Hp. cbn in Hp. by rewrite lookup_empty in Hp.
  - intros p. unfold value. cbn. by rewrite !lookup_empty.
Qed.

(** A buffer is filled, moved over another one, extended into a new block, and both are
    destroyed. *)
Definition put_hello (c : circular_buffer) : outcome circular_buffer := '(_, c) ← fill c (str "hello"); Ok c.

Definition buffer_program : list op :=
  [Construct 1 8 (Some (100%nat, replicate 8 NUL)); Construct 2 4 (Some (200%nat, replicate 4 NUL));
   Use 1 put_hello; MoveAssign 2 1; ExtendTo 2 16 (Some (200%nat, replicate 16 NUL)); Destroy 1; Destroy 2].

Lemma put_hello_keeps c c' : put_hello c = Ok c' -> (buffer_ c' = None <-> buffer_ c = None).
Proof.
  unfold put_hello, fill. destruct (ContinuousWriteBuffer c) as [off n].
  intros ([k c1] & (b & Hb & [= _ <-])%bind_Ok & [= <-])%bind_Ok.
  destruct (buffer_ c) as [d|]; [|done]. unfold mem_write in Hb. destruct (_ && _) in Hb; [|done]. injection Hb as <-.
  by case_match.
Qed.

Lemma buffer_program_ok : ops_ok buffer_program no_buffers.
Proof.
  unfold buffer_program. cbn [ops_ok op_ok].
  do 7 (split; [first [exact put_hello_keeps | vm_compute; done]|intros ? E; vm_compute in E; injection E as <-]).
  done.
Qed.

Lemma buffers_own_their_blocks_witness :
  simulates (run_ops buffer_program no_buffers) (value_ops buffer_program ∅) /\
  forall s', run_ops buffer_program no_buffers = Ok (tt, s') ->
    value_ops buffer_program ∅ = Ok ∅ -> heap s' = ∅.
Proof.
  exact (buffers_own_their_blocks buffer_program no_buffers ∅ no_buffers_stand_for buffer_program_ok).
Defined.

(** The program runs to its end, and its second object then holds the bytes of the first. *)
Example buffer_program_runs :
  value_ops buffer_program ∅ = Ok ∅ /\
  match value_ops (take 5 buffer_program) ∅ with
  | Ok v => (c ← v !! 2%nat; match read_all c with Ok d => Some d | _ => None end) = Some (str "hello") /\
      (v !! 1%nat) = Some moved_from
  | _ => False
  end.
Proof. vm_compute. done. Qed.
