(* ===== verification/Posix.v ===== *)
(** * The kernel

    The program's only contact with the outside is the system calls it makes.
    They are the signature [sysE], a call and the type of its reply; a kernel is
    any state [W] with an interpretation of the calls (class [Posix]).  What the
    program relies on is the class [PosixLaws]: the calls made so far can be
    read off the state as a trace, every call adds exactly itself to it, and
    replies keep within what the manual pages promise ([reply_ok]).  The last
    part of the file is a kernel that follows a script, on which the development
    runs its examples. *)

From S2P Require Import Prelude State.

(** ** Calls *)

Inductive errno : Set := EAGAIN | EINTR | Eother (n : Z).

#[export] Instance errno_eq_dec : EqDecision errno.
Proof. solve_decision. Defined.

Inductive sockopt : Set := SO_REUSEADDR | SO_REUSEPORT | SO_KEEPALIVE | SO_ZEROCOPY.

Inductive buffer_option : Set := SO_RCVBUF | SO_SNDBUF.

(** A descriptor is an [int]; the user data of an epoll registration is the
    address of a [Connection], here the number the object was created under. *)
Inductive sysE : Set -> Set :=
| SysRead (fd n : Z) : sysE (errno + bytes)
| SysWrite (fd : Z) (data : bytes) : sysE (errno + Z)
| SysClose (fd : Z) : sysE (errno + Z)
| SysIgnoreSigpipe : sysE unit
| SysEpollCreate : sysE (errno + Z)
| SysSocket : sysE (errno + Z)
| SysSetsockopt (fd : Z) (o : sockopt) : sysE (errno + Z)
| SysBind (fd : Z) (addr : option bytes) (port : Z) : sysE (errno + Z)
| SysListen (fd backlog : Z) : sysE (errno + Z)
| SysEpollAdd (poll fd events : Z) (data : nat) : sysE (errno + Z)
| SysEpollDel (poll fd : Z) : sysE (errno + Z)
| SysEpollWait (poll max timeout : Z) : sysE (errno + list (Z * nat))
| SysAccept (fd : Z) : sysE (errno + Z)
| SysGetFl (fd : Z) : sysE (errno + Z)
| SysSetFl (fd flags : Z) : sysE (errno + Z)
| SysPipe : sysE (errno + Z * Z)
| SysTee (fd_in fd_out n : Z) : sysE (errno + Z)
| SysSplice (fd_in fd_out n : Z) : sysE (errno + Z)
| SysNow : sysE Z
(* the calls of the benchmark, on UNIX domain sockets *)
| SysUnixSocket : sysE (errno + Z)
| SysUnlink (path : bytes) : sysE (errno + Z)
| SysBindUnix (fd : Z) (path : bytes) : sysE (errno + Z)
| SysConnectUnix (fd : Z) (path : bytes) : sysE (errno + Z)
| SysSetBufferSize (fd : Z) (o : buffer_option) (n : Z) : sysE (errno + Z)
| SysSetPipeSize (fd n : Z) : sysE (errno + Z)
(* its streams: what [fopen] returns, and one [fprintf] *)
| SysFopen (path mode : bytes) : sysE (errno + Z)
| SysFprintf (stream : Z) (text : bytes) : sysE Z.

Record event := Event { ev_type : Set; ev_call : sysE ev_type; ev_reply : ev_type }.
Arguments Event {_} _ _.

(** What the manual pages promise of a reply. *)
Definition reply_ok {A} (e : sysE A) : A -> Prop :=
  match e with
  | SysRead _ n => fun r => match r with inr d => Z.of_nat (length d) <= Z.max n 0 | inl _ => True end
  | SysWrite _ d => fun r =>
      match r with inr n => 0 <= n <= Z.of_nat (length d) | inl _ => True end
  | SysEpollWait _ max _ => fun r =>
      match r with inr l => Z.of_nat (length l) <= Z.max max 0 | inl _ => True end
  | SysAccept _ | SysSocket | SysUnixSocket | SysEpollCreate => fun r =>
      match r with inr fd => 0 <= fd | inl _ => True end
  | _ => fun _ => True
  end.

Class Posix (W : Type) : Type := sys : forall {A : Set}, sysE A -> W -> A * W.

Class PosixLaws (W : Type) `{!Posix W} : Type := {
  trace : W -> list event;
  sys_trace (A : Set) (e : sysE A) w : trace (sys e w).2 = trace w ++ [Event e (sys e w).1];
  sys_ok (A : Set) (e : sysE A) w : reply_ok e (sys e w).1
}.

(** Making a call. *)
Definition call {W} `{!Posix W} {A : Set} (e : sysE A) : M W A := prim (sys e).

(** ** What a trace tells *)

(** The bytes a call moved into or out of a descriptor. *)
Definition sent_by (fd : Z) (x : event) : bytes :=
  let 'Event e r := x in
  match e in sysE A return A -> bytes with
  | SysWrite fd' d => fun r =>
      match r with inr n => if fd' =? fd then take (Z.to_nat n) d else [] | inl _ => [] end
  | _ => fun _ => []
  end r.

Definition received_by (fd : Z) (x : event) : bytes :=
  let 'Event e r := x in
  match e in sysE A return A -> bytes with
  | SysRead fd' _ => fun r =>
      match r with inr d => if fd' =? fd then d else [] | inl _ => [] end
  | _ => fun _ => []
  end r.

Definition sent (fd : Z) (t : list event) : bytes := concat (map (sent_by fd) t).
Definition received (fd : Z) (t : list event) : bytes := concat (map (received_by fd) t).

Lemma sent_app fd t t' : sent fd (t ++ t') = sent fd t ++ sent fd t'.
Proof. unfold sent. by rewrite map_app, concat_app. Qed.
Lemma received_app fd t t' : received fd (t ++ t') = received fd t ++ received fd t'.
Proof. unfold received. by rewrite map_app, concat_app. Qed.

Section laws.
Context {W} `{!Posix W} `{!PosixLaws W}.

(** [w'] comes after [w], with the calls [t] in between. *)
Definition after (w : W) (t : list event) (w' : W) : Prop := trace w' = trace w ++ t.

Lemma after_refl w : after w [] w.
Proof. unfold after. by rewrite app_nil_r. Qed.

Lemma after_trans w1 t1 w2 t2 w3 : after w1 t1 w2 -> after w2 t2 w3 -> after w1 (t1 ++ t2) w3.
Proof. unfold after. intros H1 H2. by rewrite H2, H1, app_assoc. Qed.

Lemma call_after {A : Set} (e : sysE A) w a w' :
  call e w = Ok (a, w') -> after w [Event e a] w' /\ reply_ok e a.
Proof.
  unfold call, prim, after. intros [= E]. pose proof (sys_trace A e w) as Ht.
  pose proof (sys_ok A e w) as Ho. rewrite E in *. done.
Qed.

Lemma call_Ok {A : Set} (e : sysE A) w :
  exists a w', call e w = Ok (a, w') /\ after w [Event e a] w' /\ reply_ok e a.
Proof.
  exists (sys e w).1, (sys e w).2.
  assert (E : call e w = Ok ((sys e w).1, (sys e w).2)).
  { unfold call, prim. by rewrite <- surjective_pairing. }
  split; [done|]. by apply call_after.
Qed.
End laws.

#[export] Hint Resolve after_refl : httpoll.

(** ** A kernel with the state of an application *)

Record with_app (A W : Type) : Type := App { app_state : A; app_kernel : W }.
Arguments App {A W} _ _.
Arguments app_state {A W} _.
Arguments app_kernel {A W} _.

#[export] Instance app_posix {X W} `{!Posix W} : Posix (with_app X W) := fun A e w =>
  ((sys e (app_kernel w)).1, App (app_state w) (sys e (app_kernel w)).2).

#[export] Program Instance app_laws {X W} `{!Posix W} `{!PosixLaws W} : PosixLaws (with_app X W) :=
  {| trace w := trace (app_kernel w) |}.
Next Obligation. intros X W ?? A e [x w]. apply (sys_trace (W := W)). Qed.
Next Obligation. intros X W ?? A e [x w]. apply (sys_ok (W := W)). Qed.

(** Code that works on the state of the application. *)
Definition on_app {A W B} (f : A -> B * A) : M (with_app A W) B :=
  prim (fun w => let '(b, a) := f (app_state w) in (b, App a (app_kernel w))).

(** System calls leave the state of the application alone. *)
Lemma call_app {X W} `{!Posix W} {A : Set} (e : sysE A) (w : with_app X W) a w' :
  call e w = Ok (a, w') -> app_state w' = app_state w.
Proof. by intros [= _ <-]. Qed.

(** What an application keeps true of its state; system calls cannot break it. *)
Class AppInvariant (W : Type) `{!Posix W} : Type := {
  app_inv : W -> Prop;
  app_inv_sys (A : Set) (e : sysE A) w : app_inv w -> app_inv (sys e w).2
}.

(** An application with nothing to keep. *)
#[export] Instance no_invariant {W} `{!Posix W} : AppInvariant W | 100 :=
  {| app_inv _ := True; app_inv_sys _ _ _ _ := Logic.I |}.

(** ** A kernel that follows a script *)

Record sim := Sim {
  sim_reads : list (Z * (errno + bytes));   (* what reads of a descriptor return, in order *)
  sim_limit : Z;                            (* the most one write takes *)
  sim_events : list (list (Z * nat));       (* what the waits report *)
  sim_accepts : list (errno + Z);
  sim_failing : list Z;                     (* descriptors whose other calls fail *)
  sim_clock : Z;                            (* advances by one second at each reading *)
  sim_trace : list event
}.

Definition sim_log {A : Set} (e : sysE A) (a : A) (w : sim) : A * sim :=
  (a, Sim (sim_reads w) (sim_limit w) (sim_events w) (sim_accepts w) (sim_failing w)
          (sim_clock w) (sim_trace w ++ [Event e a])).

(** A chunk longer than the read asks for is delivered in pieces. *)
Fixpoint sim_take (fd n : Z) (l : list (Z * (errno + bytes)))
  : (errno + bytes) * list (Z * (errno + bytes)) :=
  match l with
  | [] => (inl EAGAIN, [])
  | (fd', r) :: l' =>
      if fd' =? fd then
        match r with
        | inr d => (inr (take (Z.to_nat n) d),
                    if (Z.to_nat n <? length d)%nat
                    then (fd', inr (drop (Z.to_nat n) d)) :: l' else l')
        | inl e => (inl e, l')
        end
      else let '(x, l'') := sim_take fd n l' in (x, (fd', r) :: l'')
  end.

Definition is_pipe (x : event) : bool := match ev_call x with SysPipe => true | _ => false end.

Definition is_unix_socket (x : event) : bool :=
  match ev_call x with SysUnixSocket => true | _ => false end.

Definition sim_result (w : sim) (fd r : Z) : errno + Z :=
  if bool_decide (fd ∈ sim_failing w) then inl (Eother 0) else inr r.

(** The descriptor of the next UNIX domain socket. *)
Definition sim_socket (w : sim) : Z :=
  100 + Z.of_nat (length (filter (fun x => is_unix_socket x = true) (sim_trace w))).

Arguments sim_socket : simpl never.

(** The descriptors of the next pipe. *)
Definition sim_pipe (w : sim) : Z * Z :=
  let n := Z.of_nat (length (filter (fun x => is_pipe x = true) (sim_trace w))) in
  (20 + 2 * n, 21 + 2 * n).

Definition sim_sys {A : Set} (e : sysE A) (w : sim) : A * sim :=
  match e with
  | SysRead fd n =>
      let '(r, l) := sim_take fd n (sim_reads w) in
      sim_log (SysRead fd n) r
        (Sim l (sim_limit w) (sim_events w) (sim_accepts w) (sim_failing w) (sim_clock w)
             (sim_trace w))
  | SysWrite fd d =>
      sim_log (SysWrite fd d)
        (inr (Z.max 0 (Z.min (sim_limit w) (Z.of_nat (length d))))) w
  | SysClose fd => sim_log (SysClose fd) (inr 0) w
  | SysIgnoreSigpipe => sim_log SysIgnoreSigpipe tt w
  | SysEpollCreate => sim_log SysEpollCreate (inr 3) w
  | SysSocket => sim_log SysSocket (inr 4) w
  | SysSetsockopt fd o => sim_log (SysSetsockopt fd o) (sim_result w fd 0) w
  | SysBind fd a p => sim_log (SysBind fd a p) (sim_result w fd 0) w
  | SysListen fd b => sim_log (SysListen fd b) (sim_result w fd 0) w
  | SysEpollAdd p fd ev d => sim_log (SysEpollAdd p fd ev d) (sim_result w fd 0) w
  | SysEpollDel p fd => sim_log (SysEpollDel p fd) (sim_result w fd 0) w
  | SysEpollWait p max t =>
      match sim_events w with
      | [] => sim_log (SysEpollWait p max t) (inr []) w
      | l :: ls =>
          sim_log (SysEpollWait p max t) (inr (take (Z.to_nat max) l))
            (Sim (sim_reads w) (sim_limit w) ls (sim_accepts w) (sim_failing w) (sim_clock w)
                 (sim_trace w))
      end
  | SysAccept fd =>
      match sim_accepts w with
      | [] => sim_log (SysAccept fd) (inl EAGAIN) w
      | r :: rs =>
          sim_log (SysAccept fd) (match r with inr c => inr (Z.max 0 c) | _ => r end)
            (Sim (sim_reads w) (sim_limit w) (sim_events w) rs (sim_failing w) (sim_clock w)
                 (sim_trace w))
      end
  | SysGetFl fd => sim_log (SysGetFl fd) (sim_result w fd 2) w
  | SysSetFl fd f => sim_log (SysSetFl fd f) (sim_result w fd 0) w
  | SysPipe => sim_log SysPipe (inr (sim_pipe w)) w
  | SysTee i o n => sim_log (SysTee i o n) (inr n) w
  | SysSplice i o n => sim_log (SysSplice i o n) (inr n) w
  | SysNow =>
      sim_log SysNow (sim_clock w)
        (Sim (sim_reads w) (sim_limit w) (sim_events w) (sim_accepts w) (sim_failing w)
             (sim_clock w + 1000000000) (sim_trace w))
  | SysUnixSocket => sim_log SysUnixSocket (inr (sim_socket w)) w
  | SysUnlink p => sim_log (SysUnlink p) (inr 0) w
  | SysBindUnix fd p => sim_log (SysBindUnix fd p) (sim_result w fd 0) w
  | SysConnectUnix fd p => sim_log (SysConnectUnix fd p) (sim_result w fd 0) w
  | SysSetBufferSize fd o n => sim_log (SysSetBufferSize fd o n) (sim_result w fd 0) w
  | SysSetPipeSize fd n => sim_log (SysSetPipeSize fd n) (sim_result w fd n) w
  | SysFopen p m => sim_log (SysFopen p m) (inr 50) w
  | SysFprintf st d => sim_log (SysFprintf st d) (Z.of_nat (length d)) w
  end.

#[export] Instance sim_posix : Posix sim := fun A e w => sim_sys e w.

Lemma sim_take_length fd n l d :
  (sim_take fd n l).1 = inr d -> Z.of_nat (length d) <= Z.max n 0.
Proof.
  induction l as [|[fd' r] l IH]; cbn [sim_take]; [done|].
  case_test; [|by destruct (sim_take fd n l)].
  destruct r as [|d']; [done|]. intros [= <-]. rewrite length_take. lia.
Qed.

#[export] Program Instance sim_laws : PosixLaws sim := {| trace := sim_trace |}.
Next Obligation.
  intros A e w. unfold sys, sim_posix. destruct e; cbn [sim_sys]; try done.
  - by destruct (sim_take _ _ _).
  - by destruct (sim_events w).
  - by destruct (sim_accepts w).
Qed.
Next Obligation.
  intros A e w. unfold sys, sim_posix. destruct e; cbn; try done; try lia.
  - pose proof (sim_take_length fd n (sim_reads w)) as H.
    destruct (sim_take _ _ _) as [[e|d] l]; cbn; [done|]. by apply H.
  - destruct (sim_events w) as [|l ls]; cbn; [|rewrite length_take]; lia.
  - destruct (sim_accepts w) as [|[|c] ls]; cbn; [done..|lia].
  - unfold sim_socket. lia.
Qed.
