(* ===== verification/RequestHandler.v ===== *)
(** * Handlers: src/hpl_request_handler.h, and the state they share with the server

    A handler is user code: a parameter of the model.  It is a stateful
    computation over the kernel [W] (which also stands for the program's own
    state) and over the one object of the library that its signature lets it
    change: the HTTP handler gets the body as an rvalue reference, so it may or
    may not take the text out of it; the WebSocket handlers get the connection,
    of which they may change what [WebsocketConnection::Write] and [GetWsAccept]
    change.  An empty [std::function] is [None].
    What a handler does to other connections is not in its type, as these hold handlers
    themselves: it writes to one by its descriptor, and the ones it closes are given by a
    [closer] (Closing). *)

From S2P Require Import Prelude State Posix Method HeaderParser.

(** ** Build configuration (src/httpoll.mk)

    [SMALL_MEMORY] and [HPL_ENABLE_PING_PONG] are preprocessor symbols, [None]
    when undefined. *)
Class Config : Set := {
  SMALL_MEMORY : option Z;
  HPL_ENABLE_PING_PONG : option Z
}.

(** The flags of the build file. *)
Definition httpoll_mk : Config :=
  {| SMALL_MEMORY := Some 1024; HPL_ENABLE_PING_PONG := Some 10 |}.

(** ** The state of a WebSocket connection (src/hpl_websocket_connection.h)

    Times are nanoseconds of the steady clock.  A pointer to a connection is the number
    the object was created under (Server); [ws_conn_of] is the member [conn_]. *)
Record ws_state := WsState {
  ws_key_ : bytes;
  ws_accept_ : bytes;
  last_payload_ : bytes;
  last_io_time_ : Z;
  ws_conn_of : nat
}.

Definition set_ws_accept a '(WsState k _ p t n) := WsState k a p t n.
Definition set_last_payload p '(WsState k a _ t n) := WsState k a p t n.
Definition set_last_io_time t '(WsState k a p _ n) := WsState k a p t n.

Section handlers.
Context (W : Type).

(** [Handler(conn, uri, partial, is_final)]: it gets the pointer, and sees the parser and the
    descriptor of the connection. *)
Definition Handler : Type :=
  nat -> HttpHeaderParser.http_header_parser -> Z -> bytes -> bool -> M (bytes * W) Z.

(** [WsHook(ws_conn, uri)] and [WsHandler(ws_conn, type, data)]; the first
    argument is the descriptor, and the pointer is in the state. *)
Definition WsHook : Type := Z -> bytes -> M (ws_state * W) Z.
Definition WsHandler : Type := Z -> Z -> bytes -> M (ws_state * W) Z.

Record request_handler := RequestHandler {
  http_handlers : list (option Handler);
  ws_connect_hook : option WsHook;
  ws_ready_hook : option WsHook;
  ws_will_close_hook : option WsHook;
  ws_message_handler : option WsHandler
}.

(** A default-constructed [RequestHandler]. *)
Definition empty_handler : request_handler :=
  RequestHandler (replicate (HttpMethod.to_int HttpMethod.UNKNOWN) None) None None None None.

Record ws_connection := WsConn {
  ws_st : ws_state;
  on_data_ : option WsHandler;
  will_close_hook_ : option WsHook
}.
End handlers.

Arguments http_handlers {W} _.
Arguments ws_connect_hook {W} _.
Arguments ws_ready_hook {W} _.
Arguments ws_will_close_hook {W} _.
Arguments ws_message_handler {W} _.
Arguments RequestHandler {W} _ _ _ _ _.
Arguments WsConn {W} _ _ _.
Arguments ws_st {W} _.
Arguments on_data_ {W} _.
Arguments will_close_hook_ {W} _.

(** [http_handlers[static_cast<int>(method)]]. *)
Definition handler_for {W} (h : request_handler W) (m : HttpMethod.http_method)
  : outcome (option (Handler W)) :=
  of_option OutOfBounds (http_handlers h !! HttpMethod.to_int m).

(** [h.http_handlers[m] = f], as applications fill the table. *)
Definition set_handler {W} (m : HttpMethod.http_method) (f : Handler W) (h : request_handler W)
  : request_handler W :=
  let 'RequestHandler hs a b c d := h in
  RequestHandler (<[HttpMethod.to_int m := Some f]> hs) a b c d.
