(* ===== verification/Connection.v ===== *)
(** * Connections: src/hpl_connection.h and src/hpl_connection.cc

    A connection buffers what it reads from its descriptor, cuts the buffer into
    lines and feeds them to its parser.  [Read] writes the bytes it gets into a
    local array: more bytes than it has room for are a fault.  The two loops of
    [ProcessDataIn] are the recursive functions [drain] (the buffered lines) and
    [ProcessDataIn] itself (one read per round). *)

From S2P Require Import Prelude CString StdMap Version HeaderParser State Posix RequestHandler.
Import HttpHeaderParser.

Section connection.
Context {W : Type} `{!Posix W} {config : Config}.

Record connection := Conn {
  fd_ : Z;
  buffer_ : bytes;
  ws_conn_ : option (ws_connection W);
  partial_body_ : bytes;
  parser : http_header_parser
}.

(** [Connection(svr, fd)]. *)
Definition make (fd : Z) : connection := Conn fd [] None [] init.

Definition set_fd fd '(Conn _ b w pb p) := Conn fd b w pb p.
Definition set_buffer b '(Conn fd _ w pb p) := Conn fd b w pb p.
Definition set_ws_conn w '(Conn fd b _ pb p) := Conn fd b w pb p.
Definition set_partial_body pb '(Conn fd b w _ p) := Conn fd b w pb p.
Definition set_parser p '(Conn fd b w pb _) := Conn fd b w pb p.

(** ** [PopLine] *)

Definition kIntNewLine : Z := Z.lor (b2z CR) (Z.shiftl (b2z LF) 8).

(** The search loop, by 2-byte loads: the position of the first line end, or the
    last position when there is none. *)
Fixpoint find_newline (l : bytes) : nat :=
  match l with
  | a :: (b :: _) as r =>
      if b2z a + b2z b * 2 ^ 8 =? kIntNewLine then 0 else S (find_newline r)
  | _ => 0
  end.

Definition PopLine (c : connection) : option bytes * connection :=
  if (length (buffer_ c) <? 2)%nat then (None, c) else
  let idx := find_newline (buffer_ c) in
  if (length (buffer_ c) - 1 <=? idx)%nat then (None, c) else
  (Some (take (idx + 2) (buffer_ c)), set_buffer (drop (idx + 2) (buffer_ c)) c).

(** ** [Read] *)

Definition kLocalBufferLen : Z := default 1024 SMALL_MEMORY.

Definition read_len (c : connection) : Z :=
  match SMALL_MEMORY with
  | Some m => u64 (m - Z.of_nat (length (buffer_ c)))
  | None => kLocalBufferLen
  end.

Definition Read (c : connection) : M W (Z * connection) :=
  nread ← call (SysRead (fd_ c) (read_len c));
  match nread with
  | inr d =>
      _ ← lift (guard_or (Z.of_nat (length d) <=? kLocalBufferLen) OutOfBounds);
      if decide (d = []) then mret (-1, c)
      else mret (1, set_buffer (buffer_ c ++ d) c)
  | inl EAGAIN => mret (0, c)
  | inl EINTR => mret (1, c)
  | inl (Eother _) => mret (-1, c)
  end.

(** ** [ProcessDataIn] *)

Definition state_ret (s : parser_state) : Z :=
  match s with Body => 0 | Done => 1 | _ => -1 end.

(** The inner loop: [Some ret] when the function returns from it, [None] when it
    breaks. *)
Fixpoint drain (fuel : nat) (c : connection) : outcome (option Z * connection) :=
  match fuel with
  | O => OutOfFuel
  | S fuel =>
      let push line c :=
        '(p, stat) ← PushLine (parser c) line;
        let c := set_parser p c in
        match stat with
        | Done | Body => Ok (Some (state_ret stat), c)
        | _ => drain fuel c
        end in
      let '(line, c) := PopLine c in
      match line with
      | Some line => push line c
      | None =>
          if decide (buffer_ c = []) then Ok (None, c) else
          if decide (state_ (parser c) <> Body) then Ok (None, c) else
          let length_limit := Nat.min (length (buffer_ c)) 1024 in
          let c := set_partial_body (take length_limit (buffer_ c)) c in
          let c := set_buffer (drop length_limit (buffer_ c)) c in
          push (partial_body_ c) c
      end
  end.

Fixpoint ProcessDataIn (fuel : nat) (c : connection) : M W (Z * connection) :=
  match fuel with
  | O => fun _ => OutOfFuel
  | S fuel =>
      '(ret, c) ← Read c;
      if ret =? -1 then mret (-2, c)
      else if ret =? 0 then mret (state_ret (state_ (parser c)), c)
      else
        '(r, c) ← lift (drain (S (length (buffer_ c))) c);
        match r with
        | Some ret => mret (ret, c)
        | None => ProcessDataIn fuel c
        end
  end.

(** ** [Write] *)

Definition Write (fd : Z) (data : bytes) : M W Z :=
  if fd =? -1 then mret (-1) else
  nwrite ← call (SysWrite fd data);
  match nwrite with
  | inl EAGAIN => mret 0
  | inl EINTR => mret 1
  | inl (Eother _) => mret (-1)
  | inr _ => mret 1
  end.

(** ** The upgrade to a WebSocket *)

Definition ShouldUpgradeWebsocket (c : connection) : bool :=
  match ws_conn_ c with
  | Some _ => false
  | None =>
      negb (Z.land (upgrade_flags_ (parser c)) UpgradeWebSocket =? 0) &&
      negb (Z.land (connection_flags_ (parser c)) ConnectionUpgrade =? 0) &&
      (bool_decide (version_ (parser c) = HttpVersion.HTTP_1_1) ||
       bool_decide (version_ (parser c) = HttpVersion.HTTP_1_0))
  end.

(** The key, from the first of the three headers that is not empty. *)
Definition find_key (p : http_header_parser) : bytes :=
  let key := GetHeader p (str "Sec-WebSocket-Key") in
  let key := if decide (key = []) then GetHeader p (str "Sec-WebSocket-Key1") else key in
  if decide (key = []) then GetHeader p (str "Sec-WebSocket-Key2") else key.

(** The constructor of [WebsocketConnection]; with the ping-pong feature its
    [last_io_time_] starts at the current time. *)
Definition new_websocket (this : nat) (key : bytes) (on_data : option (WsHandler W))
  (will_close_hook : option (WsHook W)) : M W (ws_connection W) :=
  t ← (match HPL_ENABLE_PING_PONG with Some _ => call SysNow | None => mret 0 end : M W Z);
  mret (WsConn (WsState key [] [] t this) on_data will_close_hook).

(** The result is the connection's [ws_conn_]; [None] is the null pointer. *)
Definition UpgradeToWebsocket (this : nat) (on_data : option (WsHandler W))
  (will_close_hook : option (WsHook W)) (c : connection)
  : M W (option (ws_connection W) * connection) :=
  match ws_conn_ c with
  | Some w => mret (Some w, c)
  | None =>
      let key := find_key (parser c) in
      if decide (key = []) then mret (None, c) else
      w ← new_websocket this key on_data will_close_hook;
      mret (Some w, set_ws_conn (Some w) c)
  end.
End connection.

Arguments connection : clear implicits.
