(* ===== verification/ConnectionSpec.v ===== *)
(** * Lemmas about connections: line splitting, reads and the two loops *)

From S2P Require Import Prelude CString HeaderParser HeaderParserSpec State Posix RequestHandler Connection.
Import HttpHeaderParser.

Implicit Types (s l : bytes).

(** ** Lines *)

(** [s] contains no line end. *)
Definition crlf_free (s : bytes) : Prop := forall a b, s <> a ++ CRLF ++ b.

(** A line as [PopLine] cuts it: it ends with CRLF, and nowhere before. *)
Definition line (l : bytes) : Prop := exists x, l = x ++ CRLF /\ crlf_free (x ++ [CR]).

Lemma newline_test (x y : byte) : (b2z x + b2z y * 2 ^ 8 =? kIntNewLine) = bool_decide ([x; y] = CRLF).
Proof.
  change kIntNewLine with (b2z CR + b2z LF * 2 ^ 8).
  apply eq_true_iff_eq. rewrite Z.eqb_eq, bool_decide_eq_true. unfold CRLF. split.
  - intros H. pose proof (b2z_range x). pose proof (b2z_range y).
    pose proof (b2z_range CR). pose proof (b2z_range LF).
    assert (b2z x = b2z CR /\ b2z y = b2z LF) as [->%b2z_inj ->%b2z_inj] by lia. done.
  - by intros [= -> ->].
Qed.

Lemma find_newline_cons x y r :
  find_newline (x :: y :: r) =
    if bool_decide ([x; y] = CRLF) then 0%nat else S (find_newline (y :: r)).
Proof. cbn [find_newline]. by rewrite newline_test. Qed.

Lemma find_newline_le s : (find_newline s <= length s - 1)%nat.
Proof.
  induction s as [|x [|y r] IH]; [cbn; lia..|].
  rewrite find_newline_cons. case_bool_decide; cbn [length] in *; lia.
Qed.

Lemma crlf_free_nil : crlf_free [].
Proof. intros u v. by destruct u. Qed.

Lemma crlf_free_one x : crlf_free [x].
Proof. intros u v. by destruct u as [|? [|??]]. Qed.

Lemma crlf_free_cons x y r :
  crlf_free (x :: y :: r) <-> [x; y] <> CRLF /\ crlf_free (y :: r).
Proof.
  split.
  - intros H. split.
    + intros E. apply (H [] r). unfold CRLF in *. by injection E as -> ->.
    + intros u v E. apply (H (x :: u) v). cbn. by rewrite E.
  - intros [Hn Hf] u v E. destruct u as [|z u]; cbn in E.
    + apply Hn. unfold CRLF in *. cbn in E. congruence.
    + injection E as -> E. by apply (Hf u v).
Qed.

(** Where the search stops. *)
Lemma find_newline_spec s :
  let i := find_newline s in
  (i + 1 < length s)%nat /\ (exists x, s = x ++ CRLF ++ drop (i + 2) s /\ length x = i /\ crlf_free (x ++ [CR]))
  \/ (i = length s - 1)%nat /\ crlf_free s.
Proof.
  induction s as [|x [|y r] IH].
  - right. split; [done|apply crlf_free_nil].
  - right. split; [done|apply crlf_free_one].
  - cbv zeta in *. rewrite find_newline_cons. case_bool_decide as E.
    + left. split; [cbn; lia|]. exists []. unfold CRLF in E. injection E as -> ->.
      split; [done|]. split; [done|apply crlf_free_one].
    + destruct IH as [[Hi (u & Hu & Hlen & Hf)]|[Hi Hf]].
      * left. split; [cbn [length] in *; lia|]. exists (x :: u).
        split; [|split; [cbn [length]; lia|]].
        -- cbn [Nat.add drop app]. by rewrite Hu at 1.
        -- destruct u as [|z u].
           ++ apply crlf_free_cons. cbn in Hu. injection Hu as -> _.
              split; [done|apply crlf_free_one].
           ++ cbn in Hu. injection Hu as -> Hu. apply crlf_free_cons. done.
      * right. split; [cbn [length] in *; lia|]. by apply crlf_free_cons.
Qed.

#[export] Instance crlf_free_dec s : Decision (crlf_free s).
Proof.
  refine (cast_if (decide (length s - 1 <= find_newline s)%nat));
    destruct (find_newline_spec s) as [[Hi (x & Hx & _)]|[Hi Hf]]; try done; try lia.
  intros H. by apply (H x (drop (find_newline s + 2) s)).
Defined.

#[export] Instance line_dec l : Decision (line l).
Proof.
  refine (cast_if (decide (l = take (length l - 2) l ++ CRLF /\
                           crlf_free (take (length l - 2) l ++ [CR])))).
  - exists (take (length l - 2) l). done.
  - intros (x & -> & Hf). apply n. rewrite length_app. cbn [length CRLF].
    rewrite Nat.add_sub, take_app_length. done.
Defined.

Section pop.
Context {W : Type}.
Implicit Types (c : connection W).

Lemma set_buffer_same c : set_buffer (buffer_ c) c = c.
Proof. by destruct c. Qed.

(** The two outcomes of [PopLine]. *)
Lemma PopLine_cases c :
  (exists l r, PopLine c = (Some l, set_buffer r c) /\ buffer_ c = l ++ r /\ line l) \/
  PopLine c = (None, c) /\ crlf_free (buffer_ c).
Proof.
  unfold PopLine. destruct (find_newline_spec (buffer_ c)) as [[Hi (x & Hx & Hlen & Hf)]|[Hi Hf]].
  - left. case_tests. exists (x ++ CRLF), (drop (find_newline (buffer_ c) + 2) (buffer_ c)).
    assert (take (find_newline (buffer_ c) + 2) (buffer_ c) = x ++ CRLF) as ->.
    { rewrite Hx at 2. rewrite app_assoc. apply take_app_len. rewrite length_app. cbn. lia. }
    split; [done|]. split; [by rewrite <- app_assoc|]. by exists x.
  - right. split; [|done]. case_test; [done|]. by rewrite (proj2 (Nat.leb_le _ _)) by lia.
Qed.
End pop.

(** What is pushed to a parser at once: a line, or, in the body, up to 1024 bytes without a
    line end. *)
Definition piece (p : http_header_parser) (l : bytes) : Prop :=
  line l \/ state_ p = Body /\ l <> [] /\ (length l <= 1024)%nat /\ crlf_free l.

(** The parser goes from one state to another by being fed pieces. *)
Inductive feeds : http_header_parser -> list bytes -> http_header_parser -> Prop :=
| feeds_nil p : feeds p [] p
| feeds_cons p l q st ls r :
    piece p l -> PushLine p l = Ok (q, st) -> feeds q ls r -> feeds p (l :: ls) r.

Lemma line_length l : line l -> (2 <= length l)%nat.
Proof. intros (x & -> & _). rewrite length_app. cbn. lia. Qed.

Lemma piece_length p l : piece p l -> (1 <= length l)%nat.
Proof. intros [H%line_length|(_ & H & _)]; [lia|]. destruct l; [done|cbn; lia]. Qed.

Lemma feeds_push_lines p ls q : feeds p ls q -> push_lines p ls = Ok q.
Proof. induction 1 as [|p l q st ls r _ Hp _ IH]; [done|]. by rewrite (push_lines_cons _ _ _ _ _ Hp). Qed.

Lemma feeds_app p ls q ls' r : feeds p ls q -> feeds q ls' r -> feeds p (ls ++ ls') r.
Proof. induction 1; [done|]. intros. econstructor; eauto. Qed.


Lemma crlf_free_take s n : crlf_free s -> crlf_free (take n s).
Proof.
  intros H a b E. apply (H a (b ++ drop n s)). rewrite <- (take_drop n s) at 1. rewrite E.
  by rewrite <- !app_assoc.
Qed.

Lemma PushLine_state p l p' (st : parser_state) : PushLine p l = Ok (p', st) -> st = state_ p'.
Proof. unfold PushLine. intros (q & _ & [= -> <-])%bind_Ok. done. Qed.

Section loops.
Context {W : Type} `{!Posix W} `{!PosixLaws W} {config : Config}.
Implicit Types (c : connection W).

(** ** [drain] *)

(** The next piece of the buffer, if the loop goes on. *)
Definition next_piece c : option (bytes * connection W) :=
  match PopLine c with
  | (Some l, c) => Some (l, c)
  | (None, c) =>
      if decide (buffer_ c = []) then None else
      if decide (state_ (parser c) <> Body) then None else
      let n := Nat.min (length (buffer_ c)) 1024 in
      Some (take n (buffer_ c), set_buffer (drop n (buffer_ c)) (set_partial_body (take n (buffer_ c)) c))
  end.

Lemma drain_step fuel c :
  drain (S fuel) c =
    match next_piece c with
    | None => Ok (None, c)
    | Some (l, c1) =>
        '(p, stat) ← PushLine (parser c1) l;
        match stat with
        | Done | Body => Ok (Some (state_ret stat), set_parser p c1)
        | _ => drain fuel (set_parser p c1)
        end
    end.
Proof.
  cbn [drain]. unfold next_piece.
  destruct (PopLine_cases c) as [(l & r & -> & _)|[-> _]]; [done|].
  repeat case_decide; try done. by destruct c.
Qed.

(** The fields that reading data does not touch. *)
Definition same_frame c c' : Prop := fd_ c' = fd_ c /\ ws_conn_ c' = ws_conn_ c.

Lemma same_frame_refl c : same_frame c c.
Proof. done. Qed.
Lemma same_frame_trans c1 c2 c3 : same_frame c1 c2 -> same_frame c2 c3 -> same_frame c1 c3.
Proof. unfold same_frame. intuition congruence. Qed.
Lemma same_frame_set_parser p c : same_frame c (set_parser p c).
Proof. by destruct c. Qed.
Lemma same_frame_set_buffer b c : same_frame c (set_buffer b c).
Proof. by destruct c. Qed.

(** Nothing to push: no complete line, and no body to take without one. *)
Definition idle c : Prop :=
  crlf_free (buffer_ c) /\ (buffer_ c = [] \/ state_ (parser c) <> Body).

Lemma next_piece_spec c :
  match next_piece c with
  | None => idle c
  | Some (l, c1) =>
      buffer_ c = l ++ buffer_ c1 /\ piece (parser c) l /\ parser c1 = parser c /\ same_frame c c1
  end.
Proof.
  unfold next_piece. destruct (PopLine_cases c) as [(l & r & -> & E & Hl)|[-> Hf]].
  - rewrite E. destruct c; cbn. do 2 (split; [by try left|]). done.
  - case_decide as Hb; [split; [done|by left]|].
    case_decide as Hs; [split; [done|by right]|].
    rewrite <- (take_drop (Nat.min (length (buffer_ c)) 1024) (buffer_ c)) at 1.
    destruct c as [fd b ws pb p]; cbn in *. split; [done|]. split; [right|done].
    split; [done|]. split; [by destruct b|]. split; [rewrite length_take; lia|]. by apply crlf_free_take.
Qed.

(** The result of the inner loop. *)
Definition drained (r : option Z) c : Prop :=
  match r with
  | None => idle c
  | Some z => z = state_ret (state_ (parser c)) /\ (state_ (parser c) = Body \/ state_ (parser c) = Done)
  end.

(** What a run of the loop amounts to. *)
Definition drains c (r : option Z) c' : Prop :=
  exists ls, buffer_ c = concat ls ++ buffer_ c' /\ feeds (parser c) ls (parser c') /\
    same_frame c c' /\ drained r c'.

Lemma drains_cons c l c1 p st r c' :
  buffer_ c = l ++ buffer_ c1 -> piece (parser c) l -> same_frame c c1 ->
  PushLine (parser c) l = Ok (p, st) -> drains (set_parser p c1) r c' -> drains c r c'.
Proof.
  intros Hb Hl Hf Hp (ls & E & Hfeed & Hf2 & Hd). exists (l :: ls).
  assert (Hf1 : same_frame c (set_parser p c1)).
  { eapply same_frame_trans; [done|apply same_frame_set_parser]. }
  replace (buffer_ (set_parser p c1)) with (buffer_ c1) in E by (by destruct c1).
  replace (parser (set_parser p c1)) with p in Hfeed by (by destruct c1).
  cbn [concat]. rewrite Hb, E, app_assoc. split; [done|].
  split; [by eapply feeds_cons|]. split; [by eapply same_frame_trans|done].
Qed.

Lemma drain_spec fuel : forall c r c', drain fuel c = Ok (r, c') -> drains c r c'.
Proof.
  induction fuel as [|fuel IH]; intros c r c'; [done|]. rewrite drain_step.
  pose proof (next_piece_spec c) as Hn. destruct (next_piece c) as [[l c1]|].
  2:{ intros [= <- <-]. exists []. split; [done|]. split; [apply feeds_nil|done]. }
  destruct Hn as (Hb & Hl & Hp & Hf). intros ([p stat] & Hpush & Hrest)%bind_Ok.
  pose proof (PushLine_state _ _ _ _ Hpush) as Hst. rewrite Hp in Hpush.
  eapply drains_cons; [done..|].
  destruct stat; [by apply IH|by apply IH|..]; injection Hrest as <- <-; exists [];
    (split; [done|]; split; [apply feeds_nil|]; split; [done|]); destruct c1; cbn; rewrite <- Hst; auto.
Qed.

(** How the loop ends when it does not return a value: the parser, fed pieces of the buffer
    in order, gives [o] on the next one. *)
Definition stops_on c (o : outcome (http_header_parser * parser_state)) : Prop :=
  exists ls q l rest, buffer_ c = concat ls ++ l ++ rest /\ feeds (parser c) ls q /\ piece q l /\ PushLine q l = o.

Lemma stops_on_cons c l c1 p st o :
  buffer_ c = l ++ buffer_ c1 -> piece (parser c) l -> PushLine (parser c) l = Ok (p, st) ->
  stops_on (set_parser p c1) o -> stops_on c o.
Proof.
  intros Hb Hl Hp (ls & q & l' & rest & E & Hf & Hl' & Ho). exists (l :: ls), q, l', rest.
  replace (buffer_ (set_parser p c1)) with (buffer_ c1) in E by (by destruct c1).
  replace (parser (set_parser p c1)) with p in Hf by (by destruct c1).
  cbn [concat]. rewrite Hb, E, <- app_assoc. split; [done|]. split; [by eapply feeds_cons|done].
Qed.

Lemma stops_on_here c l c1 o :
  buffer_ c = l ++ buffer_ c1 -> piece (parser c) l -> PushLine (parser c) l = o -> stops_on c o.
Proof. intros Hb Hl Ho. exists [], (parser c), l, (buffer_ c1). split; [done|]. split; [apply feeds_nil|done]. Qed.

(** Only the parser makes the loop fault. *)
Lemma drain_fault fuel f : forall c, drain fuel c = Fault f -> stops_on c (Fault f).
Proof.
  induction fuel as [|fuel IH]; intros c; [done|]. rewrite drain_step.
  pose proof (next_piece_spec c) as Hn. destruct (next_piece c) as [[l c1]|]; [|done].
  destruct Hn as (Hb & Hl & Hp & _). rewrite Hp.
  destruct (PushLine (parser c) l) as [[p st]| |] eqn:E; cbn [mbind outcome_bind]; [| |done].
  - destruct st; try done; intros Hd%IH; by eapply stops_on_cons.
  - intros [= ->]. by eapply stops_on_here.
Qed.

(** The loop goes round at most once per buffered byte: with fuel for that, only a parser that
    does not return keeps it from returning. *)
Lemma drain_fuel fuel : forall c,
  (length (buffer_ c) < fuel)%nat -> drain fuel c = OutOfFuel -> stops_on c OutOfFuel.
Proof.
  induction fuel as [|fuel IH]; intros c Hf; [lia|]. rewrite drain_step.
  pose proof (next_piece_spec c) as Hn. destruct (next_piece c) as [[l c1]|]; [|done].
  destruct Hn as (Hb & Hl & Hp & _). rewrite Hp.
  destruct (PushLine (parser c) l) as [[p st]| |] eqn:E; cbn [mbind outcome_bind]; [|done|].
  2:{ intros _. by eapply stops_on_here. }
  assert (length (buffer_ (set_parser p c1)) < fuel)%nat.
  { apply piece_length in Hl. rewrite Hb, length_app in Hf. destruct c1; cbn in *. lia. }
  destruct st; try done; intros Hd%IH; try done; by eapply stops_on_cons.
Qed.

(** ** [Read] *)

Inductive read_result c : errno + bytes -> Z -> connection W -> Prop :=
| read_data d : d <> [] -> read_result c (inr d) 1 (set_buffer (buffer_ c ++ d) c)
| read_end : read_result c (inr []) (-1) c
| read_again : read_result c (inl EAGAIN) 0 c
| read_interrupted : read_result c (inl EINTR) 1 c
| read_error n : read_result c (inl (Eother n)) (-1) c.

Lemma Read_spec c w ret c' w' :
  Read c w = Ok ((ret, c'), w') ->
  exists r, after w [Event (SysRead (fd_ c) (read_len c)) r] w' /\
    reply_ok (SysRead (fd_ c) (read_len c)) r /\ read_result c r ret c'.
Proof.
  unfold Read. intros (r & w1 & [Ha Ho]%call_after & H)%M_bind_Ok. exists r.
  destruct r as [[| |n]|d].
  1-3: injection H as <- <- <-; repeat split; try done; constructor.
  apply M_bind_Ok in H. destruct H as (? & ? & [_ ->]%lift_Ok & H). revert H.
  case_decide as Hd; intros [= <- <- <-]; repeat split; try done; [subst d|]; by constructor.
Qed.

Lemma received_read fd n r : received fd [Event (SysRead fd n) r] = match r with inr d => d | inl _ => [] end.
Proof. unfold received. cbn. rewrite Z.eqb_refl, app_nil_r. done. Qed.

Lemma read_result_received c r ret c' :
  read_result c r ret c' ->
  buffer_ c' = buffer_ c ++ match r with inr d => d | inl _ => [] end /\
    parser c' = parser c /\ partial_body_ c' = partial_body_ c /\ same_frame c c'.
Proof. destruct 1; rewrite ?app_nil_r; destruct c; done. Qed.

(** ** [ProcessDataIn] *)

(** How it ends: the return code, and what it says of the connection it started with and the
    one it leaves. *)
Definition processed c (ret : Z) c' : Prop :=
  (ret = -2 \/ ret = state_ret (state_ (parser c'))) /\ (idle c -> ret = -1 -> idle c').

Lemma ProcessDataIn_spec fuel : forall c w ret c' w',
  ProcessDataIn fuel c w = Ok ((ret, c'), w') ->
  exists t ls, after w t w' /\
    buffer_ c ++ received (fd_ c) t = concat ls ++ buffer_ c' /\ feeds (parser c) ls (parser c') /\ same_frame c c' /\ processed c ret c'.
Proof.
  induction fuel as [|fuel IH]; intros c w ret c' w'; [done|]. cbn [ProcessDataIn].
  intros ([ret1 c1] & w1 & (r & Ha & _ & Hr)%Read_spec & H)%M_bind_Ok.
  destruct (read_result_received _ _ _ _ Hr) as (Hb & Hp & _ & Hf).
  rewrite <- (received_read (fd_ c) (read_len c)) in Hb.
  destruct (Z.eqb_spec ret1 (-1)) as [->|]; [|destruct (Z.eqb_spec ret1 0) as [->|]].
  - injection H as <- <- <-. eexists _, []. split; [done|]. rewrite Hp, Hb. cbn [concat app].
    split; [done|]. split; [apply feeds_nil|]. split; [done|]. split; [by left|done].
  - injection H as <- <- <-. eexists _, []. split; [done|]. rewrite Hp, Hb. cbn [concat app].
    split; [done|]. split; [apply feeds_nil|]. split; [done|].
    split; [by right; rewrite Hp|]. by inversion Hr; subst.
  - apply M_bind_Ok in H. destruct H as ([r1 c2] & w2 & [Hd ->]%lift_Ok & H).
    apply drain_spec in Hd. destruct Hd as (ls & E & Hfeed & Hf2 & Hdr). rewrite Hp in Hfeed.
    pose proof (same_frame_trans _ _ _ Hf Hf2) as Hf3.
    destruct r1 as [z|].
    + injection H as <- <- <-. eexists _, ls. split; [done|]. rewrite <- Hb. do 3 (split; [done|]).
      split; [right; apply Hdr|]. by destruct Hdr as [-> [-> | ->]].
    + apply IH in H. destruct H as (t & ls' & Ha' & E' & Hfeed' & Hf' & Hc & Hi).
      exists ([Event (SysRead (fd_ c) (read_len c)) r] ++ t), (ls ++ ls').
      split; [by eapply after_trans|].
      rewrite received_app, app_assoc, <- Hb, E, <- app_assoc, concat_app, <- app_assoc.
      rewrite (proj1 Hf3) in E'. rewrite E'. split; [done|]. split; [by eapply feeds_app|].
      split; [by eapply same_frame_trans|]. split; [done|]. intros _. by apply Hi.
Qed.

(** ** When it does not return a value *)

(** The rounds of [ProcessDataIn] that go on to the next read. *)
Inductive rounds : connection W -> W -> connection W -> W -> Prop :=
| rounds_nil c w : rounds c w c w
| rounds_cons c w c1 w1 c2 c' w' :
    Read c w = Ok ((1, c1), w1) -> drain (S (length (buffer_ c1))) c1 = Ok (None, c2) ->
    rounds c2 w1 c' w' -> rounds c w c' w'.

(** The parser ends the call with [o].  After some rounds and one more read, the bytes that the
    connection had and those that these very reads brought begin with the pieces [ls] and the
    piece [l]; the parser took the first, and on [l] it gives [o]. *)
Definition parser_ends c (w : W) (o : outcome (http_header_parser * parser_state)) : Prop :=
  exists c1 w1 c2 w2 t ls q l rest,
    rounds c w c1 w1 /\ Read c1 w1 = Ok ((1, c2), w2) /\ after w t w2 /\
    buffer_ c ++ received (fd_ c) t = concat ls ++ l ++ rest /\
    feeds (parser c) ls q /\ piece q l /\ PushLine q l = o.

Lemma parser_ends_here c w c1 w1 o :
  Read c w = Ok ((1, c1), w1) -> stops_on c1 o -> parser_ends c w o.
Proof.
  intros E (ls & q & l & rest & Hb & Hf & Hl & Ho).
  destruct (Read_spec _ _ _ _ _ E) as (r & Ha & _ & Hr).
  destruct (read_result_received _ _ _ _ Hr) as (Hb1 & Hp & _ & _). rewrite Hp in Hf.
  eexists c, w, c1, w1, _, ls, q, l, rest. split; [apply rounds_nil|]. split; [done|]. split; [exact Ha|].
  by rewrite received_read, <- Hb1.
Qed.

Lemma parser_ends_later c w c1 w1 c2 o :
  Read c w = Ok ((1, c1), w1) -> drain (S (length (buffer_ c1))) c1 = Ok (None, c2) ->
  parser_ends c2 w1 o -> parser_ends c w o.
Proof.
  intros E Hd (c3 & w3 & c4 & w4 & t & ls & q & l & rest & Hs & E4 & Ha & Hb & Hf & Hl).
  destruct (Read_spec _ _ _ _ _ E) as (r & Ha1 & _ & Hr).
  destruct (read_result_received _ _ _ _ Hr) as (Hb1 & Hp & _ & Hf1).
  destruct (drain_spec _ _ _ _ Hd) as (ls1 & Hb2 & Hfeed & Hf2 & _). rewrite Hp in Hfeed.
  exists c3, w3, c4, w4. eexists _, (ls1 ++ ls), q, l, rest.
  split; [by eapply rounds_cons|]. split; [done|]. split; [by eapply after_trans|].
  rewrite received_app, received_read, app_assoc, <- Hb1, Hb2, <- app_assoc, concat_app, <- app_assoc.
  rewrite (proj1 Hf2), (proj1 Hf1) in Hb. rewrite Hb. split; [done|]. split; [by eapply feeds_app|done].
Qed.

(** ** [Write] *)

(** One attempt, unless the descriptor is closed. *)
Lemma Write_Ok fd data (w : W) :
  exists ret w', Write fd data w = Ok (ret, w') /\
    (fd <> -1 -> exists r, after w [Event (SysWrite fd data) r] w').
Proof.
  unfold Write. destruct (Z.eqb_spec fd (-1)); [by do 2 eexists|].
  destruct (call_Ok (SysWrite fd data) w) as (r & w' & E & Ha & _). rewrite (M_bind_eq _ _ _ _ _ E).
  destruct r as [[]|]; do 2 eexists; (split; [reflexivity|]); by eexists.
Qed.
End loops.
