(* ===== verification/ConnectionProps.v ===== *)
(** * What connections guarantee, and where they fall short *)

From S2P Require Import Prelude CString Method Version HeaderParser HeaderParserSpec HeaderParserProps State Posix RequestHandler Connection ConnectionSpec.
Import HttpHeaderParser.

(** ** Lines are cut in one way only *)

Lemma line_unique l r l' r' : line l -> line l' -> l ++ r = l' ++ r' -> l = l' /\ r = r'.
Proof.
  assert (Hlt : forall l l' k, line l -> line l' -> l' = l ++ k -> k = []).
  { intros u u' k (x & -> & _) (x' & -> & Hf') E. destruct k as [|z k] using rev_ind; [done|].
    exfalso. apply (Hf' x k). unfold CRLF in *. change [CR; LF] with ([CR] ++ [LF]) in *.
    rewrite !app_assoc in E. apply app_inj_tail in E. destruct E as [-> _]. by rewrite <- !app_assoc. }
  intros Hl Hl' E. destruct (app_eq_inv _ _ _ _ E) as [(k & E1 & E2)|(k & E1 & E2)].
  - assert (k = []) as -> by (eapply (Hlt l' l); done). by rewrite app_nil_r in E1.
  - assert (k = []) as -> by (eapply (Hlt l l'); done). by rewrite app_nil_r in E1.
Qed.

Lemma line_not_crlf_free l r : line l -> ~ crlf_free (l ++ r).
Proof. intros (x & -> & _) H. apply (H x r). by rewrite <- app_assoc. Qed.

Section props.
Context {W : Type} `{!Posix W} `{!PosixLaws W} {config : Config}.
Implicit Types (c : connection W).

Lemma PopLine_line c l r : buffer_ c = l ++ r -> line l -> PopLine c = (Some l, set_buffer r c).
Proof.
  intros Hb Hl. destruct (PopLine_cases c) as [(l' & r' & -> & Hb' & Hl')|[_ Hf]].
  - rewrite Hb in Hb'. by destruct (line_unique _ _ _ _ Hl Hl' Hb') as [-> ->].
  - rewrite Hb in Hf. by apply line_not_crlf_free in Hf.
Qed.

Lemma feeds_body p ls q :
  feeds p ls q -> state_ p = Body \/ state_ p = Done -> state_ q = Body \/ state_ q = Done.
Proof.
  induction 1 as [|p l q st ls r _ Hp _ IH]; [done|]. intros Hs. apply IH.
  unfold PushLine in Hp. apply bind_Ok in Hp. destruct Hp as (p' & Hp & [= -> _]).
  destruct Hs as [Hs|Hs]; rewrite Hs in Hp; [|by injection Hp as <-; right].
  destruct p as [? ? ? ? ? ? ? ? ? [n|] ? ?]; cbn in *; injection Hp as <-; [|by left].
  case_match; cbn; auto.
Qed.

(** ** The calls made for one connection *)

(** Calls of [ProcessDataIn] in a row, in any kernels, while no complete request and no error
    comes back; in between, a handler may have taken the body out.  [t] is the trace of
    all of them. *)
Inductive receives c0 : list event -> Z -> connection W -> Prop :=
| receives_start : receives c0 [] (-1) c0
| receives_more t ret c pb fuel w ret' c' w' t' :
    receives c0 t ret c -> ret = -1 \/ ret = 0 ->
    ProcessDataIn fuel (set_partial_body pb c) w = Ok ((ret', c'), w') -> after w t' w' ->
    receives c0 (t ++ t') ret' c'.

Lemma after_unique w t t' w' : after w t w' -> after w t' w' -> t = t'.
Proof. unfold after. intros -> H. by apply app_inv_head in H. Qed.

Lemma receives_inv fd t ret c :
  receives (make fd) t ret c ->
  exists ls, received fd t = concat ls ++ buffer_ c /\ feeds init ls (parser c) /\
    fd_ c = fd /\ (ret = -2 \/ ret = state_ret (state_ (parser c))) /\ (ret = -1 -> idle c).
Proof.
  induction 1 as [|t ret c pb fuel w ret' c' w' t' Hr IH Hret HP Ha].
  - exists []. split; [done|]. split; [apply feeds_nil|]. split; [done|]. split; [by right|].
    intros _. split; [apply crlf_free_nil|by left].
  - destruct IH as (ls & E & Hf & Hfd & Hc & Hi).
    apply ProcessDataIn_spec in HP. destruct HP as (t1 & ls' & Ha' & E' & Hf' & Hsf & Hc' & Hi').
    rewrite <- (after_unique _ _ _ _ Ha Ha') in E'.
    replace (fd_ (set_partial_body pb c)) with fd in E' by (by destruct c).
    replace (buffer_ (set_partial_body pb c)) with (buffer_ c) in E' by (by destruct c).
    replace (parser (set_partial_body pb c)) with (parser c) in Hf' by (by destruct c).
    exists (ls ++ ls'). rewrite received_app, E, <- app_assoc, E', concat_app, app_assoc.
    split; [done|]. split; [by eapply feeds_app|].
    split; [destruct Hsf as [-> _]; by destruct c|]. split; [done|].
    intros ->. destruct Hret as [-> | ->].
    + apply Hi'; [|done]. specialize (Hi eq_refl). by destruct c.
    + destruct Hc as [|Hc]; [done|]. apply feeds_body in Hf'; [|destruct (state_ (parser c)); naive_solver].
      destruct Hc' as [|Hc']; [done|]. destruct Hf' as [Hs|Hs]; by rewrite Hs in Hc'.
Qed.

(** ** The header phase of a request *)

(** The lines [ls] are lines, and the parser is still in the first line or the headers before
    each of them. *)
Definition header_lines (p : http_header_parser) (ls : list bytes) : Prop :=
  Forall line ls /\
  forall k q, (k < length ls)%nat -> push_lines p (take k ls) = Ok q ->
    state_ q = FirstLine \/ state_ q = Headers.

Lemma header_lines_tail p l q st ls :
  header_lines p (l :: ls) -> PushLine p l = Ok (q, st) -> header_lines q ls.
Proof.
  intros [Hl Hs] Hp. split; [by inversion Hl|]. intros k r Hk Hr. apply (Hs (S k)); [cbn; lia|].
  cbn [take]. by rewrite (push_lines_cons _ _ _ _ _ Hp).
Qed.

(** The pieces fed so far are the first lines. *)
Lemma feeds_header_lines p ls' q :
  feeds p ls' q -> forall ls rest,
  header_lines p ls -> concat ls = concat ls' ++ rest ->
  exists more, ls = ls' ++ more /\ rest = concat more.
Proof.
  induction 1 as [p|p l q st ls' r Hpc Hp _ IH]; intros ls rest Hh E; [by exists ls|].
  pose proof (piece_length _ _ Hpc) as Hlen.
  destruct ls as [|l1 ls]; cbn [concat] in E.
  { apply (f_equal length) in E. rewrite !length_app in E. cbn in E. lia. }
  assert (Hst : state_ p = FirstLine \/ state_ p = Headers).
  { apply (proj2 Hh 0%nat); [cbn; lia|done]. }
  destruct Hpc as [Hl|[Hb _]]; [|by destruct Hst; congruence].
  rewrite <- app_assoc in E.
  destruct (line_unique l1 (concat ls) l (concat ls' ++ rest)) as [-> E'];
    [by inversion Hh as [Hf _]; inversion Hf|done..|].
  destruct (IH ls rest (header_lines_tail _ _ _ _ _ Hh Hp) E') as (more & -> & ->).
  by exists more.
Qed.

(** Claim C2. How the bytes of a request are divided into segments does not matter.  Whatever
    reads, interruptions and polls it takes, once the bytes received on a connection are
    those of the lines [ls] of a request header, the parser is in the state that pushing
    these lines one by one leads to, nothing is left in the buffer, and the last call
    returns the code of that state (unless the connection failed). *)
Theorem segmentation_independent fd t ret c ls p :
  receives (make fd) t ret c -> ret <> -2 ->
  header_lines init ls -> push_lines init ls = Ok p -> received fd t = concat ls ->
  parser c = p /\ buffer_ c = [] /\ ret = state_ret (state_ p).
Proof.
  intros Hr Hret Hh Hp Ht. destruct (receives_inv _ _ _ _ Hr) as (ls' & E & Hf & _ & Hc & Hi).
  rewrite Ht in E. destruct (feeds_header_lines _ _ _ Hf _ _ Hh E) as (more & -> & Hb).
  apply feeds_push_lines in Hf. destruct Hc as [|Hc]; [done|].
  destruct more as [|l more].
  - rewrite app_nil_r in Hp. rewrite Hf in Hp. injection Hp as <-. done.
  - exfalso. assert (Hst : state_ (parser c) = FirstLine \/ state_ (parser c) = Headers).
    { apply (proj2 Hh (length ls')); [rewrite length_app; cbn; lia|]. by rewrite take_app_length. }
    assert (Hm1 : ret = -1) by (destruct Hst as [Hst|Hst]; rewrite Hst in Hc; done).
    destruct (Hi Hm1) as [Hfree _]. rewrite Hb in Hfree. cbn [concat] in Hfree.
    apply line_not_crlf_free in Hfree; [done|]. destruct Hh as [Hl _].
    apply Forall_app in Hl. destruct Hl as [_ Hl]. by inversion Hl.
Qed.

(** Claim C13. Every byte received on a connection is accounted for, in order and once: the
    pieces the parser was fed, in the order it was fed them, followed by the buffer, are
    the bytes received, from the start of the connection to any later call; and the return
    code tells the parser's state. *)
Theorem received_bytes_accounted fd t ret c :
  receives (make fd) t ret c ->
  exists ls, received fd t = concat ls ++ buffer_ c /\ push_lines init ls = Ok (parser c) /\
    (ret = -2 \/ ret = state_ret (state_ (parser c))) /\
    (ret = -1 -> forall a b, buffer_ c <> a ++ CRLF ++ b).
Proof.
  intros H. destruct (receives_inv _ _ _ _ H) as (ls & E & Hf & _ & Hc & Hi).
  exists ls. split; [done|]. split; [by apply feeds_push_lines|]. split; [done|].
  intros Hr. apply Hi, Hr.
Qed.

(** ** Memory *)

Lemma Read_total m c w :
  SMALL_MEMORY = Some m -> 0 < m < 2 ^ 63 -> Z.of_nat (length (buffer_ c)) <= m ->
  exists ret c' w', Read c w = Ok ((ret, c'), w') /\ Z.of_nat (length (buffer_ c')) <= m /\
    (ret = -1 \/ ret = 0 \/ ret = 1).
Proof.
  intros Hm Hr Hl. unfold Read, read_len, kLocalBufferLen. rewrite Hm. cbn [default from_option id].
  rewrite u64_small by lia.
  destruct (call_Ok (SysRead (fd_ c) (m - Z.of_nat (length (buffer_ c)))) w) as (r & w' & E & _ & Ho).
  rewrite (M_bind_eq _ _ _ _ _ E). destruct r as [[| |n]|d]; cbn in Ho; [do 3 eexists; (split; [reflexivity|]); split; [done|lia]..|].
  rewrite (proj2 (Z.leb_le _ _)) by lia. cbn [guard_or].
  rewrite M_bind_lift. case_decide; do 3 eexists; (split; [reflexivity|]); (split; [|lia]); [done|].
  destruct c; cbn in *. rewrite length_app. lia.
Qed.

Lemma drains_shorter c r c' : drains c r c' -> (length (buffer_ c') <= length (buffer_ c))%nat.
Proof. intros (ls & -> & _). rewrite length_app. lia. Qed.

(** Claim C27. In the small-memory build a connection never holds more than [SMALL_MEMORY]
    bytes, no read overruns the local buffer, and the only faults [ProcessDataIn] can run
    into are those of the parser on the bytes that arrived: with a fault, the reads of this
    very call have brought a piece of the request on which [PushLine] faults, in the state the
    pieces before it had led to. *)
Theorem processing_memory_safe m fuel c w :
  SMALL_MEMORY = Some m -> 0 < m < 2 ^ 63 -> Z.of_nat (length (buffer_ c)) <= m ->
  match ProcessDataIn fuel c w with
  | Ok ((_, c'), _) => Z.of_nat (length (buffer_ c')) <= m
  | Fault f => parser_ends c w (Fault f)
  | OutOfFuel => True
  end.
Proof.
  intros Hm Hr. revert c w. induction fuel as [|fuel IH]; intros c w Hl; [done|].
  cbn [ProcessDataIn]. destruct (Read_total m c w Hm Hr Hl) as (ret & c1 & w1 & E & Hl1 & Hret).
  rewrite (M_bind_eq _ _ _ _ _ E). case_test; [done|]. case_test; [done|].
  assert (ret = 1) as -> by lia.
  destruct (drain _ c1) as [[r c2]|f|] eqn:Hd; [|by eapply parser_ends_here, drain_fault|done].
  rewrite M_bind_lift. pose proof (drains_shorter _ _ _ (drain_spec _ _ _ _ Hd)) as Hs.
  destruct r; [cbn; lia|]. specialize (IH c2 w1 ltac:(lia)).
  destruct (ProcessDataIn fuel c2 w1) as [[[? ?] ?]| |]; [done| |done]. by eapply parser_ends_later.
Qed.

(** A buffer that is full without holding a line ends the connection: the next read
    asks for no bytes, its empty answer is taken for the end of the stream, and
    [ProcessDataIn] reports a closed connection. *)
Theorem full_buffer_closes m fuel c w d w' :
  SMALL_MEMORY = Some m -> 0 < m < 2 ^ 63 -> Z.of_nat (length (buffer_ c)) = m ->
  call (SysRead (fd_ c) 0) w = Ok (inr d, w') ->
  ProcessDataIn (S fuel) c w = Ok ((-2, c), w').
Proof.
  intros Hm Hr Hl E. cbn [ProcessDataIn]. unfold Read, read_len, kLocalBufferLen. rewrite Hm.
  cbn [default from_option id]. rewrite Hl, Z.sub_diag. change (u64 0) with 0.
  destruct (call_after _ _ _ _ E) as [_ Ho]. cbn in Ho.
  assert (d = []) as -> by (by destruct d).
  unfold mbind at 1, M_bind at 1. rewrite (M_bind_eq _ _ _ _ _ E).
  rewrite (proj2 (Z.leb_le _ _)) by (cbn; lia). reflexivity.
Qed.

(** ** Termination *)

(** Claim C14. [ProcessDataIn] returns: when the kernel can only interrupt and deliver data a
    bounded number of times ([budget]), it needs no more rounds than that, and the inner
    loop none beyond the bytes buffered.  The only way not to return is that the parser does
    not: then the reads of this very call have brought a piece of the request on which
    [PushLine] does not return, in the state the pieces before it had led to. *)
Theorem processing_terminates (budget : W -> nat) fuel c w :
  (forall fd n w r w', call (SysRead fd n) w = Ok (r, w') ->
     r = inl EINTR \/ (exists d, r = inr d /\ d <> []) -> (budget w' < budget w)%nat) ->
  (budget w < fuel)%nat ->
  match ProcessDataIn fuel c w with
  | OutOfFuel => parser_ends c w OutOfFuel
  | Ok _ | Fault _ => True
  end.
Proof.
  intros Hb. revert c w. induction fuel as [|fuel IH]; intros c w Hf; [lia|].
  cbn [ProcessDataIn]. destruct (call_Ok (SysRead (fd_ c) (read_len c)) w) as (r & w1 & E & _).
  specialize (Hb (fd_ c) (read_len c) w r w1 E).
  assert (HR : (exists f, Read c w = Fault f) \/ exists ret c1, Read c w = Ok ((ret, c1), w1) /\
            (ret = 1 -> (budget w1 < budget w)%nat) /\ (ret = -1 \/ ret = 0 \/ ret = 1)).
  { unfold Read. rewrite (M_bind_eq _ _ _ _ _ E). destruct r as [[| |n]|d].
    1-3: right; do 2 eexists; (split; [reflexivity|]); split; [intros; try done; apply Hb; by left|lia].
    destruct (Z.of_nat (length d) <=? kLocalBufferLen); [|left; by eexists].
    cbn [guard_or]. rewrite M_bind_lift. right.
    case_decide; do 2 eexists; (split; [reflexivity|]); (split; [|lia]); [done|].
    intros _. apply Hb. right. by eexists. }
  destruct HR as [[f HR]|(ret & c1 & HR & Hlt & Hret)].
  { unfold mbind, M_bind. by rewrite HR. }
  rewrite (M_bind_eq _ _ _ _ _ HR).
  destruct Hret as [-> |[-> | ->]]; [done..|]. cbn [Z.eqb].
  destruct (drain _ c1) as [[r2 c2]|f|] eqn:Hd; [|done|].
  - rewrite M_bind_lift. destruct r2; [done|]. specialize (IH c2 w1 ltac:(specialize (Hlt eq_refl); lia)).
    destruct (ProcessDataIn fuel c2 w1) as [[[? ?] ?]| |]; [done..|]. by eapply parser_ends_later.
  - eapply parser_ends_here; [done|]. apply (drain_fuel (S (length (buffer_ c1)))); [lia|exact Hd].
Qed.

(** ** Writes *)

(** [Write] makes one attempt: of the bytes the kernel does not take, nothing is kept,
    and a write that took only the first [n] bytes is reported as a success; a descriptor
    that would block and an interruption are reported apart, with nothing sent. *)
Theorem Write_one_attempt fd data w :
  exists ret w', Write fd data w = Ok (ret, w') /\
    if decide (fd = -1) then ret = -1 /\ w' = w else
    exists r, after w [Event (SysWrite fd data) r] w' /\
      match r with
      | inr n => ret = 1 /\ sent fd (trace w') = sent fd (trace w) ++ take (Z.to_nat n) data
      | inl e => sent fd (trace w') = sent fd (trace w) /\
                 ret = match e with EAGAIN => 0 | EINTR => 1 | Eother _ => -1 end
      end.
Proof.
  unfold Write. case_decide as Hfd; [subst; by do 2 eexists|].
  rewrite (proj2 (Z.eqb_neq _ _)) by done.
  destruct (call_Ok (SysWrite fd data) w) as (r & w' & E & Ha & _).
  rewrite (M_bind_eq _ _ _ _ _ E).
  assert (Hs : sent fd (trace w') = sent fd (trace w) ++ match r with inr n => take (Z.to_nat n) data | inl _ => [] end).
  { rewrite Ha, sent_app. f_equal. unfold sent. cbn. rewrite Z.eqb_refl, app_nil_r. done. }
  destruct r as [[| |k]|n]; do 2 eexists; (split; [reflexivity|]); eexists; (split; [exact Ha|]);
    rewrite ?app_nil_r in Hs; done.
Qed.

(** ** Bodies *)

Lemma Read_data c w d w' :
  d <> [] -> Z.of_nat (length d) <= kLocalBufferLen ->
  call (SysRead (fd_ c) (read_len c)) w = Ok (inr d, w') ->
  Read c w = Ok ((1, set_buffer (buffer_ c ++ d) c), w').
Proof.
  intros Hd Hl E. unfold Read. rewrite (M_bind_eq _ _ _ _ _ E).
  rewrite (proj2 (Z.leb_le _ _)) by done. cbn [guard_or]. rewrite M_bind_lift.
  by rewrite decide_False.
Qed.

Lemma PopLine_free c : crlf_free (buffer_ c) -> PopLine c = (None, c).
Proof.
  intros Hf. destruct (PopLine_cases c) as [(l & r & _ & E & Hl)|[H _]]; [|done].
  rewrite E in Hf. by apply line_not_crlf_free in Hf.
Qed.

(** A call that reads [d] into an empty buffer and stops at the first piece. *)
Lemma process_one_piece fuel c w d w' l c1 p st :
  buffer_ c = [] -> d <> [] -> Z.of_nat (length d) <= kLocalBufferLen ->
  call (SysRead (fd_ c) (read_len c)) w = Ok (inr d, w') ->
  next_piece (set_buffer d c) = Some (l, c1) -> PushLine (parser c1) l = Ok (p, st) ->
  st = Body \/ st = Done ->
  ProcessDataIn (S fuel) c w = Ok ((state_ret st, set_parser p c1), w').
Proof.
  intros Hb Hd Hl E Hn Hp Hst. cbn [ProcessDataIn].
  rewrite (M_bind_eq _ _ _ _ _ (Read_data c w d w' Hd Hl E)). cbn [Z.eqb].
  rewrite Hb. cbn [app]. rewrite drain_step, Hn, Hp. cbn [mbind outcome_bind].
  by destruct Hst as [-> | ->].
Qed.

(** What a handler gets of a body that arrives in one read depends on its bytes: when no line end
    occurs in it, the whole of it, when it is a line, nothing of it: the text handed over is
    what was there before, although the request counts as complete. *)
Theorem body_delivery fuel c w d n w' :
  buffer_ c = [] -> state_ (parser c) = Body -> content_length_ (parser c) = Some n ->
  n <= u32 (body_length_ (parser c) + Z.of_nat (length d)) ->
  d <> [] -> (length d <= 1024)%nat -> Z.of_nat (length d) <= kLocalBufferLen ->
  call (SysRead (fd_ c) (read_len c)) w = Ok (inr d, w') ->
  let p := set_state Done (set_body_length (u32 (body_length_ (parser c) + Z.of_nat (length d))) (parser c)) in
  (crlf_free d -> ProcessDataIn (S fuel) c w = Ok ((1, set_parser p (set_partial_body d c)), w')) /\
  (line d -> ProcessDataIn (S fuel) c w = Ok ((1, set_parser p c), w')).
Proof.
  intros Hb Hs Hc Hn Hd Hl Hk E p0.
  pose proof (PushLine_body (parser c) d n Hs Hc) as Hp. cbv zeta in Hp.
  rewrite (proj2 (Z.leb_le _ _)) in Hp by done. fold p0 in Hp.
  split; intros Hsh.
  - replace (set_parser p0 (set_partial_body d c)) with (set_parser p0 (set_buffer [] (set_partial_body d c)))
      by (destruct c; cbn in *; by subst).
    apply (process_one_piece fuel c w d w' d (set_buffer [] (set_partial_body d c)) _ Done);
      [done..| |by destruct c|by right].
    unfold next_piece. rewrite PopLine_free by (by destruct c).
    destruct c as [fd b ws pb p]. cbn in *.
    rewrite decide_False, decide_False by naive_solver.
    replace (Nat.min (length d) 1024) with (length d) by lia.
    by rewrite take_ge, drop_ge by lia.
  - replace (set_parser p0 c) with (set_parser p0 (set_buffer [] c)) by (destruct c; cbn in *; by subst).
    apply (process_one_piece fuel c w d w' d (set_buffer [] c) _ Done); [done..| |by destruct c|by right].
    unfold next_piece. rewrite (PopLine_line _ d []); [by destruct c| |done].
    destruct c; cbn. by rewrite app_nil_r.
Qed.

(** A body that arrives together with the end of its header stays in the buffer: the
    call that completes the header returns before looking at it, and so does any later one
    as long as the client, which has sent everything, sends nothing more. *)
Theorem body_left_in_buffer fuel c w body n w' :
  buffer_ c = [] -> state_ (parser c) = Headers -> content_length_ (parser c) = Some n ->
  Z.of_nat (length (CRLF ++ body)) <= kLocalBufferLen ->
  call (SysRead (fd_ c) (read_len c)) w = Ok (inr (CRLF ++ body), w') ->
  exists c', ProcessDataIn (S fuel) c w = Ok ((0, c'), w') /\
    buffer_ c' = body /\ partial_body_ c' = partial_body_ c /\
    parser c' = set_state Body (parser c) /\
    forall fuel' w1 w2, call (SysRead (fd_ c') (read_len c')) w1 = Ok (inl EAGAIN, w2) ->
      ProcessDataIn (S fuel') c' w1 = Ok ((0, c'), w2).
Proof.
  intros Hb Hs Hc Hl E.
  assert (Hp : PushLine (parser c) CRLF = Ok (set_state Body (parser c), Body)).
  { destruct c as [fd b ws pb [? ? ? ? ? ? ? ? ? ? ? ?]]; cbn in *. by subst. }
  assert (Hp1 : parser (set_buffer body c) = parser c) by (by destruct c).
  eexists. split.
  { eapply (process_one_piece fuel c w (CRLF ++ body) w' CRLF (set_buffer body c) _ Body);
      [done..| |by rewrite Hp1|by left].
    unfold next_piece. rewrite (PopLine_line _ CRLF body); [by destruct c|by destruct c|].
    exists []. split; [done|apply crlf_free_one]. }
  split; [by destruct c|]. split; [by destruct c|]. split; [by destruct c|].
  set (c' := set_parser _ _). assert (Hs' : state_ (parser c') = Body).
  { by destruct c as [fd b ws pb [? ? ? ? ? ? ? ? ? ? ? ?]]. }
  intros fuel' w1 w2 E'. cbn [ProcessDataIn].
  assert (HR : Read c' w1 = Ok ((0, c'), w2)).
  { unfold Read. by rewrite (M_bind_eq _ _ _ _ _ E'). }
  rewrite (M_bind_eq _ _ _ _ _ HR). cbn [Z.eqb]. by rewrite Hs'.
Qed.

(** Claim C40. A connection serves one request: nothing resets the parser, so that once a request
    is complete, the next line the client sends, whatever it says, is swallowed and reported
    as a complete request again, with the method, URI and headers of the first one. *)
Theorem parser_not_reset fuel c w l rest w' :
  buffer_ c = [] -> state_ (parser c) = Done -> line l ->
  Z.of_nat (length (l ++ rest)) <= kLocalBufferLen ->
  call (SysRead (fd_ c) (read_len c)) w = Ok (inr (l ++ rest), w') ->
  ProcessDataIn (S fuel) c w = Ok ((1, set_buffer rest c), w').
Proof.
  intros Hb Hs Hl Hlen E.
  assert (Hp1 : parser (set_buffer rest c) = parser c) by (by destruct c).
  assert (Hne : l ++ rest <> []) by (apply line_length in Hl; destruct l; [cbn in Hl; lia|done]).
  rewrite (process_one_piece fuel c w (l ++ rest) w' l (set_buffer rest c) (parser c) Done);
    [by destruct c|done..| | |by right].
  - unfold next_piece. rewrite (PopLine_line _ l rest); [by destruct c|by destruct c|done].
  - rewrite Hp1. unfold PushLine. rewrite Hs. cbn. by rewrite Hs.
Qed.
End props.

(** ** Witnesses, on the scripted kernel *)

Section witnesses.
#[local] Existing Instance httpoll_mk.

Definition kernel (reads : list (Z * (errno + bytes))) : sim := Sim reads 3 [] [] [] 0 [].

(** One call of [ProcessDataIn], and where it leads. *)
Definition poll (c : connection sim) (w : sim) : Z * connection sim * sim :=
  match ProcessDataIn 10 c w with Ok ((r, c), w) => (r, c, w) | _ => (0, c, w) end.

(** A request in three segments, with an interruption and an empty poll between them. *)
Definition demo_kernel : sim :=
  kernel [(7, inr (str "GET / HT")); (7, inl EINTR); (7, inr (str "TP/1.1" ++ CRLF ++ str "Ho"));
          (7, inl EAGAIN); (7, inr (str "st: a" ++ CRLF ++ CRLF))].
Definition demo_1 := Eval vm_compute in poll (make 7) demo_kernel.
Definition demo_2 := Eval vm_compute in poll demo_1.1.2 demo_1.2.
Definition demo_t1 := Eval vm_compute in sim_trace demo_1.2.
Definition demo_t2 := Eval vm_compute in drop (length demo_t1) (sim_trace demo_2.2).
Definition demo_lines : list bytes :=
  [str "GET / HTTP/1.1" ++ CRLF; str "Host: a" ++ CRLF; CRLF].
Definition demo_parser : http_header_parser :=
  Parser HttpMethod.GET (str "/") HttpVersion.HTTP_1_1 [] 0 0 (str "a") [] [] None 0 Done.

Lemma demo_first :
  ProcessDataIn 10 (set_partial_body [] (make 7)) demo_kernel = Ok ((-1, demo_1.1.2), demo_1.2).
Proof. vm_compute. reflexivity. Qed.

Lemma demo_second :
  ProcessDataIn 10 (set_partial_body [] demo_1.1.2) demo_1.2 = Ok ((1, demo_2.1.2), demo_2.2).
Proof. vm_compute. reflexivity. Qed.

Lemma demo_receives : receives (make 7) (([] ++ demo_t1) ++ demo_t2) 1 demo_2.1.2.
Proof.
  refine (receives_more _ _ (-1) _ [] 10 _ 1 _ _ _ _ (or_introl eq_refl) demo_second _);
    [|vm_compute; reflexivity].
  refine (receives_more _ _ (-1) _ [] 10 _ (-1) _ _ _ (receives_start _) (or_introl eq_refl) demo_first _).
  vm_compute. reflexivity.
Qed.

Lemma demo_header_lines : header_lines init demo_lines.
Proof.
  split.
  - apply (bool_decide_unpack _). vm_compute. exact Logic.I.
  - intros [|[|[|k]]] q Hk; cbv [demo_lines length] in Hk; try lia; intros H; vm_compute in H; injection H as <-;
      [by left|by right..].
Qed.

Lemma segmentation_independent_witness :
  parser demo_2.1.2 = demo_parser /\ buffer_ demo_2.1.2 = [] /\ 1 = state_ret (state_ demo_parser).
Proof.
  apply (segmentation_independent 7 _ 1 demo_2.1.2 demo_lines demo_parser demo_receives).
  - done.
  - exact demo_header_lines.
  - vm_compute. reflexivity.
  - vm_compute. reflexivity.
Defined.

Lemma received_bytes_accounted_witness :
  exists ls, received 7 (demo_t1 ++ demo_t2) =
      concat ls ++ buffer_ demo_2.1.2 /\ push_lines init ls = Ok (parser demo_2.1.2) /\
    (1 = -2 \/ 1 = state_ret (state_ (parser demo_2.1.2))) /\
    (1 = -1 -> forall a b, buffer_ demo_2.1.2 <> a ++ CRLF ++ b).
Proof. exact (received_bytes_accounted 7 _ 1 demo_2.1.2 demo_receives). Defined.

Lemma processing_memory_safe_witness :
  match ProcessDataIn 10 (make 7 : connection sim) demo_kernel with
  | Ok ((_, c'), _) => Z.of_nat (length (buffer_ c')) <= 1024
  | Fault f => parser_ends (make 7) demo_kernel (Fault f)
  | OutOfFuel => True
  end.
Proof. apply (processing_memory_safe 1024 10 (make 7) demo_kernel); done. Defined.

Definition full_connection : connection sim :=
  Conn 7 (replicate 1024 "a"%byte) None [] init.

Lemma full_buffer_closes_witness :
  exists w', ProcessDataIn 1 full_connection demo_kernel = Ok ((-2, full_connection), w').
Proof.
  eexists. apply (full_buffer_closes 1024 0 full_connection demo_kernel []); [done..|].
  vm_compute. reflexivity.
Defined.

Definition sim_budget (w : sim) : nat :=
  sum_list (map (fun x => match x.2 with inr d => S (length d) | inl _ => 1%nat end) (sim_reads w)).

Lemma sim_budget_decreases fd n w r w' :
  call (SysRead fd n) w = Ok (r, w') ->
  r = inl EINTR \/ (exists d, r = inr d /\ d <> []) -> (sim_budget w' < sim_budget w)%nat.
Proof.
  unfold call, prim, sys, sim_posix. cbn [sim_sys]. intros [= E].
  unfold sim_budget. assert (Hw : sim_reads w' = (sim_take fd n (sim_reads w)).2 /\
                                  r = (sim_take fd n (sim_reads w)).1).
  { destruct (sim_take fd n (sim_reads w)). by injection E as <- <-. }
  destruct Hw as [-> ->]. clear E. induction (sim_reads w) as [|[fd' x] l IH]; cbn [sim_take].
  - intros [?|(d & ? & ?)]; naive_solver.
  - case_test.
    + destruct x as [?|d]; cbn [fst snd]; [cbn; lia|]. intros [?|(d' & [= <-] & Hd)]; [done|].
      destruct (Nat.ltb_spec (Z.to_nat n) (length d)); cbn; [rewrite length_drop|lia].
      destruct (Z.to_nat n); [done|lia].
    + destruct (sim_take fd n l) as [y l'']. cbn in *. intros H'. specialize (IH H'). lia.
Qed.

Lemma processing_terminates_witness :
  match ProcessDataIn 100 (make 7 : connection sim) demo_kernel with
  | OutOfFuel => parser_ends (make 7) demo_kernel OutOfFuel
  | Ok _ | Fault _ => True
  end.
Proof.
  apply (processing_terminates sim_budget 100 (make 7) demo_kernel).
  - exact sim_budget_decreases.
  - apply Nat.ltb_lt. vm_compute. reflexivity.
Defined.

(** When nothing arrives, the parser is to blame for nothing. *)
Example quiet_connection o : ~ parser_ends (make 7 : connection sim) (kernel []) o.
Proof.
  intros (c1 & w1 & c2 & w2 & t & ls & q & l & rest & Hs & HR & _). inversion Hs as [|? ? ? ? ? ? ? HR']; subst.
  - vm_compute in HR. discriminate.
  - vm_compute in HR'. discriminate.
Qed.

(** A header the parser does not return from, and a line it reads over the end of. *)
Definition stuck_kernel : sim :=
  kernel [(7, inr (str "GET / HTTP/1.1" ++ CRLF ++ str "Connection: keep-alive, TE" ++ CRLF))].
Definition short_kernel : sim := kernel [(7, inr CRLF)].

Example parser_stops_call :
  ProcessDataIn 100 (make 7 : connection sim) stuck_kernel = OutOfFuel /\
  ProcessDataIn 100 (make 7 : connection sim) short_kernel = Fault OutOfBounds.
Proof. vm_compute. done. Qed.

Lemma Write_one_attempt_witness :
  exists ret w', Write 7 (str "hello") (kernel []) = Ok (ret, w') /\
    exists r, after (kernel []) [Event (SysWrite 7 (str "hello")) r] w' /\
      match r with
      | inr n => ret = 1 /\ sent 7 (trace w') = take (Z.to_nat n) (str "hello")
      | inl e => sent 7 (trace w') = [] /\
                 ret = match e with EAGAIN => 0 | EINTR => 1 | Eother _ => -1 end
      end.
Proof. exact (Write_one_attempt 7 (str "hello") (kernel [])). Defined.

(** The kernel takes three bytes: the other two are lost. *)
Example short_write :
  exists w', Write 7 (str "hello") (kernel []) = Ok (1, w') /\ sent 7 (trace w') = str "hel".
Proof. eexists. split; vm_compute; reflexivity. Qed.

Definition body_connection : connection sim :=
  Conn 7 [] None [] (set_state Body (set_content_length (Some 5) init)).

Definition body_kernel (d : bytes) : sim := kernel [(7, inr d)].
Definition after_read (d : bytes) : sim := (sim_log (SysRead 7 1024) (inr d) (kernel [])).2.

Example body_delivered :
  match ProcessDataIn 1 body_connection (body_kernel (str "hello")),
    ProcessDataIn 1 body_connection (body_kernel (str "abc" ++ CRLF)) with
  | Ok ((1, c1), _), Ok ((1, c2), _) => partial_body_ c1 = str "hello" /\ partial_body_ c2 = []
  | _, _ => False
  end.
Proof. vm_compute. done. Qed.

Definition header_connection : connection sim :=
  Conn 7 [] None [] (set_state Headers (set_content_length (Some 5) init)).

Lemma body_left_in_buffer_witness :
  exists c', ProcessDataIn 1 header_connection (body_kernel (CRLF ++ str "hello")) =
      Ok ((0, c'), after_read (CRLF ++ str "hello")) /\
    buffer_ c' = str "hello" /\ partial_body_ c' = [] /\
    parser c' = set_state Body (parser header_connection) /\
    forall fuel' w1 w2, call (SysRead (fd_ c') (read_len c')) w1 = Ok (inl EAGAIN, w2) ->
      ProcessDataIn (S fuel') c' w1 = Ok ((0, c'), w2).
Proof.
  apply (body_left_in_buffer 0 header_connection (body_kernel (CRLF ++ str "hello")) (str "hello") 5
           (after_read (CRLF ++ str "hello"))); try reflexivity; done.
Defined.

(** After [GET /], the client asks for something else. *)
Definition done_connection : connection sim := Conn 7 [] None [] demo_parser.

Lemma parser_not_reset_witness :
  ProcessDataIn 1 done_connection (body_kernel (str "DELETE /all HTTP/1.1" ++ CRLF ++ CRLF)) =
    Ok ((1, set_buffer CRLF done_connection), after_read (str "DELETE /all HTTP/1.1" ++ CRLF ++ CRLF)).
Proof.
  rewrite (app_assoc (str "DELETE /all HTTP/1.1")).
  apply (parser_not_reset 0 done_connection _ (str "DELETE /all HTTP/1.1" ++ CRLF) CRLF);
    try reflexivity; try done.
  apply (bool_decide_unpack _). vm_compute. exact Logic.I.
Defined.
End witnesses.
