(* ===== verification/WebsocketConnection.v ===== *)
(** * WebSocket connections: src/hpl_websocket_connection.h and .cc

    [SHA1] of OpenSSL is a parameter, of which the code relies on the length of the
    digest (class [Sha1]).  The methods that run on the WebSocket part of a
    connection have it as part of their state ([M (ws_state * W)]), which is what
    handlers get; [Read] needs the whole connection. *)

From S2P Require Import Prelude Base64 WsFrame HeaderParser State Posix RequestHandler Connection.
Import WsFrameType.

Definition SHA_DIGEST_LENGTH : nat := 20.

Class Sha1 : Set := {
  SHA1 : bytes -> bytes;
  SHA1_length s : length (SHA1 s) = SHA_DIGEST_LENGTH
}.

Definition ws_guid : bytes := str "258EAFA5-E914-47DA-95CA-C5AB0DC85B11".

(** [hash] starts with whatever the stack holds; nothing of that is returned.  The result of
    [base64_encode] is not looked at. *)
Definition GetWsAcceptByKey `{!Sha1} (ws_sec_key : bytes) : outcome bytes :=
  let tmp := ws_sec_key ++ ws_guid in
  let sha1 := SHA1 tmp in
  let hash := replicate (SHA_DIGEST_LENGTH * 2) NUL in
  let hash_len := Z.of_nat (SHA_DIGEST_LENGTH * 2) in
  '(_, hash, hash_len) ← base64_encode sha1 SHA_DIGEST_LENGTH hash (Some hash_len);
  let n := u64 (default 0 hash_len - 1) in
  if n <=? Z.of_nat (length hash) then Ok (take (Z.to_nat n) hash) else Fault OutOfBounds.

Section websocket.
Context {W : Type} `{!Posix W} {config : Config} `{!Sha1}.

(** ** Methods a handler may call *)

Definition ws_modify (f : ws_state -> ws_state) : M (ws_state * W) unit :=
  prim (fun '(s, w) => (tt, (f s, w))).

(** Under the ping-pong feature, every input and output sets [last_io_time_]. *)
Definition touch : M (ws_state * W) unit :=
  match HPL_ENABLE_PING_PONG with
  | Some _ => t ← on_snd (call SysNow); ws_modify (set_last_io_time t)
  | None => mret tt
  end.

(** The accept key is computed once. *)
Definition GetWsAccept : M (ws_state * W) bytes :=
  '(s, _) ← get;
  if decide (ws_accept_ s = []) then
    a ← lift (GetWsAcceptByKey (ws_key_ s));
    _ ← ws_modify (set_ws_accept a);
    mret a
  else mret (ws_accept_ s).

(** [WebsocketConnection::Write], on the descriptor of its connection. *)
Definition WsWrite (fd : Z) (type : Z) (data : bytes) : M (ws_state * W) Z :=
  let '(header, header_len) := MakeWebsocketHeader (Z.of_nat (length data)) type in
  _ ← on_snd (Write fd (take (Z.to_nat header_len) header));
  _ ← on_snd (Write fd data);
  _ ← touch;
  mret 0.

(** Seconds are compared as nanoseconds. *)
Definition ServerPing (fd : Z) : M (ws_state * W) bool :=
  match HPL_ENABLE_PING_PONG with
  | None => mret false
  | Some interval =>
      now ← on_snd (call SysNow);
      '(s, _) ← get;
      if interval * 1000000000 <? now - last_io_time_ s then
        _ ← WsWrite fd kTypePing [];
        _ ← ws_modify (set_last_io_time now);
        mret true
      else mret false
  end.

(** ** [Read] *)

(** What is done with a frame, once its payload is appended to [last_payload_]. *)
Definition dispatch (fd : Z) (on_data : option (WsHandler W)) (f : frame) : M (ws_state * W) Z :=
  if opcode f =? kTypeClose then mret (-1) else
  if bool_decide (is_Some HPL_ENABLE_PING_PONG) && (opcode f =? kTypePing) then
    _ ← WsWrite fd kTypePong (payload f);
    _ ← ws_modify (set_last_payload []);
    mret 0
  else if bool_decide (is_Some HPL_ENABLE_PING_PONG) && (opcode f =? kTypePong) then
    _ ← ws_modify (set_last_payload []);
    mret 0
  else if fin f then
    '(s, _) ← get;
    ret ← (match on_data with
           | Some h => h fd (opcode f) (last_payload_ s)
           | None => mret 0
           end : M (ws_state * W) Z);
    _ ← ws_modify (set_last_payload []);
    mret ret
  else mret 1.

Definition append_payload (f : frame) (s : ws_state) : ws_state :=
  set_last_payload (last_payload_ s ++ payload f) s.

(** Everything buffered is taken out of the connection, and one frame is read from it. *)
Definition WsRead (c : connection W) : M W (Z * connection W) :=
  '(ret, c) ← Read c;
  if ret <? 0 then mret (ret, c) else
  let buf := buffer_ c in
  let c := set_buffer [] c in
  ws ← lift (of_option NullDeref (ws_conn_ c));
  '(ret, s) ← run_with (ws_st ws)
    (_ ← touch;
     f ← lift (read_frame buf);
     _ ← ws_modify (append_payload f);
     dispatch (fd_ c) (on_data_ ws) f);
  mret (ret, set_ws_conn (Some (WsConn s (on_data_ ws) (will_close_hook_ ws))) c).
End websocket.

(** ** The accept key *)

Lemma GetWsAcceptByKey_eq `{!Sha1} key :
  GetWsAcceptByKey key = Ok (rfc4648 (SHA1 (key ++ ws_guid))).
Proof.
  unfold GetWsAcceptByKey. set (d := SHA1 _).
  assert (Hd : length d = SHA_DIGEST_LENGTH) by apply SHA1_length.
  unfold base64_encode. rewrite <- Hd at 2. rewrite expected_len_spec by (rewrite Hd; done).
  assert (Hr : length (rfc4648 d) = 28%nat) by (rewrite rfc4648_length, Hd; done).
  rewrite Hr, (proj2 (Z.ltb_ge _ _)) by done.
  rewrite <- Hd at 1 2. rewrite encode_write by (rewrite Hr, length_replicate; unfold SHA_DIGEST_LENGTH; lia).
  cbn [mbind outcome_bind]. rewrite Hr. cbn [default from_option id].
  replace (u64 _) with 28 by reflexivity.
  rewrite (proj2 (Z.leb_le _ _)) by (rewrite length_app, Hr; lia).
  f_equal. by apply take_app_len.
Qed.
