(* ===== verification/WebsocketProps.v ===== *)
(** * What WebSocket connections do with frames *)

From S2P Require Import Prelude Base64 WsFrame HeaderParser State Posix RequestHandler Connection ConnectionSpec ConnectionProps WebsocketConnection.
Import WsFrameType.

(** ** Claims: the accept key *)

(** The accept key is the one RFC 6455 asks for: the base64 encoding of the SHA-1
    digest of the client's key followed by the fixed GUID, 28 characters that decode to
    the digest; [GetWsAccept] returns it at every call and computes it at most once. *)
Theorem accept_key_rfc `{!Sha1} {W} (s : ws_state) (w : W) :
  let a := rfc4648 (SHA1 (ws_key_ s ++ ws_guid)) in
  GetWsAcceptByKey (ws_key_ s) = Ok a /\ length a = 28%nat /\
  decode a = Some (SHA1 (ws_key_ s ++ ws_guid)) /\
  (ws_accept_ s = [] -> GetWsAccept (s, w) = Ok (a, (set_ws_accept a s, w))) /\
  GetWsAccept (set_ws_accept a s, w) = Ok (a, (set_ws_accept a s, w)).
Proof.
  intros a. assert (Hl : length a = 28%nat).
  { unfold a. by rewrite rfc4648_length, SHA1_length. }
  split; [apply GetWsAcceptByKey_eq|]. split; [done|]. split; [apply decode_rfc4648|].
  split.
  - intros Hs. unfold GetWsAccept, mbind, M_bind, get, lift. rewrite GetWsAcceptByKey_eq.
    by rewrite Hs.
  - unfold GetWsAccept, mbind, M_bind, get. destruct s as [k acc p t]; cbn.
    rewrite decide_False; [done|]. intros E. by rewrite E in Hl.
Qed.

Section websocket.
Context {W : Type} `{!Posix W} `{!PosixLaws W} {config : Config} {sha1 : Sha1}.
Implicit Types (c : connection W) (s : ws_state).

(** ** Lemmas *)

(** What the calls of a trace tried to write to [fd], call by call. *)
Definition written_by (fd : Z) (x : event) : list bytes :=
  let 'Event e _ := x in
  match e with SysWrite fd' d => if fd' =? fd then [d] else [] | _ => [] end.
Definition written (fd : Z) (t : list event) : list bytes := concat (map (written_by fd) t).

Lemma written_app fd t t' : written fd (t ++ t') = written fd t ++ written fd t'.
Proof. unfold written. by rewrite map_app, concat_app. Qed.

(** The only effect of a [touch] is a new time. *)
Lemma touch_Ok s (w : W) :
  exists t w', touch (s, w) = Ok (tt, (set_last_io_time t s, w')) /\
    after w match HPL_ENABLE_PING_PONG with Some _ => [Event SysNow t] | None => [] end w'.
Proof.
  unfold touch. destruct HPL_ENABLE_PING_PONG.
  - destruct (call_Ok SysNow w) as (t & w' & E & Ha & _). exists t, w'.
    unfold mbind, M_bind, on_snd. by rewrite E.
  - exists (last_io_time_ s), w. split; [by destruct s|apply after_refl].
Qed.

(** The result of a computation on the WebSocket part of [c], put back into it. *)
Definition put_back c (ws : ws_connection W) (o : outcome (Z * (ws_state * W)))
  : outcome ((Z * connection W) * W) :=
  match o with
  | Ok (ret, (s, w)) =>
      Ok ((ret, set_ws_conn (Some (WsConn s (on_data_ ws) (will_close_hook_ ws))) c), w)
  | Fault e => Fault e
  | OutOfFuel => OutOfFuel
  end.

(** Reading the bytes [d] of a frame: nothing is written, the payload is appended, and the
    frame dispatched. *)
Lemma WsRead_frame c w d w1 ws f :
  buffer_ c = [] -> ws_conn_ c = Some ws -> d <> [] -> Z.of_nat (length d) <= kLocalBufferLen ->
  call (SysRead (fd_ c) (read_len c)) w = Ok (inr d, w1) -> read_frame d = Ok f ->
  exists t w2 tr, after w tr w2 /\ written (fd_ c) tr = [] /\
    WsRead c w =
      put_back c ws (dispatch (fd_ c) (on_data_ ws) f
                       (append_payload f (set_last_io_time t (ws_st ws)), w2)).
Proof.
  intros Hb Hw Hd Hl E Hf. destruct (touch_Ok (ws_st ws) w1) as (t & w2 & Et & Ht).
  exists t, w2. eexists. split; [eapply after_trans; [by apply (call_after _ _ _ _ E)|exact Ht]|].
  split; [by destruct HPL_ENABLE_PING_PONG|].
  unfold WsRead. rewrite (M_bind_eq _ _ _ _ _ (Read_data c w d w1 Hd Hl E)). cbn [Z.ltb Z.compare].
  replace (set_buffer [] (set_buffer (buffer_ c ++ d) c)) with c by (destruct c; cbn in *; by subst).
  replace (buffer_ (set_buffer (buffer_ c ++ d) c)) with d by (destruct c; cbn in *; by subst).
  rewrite Hw, Hf. cbn [of_option]. rewrite M_bind_lift.
  unfold run_with, mbind, M_bind. rewrite Et. cbn [lift ws_modify prim].
  by destruct (dispatch _ _ _ _) as [[ret [s' w3]]| |].
Qed.

Lemma sent_frame_nonempty m f op key data rest : sent_frame m f op key data ++ rest <> [].
Proof. by destruct m. Qed.

(** [WsWrite] makes two writes, the header and the data, and touches the connection. *)
Lemma WsWrite_Ok fd type data s (w : W) :
  exists t w', WsWrite fd type data (s, w) = Ok (0, (set_last_io_time t s, w')) /\
    (fd <> -1 -> exists r1 r2 es, after w
       ([Event (SysWrite fd (header_bytes (MakeWebsocketHeader (Z.of_nat (length data)) type))) r1;
         Event (SysWrite fd data) r2] ++ es) w' /\
       es = match HPL_ENABLE_PING_PONG with Some _ => [Event SysNow t] | None => [] end).
Proof.
  unfold WsWrite, header_bytes. destruct (MakeWebsocketHeader _ _) as [header n].
  destruct (Write_Ok fd (take (Z.to_nat n) header) w) as (r1 & w1 & E1 & A1).
  destruct (Write_Ok fd data w1) as (r2 & w2 & E2 & A2).
  destruct (touch_Ok s w2) as (t & w3 & E3 & A3).
  exists t, w3. unfold mbind, M_bind, on_snd. rewrite E1, E2, E3. split; [done|].
  intros Hfd. destruct (A1 Hfd) as [x1 A1'], (A2 Hfd) as [x2 A2'].
  exists x1, x2. eexists. split; [|reflexivity].
  eapply after_trans; [eapply (after_trans _ [_] _ [_]); done|done].
Qed.

(** ** Data frames *)

Definition data_opcode (op : Z) : Prop :=
  0 <= op < 16 /\ op <> kTypeClose /\ op <> kTypePing /\ op <> kTypePong.

Lemma dispatch_data fd h op d s (w : W) f :
  data_opcode op ->
  dispatch fd h (Frame op f d) (s, w) =
    if f then
      match h with
      | Some h => match h fd op (last_payload_ s) (s, w) with
                  | Ok (ret, (s, w)) => Ok (ret, (set_last_payload [] s, w))
                  | Fault e => Fault e
                  | OutOfFuel => OutOfFuel
                  end
      | None => Ok (0, (set_last_payload [] s, w))
      end
    else Ok (1, (s, w)).
Proof.
  intros (_ & H8 & H9 & H10). unfold dispatch. cbn [opcode fin payload].
  rewrite !(proj2 (Z.eqb_neq _ _)) by done. rewrite !andb_false_r.
  destruct f; [|done]. unfold mbind, M_bind, get. destruct h as [h|]; [|done].
  by destruct (h fd op (last_payload_ s) (s, w)) as [[ret [s' w']]| |].
Qed.

(** Frames of a message that are not its last one, each received by a read of its own, with
    whatever [rest] follows it in the same read. *)
Record fragment := Fragment {
  fr_masked : bool; fr_op : Z; fr_key : bytes; fr_data : bytes; fr_rest : bytes
}.

Definition wire (f : bool) (x : fragment) : bytes :=
  sent_frame (fr_masked x) f (fr_op x) (fr_key x) (fr_data x) ++ fr_rest x.

Definition fragment_ok (x : fragment) : Prop :=
  data_opcode (fr_op x) /\ length (fr_key x) = 4%nat /\ Z.of_nat (length (fr_data x)) < 2 ^ 16.

(** [c] receives the bytes [d] in one read, in the kernel [w]. *)
Definition receives_bytes c (w : W) (d : bytes) : Prop :=
  Z.of_nat (length d) <= kLocalBufferLen /\
  exists w', call (SysRead (fd_ c) (read_len c)) w = Ok (inr d, w').

(** Reading a frame of any kind. *)
Lemma WsRead_wire c w x f ws :
  buffer_ c = [] -> ws_conn_ c = Some ws -> 0 <= fr_op x < 16 ->
  length (fr_key x) = 4%nat /\ Z.of_nat (length (fr_data x)) < 2 ^ 16 ->
  receives_bytes c w (wire f x) ->
  exists t w2 tr, after w tr w2 /\ written (fd_ c) tr = [] /\
    let s := append_payload (Frame (fr_op x) f (fr_data x)) (set_last_io_time t (ws_st ws)) in
    WsRead c w = put_back c ws (dispatch (fd_ c) (on_data_ ws) (Frame (fr_op x) f (fr_data x)) (s, w2)).
Proof.
  intros Hb Hw Hop (Hk & Hlen) [Hl [w' E]].
  apply (WsRead_frame c w (wire f x) w' ws); try done; [apply sent_frame_nonempty|].
  by apply read_frame_sent.
Qed.

(** What is done with a ping or a pong: a ping is answered, and the message is forgotten. *)
Lemma dispatch_control fd h op d s (w : W) :
  is_Some HPL_ENABLE_PING_PONG -> op = kTypePing \/ op = kTypePong ->
  exists s' w', dispatch fd h (Frame op true d) (s, w) = Ok (0, (s', w')) /\ last_payload_ s' = [] /\
    (fd <> -1 -> exists tr, after w tr w' /\
       written fd tr = if op =? kTypePing
                       then [header_bytes (MakeWebsocketHeader (Z.of_nat (length d)) kTypePong); d] else []).
Proof.
  intros Hping Hop. unfold dispatch. rewrite bool_decide_eq_true_2 by done.
  cbn [opcode payload andb]. destruct Hop as [-> | ->].
  - change (kTypePing =? kTypeClose) with false. change (kTypePing =? kTypePing) with true. cbv beta iota.
    destruct (WsWrite_Ok fd kTypePong d s w) as (t & w' & E & Ha).
    unfold mbind, M_bind. rewrite E. do 2 eexists. split; [reflexivity|]. split; [by destruct s|].
    intros Hfd. destruct (Ha Hfd) as (r1 & r2 & es & Ha' & ->).
    eexists. split; [exact Ha'|]. rewrite written_app. cbn. rewrite Z.eqb_refl.
    by destruct HPL_ENABLE_PING_PONG.
  - do 2 eexists. split; [reflexivity|]. split; [by destruct s|]. intros _. eexists.
    split; [apply after_refl|done].
Qed.

Inductive fragments : connection W -> list fragment -> connection W -> Prop :=
| fragments_nil c : fragments c [] c
| fragments_cons c x xs w c1 w1 c2 ret :
    receives_bytes c w (wire false x) -> WsRead c w = Ok ((ret, c1), w1) ->
    fragments c1 xs c2 -> fragments c (x :: xs) c2.

Lemma WsRead_fragment c w x f ws :
  buffer_ c = [] -> ws_conn_ c = Some ws -> fragment_ok x -> receives_bytes c w (wire f x) ->
  exists t w2, let s := append_payload (Frame (fr_op x) f (fr_data x)) (set_last_io_time t (ws_st ws)) in
    WsRead c w = put_back c ws (dispatch (fd_ c) (on_data_ ws) (Frame (fr_op x) f (fr_data x)) (s, w2)).
Proof.
  intros Hb Hw (Hop & Hx) Hr.
  destruct (WsRead_wire c w x f ws Hb Hw (proj1 Hop) Hx Hr) as (t & w2 & tr & _ & _ & E). by exists t, w2.
Qed.

Lemma fragments_spec c xs c' ws :
  fragments c xs c' -> buffer_ c = [] -> ws_conn_ c = Some ws -> Forall fragment_ok xs ->
  buffer_ c' = [] /\ fd_ c' = fd_ c /\
  exists ws', ws_conn_ c' = Some ws' /\ on_data_ ws' = on_data_ ws /\
    last_payload_ (ws_st ws') = last_payload_ (ws_st ws) ++ concat (map fr_data xs).
Proof.
  intros H. revert ws. induction H as [c|c x xs w c1 w1 c2 ret Hr E H IH]; intros ws Hb Hw Hok.
  - split; [done|]. split; [done|]. exists ws. cbn. by rewrite app_nil_r.
  - inversion Hok as [|? ? Hx Hxs]; subst.
    destruct (WsRead_fragment c w x false ws Hb Hw Hx Hr) as (t & w2 & E'). cbv zeta in E'.
    rewrite dispatch_data in E' by apply Hx. rewrite E in E'. injection E' as -> -> ->.
    destruct (IH _ ltac:(by destruct c) ltac:(by destruct c) Hxs) as (Hb' & Hfd & ws' & Hw' & Ho & Hp).
    split; [done|]. split; [rewrite Hfd; by destruct c|]. exists ws'. split; [done|]. split; [done|].
    rewrite Hp. destruct ws as [[k a p t0] o h]. cbn. by rewrite <- app_assoc.
Qed.

(** Claim C16. A fragmented message is put together from its frames: after any number of
    non-final data frames, each in a read of its own, the final frame makes the handler run
    on the concatenation of all payloads, and the message buffer is empty again.  The type
    the handler gets is that of the final frame (a continuation frame, for a client that
    follows the RFC), not the one the message started with; and whatever else the reads
    brought after a frame is dropped. *)
Theorem message_reassembled c xs c1 x w ws h :
  buffer_ c = [] -> ws_conn_ c = Some ws -> last_payload_ (ws_st ws) = [] -> on_data_ ws = Some h ->
  Forall fragment_ok xs -> fragments c xs c1 ->
  fragment_ok x -> receives_bytes c1 w (wire true x) ->
  exists s w2, last_payload_ s = concat (map fr_data xs) ++ fr_data x /\
    match h (fd_ c) (fr_op x) (concat (map fr_data xs) ++ fr_data x) (s, w2), WsRead c1 w with
    | Ok (ret, (s', w3)), o =>
        exists c', o = Ok ((ret, c'), w3) /\ buffer_ c' = [] /\
          exists ws', ws_conn_ c' = Some ws' /\ ws_st ws' = set_last_payload [] s'
    | Fault e, o => o = Fault e
    | OutOfFuel, o => o = OutOfFuel
    end.
Proof.
  intros Hb Hw Hp Hh Hxs Hfr Hx Hr.
  destruct (fragments_spec _ _ _ ws Hfr Hb Hw Hxs) as (Hb1 & Hfd & ws1 & Hw1 & Ho & Hp1).
  rewrite Hp in Hp1. rewrite Hh in Ho.
  destruct (WsRead_fragment c1 w x true ws1 Hb1 Hw1 Hx Hr) as (t & w2 & E). cbv zeta in E.
  rewrite dispatch_data, Ho in E by apply Hx.
  set (s := append_payload _ _) in E. exists s, w2.
  assert (Hs : last_payload_ s = concat (map fr_data xs) ++ fr_data x).
  { unfold s. destruct (ws_st ws1); cbn in *. by subst. }
  rewrite Hs, Hfd in E. split; [done|]. rewrite E.
  destruct (h _ _ _ _) as [[ret [s' w3]]| |]; cbn [put_back]; [|done..].
  eexists. split; [reflexivity|]. split; [by destruct c1|].
  eexists. split; [by destruct c1|]. done.
Qed.

(** A control frame in the middle of a fragmented message destroys it: with the
    ping-pong feature, a ping or a pong empties the message buffer, so that the fragments
    received before it never reach the handler. *)
Theorem control_frame_drops_fragments c w ws m op key data rest interval :
  HPL_ENABLE_PING_PONG = Some interval ->
  buffer_ c = [] -> ws_conn_ c = Some ws -> op = kTypePing \/ op = kTypePong ->
  length key = 4%nat -> Z.of_nat (length data) < 2 ^ 16 ->
  receives_bytes c w (sent_frame m true op key data ++ rest) ->
  exists c' w', WsRead c w = Ok ((0, c'), w') /\ buffer_ c' = [] /\
    exists ws', ws_conn_ c' = Some ws' /\ last_payload_ (ws_st ws') = [].
Proof.
  intros Hping Hb Hw Hop Hk Hlen [Hl [w1 E]].
  destruct (WsRead_frame c w _ w1 ws (Frame op true data) Hb Hw (sent_frame_nonempty _ _ _ _ _ _) Hl E)
    as (t & w2 & _ & _ & _ & ->).
  { apply read_frame_sent; [|done..]. unfold kTypePing, kTypePong in Hop. lia. }
  set (s := append_payload _ _).
  destruct (dispatch_control (fd_ c) (on_data_ ws) op data s w2) as (s3 & w3 & -> & Hs3 & _);
    [by eexists|done|].
  do 2 eexists. split; [reflexivity|]. split; [by destruct c|].
  eexists. split; [by destruct c|]. done.
Qed.

(** A wake-up that brings no data ends the program: when the buffer is empty and the
    read would block or is interrupted, the frame reader looks at bytes that are not
    there. *)
Theorem spurious_wakeup_faults c w ws e w' :
  buffer_ c = [] -> ws_conn_ c = Some ws -> e = EAGAIN \/ e = EINTR ->
  call (SysRead (fd_ c) (read_len c)) w = Ok (inl e, w') ->
  WsRead c w = Fault OutOfBounds.
Proof.
  intros Hb Hw He E. destruct (touch_Ok (ws_st ws) w') as (t & w2 & Et & _).
  assert (HR : exists ret, Read c w = Ok ((ret, c), w') /\ 0 <= ret).
  { unfold Read. setoid_rewrite (M_bind_eq _ _ _ _ _ E).
    destruct He as [-> | ->]; eexists; (split; [reflexivity|lia]). }
  destruct HR as (ret & HR & Hret). unfold WsRead. rewrite (M_bind_eq _ _ _ _ _ HR).
  rewrite (proj2 (Z.ltb_ge _ _)), Hb by lia.
  replace (ws_conn_ (set_buffer [] c)) with (Some ws) by (by destruct c).
  cbn [of_option]. rewrite M_bind_lift. unfold run_with, mbind, M_bind. by rewrite Et.
Qed.

(** Claim C32. [ServerPing] pings exactly the connections that have been silent for longer than
    the configured number of seconds: it then sends the two bytes of an empty ping frame and
    counts as activity itself; otherwise it only looks at the clock. *)
Theorem ServerPing_when_idle fd s (w : W) interval :
  HPL_ENABLE_PING_PONG = Some interval -> fd <> -1 ->
  exists t w', 
    if decide (interval * 1000000000 < t - last_io_time_ s)
    then ServerPing fd (s, w) = Ok (true, (set_last_io_time t s, w')) /\
      exists r1 r2 t2, after w [Event SysNow t; Event (SysWrite fd [x89; x00]) r1;
                                Event (SysWrite fd []) r2; Event SysNow t2] w'
    else ServerPing fd (s, w) = Ok (false, (s, w')) /\ after w [Event SysNow t] w'.
Proof.
  intros Hping Hfd. destruct (call_Ok SysNow w) as (t & w1 & E & Ha & _).
  destruct (WsWrite_Ok fd kTypePing [] s w1) as (t2 & w2 & E2 & Hw). specialize (Hw Hfd).
  unfold ServerPing. rewrite Hping in *. exists t.
  case_decide as Hidle; [exists w2|exists w1]; unfold mbind, M_bind, on_snd, get; rewrite E.
  - rewrite (proj2 (Z.ltb_lt _ _)), E2 by done. split; [by destruct s|].
    destruct Hw as (r1 & r2 & es & Hw & ->). exists r1, r2, t2.
    by apply (after_trans w [_] w1 [_; _; _] w2).
  - rewrite (proj2 (Z.ltb_ge _ _)) by lia. done.
Qed.
End websocket.

(** ** A SHA-1 to run the examples with (FIPS 180-4) *)

Module Fips180.

Definition rotl (n x : Z) : Z := u32 (Z.lor (Z.shiftl x n) (Z.shiftr x (32 - n))).

(** The padded message: a multiple of 64 bytes. *)
Definition pad (s : bytes) : bytes :=
  s ++ [x80] ++ replicate ((119 - length s mod 64) mod 64) NUL ++ be_bytes 8 (8 * Z.of_nat (length s)).

Fixpoint words (n : nat) (l : bytes) : list Z :=
  match n with O => [] | S n => be_value (take 4 l) :: words n (drop 4 l) end.

(** The message schedule, newest word first. *)
Fixpoint schedule (n : nat) (ws : list Z) : list Z :=
  match n with
  | O => ws
  | S n =>
      let w i := default 0 (ws !! i) in
      schedule n (rotl 1 (Z.lxor (Z.lxor (w 2%nat) (w 7%nat)) (Z.lxor (w 13%nat) (w 15%nat))) :: ws)
  end.

Definition state : Type := Z * Z * Z * Z * Z.

Definition round (t : nat) (w : Z) '((a, b, c, d, e) : state) : state :=
  let '(f, k) :=
    if (t <? 20)%nat then (Z.lxor (Z.land b c) (Z.land (Z.lxor b (2 ^ 32 - 1)) d), 0x5a827999)
    else if (t <? 40)%nat then (Z.lxor (Z.lxor b c) d, 0x6ed9eba1)
    else if (t <? 60)%nat
    then (Z.lxor (Z.lxor (Z.land b c) (Z.land b d)) (Z.land c d), 0x8f1bbcdc)
    else (Z.lxor (Z.lxor b c) d, 0xca62c1d6) in
  (u32 (rotl 5 a + f + e + k + w), a, rotl 30 b, c, d).

Fixpoint rounds (t : nat) (ws : list Z) (s : state) : state :=
  match ws with [] => s | w :: ws => rounds (S t) ws (round t w s) end.

Definition block (s : state) (l : bytes) : state :=
  let '(a, b, c, d, e) := s in
  let '(a', b', c', d', e') := rounds 0 (rev (schedule 64 (rev (words 16 l)))) s in
  (u32 (a + a'), u32 (b + b'), u32 (c + c'), u32 (d + d'), u32 (e + e')).

Fixpoint blocks (n : nat) (l : bytes) (s : state) : state :=
  match n with O => s | S n => blocks n (drop 64 l) (block s (take 64 l)) end.

Definition sha1 (s : bytes) : bytes :=
  let p := pad s in
  let '(a, b, c, d, e) :=
    blocks (length p / 64) p (0x67452301, 0xefcdab89, 0x98badcfe, 0x10325476, 0xc3d2e1f0) in
  be_bytes 4 a ++ be_bytes 4 b ++ be_bytes 4 c ++ be_bytes 4 d ++ be_bytes 4 e.

Lemma sha1_length s : length (sha1 s) = SHA_DIGEST_LENGTH.
Proof. unfold sha1. destruct (blocks _ _ _) as [[[[a b] c] d] e]. by rewrite !length_app, !be_bytes_length. Qed.

Definition fips180 : Sha1 := {| SHA1 := sha1; SHA1_length := sha1_length |}.
End Fips180.

(** ** Witnesses *)

Section witnesses.
#[local] Existing Instance httpoll_mk.
#[local] Existing Instance Fips180.fips180.

(** The handshake of RFC 6455, section 1.3. *)
Example rfc_accept :
  GetWsAcceptByKey (str "dGhlIHNhbXBsZSBub25jZQ==") = Ok (str "s3pPLMBiTxaQ9kYGzzhZRbK+xOo=").
Proof. vm_compute. reflexivity. Qed.

Definition rfc_state : ws_state := WsState (str "dGhlIHNhbXBsZSBub25jZQ==") [] [] 0 1.

Lemma accept_key_rfc_witness :
  GetWsAccept (rfc_state, tt) =
    Ok (str "s3pPLMBiTxaQ9kYGzzhZRbK+xOo=",
        (set_ws_accept (str "s3pPLMBiTxaQ9kYGzzhZRbK+xOo=") rfc_state, tt)).
Proof.
  destruct (accept_key_rfc rfc_state tt) as (_ & _ & _ & H & _).
  rewrite H by reflexivity. vm_compute. reflexivity.
Defined.

(** A handler that echoes what it gets, with its type. *)
Definition echo : WsHandler sim := fun fd type data => WsWrite fd type data.
Definition echo_ws : ws_connection sim := WsConn rfc_state (Some echo) None.
Definition ws_conn : connection sim := Conn 7 [] (Some echo_ws) [] HttpHeaderParser.init.

Definition hel : fragment := Fragment true kTypeText [x01; x02; x03; x04] (str "hel") (str "dropped").
Definition lo : fragment := Fragment true kTypeContinuation [x05; x06; x07; x08] (str "lo") [].

Definition ws_kernel : sim := kernel [(7, inr (wire false hel)); (7, inr (wire true lo))].
Definition ws_poll (c : connection sim) (w : sim) : Z * connection sim * sim :=
  match WsRead c w with Ok ((r, c), w) => (r, c, w) | _ => (0, c, w) end.
Definition ws_1 := Eval vm_compute in ws_poll ws_conn ws_kernel.

Lemma hel_read : WsRead ws_conn ws_kernel = Ok ((1, ws_1.1.2), ws_1.2).
Proof. vm_compute. reflexivity. Qed.

Lemma receives_sim c w x l :
  sim_reads w = (fd_ c, inr x) :: l -> (0 < length x <= 1024)%nat -> buffer_ c = [] ->
  receives_bytes c w x.
Proof.
  intros Hr Hx Hb. split; [cbn; lia|]. unfold call, prim, sys, sim_posix.
  assert (read_len c = 1024) as -> by (unfold read_len; rewrite Hb; reflexivity).
  cbn [sim_sys]. rewrite Hr. cbn [sim_take]. rewrite Z.eqb_refl.
  rewrite take_ge by (change (Z.to_nat 1024) with 1024%nat; lia). by eexists.
Qed.

Lemma message_reassembled_witness :
  exists s w2, last_payload_ s = str "hello" /\
    match echo 7 kTypeContinuation (str "hello") (s, w2), WsRead ws_1.1.2 ws_1.2 with
    | Ok (ret, (s', w3)), o =>
        exists c', o = Ok ((ret, c'), w3) /\ buffer_ c' = [] /\
          exists ws', ws_conn_ c' = Some ws' /\ ws_st ws' = set_last_payload [] s'
    | Fault e, o => o = Fault e
    | OutOfFuel, o => o = OutOfFuel
    end.
Proof.
  apply (message_reassembled ws_conn [hel] ws_1.1.2 lo ws_1.2 echo_ws echo);
    [reflexivity..| | | |].
  - constructor; [|constructor]. repeat split; try done; cbn; lia.
  - eapply fragments_cons; [|exact hel_read|apply fragments_nil].
    eapply receives_sim; [reflexivity|vm_compute; lia|reflexivity].
  - repeat split; try done; cbn; lia.
  - eapply receives_sim; [reflexivity|vm_compute; lia|reflexivity].
Defined.

Lemma control_frame_drops_fragments_witness :
  exists c' w', WsRead (set_ws_conn (Some (WsConn (set_last_payload (str "hel") rfc_state) (Some echo) None)) ws_conn)
                  (kernel [(7, inr (sent_frame true true kTypePing [x01; x02; x03; x04] (str "?") ++ []))])
      = Ok ((0, c'), w') /\ buffer_ c' = [] /\
    exists ws', ws_conn_ c' = Some ws' /\ last_payload_ (ws_st ws') = [].
Proof.
  eapply (control_frame_drops_fragments _ _ _ true kTypePing [x01; x02; x03; x04] (str "?") [] 10);
    [reflexivity..|by left|reflexivity|reflexivity|].
  eapply receives_sim; [reflexivity|vm_compute; lia|reflexivity].
Defined.

Lemma spurious_wakeup_faults_witness : WsRead ws_conn (kernel []) = Fault OutOfBounds.
Proof.
  eapply (spurious_wakeup_faults ws_conn (kernel []) echo_ws EAGAIN);
    [reflexivity|reflexivity|by left|vm_compute; reflexivity].
Defined.

Lemma ServerPing_when_idle_witness :
  exists t w',
    if decide (10 * 1000000000 < t - 0)
    then ServerPing 7 (rfc_state, Sim [] 3 [] [] [] 99000000000 []) =
           Ok (true, (set_last_io_time t rfc_state, w')) /\
      exists r1 r2 t2, after (Sim [] 3 [] [] [] 99000000000 [])
        [Event SysNow t; Event (SysWrite 7 [x89; x00]) r1; Event (SysWrite 7 []) r2; Event SysNow t2] w'
    else ServerPing 7 (rfc_state, Sim [] 3 [] [] [] 99000000000 []) = Ok (false, (rfc_state, w')) /\
      after (Sim [] 3 [] [] [] 99000000000 []) [Event SysNow t] w'.
Proof.
  exact (ServerPing_when_idle 7 rfc_state (Sim [] 3 [] [] [] 99000000000 []) 10 eq_refl ltac:(done)).
Defined.
End witnesses.
