(* ===== verification/Response.v ===== *)
(** * Responses: src/hpl_response.h

    The text is formatted by the fmt library: [fmt_int] stands for its rendering of
    an [int] or [size_t] with [{}], of which class [Fmt] says that a number that is
    not negative comes out as its decimal digits.  [{}] on a string is the string. *)

From S2P Require Import Prelude CString StdMap Version HeaderParser HeaderParserSpec HeaderParserProps Requests ConnectionSpec.
Import HttpHeaderParser.

Class Fmt : Set := {
  fmt_int : Z -> bytes;
  fmt_int_digits n : 0 <= n -> fmt_int n <> [] /\ Forall (fun d => isdigit d = true) (fmt_int n);
  fmt_int_value n : 0 <= n -> digits_value 0 (fmt_int n) = n
}.

Definition kStatusMessages : list (list bytes) :=
  [ [str "Continue"; str "Switching Protocols"; str "Processing"; str "Early Hints"];
    [str "OK"; str "Created"; str "Accepted"; str "Non-Authoritative Information";
     str "No Content"; str "Reset Content"; str "Partial Content"; str "Multi-Status";
     str "Already Reported"];
    [str "Multiple Choices"; str "Moved Permanently"; str "Found"; str "See Other";
     str "Not Modified"; str "Use Proxy"; str "(Unused)"; str "Temporary Redirect";
     str "Permanent Redirect"];
    [str "Bad Request"; str "Unauthorized"; str "Payment Required"; str "Forbidden";
     str "Not Found"; str "Method Not Allowed"; str "Not Acceptable";
     str "Proxy Authentication Required"; str "Request Timeout"; str "Conflict"; str "Gone";
     str "Length Required"; str "Precondition Failed"];
    [str "Internal Server Error"; str "Not Implemented"; str "Bad Gateway";
     str "Service Unavailable"; str "Gateway Timeout"; str "HTTP Version Not Supported";
     str "Variant Also Neogtiates"; str "Insufficient Storage"; str "Loop Detected";
     str "(Unused)"; str "Not Extended"; str "Network Authentication Required"] ].

(** [vector::at]: an index outside the vector throws. *)
Definition vector_at {A} (l : list A) (i : Z) : outcome A :=
  of_option Throws (if i <? 0 then None else l !! Z.to_nat i).

(** Formatting with ["{} {} {}\r\n"] and ["{}: {}\r\n"]. *)
Definition status_line `{!Fmt} (version : HttpVersion.http_version) (code : Z) (message : bytes) : bytes :=
  HttpVersionToString version ++ [SP] ++ fmt_int code ++ [SP] ++ message ++ CRLF.
Definition format_header (kv : bytes * bytes) : bytes := kv.1 ++ str ": " ++ kv.2 ++ CRLF.

(** [headers] is a [std::map]: its entries come in the order of their keys. *)
Definition MakeResponse `{!Fmt} (status_code : Z) (version : HttpVersion.http_version)
  (headers : std_map bytes) (body : bytes) : outcome bytes :=
  let status_code := if (status_code <? 100) || (599 <? status_code) then 500 else status_code in
  row ← vector_at kStatusMessages (Z.quot status_code 100 - 1);
  let status_code :=
    if Z.of_nat (length row) <=? Z.rem status_code 100 then 500 else status_code in
  row ← vector_at kStatusMessages (Z.quot status_code 100 - 1);
  message ← vector_at row (Z.rem status_code 100);
  let ret := status_line version status_code message in
  let ret := ret ++ concat (map format_header headers) in
  Ok (if decide (body <> [])
      then ret ++ str "Content-Length: " ++ fmt_int (Z.of_nat (length body)) ++ CRLF ++ CRLF ++ body
      else ret ++ CRLF).

(** ** Lemmas *)

(** The message of a code of the table. *)
Definition status_message (code : Z) : option bytes :=
  row ← (if code <? 100 then None else kStatusMessages !! Z.to_nat (code / 100 - 1));
  row !! Z.to_nat (code mod 100).

(** The code a response carries: an unknown one becomes 500. *)
Definition effective_code (code : Z) : Z :=
  match status_message code with Some _ => code | None => 500 end.

Lemma rows_short : Forall (fun row => (length row <= 100)%nat) kStatusMessages.
Proof. apply (bool_decide_unpack _). vm_compute. exact Logic.I. Qed.

Section response.
Context `{!Fmt}.

(** The text for a code of the table. *)
Definition response_text code version (headers : std_map bytes) (body : bytes) (message : bytes) : bytes :=
  status_line version code message ++ concat (map format_header headers) ++
  (if decide (body <> [])
   then format_header (str "Content-Length", fmt_int (Z.of_nat (length body))) ++ CRLF ++ body
   else CRLF).

Lemma MakeResponse_known code version headers body message :
  status_message code = Some message ->
  MakeResponse code version headers body = Ok (response_text code version headers body message).
Proof.
  unfold status_message. case_test; [done|]. intros Hm.
  destruct (kStatusMessages !! Z.to_nat (code / 100 - 1)) as [row|] eqn:Hrow; [|done].
  cbn [mbind option_bind] in Hm.
  pose proof (lookup_lt_Some _ _ _ Hrow) as Hlt. cbn in Hlt.
  pose proof (lookup_lt_Some _ _ _ Hm) as Hlt'.
  assert (1 <= code / 100) by (Z.div_mod_to_equations; lia).
  assert (code <= 599) by (Z.div_mod_to_equations; lia).
  unfold MakeResponse. rewrite (proj2 (Z.ltb_ge code 100)), (proj2 (Z.ltb_ge 599 code)) by lia.
  cbn [orb]. unfold vector_at. rewrite Z.quot_div_nonneg, Z.rem_mod_nonneg by lia.
  rewrite (proj2 (Z.ltb_ge (code / 100 - 1) 0)) by lia. rewrite Hrow. cbn [of_option mbind outcome_bind].
  assert (0 <= code mod 100 < 100) by (apply Z.mod_pos_bound; lia).
  rewrite (proj2 (Z.leb_gt _ _)) by lia. rewrite Z.quot_div_nonneg, Z.rem_mod_nonneg by lia.
  rewrite (proj2 (Z.ltb_ge (code / 100 - 1) 0)) by lia. rewrite Hrow. cbn [of_option mbind outcome_bind].
  rewrite (proj2 (Z.ltb_ge (code mod 100) 0)) by lia. rewrite Hm. cbn [of_option mbind outcome_bind].
  unfold response_text, format_header. cbn [fst snd]. f_equal.
  case_decide; rewrite <- !app_assoc; [|done]. done.
Qed.

Lemma MakeResponse_unknown code version headers body :
  status_message code = None ->
  MakeResponse code version headers body = MakeResponse 500 version headers body.
Proof.
  intros Hm. unfold MakeResponse at 1.
  destruct ((code <? 100) || (599 <? code)) eqn:Hr; [done|].
  apply orb_false_iff in Hr. rewrite !Z.ltb_ge in Hr.
  unfold status_message in Hm. rewrite (proj2 (Z.ltb_ge code 100)) in Hm by lia.
  unfold vector_at. rewrite Z.quot_div_nonneg, Z.rem_mod_nonneg by lia.
  assert (1 <= code / 100 < 6) by (Z.div_mod_to_equations; lia).
  rewrite (proj2 (Z.ltb_ge (code / 100 - 1) 0)) by lia.
  destruct (lookup_lt_is_Some_2 kStatusMessages (Z.to_nat (code / 100 - 1))) as [row Hrow]; [cbn; lia|].
  rewrite Hrow in *. cbn [of_option mbind outcome_bind option_bind] in *.
  apply lookup_ge_None in Hm. assert (0 <= code mod 100 < 100) by (apply Z.mod_pos_bound; lia).
  rewrite (proj2 (Z.leb_le _ _)) by lia. reflexivity.
Qed.

(** A line without a carriage return before its end. *)
Lemma line_no_cr x : Forall (fun c => c <> CR) x -> line (x ++ CRLF).
Proof.
  intros Hx. exists x. split; [done|]. intros a b E. unfold CRLF in E.
  assert (Ha : (length a < length x)%nat).
  { apply (f_equal length) in E. rewrite !length_app in E. cbn in E. lia. }
  assert (Hl : (x ++ [CR]) !! length a = Some CR).
  { rewrite E, lookup_app_r by lia. by rewrite Nat.sub_diag. }
  rewrite lookup_app_l in Hl by done.
  by apply (Forall_lookup_1 _ _ _ _ Hx) in Hl.
Qed.

Lemma digits_no_cr ds : Forall (fun d => isdigit d = true) ds -> Forall (fun c => c <> CR) ds.
Proof. intros Hd. apply (Forall_impl _ _ _ Hd). by intros c Hc ->. Qed.

(** Header text that cannot be mistaken for something else. *)
Definition plain_header (kv : bytes * bytes) : Prop :=
  header_ok kv /\ Forall (fun c => c <> CR) kv.1.

#[export] Instance plain_header_dec kv : Decision (plain_header kv).
Proof. unfold plain_header. apply _. Defined.

Lemma format_header_line kv : format_header kv = header_line kv.1 1 kv.2.
Proof. done. Qed.

Lemma field_value_no_cr v : field_value v -> Forall (fun c => c <> CR) v.
Proof. intros [Hv _]. apply (Forall_impl _ _ _ Hv). by intros c Hc ->. Qed.

Lemma plain_header_is_line kv : plain_header kv -> line (format_header kv).
Proof.
  intros [(_ & _ & Hv%field_value_no_cr) Hk]. unfold format_header.
  rewrite !app_assoc. apply line_no_cr. rewrite <- app_assoc.
  apply Forall_app. split; [done|]. apply Forall_app. split; [|done]. by repeat constructor.
Qed.

(** The lines of a response. *)
Definition response_lines (version : HttpVersion.http_version) (code : Z) (message : bytes)
  (headers : std_map bytes) (body : bytes) : list bytes :=
  status_line version code message :: map format_header headers ++
  (if decide (body <> [])
   then [format_header (str "Content-Length", fmt_int (Z.of_nat (length body)))] else []) ++ [CRLF].

Lemma response_text_lines version code message headers body :
  response_text code version headers body message =
    concat (response_lines version code message headers body) ++ body.
Proof.
  unfold response_text, response_lines. cbn [concat]. rewrite !concat_app. cbn [concat].
  rewrite app_nil_r, <- !app_assoc. case_decide as Hb; cbn [concat app].
  - by rewrite ?app_nil_r, <- ?app_assoc.
  - by rewrite Hb, !app_nil_r.
Qed.

Lemma messages_plain code message :
  status_message code = Some message -> 0 <= code /\ Forall (fun c => c <> CR) message.
Proof.
  unfold status_message. case_test; [done|].
  intros (row & Hrow & Hm)%bind_Some. split; [lia|].
  assert (Hall : Forall (Forall (Forall (fun c => c <> CR))) kStatusMessages).
  { apply (bool_decide_unpack _). vm_compute. exact Logic.I. }
  pose proof (Forall_lookup_1 _ _ _ _ Hall Hrow) as Hr. by apply (Forall_lookup_1 _ _ _ _ Hr Hm).
Qed.

Lemma status_line_is_line version code message :
  0 <= code -> Forall (fun c => c <> CR) message -> line (status_line version code message).
Proof.
  intros Hc Hm. unfold status_line. rewrite !app_assoc. apply line_no_cr.
  destruct (fmt_int_digits code Hc) as [_ Hd%digits_no_cr].
  repeat (apply Forall_app; split); try done; [|by repeat constructor..].
  by destruct version; repeat constructor.
Qed.

(** ** Claims *)

(** [MakeResponse] never throws, whatever code it is given: the two lookups stay in the
    table, a code the table has (even an unused one) is sent with its message, and any
    other is sent as 500. *)
Theorem MakeResponse_total code version headers body :
  exists message, status_message (effective_code code) = Some message /\
    MakeResponse code version headers body =
      Ok (response_text (effective_code code) version headers body message).
Proof.
  unfold effective_code. destruct (status_message code) as [m|] eqn:E.
  - exists m. split; [done|]. by apply MakeResponse_known.
  - exists (str "Internal Server Error"). split; [reflexivity|].
    rewrite MakeResponse_unknown by done. by apply MakeResponse_known.
Qed.

(** Claim C26. A response can be taken apart again: it is a sequence of proper lines followed by
    the body.  Pushing its header lines to a parser brings back every header and, for a body
    that is not empty, its length; a response with an empty body announces no length. *)
Theorem response_reads_back code version headers body :
  Forall plain_header headers -> Z.of_nat (length body) < 2 ^ 31 ->
  exists l ls p,
    MakeResponse code version headers body = Ok (concat (l :: ls) ++ body) /\
    Forall line (l :: ls) /\
    push_lines (set_state Headers init) ls = Ok p /\
    (forall k, map_find k (headers_ p) = map_find k headers) /\
    content_length_ p = (if decide (body <> []) then Some (Z.of_nat (length body)) else None) /\
    state_ p = (if decide (body <> []) then Body else Done).
Proof.
  intros Hh Hb.
  destruct (MakeResponse_total code version headers body) as (m & Hm & ->).
  set (code' := effective_code code) in *. destruct (messages_plain _ _ Hm) as [Hc Hmp].
  rewrite response_text_lines. unfold response_lines.
  destruct (fmt_int_digits (Z.of_nat (length body))) as [Hne Hdig]; [lia|].
  pose proof (fmt_int_value (Z.of_nat (length body)) ltac:(lia)) as Hval.
  set (ds := fmt_int (Z.of_nat (length body))) in *.
  assert (Hcl : line (format_header (str "Content-Length", ds))).
  { unfold format_header. rewrite !app_assoc. apply line_no_cr. rewrite <- app_assoc.
    repeat (apply Forall_app; split); [by repeat constructor..|by apply digits_no_cr]. }
  assert (Hcrlf : line CRLF) by (apply (line_no_cr []); constructor).
  set (p0 := set_state Headers init).
  assert (Hpush : push_lines p0 (map format_header headers) =
                  Ok (set_headers (emplace_all headers (headers_ p0)) p0)).
  { apply push_lines_headers; [done|]. apply (Forall_impl _ _ _ Hh). by intros kv [? _]. }
  set (p1 := set_headers (emplace_all headers (headers_ p0)) p0) in *.
  assert (Hget : forall k, map_find k (headers_ p1) = map_find k headers).
  { intros k. unfold p1. rewrite set_headers_headers, map_find_emplace_all by constructor. done. }
  exists (status_line version code' m), (map format_header headers ++
    (if decide (body <> []) then [format_header (str "Content-Length", ds)] else []) ++ [CRLF]).
  rewrite push_lines_app, Hpush. cbn [mbind outcome_bind].
  assert (Hline : Forall line (map format_header headers)).
  { apply Forall_fmap. exact (Forall_impl _ _ _ Hh plain_header_is_line). }
  destruct (decide (body <> [])) as [Hbody|Hbody].
  - assert (H2 : PushLine p1 (format_header (str "Content-Length", ds)) =
                 Ok (set_content_length (Some (digits_value 0 ds)) p1, Headers)).
    { rewrite format_header_line. apply PushLine_header; [done| |apply push_content_length_header];
        try done; try (by apply (bool_decide_unpack _)). by rewrite Hval. }
    cbn [app]. rewrite (push_lines_cons _ _ _ _ _ H2). eexists. split; [reflexivity|].
    split; [|split; [reflexivity|split; [exact Hget|by rewrite <- Hval]]].
    constructor; [by apply status_line_is_line|]. apply Forall_app. split; [done|].
    constructor; [done|]. by constructor.
  - eexists. split; [reflexivity|].
    split; [|split; [reflexivity|split; [exact Hget|done]]].
    constructor; [by apply status_line_is_line|]. apply Forall_app. split; [done|]. by constructor.
Qed.
End response.

(** ** A renderer to run the examples with *)

Module Decimal.

Definition digit_char (d : Z) : byte := z2b (48 + d).

Fixpoint digits (fuel : nat) (n : Z) (acc : bytes) : bytes :=
  match fuel with
  | O => acc
  | S fuel => if n <? 10 then digit_char n :: acc
              else digits fuel (n / 10) (digit_char (n mod 10) :: acc)
  end.

Definition fuel_for (n : Z) : nat := S (Z.to_nat (Z.log2 n)).

Definition decimal (n : Z) : bytes :=
  if n <? 0 then "-"%byte :: digits (fuel_for (- n)) (- n) [] else digits (fuel_for n) n [].

Lemma digit_char_spec d :
  0 <= d < 10 -> isdigit (digit_char d) = true /\ b2z (digit_char d) - 48 = d.
Proof.
  apply (Z_range_check 10 (fun d => isdigit (digit_char d) = true /\ b2z (digit_char d) - 48 = d)).
  vm_compute. reflexivity.
Qed.

Lemma digits_spec fuel : forall n acc,
  0 <= n < 2 ^ Z.of_nat fuel -> (0 < fuel)%nat ->
  exists ds, digits fuel n acc = ds ++ acc /\ ds <> [] /\
    Forall (fun d => isdigit d = true) ds /\
    forall a r, digits_value a (ds ++ r) = digits_value (a * 10 ^ Z.of_nat (length ds) + n) r.
Proof.
  induction fuel as [|fuel IH]; intros n acc Hn Hf; [lia|]. cbn [digits].
  destruct (Z.ltb_spec n 10).
  - destruct (digit_char_spec n ltac:(lia)) as [Hd Hv]. exists [digit_char n].
    split; [done|]. split; [done|]. split; [by constructor|]. intros a r. cbn [app digits_value].
    rewrite Hd, Hv. f_equal.
  - assert (Hdiv : 0 <= n / 10 < 2 ^ Z.of_nat fuel).
    { rewrite Nat2Z.inj_succ, Z.pow_succ_r in Hn by lia. Z.div_mod_to_equations; lia. }
    assert (Hf' : (0 < fuel)%nat) by (destruct fuel; [cbn in Hn; lia|lia]).
    destruct (IH (n / 10) (digit_char (n mod 10) :: acc) Hdiv Hf') as (ds & -> & Hne & Hd & Hv).
    destruct (digit_char_spec (n mod 10)) as [Hd' Hv']; [apply Z.mod_pos_bound; lia|].
    exists (ds ++ [digit_char (n mod 10)]). split; [by rewrite <- app_assoc|].
    split; [by destruct ds|]. split; [apply Forall_app; by split; [|constructor]|].
    intros a r. rewrite <- app_assoc, Hv. cbn [app digits_value]. rewrite Hd', Hv'. f_equal.
    rewrite length_app, Nat2Z.inj_add, Z.pow_add_r by lia. cbn [length]. change (10 ^ Z.of_nat 1) with 10.
    pose proof (Z.div_mod n 10 ltac:(lia)). lia.
Qed.

Lemma decimal_spec n :
  0 <= n ->
  (decimal n <> [] /\ Forall (fun d => isdigit d = true) (decimal n)) /\ digits_value 0 (decimal n) = n.
Proof.
  intros Hn. unfold decimal. rewrite (proj2 (Z.ltb_ge _ _)) by lia.
  destruct (digits_spec (fuel_for n) n []) as (ds & -> & Hne & Hd & Hv); [|unfold fuel_for; lia|].
  - unfold fuel_for. rewrite Nat2Z.inj_succ, Z2Nat.id by apply Z.log2_nonneg. split; [done|].
    destruct (Z.eq_dec n 0) as [->|]; [done|]. by apply Z.log2_spec; lia.
  - rewrite app_nil_r. split; [done|]. specialize (Hv 0 []). rewrite app_nil_r in Hv. by rewrite Hv.
Qed.

Definition decimal_fmt : Fmt :=
  {| fmt_int := decimal;
     fmt_int_digits n H := proj1 (decimal_spec n H);
     fmt_int_value n H := proj2 (decimal_spec n H) |}.
End Decimal.

Section witnesses.
#[local] Existing Instance Decimal.decimal_fmt.

Example response_404 :
  MakeResponse 404 HttpVersion.HTTP_1_1 [] [] = Ok (str "HTTP/1.1 404 Not Found" ++ CRLF ++ CRLF) /\
  MakeResponse 299 HttpVersion.HTTP_1_0 [(str "A", str "b")] (str "body") =
    Ok (str "HTTP/1.0 500 Internal Server Error" ++ CRLF ++ str "A: b" ++ CRLF ++
        str "Content-Length: 4" ++ CRLF ++ CRLF ++ str "body").
Proof. vm_compute. done. Qed.

Lemma response_reads_back_witness :
  exists l ls p,
    MakeResponse 200 HttpVersion.HTTP_1_1 [(str "Server", str "httpoll")] (str "hello") =
      Ok (concat (l :: ls) ++ str "hello") /\
    Forall line (l :: ls) /\
    push_lines (set_state Headers init) ls = Ok p /\
    (forall k, map_find k (headers_ p) = map_find k [(str "Server", str "httpoll")]) /\
    content_length_ p = Some 5 /\ state_ p = Body.
Proof.
  apply (response_reads_back 200 HttpVersion.HTTP_1_1 [(str "Server", str "httpoll")] (str "hello")).
  - apply (bool_decide_unpack _). vm_compute. exact Logic.I.
  - done.
Defined.
End witnesses.
