(* ===== verification/Logger.v ===== *)
(** * The logger: src/hpl_logger.h

    A macro of the logger prints one line to the standard error: the level in colour, the time of
    day, the file and line it is used at, and the message.  The message is what fmt makes of the
    format and the arguments of the macro, and is taken as given; so is the time that
    [localtime] returns.  The rest of the line is written out here, with the integer formatting
    of fmt as in Response. *)

From S2P Require Import Prelude CString HeaderParserSpec Response.

(** ** Levels *)

Inductive level : Set := TRACE | DEBUG | INFO | WARN | ERROR | FATAL.

#[export] Instance level_eq_dec : EqDecision level.
Proof. solve_decision. Defined.

Definition ESC : byte := x1b.

(** The prefixes: a letter between two escape sequences of the terminal. *)
Definition prefix (l : level) : bytes :=
  ESC :: match l with
         | TRACE => str "[1;30m[T]"
         | DEBUG => str "[1;34m[D]"
         | INFO => str "[1;32m[I]"
         | WARN => str "[1;33m[W]"
         | ERROR => str "[1;31m[E]"
         | FATAL => str "[1;35m[F]"
         end ++ ESC :: str "[0m".

(** ** The file name *)

(** [strrchr], as an index. *)
Fixpoint strrchr (s : bytes) (c : byte) : option nat :=
  match s with
  | [] => None
  | x :: s =>
      match strrchr s c with
      | Some i => Some (S i)
      | None => if decide (x = c) then Some O else None
      end
  end.

Definition slash : byte := "/".

Definition FILENAME (file : bytes) : bytes :=
  match strrchr file slash with Some i => drop (i + 1) file | None => file end.

(** ** The line *)

(** The fields of [std::tm] that [%T] prints. *)
Record tm := Tm { tm_hour : Z; tm_min : Z; tm_sec : Z }.

Definition digit (n : Z) : byte := z2b (48 + n).
Definition two_digits (n : Z) : bytes := [digit (n / 10); digit (n mod 10)].
Definition clock (t : tm) : bytes :=
  two_digits (tm_hour t) ++ str ":" ++ two_digits (tm_min t) ++ str ":" ++ two_digits (tm_sec t).

Section logger.
Context {fmt : Fmt}.

(** [fmt::print] of [prefix "|{:%T}|{}:{}|" format "\n"]. *)
Definition LOG_RAW (prefix : bytes) (t : tm) (file : bytes) (line : Z) (message : bytes) : bytes :=
  prefix ++ str "|" ++ clock t ++ str "|" ++ FILENAME file ++ str ":" ++ fmt_int line ++ str "|" ++
  message ++ [x0a].

(** [LOG_TRACE] and the others. *)
Definition LOG (l : level) : tm -> bytes -> Z -> bytes -> bytes := LOG_RAW (prefix l).

(** ** Lemmas *)

Lemma strrchr_None s c : strrchr s c = None <-> c ∉ s.
Proof.
  induction s as [|x s IH]; cbn [strrchr]; [split; [intros _; apply not_elem_of_nil|done]|].
  rewrite not_elem_of_cons. destruct (strrchr s c); [naive_solver|]. case_decide; naive_solver.
Qed.

Lemma strrchr_Some s c i : strrchr s c = Some i -> (c ∉ drop (i + 1) s) /\ s = take i s ++ (c :: drop (i + 1) s).
Proof.
  revert i. induction s as [|x s IH]; intros i; cbn [strrchr]; [done|].
  destruct (strrchr s c) as [j|] eqn:E.
  - intros [= <-]. destruct (IH j eq_refl) as [Hn Hs]. split; [done|]. cbn. by rewrite <- Hs.
  - case_decide as Hx; [|done]. intros [= <-]. split; [|by rewrite Hx]. by apply strrchr_None.
Qed.

(** The file name is the last component of the path. *)
Theorem FILENAME_last_component file :
  (slash ∉ FILENAME file) /\
  (FILENAME file = file \/ exists dir, file = dir ++ (slash :: FILENAME file)).
Proof.
  unfold FILENAME. destruct (strrchr file slash) as [i|] eqn:E.
  - destruct (strrchr_Some _ _ _ E) as [Hn Hs]. split; [done|]. right. by eexists.
  - split; [by apply strrchr_None|by left].
Qed.

(** ** Reading a line back *)

(** What is before the first [c], and what is after it. *)
Fixpoint split_at (c : byte) (s : bytes) : option (bytes * bytes) :=
  match s with
  | [] => None
  | x :: s =>
      if decide (x = c) then Some ([], s)
      else '(a, b) ← split_at c s; Some (x :: a, b)
  end.

Lemma split_at_app c a b : c ∉ a -> split_at c (a ++ c :: b) = Some (a, b).
Proof.
  induction a as [|x a IH]; cbn [split_at app]; [by rewrite decide_True|].
  rewrite not_elem_of_cons. intros [Hx Ha]. rewrite decide_False by congruence. by rewrite IH.
Qed.

Definition bar : byte := "|".
Definition colon : byte := ":".

(** The fields of a log line. *)
Definition read_log (s : bytes) : option (bytes * bytes * bytes * Z * bytes) :=
  '(p, s) ← split_at bar s;
  '(t, s) ← split_at bar s;
  '(f, s) ← split_at colon s;
  '(n, m) ← split_at bar s;
  Some (p, t, f, digits_value 0 n, m).

Lemma digits_no_bar s : Forall (fun d => isdigit d = true) s -> bar ∉ s.
Proof. intros H Hb. rewrite Forall_forall in H. by specialize (H _ Hb). Qed.

Lemma digit_isdigit n : 0 <= n < 10 -> isdigit (digit n) = true.
Proof.
  intros Hn. assert (Hall : forallb (fun k => isdigit (digit (Z.of_nat k))) (seq 0 10) = true) by done.
  rewrite forallb_forall in Hall. specialize (Hall (Z.to_nat n)). rewrite Z2Nat.id in Hall by lia.
  apply Hall, in_seq. lia.
Qed.

Lemma two_digits_no_bar n : 0 <= n < 100 -> bar ∉ two_digits n.
Proof. intros H. apply digits_no_bar. repeat constructor; apply digit_isdigit; Z.to_euclidean_division_equations; lia. Qed.

Definition time_ok (t : tm) : Prop := 0 <= tm_hour t < 24 /\ 0 <= tm_min t < 60 /\ 0 <= tm_sec t < 61.

Lemma clock_no_bar t : time_ok t -> bar ∉ clock t.
Proof.
  intros (Hh & Hm & Hs). unfold clock. rewrite !not_elem_of_app.
  repeat split; try (apply two_digits_no_bar; lia); by apply (bool_decide_unpack _).
Qed.

Lemma prefix_no_bar l : bar ∉ prefix l.
Proof. intros H. apply list_elem_of_In in H. destruct l; cbn in H; naive_solver. Qed.

(** A log line tells its level, time, file, line and message, whatever the message is; the
    name of the file must not have the separators. *)
Theorem log_line_reads_back l t file line message :
  time_ok t -> 0 <= line -> colon ∉ FILENAME file ->
  read_log (LOG l t file line message) = Some (prefix l, clock t, FILENAME file, line, message ++ [x0a]).
Proof.
  intros Ht Hl Hf. destruct (fmt_int_digits line Hl) as [_ Hd].
  unfold LOG, LOG_RAW, read_log. change (str "|") with [bar]. change (str ":") with [colon]. cbn [app].
  rewrite (split_at_app bar (prefix l)) by apply prefix_no_bar. cbn [mbind option_bind].
  rewrite (split_at_app bar (clock t)) by by apply clock_no_bar. cbn [mbind option_bind].
  rewrite (split_at_app colon (FILENAME file)) by done. cbn [mbind option_bind].
  rewrite (split_at_app bar (fmt_int line)) by by apply digits_no_bar. cbn [mbind option_bind].
  by rewrite fmt_int_value.
Qed.
End logger.

Section witness.
#[local] Existing Instance Decimal.decimal_fmt.

Lemma log_line_reads_back_witness :
  read_log (LOG WARN (Tm 9 5 30) (str "src/hpl_server.cc") 271 (str "a|b")) =
    Some (prefix WARN, str "09:05:30", str "hpl_server.cc", 271, str "a|b" ++ [x0a]).
Proof.
  apply (log_line_reads_back WARN (Tm 9 5 30) (str "src/hpl_server.cc") 271 (str "a|b"));
    [repeat split; done|done|].
  apply (bool_decide_unpack _). vm_compute. exact I.
Defined.
End witness.
