(* ===== verification/Router.v ===== *)
(** * Routing: RegisterRequestHandler and FindRequestHandler of src/hpl_server.cc

    [std::regex] is a parameter: [regex_match p s] is the result of matching the
    whole of [s] against the ECMAScript pattern [p], [None] when constructing the
    regular expression throws.  Class [Regex] says what the ECMAScript grammar says
    about patterns made of ordinary characters, [.] and [.*]. *)

From S2P Require Import Prelude CString StdMap.

(** ** Regular expressions *)

(** The characters with a meaning of their own in the grammar. *)
Definition special (c : byte) : bool :=
  bool_decide (c ∈ str "^$\.*+?()[]{}|").

Definition line_terminator (c : byte) : bool :=
  bool_decide (c = CR) || bool_decide (c = LF).

Inductive atom : Set :=
| Char (c : byte)   (* an ordinary character *)
| Any               (* . *)
| AnyStar.          (* .* *)

Definition print_atom (a : atom) : bytes :=
  match a with Char c => [c] | Any => str "." | AnyStar => str ".*" end.

Inductive atoms_match : list atom -> bytes -> Prop :=
| match_nil : atoms_match [] []
| match_char c r s : atoms_match r s -> atoms_match (Char c :: r) (c :: s)
| match_any c r s : line_terminator c = false -> atoms_match r s -> atoms_match (Any :: r) (c :: s)
| match_star_end r s : atoms_match r s -> atoms_match (AnyStar :: r) s
| match_star c r s :
    line_terminator c = false -> atoms_match (AnyStar :: r) s -> atoms_match (AnyStar :: r) (c :: s).

Definition ordinary (a : atom) : Prop :=
  match a with Char c => special c = false | _ => True end.

Class Regex : Set := {
  regex_match : bytes -> bytes -> option bool;
  regex_match_atoms r s :
    Forall ordinary r ->
    exists b, regex_match (concat (map print_atom r)) s = Some b /\ (b = true <-> atoms_match r s)
}.

(** ** The two methods *)

(** The loop of [RegisterRequestHandler]: a dot is inserted before each star, and the iterator
    moves past both. *)
Fixpoint expand_stars (uri : bytes) : bytes :=
  match uri with
  | [] => []
  | c :: r => if decide (c = "*"%byte) then "."%byte :: c :: expand_stars r else c :: expand_stars r
  end.

Section router.
Context `{!Regex} {T : Type}.

Definition RegisterRequestHandler (uri : bytes) (handler : T) (request_handlers : std_map T) : std_map T :=
  map_assign (expand_stars uri) handler request_handlers.

(** The loop over the map: the first entry that matches. *)
Fixpoint find_handler (uri_str : bytes) (handlers : std_map T) : outcome (option (bytes * T)) :=
  match handlers with
  | [] => Ok None
  | (k, h) :: r =>
      match regex_match k uri_str with
      | None => Fault Throws
      | Some true => Ok (Some (k, h))
      | Some false => find_handler uri_str r
      end
  end.

(** [uri_str] is built from the pointer of the view: it ends at the first NUL.  [None] is the end
    iterator. *)
Definition FindRequestHandler (uri : bytes) (request_handlers : std_map T)
  : outcome (option (bytes * T)) :=
  find_handler (until_nul uri) request_handlers.

(** Registrations in order. *)
Fixpoint register_all (regs : list (bytes * T)) (m : std_map T) : std_map T :=
  match regs with
  | [] => m
  | (uri, h) :: regs => register_all regs (RegisterRequestHandler uri h m)
  end.

(** ** What a registered URI stands for *)

(** A star is any number of characters, a dot is one character (it is not quoted), anything
    else is itself. *)
Inductive glob : bytes -> bytes -> Prop :=
| glob_nil : glob [] []
| glob_star u s1 s2 :
    Forall (fun c => line_terminator c = false) s1 -> glob u s2 -> glob ("*"%byte :: u) (s1 ++ s2)
| glob_dot c u s : line_terminator c = false -> glob u s -> glob ("."%byte :: u) (c :: s)
| glob_char c u s : c <> "*"%byte -> c <> "."%byte -> glob u s -> glob (c :: u) (c :: s).

(** URIs without special characters other than star and dot. *)
Definition plain_uri (u : bytes) : Prop :=
  Forall (fun c => special c = false \/ c = "*"%byte \/ c = "."%byte) u.

Definition atom_of (c : byte) : atom :=
  if decide (c = "*"%byte) then AnyStar else if decide (c = "."%byte) then Any else Char c.

Lemma expand_stars_atoms u : expand_stars u = concat (map print_atom (map atom_of u)).
Proof.
  induction u as [|c u IH]; [done|]. cbn [expand_stars map concat]. rewrite IH. unfold atom_of.
  case_decide; subst; [done|]. by case_decide; subst.
Qed.

Lemma plain_uri_ordinary u : plain_uri u -> Forall ordinary (map atom_of u).
Proof.
  intros Hu. apply Forall_fmap. apply (Forall_impl _ _ _ Hu). intros c Hc. unfold atom_of, compose.
  case_decide; [done|]. case_decide; [done|]. cbn. naive_solver.
Qed.

Lemma star_inv r s :
  atoms_match (AnyStar :: r) s ->
  exists s1 s2, s = s1 ++ s2 /\ Forall (fun c => line_terminator c = false) s1 /\ atoms_match r s2.
Proof.
  intros Hm. remember (AnyStar :: r) as l eqn:El. revert r El.
  induction Hm; intros r' [= ]; subst.
  - by exists [], s.
  - destruct (IHHm _ eq_refl) as (s1 & s2 & -> & Hs1 & Hm'). exists (c :: s1), s2.
    split; [done|]. split; [by constructor|done].
Qed.

Lemma atoms_match_glob u s : atoms_match (map atom_of u) s <-> glob u s.
Proof.
  split.
  - revert s. induction u as [|c u IH]; intros s Hm.
    + inversion Hm. constructor.
    + cbn [map] in Hm. unfold atom_of in Hm at 1. case_decide; subst.
      { destruct (star_inv _ _ Hm) as (s1 & s2 & -> & Hs1 & Hm'). constructor; auto. }
      case_decide; subst; inversion Hm; subst; constructor; auto.
  - induction 1 as [|u s1 s2 Hs1 _ IH|c u s Hc _ IH|c u s H1 H2 _ IH]; cbn [map].
    + constructor.
    + change (atom_of "*"%byte) with AnyStar. induction Hs1; cbn; by constructor.
    + change (atom_of "."%byte) with Any. by constructor.
    + unfold atom_of at 1. rewrite !decide_False by done. by constructor.
Qed.

Lemma regex_match_glob u s :
  plain_uri u -> exists b, regex_match (expand_stars u) s = Some b /\ (b = true <-> glob u s).
Proof.
  intros Hu. rewrite expand_stars_atoms. setoid_rewrite <- atoms_match_glob.
  apply regex_match_atoms, plain_uri_ordinary, Hu.
Qed.

(** ** The table *)

(** A URI of ordinary characters only matches itself. *)
Lemma glob_literal u s : Forall (fun c => special c = false) u -> glob u s <-> s = u.
Proof.
  intros Hu. split.
  - intros Hg. induction Hg as [|u s1 s2 _ _ _|c u s _ _ _|c u s _ _ _ IH]; try done.
    + by apply Forall_cons in Hu as [? _].
    + by apply Forall_cons in Hu as [? _].
    + apply Forall_cons in Hu as [_ Hu]. by rewrite IH.
  - intros ->. induction Hu as [|c u Hc _ IH]; [constructor|].
    by apply glob_char; [intros ->..|].
Qed.

Lemma regex_match_literal u s :
  Forall (fun c => special c = false) u -> regex_match (expand_stars u) s = Some (bool_decide (s = u)).
Proof.
  intros Hu. destruct (regex_match_glob u s) as (b & -> & Hb).
  { apply (Forall_impl _ _ _ Hu). by left. }
  f_equal. apply eq_true_iff_eq. rewrite Hb, bool_decide_eq_true. by apply glob_literal.
Qed.

Lemma register_all_wf regs : forall m : std_map T, map_wf m -> map_wf (register_all regs m).
Proof.
  induction regs as [|[u h] regs IH]; intros m Hm; [done|]. apply IH. by apply map_assign_wf.
Qed.

(** An entry of the table comes from a registration, and every registration has an entry. *)
Lemma register_all_in regs : forall (m : std_map T) k h,
  map_wf m -> map_find k (register_all regs m) = Some h ->
  (exists u, In (u, h) regs /\ k = expand_stars u) \/ map_find k m = Some h.
Proof.
  induction regs as [|[u h'] regs IH]; intros m k h Hm; [by right|]. cbn [register_all].
  intros Hf. destruct (IH _ _ _ (map_assign_wf _ _ _ Hm) Hf) as [(u' & Hin & ->)|Hin].
  - left. exists u'. split; [by right|done].
  - unfold RegisterRequestHandler in Hin. rewrite map_find_assign in Hin by done.
    case_decide; [|by right]. injection Hin as <-. left. exists u. split; [by left|done].
Qed.

Lemma register_all_covers regs : forall (m : std_map T) k,
  map_wf m -> is_Some (map_find k m) \/ (exists u h, In (u, h) regs /\ k = expand_stars u) ->
  is_Some (map_find k (register_all regs m)).
Proof.
  induction regs as [|[u h'] regs IH]; intros m k Hm Hk; cbn [register_all].
  - by destruct Hk as [|(? & ? & [] & _)].
  - apply IH; [by apply map_assign_wf|]. unfold RegisterRequestHandler.
    rewrite map_find_assign by done.
    destruct Hk as [Hk|(u' & h & [[= <- <-]|Hin] & ->)].
    + left. by case_decide.
    + left. by rewrite decide_True.
    + right. eauto.
Qed.

Lemma find_handler_spec s (m : std_map T) :
  map_wf m -> Forall (fun e => exists b, regex_match e.1 s = Some b) m ->
  match find_handler s m with
  | Ok None => Forall (fun e => regex_match e.1 s = Some false) m
  | Ok (Some (k, h)) => In (k, h) m /\ regex_match k s = Some true /\
      Forall (fun e => regex_match e.1 s = Some true -> k = e.1 \/ bytes_lt k e.1) m
  | _ => False
  end.
Proof.
  induction 1 as [|[k h] m Hwf IH Hlt]; cbn [find_handler]; intros Hall; [constructor|].
  inversion Hall as [|? ? [b Hb] Hall']; subst. cbn in Hb. rewrite Hb. destruct b.
  - split; [by left|]. split; [done|]. constructor; [by left|].
    apply (Forall_impl _ _ _ Hlt). intros e He _. by right.
  - specialize (IH Hall'). destruct (find_handler s m) as [[[k' h']|]| |]; try done.
    + destruct IH as (Hin & Hm & Hmin). split; [by right|]. split; [done|].
      constructor; [|done]. cbn. intros E. congruence.
    + by constructor.
Qed.

(** The table a list of registrations builds, against a URI: which entries it has, and what
    their patterns match. *)
Lemma table_of_registrations (regs : list (bytes * T)) s :
  Forall (fun r => plain_uri r.1) regs ->
  let m := register_all regs [] in
  map_wf m /\
  (forall k h, In (k, h) m -> exists u, In (u, h) regs /\ k = expand_stars u /\
     (regex_match k s = Some true <-> glob u s)) /\
  (forall u h, In (u, h) regs -> exists h', In (expand_stars u, h') m /\
     (regex_match (expand_stars u) s = Some true <-> glob u s)) /\
  Forall (fun e => exists b, regex_match e.1 s = Some b) m.
Proof.
  intros Hplain m. assert (Hwf : map_wf m) by (by apply register_all_wf, map_wf_nil).
  assert (Hg : forall u h, In (u, h) regs -> exists b, regex_match (expand_stars u) s = Some b /\
            (regex_match (expand_stars u) s = Some true <-> glob u s)).
  { intros u h Hin. rewrite Forall_forall in Hplain.
    destruct (regex_match_glob u s) as (b & E & Hb); [apply (Hplain (u, h)); by apply list_elem_of_In|].
    exists b. split; [done|]. rewrite E, <- Hb. split; [by intros [= ->]|by intros ->]. }
  assert (Hfrom : forall k h, In (k, h) m -> exists u, In (u, h) regs /\ k = expand_stars u).
  { intros k h Hin. apply map_find_in in Hin; [|done].
    apply register_all_in in Hin; [|by apply map_wf_nil]. by destruct Hin. }
  split; [done|]. split; [|split].
  - intros k h Hin. destruct (Hfrom k h Hin) as (u & Hu & ->). exists u.
    destruct (Hg u h Hu) as (b & _ & Hb). done.
  - intros u h Hin. destruct (Hg u h Hin) as (b & _ & Hb).
    destruct (register_all_covers regs [] (expand_stars u)) as [h' Hh']; [apply map_wf_nil|right; eauto|].
    exists h'. split; [by apply map_find_in|done].
  - rewrite Forall_forall. intros [k h] Hin%list_elem_of_In. destruct (Hfrom k h Hin) as (u & Hu & ->).
    destruct (Hg u h Hu) as (b & E & _). by exists b.
Qed.

(** The loop over the table, for a URI as the regular expressions see it. *)
Lemma find_registered (regs : list (bytes * T)) uri :
  Forall (fun r => plain_uri r.1) regs ->
  exists found, find_handler uri (register_all regs []) = Ok found /\
    match found with
    | None => forall u h, In (u, h) regs -> ~ glob u uri
    | Some (k, h) => exists u, In (u, h) regs /\ k = expand_stars u /\ glob u uri /\
        forall u' h', In (u', h') regs -> glob u' uri ->
          k = expand_stars u' \/ bytes_lt k (expand_stars u')
    end.
Proof.
  intros Hplain.
  set (m := register_all regs []).
  destruct (table_of_registrations regs uri Hplain) as (Hwf & Hfrom & Hto & Hall).
  pose proof (find_handler_spec uri m Hwf Hall) as Hspec.
  destruct (find_handler uri m) as [[[k h]|]|f|]; [..|done|done]; eexists; (split; [reflexivity|]).
  - destruct Hspec as (Hin & Hm & Hmin). destruct (Hfrom k h Hin) as (u & Hu & -> & Hg).
    exists u. split; [done|]. split; [done|]. split; [by apply Hg|].
    intros u' h' Hu' Hg'. destruct (Hto u' h' Hu') as (h2 & Hin2 & Hg2).
    rewrite Forall_forall in Hmin. apply (Hmin (expand_stars u', h2)); [by apply list_elem_of_In|].
    by apply Hg2.
  - intros u h Hu Hg. destruct (Hto u h Hu) as (h2 & Hin2 & Hg2).
    rewrite Forall_forall in Hspec. apply Hg2 in Hg.
    specialize (Hspec (expand_stars u, h2) (proj2 (list_elem_of_In _ _) Hin2)). cbn in Hspec. congruence.
Qed.

(** Claim C24. A registered URI works as a glob: [FindRequestHandler] finds nothing exactly when
    the glob of no registered URI matches the request's URI, and otherwise the handler of
    the matching URI whose pattern comes first in the order of the map, that is, in the
    lexicographic order of the patterns and not in the order of registration or of
    specificity.  A dot in a registered URI matches any character. *)
Theorem registered_uri_is_glob (regs : list (bytes * T)) uri :
  no_nul uri -> Forall (fun r => plain_uri r.1) regs ->
  exists found, FindRequestHandler uri (register_all regs []) = Ok found /\
    match found with
    | None => forall u h, In (u, h) regs -> ~ glob u uri
    | Some (k, h) => exists u, In (u, h) regs /\ k = expand_stars u /\ glob u uri /\
        forall u' h', In (u', h') regs -> glob u' uri ->
          k = expand_stars u' \/ bytes_lt k (expand_stars u')
    end.
Proof.
  intros Hn Hplain. unfold FindRequestHandler. rewrite until_nul_id by done.
  by apply find_registered.
Qed.
End router.

(** ** A matcher to run the examples with *)

Module Matcher.

(** Patterns of ordinary characters, [.] and [.*], read back into atoms. *)
Fixpoint parse (p : bytes) : list atom :=
  match p with
  | [] => []
  | c :: r =>
      if decide (c = "."%byte) then
        match r with
        | d :: r' => if decide (d = "*"%byte) then AnyStar :: parse r' else Any :: parse r
        | [] => [Any]
        end
      else Char c :: parse r
  end.

Fixpoint matches (r : list atom) : bytes -> bool :=
  match r with
  | [] => fun s => bool_decide (s = [])
  | Char c :: r => fun s => match s with d :: s => bool_decide (c = d) && matches r s | [] => false end
  | Any :: r => fun s => match s with d :: s => negb (line_terminator d) && matches r s | [] => false end
  | AnyStar :: r =>
      fix star s := matches r s ||
        match s with d :: s => negb (line_terminator d) && star s | [] => false end
  end.

Lemma parse_print r : Forall ordinary r -> parse (concat (map print_atom r)) = r.
Proof.
  induction 1 as [|a r Ha Hr IH]; [done|]. cbn [map concat].
  destruct a as [c| |]; cbn [print_atom app] in *.
  - cbn [parse]. rewrite decide_False by (intros ->; done). by rewrite IH.
  - change (str "." ++ concat (map print_atom r)) with ("."%byte :: concat (map print_atom r)).
    cbn [parse]. rewrite decide_True by done.
    assert (Hh : head (concat (map print_atom r)) <> Some "*"%byte).
    { destruct Hr as [|[c| |] r Hc _]; [done|..]; cbn; try done. intros [= ->]. done. }
    destruct (concat (map print_atom r)) as [|d p]; cbn in Hh.
    + by rewrite <- IH.
    + rewrite decide_False by congruence. by rewrite IH.
  - change (str ".*" ++ concat (map print_atom r)) with ("."%byte :: "*"%byte :: concat (map print_atom r)).
    cbn [parse]. rewrite !decide_True by done. by rewrite IH.
Qed.

Lemma matches_spec r : forall s, matches r s = true <-> atoms_match r s.
Proof.
  induction r as [|[c| |] r IH]; intros s.
  - cbn. rewrite bool_decide_eq_true. split; [intros ->; constructor|by inversion 1].
  - destruct s as [|d s]; cbn; [split; [done|inversion 1]|].
    rewrite andb_true_iff, bool_decide_eq_true, IH.
    split; [intros [-> ?]; by constructor|by inversion 1].
  - destruct s as [|d s]; cbn; [split; [done|inversion 1]|].
    rewrite andb_true_iff, negb_true_iff, IH.
    split; [intros [? ?]; by constructor|by inversion 1].
  - induction s as [|d s IHs]; cbn [matches]; rewrite orb_true_iff, IH.
    + split; [intros [?|?]; [by constructor|done]|]. inversion 1; by left.
    + rewrite andb_true_iff, negb_true_iff. fold (matches (AnyStar :: r) s). split.
      * intros [?|[? ?]]; [by apply match_star_end|apply match_star; [done|by apply IHs]].
      * inversion 1; subst; [by left|]. right. split; [done|]. by apply IHs.
Qed.

Program Definition matcher : Regex :=
  {| regex_match p s := Some (matches (parse p) s) |}.
Next Obligation.
  intros r s Hr. exists (matches r s). rewrite parse_print by done. split; [done|apply matches_spec].
Qed.
End Matcher.

Section witnesses.
#[local] Existing Instance Matcher.matcher.

(** The pattern with a star comes before the more specific one, whatever the order of
    registration. *)
Example star_shadows :
  FindRequestHandler (str "/api/users")
    (register_all [(str "/api/users", 1); (str "/api/*", 2); (str "/index.html", 3)] []) =
    Ok (Some (str "/api/.*", 2)) /\
  FindRequestHandler (str "/indexXhtml")
    (register_all [(str "/api/users", 1); (str "/api/*", 2); (str "/index.html", 3)] []) =
    Ok (Some (str "/index.html", 3)).
Proof. vm_compute. done. Qed.

Lemma registered_uri_is_glob_witness :
  exists found,
    FindRequestHandler (str "/a/b") (register_all [(str "/a/*", 1); (str "/c", 2)] []) = Ok found /\
    match found with
    | None => forall u h, In (u, h) [(str "/a/*", 1); (str "/c", 2)] -> ~ glob u (str "/a/b")
    | Some (k, h) => exists u, In (u, h) [(str "/a/*", 1); (str "/c", 2)] /\
        k = expand_stars u /\ glob u (str "/a/b") /\
        forall u' h', In (u', h') [(str "/a/*", 1); (str "/c", 2)] -> glob u' (str "/a/b") ->
          k = expand_stars u' \/ bytes_lt k (expand_stars u')
    end.
Proof.
  apply (registered_uri_is_glob [(str "/a/*", 1); (str "/c", 2)] (str "/a/b")).
  - apply (bool_decide_unpack _). vm_compute. exact Logic.I.
  - apply (bool_decide_unpack _). vm_compute. exact Logic.I.
Defined.
End witnesses.
