(* ===== verification/Server.v ===== *)
(** * The server: src/hpl_server.h, src/hpl_server.cc and src/hpl_utils.cc

    A [Connection] object is known by the number it was created under: the address
    that the code registers with epoll and gets back in an event.  The list
    [pending_conns_] owns the objects; the event of one that is no longer owned is
    a use of freed memory. *)

From S2P Require Import Prelude CString StdMap Method Version HeaderParser State Posix RequestHandler Connection WebsocketConnection Response Router.
Import HttpHeaderParser.

(** ** Constants of the C library *)

Definition EPOLLIN : Z := 0x001.
Definition EPOLLERR : Z := 0x008.
Definition EPOLLHUP : Z := 0x010.
Definition EPOLLRDHUP : Z := 0x2000.
Definition EPOLLET : Z := Z.shiftl 1 31.
Definition O_NONBLOCK : Z := 0x800.

Section utils.
Context {W : Type} `{!Posix W}.

Definition setnonblocking (fd : Z) : M W Z :=
  flags ← call (SysGetFl fd);
  match flags with
  | inl _ => mret (-1)
  | inr flags =>
      if negb (Z.land flags O_NONBLOCK =? 0) then mret 0 else
      r ← call (SysSetFl fd (Z.lor flags O_NONBLOCK));
      match r with inl _ => mret (-1) | inr _ => mret 0 end
  end.
End utils.

Section server.
Context {W : Type} `{!Posix W} {config : Config} `{!Sha1} `{!Fmt} `{!Regex}.

Record server := Server {
  poll_fd : Z;
  server_conn_ : option (nat * connection W);
  pending_conns_ : list (nat * connection W);
  request_handlers : std_map (request_handler W);
  next_ptr : nat    (* the address the next [new Connection] returns *)
}.

(** A constructed [Server]. *)
Definition new_server : server := Server (-1) None [] [] 0.

Definition set_poll_fd fd '(Server _ sc pc rh n) := Server fd sc pc rh n.
Definition set_server_conn sc '(Server fd _ pc rh n) := Server fd sc pc rh n.
Definition set_pending pc '(Server fd sc _ rh n) := Server fd sc pc rh n.
Definition set_request_handlers rh '(Server fd sc pc _ n) := Server fd sc pc rh n.

(** [new Connection(this, fd)]. *)
Definition new_connection (fd : Z) '(Server pfd sc pc rh n) : (nat * connection W) * server :=
  ((n, make fd), Server pfd sc pc rh (S n)).

(** Access through a [Connection] pointer. *)
Fixpoint find_conn (p : nat) (l : list (nat * connection W)) : option (connection W) :=
  match l with
  | [] => None
  | (q, c) :: l => if (p =? q)%nat then Some c else find_conn p l
  end.

Definition deref (p : nat) (s : server) : outcome (connection W) :=
  of_option UseAfterFree (find_conn p (pending_conns_ s)).

Definition update_conn (p : nat) (c : connection W) (s : server) : server :=
  set_pending (map (fun '(q, d) => (q, if (p =? q)%nat then c else d)) (pending_conns_ s)) s.

(** [pending_conns_.remove_if(...)]: the object is destroyed. *)
Definition remove_conn (p : nat) (s : server) : server :=
  set_pending (filter (fun '(q, _) => p <> q) (pending_conns_ s)) s.

(** ** [Init] *)

Definition or_fail {A B : Type} (m : M W (errno + A)) (err : M W B) (k : A -> M W B) : M W B :=
  r ← m; match r with inl _ => err | inr a => k a end.

(** An address is passed as the string given, [None] for [INADDR_ANY]; [htons] keeps 16 bits of
    the port. *)
Definition Init (addr : option bytes) (port backlog : Z) (s : server) : M W (Z * server) :=
  _ ← call SysIgnoreSigpipe;
  or_fail (call SysEpollCreate) (mret (-1, set_poll_fd (-1) s)) (fun pfd =>
  let s := set_poll_fd pfd s in
  or_fail (call SysSocket) (mret (-2, s)) (fun server_fd =>
  or_fail (call (SysSetsockopt server_fd SO_REUSEADDR)) (mret (-3, s)) (fun _ =>
  or_fail (call (SysSetsockopt server_fd SO_REUSEPORT)) (mret (-3, s)) (fun _ =>
  or_fail (call (SysBind server_fd addr (wrap 16 port))) (mret (-3, s)) (fun _ =>
  or_fail (call (SysListen server_fd backlog)) (mret (-4, s)) (fun _ =>
  let '((p, c), s) := new_connection server_fd s in
  let s := set_server_conn (Some (p, c)) s in
  or_fail (call (SysEpollAdd pfd server_fd EPOLLIN p)) (mret (-4, s)) (fun _ =>
  mret (0, s)))))))).

(** ** [CloseConn] *)

Definition CloseConn (p : nat) (s : server) : M W (Z * server) :=
  c ← lift (deref p s);
  r ← call (SysEpollDel (poll_fd s) (fd_ c));
  match r with
  | inl _ => mret (-1, s)
  | inr _ =>
      _ ← (if fd_ c =? -1 then mret tt else (_ ← call (SysClose (fd_ c)); mret tt));
      mret (0, remove_conn p s)
  end.

(** ** [AcceptNewConnection] *)

(** The listening connection is looked at through a [unique_ptr].  The result is the new
    object, which the caller owns. *)
Definition AcceptNewConnection (s : server) : M W (option (nat * connection W) * server) :=
  '(_, sc) ← lift (of_option NullDeref (server_conn_ s));
  client_fd ← call (SysAccept (fd_ sc));
  match client_fd with
  | inl _ => mret (None, s)
  | inr client_fd =>
      r ← call (SysSetsockopt client_fd SO_KEEPALIVE);
      match r with
      | inl _ => mret (None, s)
      | inr _ =>
          _ ← setnonblocking client_fd;
          let '(pc, s) := new_connection client_fd s in
          mret (Some pc, s)
      end
  end.

(** The connection is registered, then owned; a registration that fails ends [Poll]. *)
Definition accept_event (s : server) : M W (option Z * server) :=
  '(new_conn, s) ← AcceptNewConnection s;
  match new_conn with
  | None => mret (None, s)
  | Some (p, c) =>
      let ep_flags := match SMALL_MEMORY with
                      | Some _ => EPOLLIN
                      | None => Z.lor EPOLLIN EPOLLET
                      end in
      r ← call (SysEpollAdd (poll_fd s) (fd_ c) ep_flags p);
      match r with
      | inl _ => mret (Some (-4), s)
      | inr _ => mret (None, set_pending (pending_conns_ s ++ [(p, c)]) s)
      end
  end.

(** ** Requests *)

(** Running a hook on the WebSocket part of a connection. *)
Definition run_hook (hook : option (WsHook W)) (default : Z) (fd : Z) (uri : bytes) (ws : ws_connection W)
  : M W (Z * ws_connection W) :=
  match hook with
  | None => mret (default, ws)
  | Some h =>
      '(n, st) ← run_with (ws_st ws) (h fd uri);
      mret (n, WsConn st (on_data_ ws) (will_close_hook_ ws))
  end.

(** Storing the WebSocket part back into the connection [c] at [p]. *)
Definition update_ws (p : nat) (ws : ws_connection W) (c : connection W) (s : server) : server :=
  update_conn p (set_ws_conn (Some ws) c) s.

Definition close (p : nat) (s : server) : M W server :=
  '(_, s) ← CloseConn p s; mret s.

(** The upgrade.  The log line before the first hook already calls methods on what
    [UpgradeToWebsocket] returned. *)
Definition upgrade (p : nat) (c : connection W) (h : request_handler W) (uri : bytes) (s : server)
  : M W server :=
  '(ws, c) ← UpgradeToWebsocket p (ws_message_handler h) (ws_will_close_hook h) c;
  ws ← lift (of_option NullDeref ws);
  '(accept, st) ← run_with (ws_st ws) GetWsAccept;
  let ws := WsConn st (on_data_ ws) (will_close_hook_ ws) in
  '(n, ws) ← run_hook (ws_connect_hook h) 0 (fd_ c) uri ws;
  if n =? -1 then close p (update_ws p ws c s) else
  rsp ← lift (MakeResponse 101 (version_ (parser c))
                [(str "Connection", str "Upgrade"); (str "Sec-WebSocket-Accept", accept);
                 (str "Upgrade", str "websocket")] []);
  _ ← Write (fd_ c) rsp;
  '(n, ws) ← run_hook (ws_ready_hook h) n (fd_ c) uri ws;
  let s := update_ws p ws c s in
  if n =? -1 then close p s else mret s.

(** The plain handler of the method gets the body, which it may take. *)
Definition run_handler (p : nat) (c : connection W) (h : request_handler W) (uri : bytes)
  (is_final : bool) (s : server) : M W server :=
  handler ← lift (handler_for h (method_ (parser c)));
  match handler with
  | None => close p s
  | Some f =>
      '(handler_ret, pb) ← run_with (partial_body_ c) (f p (parser c) (fd_ c) uri is_final);
      let s := update_conn p (set_partial_body pb c) s in
      if handler_ret =? -1 then close p s else mret s
  end.

Definition handle_request (p : nat) (c : connection W) (is_final : bool) (s : server) : M W server :=
  let uri := uri_ (parser c) in
  entry ← lift (FindRequestHandler uri (request_handlers s));
  match entry with
  | Some (_, h) =>
      if ShouldUpgradeWebsocket c then upgrade p c h uri s
      else run_handler p c h uri is_final s
  | None =>
      rsp ← lift (MakeResponse 404 (version_ (parser c)) [] []);
      _ ← Write (fd_ c) rsp;
      close p s
  end.

(** ** Events *)

(** [fuel] bounds the reads of one call of [ProcessDataIn]. *)
Definition http_event (fuel : nat) (p : nat) (c : connection W) (s : server) : M W server :=
  '(ret, c) ← ProcessDataIn fuel c;
  let s := update_conn p c s in
  if ret =? -2 then close p s
  else if ret =? -1 then mret s
  else if (ret =? 0) || (ret =? 1) then handle_request p c (ret =? 1) s
  else mret s.

Definition ws_event (p : nat) (c : connection W) (s : server) : M W server :=
  '(ret, c) ← WsRead c;
  let s := update_conn p c s in
  if ret =? -1 then
    ws ← lift (of_option NullDeref (ws_conn_ c));
    '(_, ws) ← run_hook (will_close_hook_ ws) 0 (fd_ c) [] ws;
    close p (update_ws p ws c s)
  else mret s.

(** One event: [Some ret] when [Poll] returns from inside the loop. *)
Definition handle_event (fuel : nat) (s : server) (events : Z) (p : nat) : M W (option Z * server) :=
  if bool_decide (Some p = fst <$> server_conn_ s) then accept_event s else
  c ← lift (deref p s);
  if negb (Z.land events EPOLLIN =? 0) then
    s ← match ws_conn_ c with
        | Some _ => ws_event p c s
        | None => http_event fuel p c s
        end;
    mret (None, s)
  else mret (None, s).

Fixpoint handle_events (fuel : nat) (s : server) (l : list (Z * nat)) : M W (option Z * server) :=
  match l with
  | [] => mret (None, s)
  | (events, p) :: l =>
      '(r, s) ← handle_event fuel s events p;
      match r with
      | Some ret => mret (Some ret, s)
      | None => handle_events fuel s l
      end
  end.

(** The pings before the wait. *)
Fixpoint ping_all (l : list (nat * connection W)) : M W (list (nat * connection W)) :=
  match l with
  | [] => mret []
  | (p, c) :: l =>
      c ← match ws_conn_ c with
          | None => mret c
          | Some ws =>
              '(_, st) ← run_with (ws_st ws) (ServerPing (fd_ c));
              mret (set_ws_conn (Some (WsConn st (on_data_ ws) (will_close_hook_ ws))) c)
          end;
      l ← ping_all l;
      mret ((p, c) :: l)
  end.

Definition max_events : Z := 10.

Definition Poll (fuel : nat) (timeout : Z) (s : server) : M W (Z * server) :=
  l ← ping_all (pending_conns_ s);
  let s := set_pending l s in
  r ← call (SysEpollWait (poll_fd s) max_events timeout);
  match r with
  | inl _ => mret (-1, s)
  | inr events =>
      '(ret, s) ← handle_events fuel s events;
      match ret with
      | Some ret => mret (ret, s)
      | None => mret (Z.of_nat (length events), s)
      end
  end.

Definition Register (uri : bytes) (h : request_handler W) (s : server) : server :=
  set_request_handlers (RegisterRequestHandler uri h (request_handlers s)) s.
End server.

Arguments server : clear implicits.
