(* ===== verification/ServerSpec.v ===== *)
(** * What the code of the server may do to memory and to the poll

    [safely m Q] says that a computation never uses freed memory, that what it
    returns satisfies [Q], that it adds nothing to an epoll set ([ext]), and that
    it keeps the invariant of the application ([good]); the rules for it follow the
    structure of the code, and the lemmas go through the code from the parser to
    the handlers of requests.  The event loop itself is in EventLoop. *)

From S2P Require Import Prelude CString StdMap Method Version HeaderParser HeaderParserSpec State Posix RequestHandler Connection ConnectionSpec Base64 WsFrame WebsocketConnection Response Router Server.
Import HttpHeaderParser.

(** ** Computations that do not use freed memory *)

Definition safe_outcome {A} (o : outcome A) (Q : A -> Prop) : Prop :=
  match o with
  | Ok a => Q a
  | Fault f => f <> UseAfterFree
  | OutOfFuel => True
  end.

Lemma safe_bind {A B} (m : outcome A) (k : A -> outcome B) (Q : A -> Prop) R :
  safe_outcome m Q -> (forall a, Q a -> safe_outcome (k a) R) -> safe_outcome (m ≫= k) R.
Proof. destruct m; cbn; auto. Qed.

Lemma safe_of_option {A} f (o : option A) (Q : A -> Prop) :
  (forall a, o = Some a -> Q a) -> (o = None -> f <> UseAfterFree) -> safe_outcome (of_option f o) Q.
Proof. destruct o; cbn; auto. Qed.

(** A state that has a kernel in it: what holds of it, and how it may evolve. *)
Class World (S : Type) : Type := {
  good : S -> Prop;
  ext : S -> S -> Prop;
  ext_preorder :: PreOrder ext
}.
#[export] Hint Mode World ! : typeclass_instances.

#[export] Program Instance world_snd {T S} `{!World S} : World (T * S) :=
  {| good x := good x.2; ext x y := ext x.2 y.2 |}.
Next Obligation.
  intros T S ?. split; [intros x; reflexivity|]. intros x y z. apply (transitivity (R := ext)).
Qed.

Definition safely {S A} `{!World S} (m : M S A) (Q : A -> Prop) : Prop :=
  forall s, good s -> safe_outcome (m s) (fun r => Q r.1 /\ ext s r.2 /\ good r.2).

Section safely.
Context {S : Type} `{!World S}.

Lemma safely_ret {A} (a : A) (Q : A -> Prop) : Q a -> safely (mret a : M S A) Q.
Proof. intros Ha s Hs. by split. Qed.

Lemma safely_bind {A B} (m : M S A) (k : A -> M S B) (Q : A -> Prop) R :
  safely m Q -> (forall a, Q a -> safely (k a) R) -> safely (m ≫= k) R.
Proof.
  intros Hm Hk s Hg. specialize (Hm s Hg). unfold mbind, M_bind.
  destruct (m s) as [[a s']| |]; cbn in *; [|done..]. destruct Hm as (Ha & Hs & Hg').
  specialize (Hk a Ha s' Hg').
  destruct (k a s') as [[b s'']| |]; cbn in *; [|done..]. destruct Hk as (Hb & Hs' & Hg''). split; [done|].
  split; [by transitivity s'|done].
Qed.

Lemma safely_weaken {A} (m : M S A) (Q R : A -> Prop) :
  safely m Q -> (forall a, Q a -> R a) -> safely m R.
Proof. intros Hm HQ s Hg. specialize (Hm s Hg). destruct (m s); cbn in *; naive_solver. Qed.

Lemma safely_lift {A} (o : outcome A) (Q : A -> Prop) : safe_outcome o Q -> safely (lift o : M S A) Q.
Proof. intros Ho s Hg. by destruct o. Qed.

Lemma safely_get (Q : S -> Prop) : (forall s, Q s) -> safely get Q.
Proof. intros Hq s Hg. by split; [apply Hq|]. Qed.

Lemma safely_prim {A} (f : S -> A * S) (Q : A -> Prop) :
  (forall s, good s -> Q (f s).1 /\ ext s (f s).2 /\ good (f s).2) -> safely (prim f) Q.
Proof. intros Hf s Hg. by apply Hf. Qed.

Lemma safely_on_snd {T A} (m : M S A) (Q : A -> Prop) : safely m Q -> safely (on_snd m : M (T * S) A) Q.
Proof. intros Hm [t s] Hg. specialize (Hm s Hg). cbn. by destruct (m s) as [[a s']| |]. Qed.

Lemma safely_run_with {T A} (t : T) (m : M (T * S) A) (Q : A -> Prop) :
  safely m Q -> safely (run_with t m : M S (A * T)) (fun r => Q r.1).
Proof. intros Hm s Hg. specialize (Hm (t, s) Hg). unfold run_with. by destruct (m (t, s)) as [[a [t' s']]| |]. Qed.
End safely.

(** For a kernel: the application's invariant holds, and the calls made include no
    registration. *)
Definition adds (x : event) : bool :=
  match ev_call x with SysEpollAdd _ _ _ _ => true | _ => false end.

#[export] Program Instance world_trace {W} `{!Posix W} `{!PosixLaws W} `{!AppInvariant W} : World W | 10 :=
  {| good := app_inv; ext w w' := exists t, after w t w' /\ Forall (fun x => adds x = false) t |}.
Next Obligation.
  intros W ? ? ?. split.
  - intros w. exists []. split; [apply after_refl|done].
  - intros w1 w2 w3 (t & Ht & Ha) (t' & Ht' & Ha'). exists (t ++ t').
    split; [by eapply after_trans|by apply Forall_app].
Qed.

Lemma safely_call {W} `{!Posix W} `{!PosixLaws W} `{!AppInvariant W} {A : Set} (e : sysE A) (Q : A -> Prop) :
  (forall a, adds (Event e a) = false) -> (forall a, Q a) -> safely (call e) Q.
Proof.
  intros He Hq. apply safely_prim. intros w Hg. split; [apply Hq|]. split; [|by apply app_inv_sys].
  destruct (call_after e w (sys e w).1 (sys e w).2) as [Ha _].
  { unfold call, prim. by rewrite <- surjective_pairing. }
  exists [Event e (sys e w).1]. by repeat constructor.
Qed.

(** ** The parser *)

Lemma load32_safe s off : safe_outcome (load32 s off) (fun _ => True).
Proof.
  unfold load32, peek.
  repeat (eapply safe_bind; [by apply (safe_of_option _ _ (fun _ => True))|intros ? _]). done.
Qed.

Lemma c_str_at_safe s off : safe_outcome (c_str_at s off) (fun _ => True).
Proof. unfold c_str_at. by case_match. Qed.

Lemma sv_of_cptr_safe s off : safe_outcome (sv_of_cptr s off) (fun _ => True).
Proof. eapply safe_bind; [apply c_str_at_safe|done]. Qed.

Lemma ParseFirstLine_safe l : safe_outcome (ParseFirstLine l) (fun _ => True).
Proof.
  unfold ParseFirstLine, ParseHttpMethod, ParseHttpVersion, HttpVersion_digits, sv_load32.
  eapply safe_bind with (Q := fun _ => True).
  { eapply safe_bind; [apply load32_safe|intros v _]. by repeat case_match. }
  intros [m pos] _. case_decide; [done|].
  eapply safe_bind with (Q := fun _ => True); [unfold substr; by case_match|intros uri _].
  eapply safe_bind; [apply sv_of_cptr_safe|intros view _].
  eapply safe_bind with (Q := fun _ => True); [|by intros []].
  eapply safe_bind; [apply load32_safe|intros v _]. case_match.
  - eapply safe_bind; [apply sv_of_cptr_safe|intros rest _].
    eapply safe_bind; [apply load32_safe|intros d _]. by repeat case_match.
  - case_match; [|done]. eapply safe_bind; [apply sv_of_cptr_safe|done].
Qed.

Lemma upgrade_loop_safe fuel l : forall i f, safe_outcome (upgrade_loop fuel l i f) (fun _ => True).
Proof.
  induction fuel as [|fuel IH]; intros i f; [done|]. cbn [upgrade_loop]. case_match; [done|].
  eapply safe_bind; [apply c_str_at_safe|intros v _]. repeat case_match; done || apply IH.
Qed.

Lemma connection_loop_safe fuel l : forall i f, safe_outcome (connection_loop fuel l i f) (fun _ => True).
Proof.
  induction fuel as [|fuel IH]; intros i f; [done|]. cbn [connection_loop]. case_match; [done|].
  eapply safe_bind; [apply c_str_at_safe|intros v _]. repeat case_match; apply IH.
Qed.

Lemma push_header_safe p l : safe_outcome (push_header p l) (fun _ => True).
Proof.
  unfold push_header. eapply safe_bind; [apply c_str_at_safe|intros key _].
  repeat case_match; try done; (eapply safe_bind with (Q := fun _ => True); [|done]).
  - unfold push_content_length. eapply safe_bind; [apply c_str_at_safe|intros t _].
    eapply safe_bind with (Q := fun _ => True); [|done]. unfold atoi. by repeat case_match.
  - apply upgrade_loop_safe.
  - apply connection_loop_safe.
Qed.

Lemma PushLine_safe p l : safe_outcome (PushLine p l) (fun _ => True).
Proof.
  unfold PushLine. eapply safe_bind with (Q := fun _ => True); [|done].
  destruct (state_ p); try done.
  - eapply safe_bind; [apply ParseFirstLine_safe|by intros [[m u] v] _].
  - case_decide; [done|apply push_header_safe].
  - by case_match.
Qed.

(** ** Connections *)

Section connections.
Context {W : Type} `{!Posix W} `{!PosixLaws W} `{!AppInvariant W} {config : Config} `{!Sha1} `{!Fmt} `{!Regex}.
Implicit Types (c : connection W).

Lemma Read_safe c : safely (Read c) (fun r => same_frame c r.2).
Proof.
  unfold Read. eapply safely_bind; [by apply (safely_call _ (fun _ => True))|intros r _].
  destruct r as [[]|d]; try by apply safely_ret.
  eapply safely_bind with (Q := fun _ => True).
  { apply safely_lift. unfold guard_or. by case_match. }
  intros _ _. case_decide; apply safely_ret; [done|apply same_frame_set_buffer].
Qed.

Lemma drain_safe fuel : forall c, safe_outcome (drain fuel c) (fun r => same_frame c r.2).
Proof.
  induction fuel as [|fuel IH]; intros c; [done|]. rewrite drain_step.
  pose proof (next_piece_spec c) as Hn. destruct (next_piece c) as [[l c1]|]; [|done].
  destruct Hn as (_ & _ & _ & Hf).
  eapply safe_bind; [apply PushLine_safe|intros [p st] _].
  assert (Hf' : same_frame c (set_parser p c1)).
  { eapply same_frame_trans; [done|apply same_frame_set_parser]. }
  specialize (IH (set_parser p c1)).
  destruct st; try done; destruct (drain fuel _); cbn in *; try done; by eapply same_frame_trans.
Qed.

Lemma ProcessDataIn_safe fuel : forall c, safely (ProcessDataIn fuel c) (fun r => same_frame c r.2).
Proof.
  induction fuel as [|fuel IH]; intros c; [done|]. cbn [ProcessDataIn].
  eapply safely_bind; [apply Read_safe|intros [ret c1] Hf; cbn in Hf].
  do 2 (case_match; [by apply safely_ret|]).
  eapply safely_bind; [apply safely_lift, drain_safe|intros [r c2] Hf2; cbn in Hf2].
  pose proof (same_frame_trans _ _ _ Hf Hf2) as Hf3.
  destruct r; [by apply safely_ret|].
  eapply safely_weaken; [apply IH|]. intros a Ha. by eapply same_frame_trans.
Qed.

Lemma Write_safe fd d : safely (Write fd d : M W Z) (fun _ => True).
Proof.
  unfold Write. case_match; [by apply safely_ret|].
  eapply safely_bind; [by apply (safely_call _ (fun _ => True))|intros r _].
  destruct r as [[]|]; by apply safely_ret.
Qed.

Lemma ws_modify_safe f : safely (ws_modify f : M (ws_state * W) unit) (fun _ => True).
Proof. apply safely_prim. intros [s w] Hg. split; [done|]. split; [by change (ext w w)|done]. Qed.

Lemma touch_safe : safely (touch : M (ws_state * W) unit) (fun _ => True).
Proof.
  unfold touch. destruct HPL_ENABLE_PING_PONG; [|by apply safely_ret].
  eapply safely_bind; [apply safely_on_snd; by apply (safely_call _ (fun _ => True))|].
  intros t _. apply ws_modify_safe.
Qed.

Lemma WsWrite_safe fd t d : safely (WsWrite fd t d : M (ws_state * W) Z) (fun _ => True).
Proof.
  unfold WsWrite. destruct (MakeWebsocketHeader _ _).
  do 2 (eapply safely_bind; [apply safely_on_snd, Write_safe|intros ? _]).
  eapply safely_bind; [apply touch_safe|intros ? _]. by apply safely_ret.
Qed.

Lemma ServerPing_safe fd : safely (ServerPing fd : M (ws_state * W) bool) (fun _ => True).
Proof.
  unfold ServerPing. destruct HPL_ENABLE_PING_PONG; [|by apply safely_ret].
  eapply safely_bind; [apply safely_on_snd; by apply (safely_call _ (fun _ => True))|intros now _].
  eapply safely_bind; [by apply (safely_get (fun _ => True))|intros [s w] _].
  case_match; [|by apply safely_ret].
  eapply safely_bind; [apply WsWrite_safe|intros ? _].
  eapply safely_bind; [apply ws_modify_safe|intros ? _]. by apply safely_ret.
Qed.

Lemma GetWsAccept_safe : safely (GetWsAccept : M (ws_state * W) bytes) (fun _ => True).
Proof.
  unfold GetWsAccept. eapply safely_bind; [by apply (safely_get (fun _ => True))|intros [s w] _].
  case_decide; [|by apply safely_ret].
  eapply safely_bind with (Q := fun _ => True).
  { apply safely_lift. by rewrite GetWsAcceptByKey_eq. }
  intros a _.
  eapply safely_bind; [apply ws_modify_safe|intros ? _]. by apply safely_ret.
Qed.

Lemma read_frame_safe buf : safe_outcome (read_frame buf) (fun _ => True).
Proof.
  destruct buf as [|b0 [|b1 r]]; [done..|]. rewrite read_frame_spec. by case_match.
Qed.

(** *** Handlers

    User code is safe when it is, whatever it is called on. *)

Definition hook_safe (h : WsHook W) : Prop := forall fd uri, safely (h fd uri) (fun _ => True).
Definition on_data_safe (h : WsHandler W) : Prop := forall fd t d, safely (h fd t d) (fun _ => True).
Definition handler_safe (h : Handler W) : Prop :=
  forall this p fd uri final, safely (h this p fd uri final) (fun _ => True).

Definition ws_safe (ws : ws_connection W) : Prop :=
  from_option on_data_safe True (on_data_ ws) /\ from_option hook_safe True (will_close_hook_ ws).
Definition conn_safe c : Prop := from_option ws_safe True (ws_conn_ c).

Record entry_safe (h : request_handler W) : Prop := {
  http_handlers_safe : Forall (from_option handler_safe True) (http_handlers h);
  ws_connect_safe : from_option hook_safe True (ws_connect_hook h);
  ws_ready_safe : from_option hook_safe True (ws_ready_hook h);
  ws_will_close_safe : from_option hook_safe True (ws_will_close_hook h);
  ws_message_safe : from_option on_data_safe True (ws_message_handler h)
}.

Lemma conn_safe_frame c c' : same_frame c c' -> conn_safe c -> conn_safe c'.
Proof. intros [_ E] Hc. unfold conn_safe. by rewrite E. Qed.

Lemma conn_safe_set_ws ws c : ws_safe ws -> conn_safe (set_ws_conn (Some ws) c).
Proof. by destruct c. Qed.

Lemma run_hook_safe hook d fd uri ws :
  from_option hook_safe True hook -> ws_safe ws -> safely (run_hook hook d fd uri ws) (fun r => ws_safe r.2).
Proof.
  intros Hh Hws. destruct hook as [h|]; cbn [run_hook]; [|by apply safely_ret].
  eapply safely_bind with (Q := fun _ => True); [|by intros [n st] _; apply safely_ret].
  eapply safely_weaken; [apply safely_run_with, Hh|done].
Qed.

Lemma dispatch_safe fd on_data f :
  from_option on_data_safe True on_data -> safely (dispatch fd on_data f) (fun _ => True).
Proof.
  intros Hh. unfold dispatch. case_match; [by apply safely_ret|].
  case_match; [eapply safely_bind; [apply WsWrite_safe|intros _ _]|case_match; [|case_match]].
  1,2: eapply safely_bind; [apply ws_modify_safe|intros _ _]; by apply safely_ret.
  - eapply safely_bind; [by apply (safely_get (fun _ => True))|intros [s w] _].
    eapply safely_bind with (Q := fun _ => True).
    { destruct on_data; [apply Hh|by apply safely_ret]. }
    intros ret _. eapply safely_bind; [apply ws_modify_safe|intros _ _]; by apply safely_ret.
  - by apply safely_ret.
Qed.

Lemma WsRead_safe c :
  conn_safe c -> safely (WsRead c) (fun r => conn_safe r.2 /\ fd_ r.2 = fd_ c).
Proof.
  intros Hc. unfold WsRead. eapply safely_bind; [apply Read_safe|intros [ret c1] Hf; cbn in Hf].
  apply (conn_safe_frame _ _ Hf) in Hc. destruct Hf as [Hfd _]. case_match; [by apply safely_ret|].
  eapply safely_bind with (Q := ws_safe).
  { apply safely_lift, safe_of_option; [|done]. intros ws Hws. unfold conn_safe in Hc.
    replace (ws_conn_ c1) with (Some ws) in Hc by (rewrite <- Hws; by destruct c1). exact Hc. }
  intros ws Hws. eapply safely_bind with (Q := fun _ => True).
  - eapply safely_weaken; [apply safely_run_with|done].
    eapply safely_bind; [apply touch_safe|intros _ _].
    eapply safely_bind; [apply safely_lift, read_frame_safe|intros f _].
    eapply safely_bind; [apply ws_modify_safe|intros _ _]. apply dispatch_safe, Hws.
  - intros [n st] _. apply safely_ret. split; [apply conn_safe_set_ws, Hws|by destruct c1].
Qed.

Lemma UpgradeToWebsocket_safe this on_data hook c :
  from_option on_data_safe True on_data -> from_option hook_safe True hook -> conn_safe c ->
  safely (UpgradeToWebsocket this on_data hook c : M W _)
    (fun r => from_option ws_safe True r.1 /\ conn_safe r.2 /\ fd_ r.2 = fd_ c).
Proof.
  intros Hd Hh Hc. unfold UpgradeToWebsocket. unfold conn_safe in *.
  destruct (ws_conn_ c) as [ws|] eqn:E; [apply safely_ret; cbn; by rewrite E|].
  case_decide; [apply safely_ret; cbn; by rewrite E|].
  eapply safely_bind with (Q := ws_safe); [|intros ws Hws; apply safely_ret; by destruct c].
  unfold new_websocket. eapply safely_bind with (Q := fun _ => True).
  - case_match; [by apply (safely_call _ (fun _ => True))|by apply safely_ret].
  - intros t _. by apply safely_ret.
Qed.

Lemma MakeResponse_safe code v hs b : safe_outcome (MakeResponse code v hs b) (fun _ => True).
Proof.
  unfold MakeResponse, vector_at.
  repeat (eapply safe_bind; [by apply (safe_of_option _ _ (fun _ => True))|intros ? _]). done.
Qed.

Lemma find_handler_safe uri (m : std_map (request_handler W)) :
  Forall (fun kv => entry_safe kv.2) m ->
  safe_outcome (find_handler uri m) (fun r => from_option (fun kv => entry_safe kv.2) True r).
Proof.
  induction 1 as [|[k h] m Hk Hm IH]; [done|]. cbn [find_handler]. by repeat case_match.
Qed.

Lemma setnonblocking_safe fd : safely (setnonblocking fd : M W Z) (fun _ => True).
Proof.
  unfold setnonblocking. eapply safely_bind; [by apply (safely_call _ (fun _ => True))|intros r _].
  repeat case_match; try by apply safely_ret.
  eapply safely_bind; [by apply (safely_call _ (fun _ => True))|intros ? _].
  case_match; by apply safely_ret.
Qed.

(** A new connection gets the next pointer. *)
Lemma AcceptNewConnection_safe (s : server W) :
  safely (AcceptNewConnection s) (fun r =>
    match r.1 with
    | None => r.2 = s
    | Some (q, c) => q = next_ptr s /\ (exists fd, c = make fd) /\
        r.2 = Server (poll_fd s) (server_conn_ s) (pending_conns_ s) (request_handlers s) (S (next_ptr s))
    end).
Proof.
  unfold AcceptNewConnection. eapply safely_bind with (Q := fun _ => True).
  { apply safely_lift. by apply safe_of_option. }
  intros [q sc] _. eapply safely_bind; [by apply (safely_call _ (fun _ => True))|intros r _].
  destruct r as [|fd]; [by apply safely_ret|].
  eapply safely_bind; [by apply (safely_call _ (fun _ => True))|intros r _].
  destruct r; [by apply safely_ret|].
  eapply safely_bind; [apply setnonblocking_safe|intros _ _]. destruct s. apply safely_ret. cbn.
  split; [done|]. split; [by eexists|done].
Qed.
End connections.

(** ** The table of connections *)

Section table.
Context {W : Type}.
Implicit Types (c : connection W) (l : list (nat * connection W)) (s : server W).

Definition live (p : nat) s : Prop := is_Some (find_conn p (pending_conns_ s)).

Lemma find_conn_In p l c : find_conn p l = Some c -> In (p, c) l.
Proof.
  induction l as [|[q d] l IH]; cbn [find_conn]; [done|].
  case_match eqn:E; [apply Nat.eqb_eq in E as ->; intros [= ->]; by left|right; auto].
Qed.

Lemma find_conn_app p l l' :
  find_conn p (l ++ l') = match find_conn p l with Some c => Some c | None => find_conn p l' end.
Proof. induction l as [|[q d] l IH]; cbn [find_conn app]; [done|]. by destruct (p =? q)%nat. Qed.

Lemma pending_update p c s :
  pending_conns_ (update_conn p c s) =
  map (fun '(q, d) => (q, if (p =? q)%nat then c else d)) (pending_conns_ s).
Proof. by destruct s. Qed.

Lemma find_conn_update p q c s :
  find_conn q (pending_conns_ (update_conn p c s)) =
  if (q =? p)%nat then const c <$> find_conn q (pending_conns_ s) else find_conn q (pending_conns_ s).
Proof.
  rewrite pending_update. induction (pending_conns_ s) as [|[r d] l IH]; cbn [find_conn map].
  - by case_match.
  - destruct (Nat.eqb_spec q r) as [->|Hr]; [|exact IH]. rewrite Nat.eqb_sym. by case_match.
Qed.

Lemma live_update p q c s : live q (update_conn p c s) <-> live q s.
Proof. unfold live. rewrite find_conn_update. case_match; [apply fmap_is_Some|done]. Qed.

Lemma pending_remove p s :
  pending_conns_ (remove_conn p s) = filter (fun '(q, _) => p <> q) (pending_conns_ s).
Proof. by destruct s. Qed.

Lemma find_conn_remove p q s :
  find_conn q (pending_conns_ (remove_conn p s)) =
  if (q =? p)%nat then None else find_conn q (pending_conns_ s).
Proof.
  rewrite pending_remove. induction (pending_conns_ s) as [|[r d] l IH]; cbn [find_conn].
  - rewrite filter_nil. by case_match.
  - rewrite filter_cons. case_decide as Hp; cbn [find_conn]; rewrite IH.
    + destruct (Nat.eqb_spec q r) as [->|]; [|done]. by rewrite (proj2 (Nat.eqb_neq r p)).
    + subst. by destruct (Nat.eqb_spec q r).
Qed.

Lemma deref_Ok p s c : deref p s = Ok c <-> find_conn p (pending_conns_ s) = Some c.
Proof. unfold deref. destruct (find_conn _ _); cbn; split; congruence. Qed.
End table.
