(* ===== verification/Closing.v ===== *)
(** * Handlers that close other connections

    A handler or hook may close a connection that it is not called for: [Connection::Close] and
    [Server::CloseConn] are public, and the ready hook of the basic example is written to do so.
    The type of handlers has no room for it, since the server holds the handlers; so it is a
    parameter of the event loop: a [closer] says which connections the handlers of each event
    close.  Such a close is made at the end of the event, which only moves it past calls for
    another connection.  Without closes this is the loop of Server ([Poll_closing_none]). *)

From S2P Require Import Prelude StdMap State Posix RequestHandler Connection WebsocketConnection Response Router Server ServerSpec.

Section closing.
Context {W : Type} `{!Posix W} {config : Config} {sha1 : Sha1} {fmt : Fmt} {regex : Regex}.
Implicit Types (s : server W) (w : W).

(** What the handlers of an event of the connection [p] close, in this order: it may depend on
    the events of the round that are still to come, on the server and on the state of the
    program and the kernel. *)
Definition closer : Type := nat -> list (Z * nat) -> server W -> W -> list nat.

Definition no_closes : closer := fun _ _ _ _ => [].

Fixpoint close_all (l : list nat) s : M W (server W) :=
  match l with
  | [] => mret s
  | q :: l => s ← close q s; close_all l s
  end.

Fixpoint handle_events_closing (cl : closer) (fuel : nat) s (l : list (Z * nat)) : M W (option Z * server W) :=
  match l with
  | [] => mret (None, s)
  | (events, p) :: l =>
      '(r, s) ← handle_event fuel s events p;
      match r with
      | Some ret => mret (Some ret, s)
      | None =>
          w ← get;
          s ← close_all (cl p l s w) s;
          handle_events_closing cl fuel s l
      end
  end.

Definition Poll_closing (cl : closer) (fuel : nat) (timeout : Z) s : M W (Z * server W) :=
  l ← ping_all (pending_conns_ s);
  let s := set_pending l s in
  r ← call (SysEpollWait (poll_fd s) max_events timeout);
  match r with
  | inl _ => mret (-1, s)
  | inr events =>
      '(ret, s) ← handle_events_closing cl fuel s events;
      match ret with
      | Some ret => mret (ret, s)
      | None => mret (Z.of_nat (length events), s)
      end
  end.

(** The handlers close other connections than the one they are called for, that are there and
    that have no event to come in the round. *)
Definition spares (cl : closer) : Prop :=
  forall p l s w, NoDup (cl p l s w) /\ Forall (fun q => q <> p /\ live q s /\ q ∉ l.*2) (cl p l s w).

Lemma no_closes_spares : spares no_closes.
Proof. intros p l s w. split; constructor. Qed.

Lemma handle_events_closing_none fuel l : forall s w,
  handle_events_closing no_closes fuel s l w = handle_events fuel s l w.
Proof.
  induction l as [|[events p] l IH]; intros s w; [done|]. cbn [handle_events_closing handle_events].
  unfold mbind, M_bind, get. destruct (handle_event fuel s events p w) as [[[r s1] w1]| |]; [|done..].
  destruct r; [done|]. apply IH.
Qed.

Lemma Poll_closing_none fuel timeout s w : Poll_closing no_closes fuel timeout s w = Poll fuel timeout s w.
Proof.
  unfold Poll_closing, Poll, mbind, M_bind. destruct (ping_all _ w) as [[l w1]| |]; [|done..].
  destruct (call _ w1) as [[[e|events] w2]| |]; [done| |done..]. by rewrite handle_events_closing_none.
Qed.

(** An event of a connection that is gone. *)
Lemma gone_event_faults fuel events q l s w :
  ~ live q s -> fst <$> server_conn_ s <> Some q -> handle_events fuel s ((events, q) :: l) w = Fault UseAfterFree.
Proof.
  intros Hq Hl. cbn [handle_events]. unfold handle_event. rewrite bool_decide_eq_false_2 by congruence.
  unfold deref. destruct (find_conn q (pending_conns_ s)) eqn:E; [|done]. destruct Hq. by eexists.
Qed.
End closing.

Arguments closer : clear implicits.
