(* ===== verification/EventLoop.v ===== *)
(** * The event loop: pointers, descriptors and the epoll set

    The kernel keeps the address of a connection in its epoll set, and the server
    trusts what comes back in an event.  What is in the set is read off the trace
    ([registered]); [inv] says that the set and the table of connections agree.
    Every handler of an event preserves it ([step]), so that in all states the
    server can reach ([reachable]) an event leads to a live connection. *)

From stdpp Require Import gmap.
From S2P Require Import Prelude CString StdMap Method Version HeaderParser State Posix RequestHandler Connection ConnectionSpec WebsocketConnection WebsocketProps Response Router Server ServerSpec Closing.
Import HttpHeaderParser.

(** ** The epoll set *)

(** What a call does to the set [pfd]; closing a descriptor takes it out. *)
Definition register_event (pfd : Z) (set : gmap Z nat) (x : event) : gmap Z nat :=
  let 'Event e r := x in
  match e in sysE A return A -> gmap Z nat with
  | SysEpollAdd p fd _ d => fun r =>
      match r with inr _ => if p =? pfd then <[fd := d]> set else set | inl _ => set end
  | SysEpollDel p fd => fun r =>
      match r with inr _ => if p =? pfd then delete fd set else set | inl _ => set end
  | SysClose fd => fun r => match r with inr _ => delete fd set | inl _ => set end
  | _ => fun _ => set
  end r.

(** The set after the calls of a trace: the pointer registered with each descriptor. *)
Definition registered (pfd : Z) (t : list event) : gmap Z nat := fold_left (register_event pfd) t ∅.

Lemma registered_snoc pfd t x : registered pfd (t ++ [x]) = register_event pfd (registered pfd t) x.
Proof. unfold registered. by rewrite fold_left_app. Qed.

Lemma register_event_sub pfd E x : adds x = false -> register_event pfd E x ⊆ E.
Proof.
  destruct x as [T e r]. destruct e; cbn; try done; intros _; repeat case_match; try done;
    apply delete_subseteq.
Qed.

Lemma registered_app_sub pfd t t' :
  Forall (fun x => adds x = false) t' -> registered pfd (t ++ t') ⊆ registered pfd t.
Proof.
  induction t' as [|x t' IH] using rev_ind; [by rewrite app_nil_r|].
  intros [Ht' [Hx _]%Forall_cons]%Forall_app. rewrite app_assoc, registered_snoc.
  etransitivity; [by apply register_event_sub|auto].
Qed.

(** What the manual pages say of epoll: a new set is empty, and a wait reports descriptors that
    are in the set, each once, with the data registered for them. *)
Class EpollLaws (W : Type) `{!Posix W} `{!PosixLaws W} : Prop := {
  create_empty w pfd w' :
    call SysEpollCreate w = Ok (inr pfd, w') -> registered pfd (trace w') = ∅;
  wait_registered pfd max timeout w l w' :
    call (SysEpollWait pfd max timeout) w = Ok (inr l, w') ->
    exists fds, NoDup fds /\ Forall2 (fun fd e => registered pfd (trace w') !! fd = Some e.2) fds l
}.

#[export] Instance app_epoll {X W} `{!Posix W} `{!PosixLaws W} `{!EpollLaws W} : EpollLaws (with_app X W).
Proof.
  split.
  - intros [x w] pfd w'. unfold call, prim, sys, app_posix. cbn. intros [= E <-]. cbn.
    eapply (create_empty w). unfold call, prim. by rewrite (surjective_pairing (sys SysEpollCreate w)), E.
  - intros pfd max timeout [x w] l w'. unfold call, prim, sys, app_posix. cbn. intros [= E <-]. cbn.
    eapply (wait_registered pfd max timeout w). unfold call, prim.
    by rewrite (surjective_pairing (sys (SysEpollWait pfd max timeout) w)), E.
Qed.

(** ** The invariant *)

Section server.
Context {W : Type} `{!Posix W} `{!PosixLaws W} `{!AppInvariant W}.
Context {config : Config} {sha1 : Sha1} {fmt : Fmt} {regex : Regex}.
Implicit Types (c : connection W) (s : server W) (w : W).

Definition listener s : option nat := fst <$> server_conn_ s.

(** The object at [p] has descriptor [fd]. *)
Definition points_to s (fd : Z) (p : nat) : Prop :=
  (exists sc, server_conn_ s = Some (p, sc) /\ fd_ sc = fd) \/
  (exists c, find_conn p (pending_conns_ s) = Some c /\ fd_ c = fd).

Record inv s w : Prop := {
  inv_conns : Forall (fun pc => conn_safe pc.2) (pending_conns_ s);
  inv_handlers : Forall (fun kv => entry_safe kv.2) (request_handlers s);
  (* pointers of live objects are distinct from the listener's and from those to come *)
  inv_live p : live p s -> (p < next_ptr s)%nat /\ listener s <> Some p;
  inv_listener p : listener s = Some p -> (p < next_ptr s)%nat;
  (* the epoll set holds pointers to live objects only *)
  inv_wired fd p : registered (poll_fd s) (trace w) !! fd = Some p -> points_to s fd p;
  inv_app : app_inv w
}.

(** What an event of [p] leaves as it was. *)
Record keeps (p : nat) s s' : Prop := {
  keeps_poll : poll_fd s' = poll_fd s;
  keeps_listener : server_conn_ s' = server_conn_ s;
  keeps_live q : q <> p -> live q s -> live q s'
}.

Lemma keeps_refl p s : keeps p s s.
Proof. by split. Qed.

Lemma keeps_trans p s1 s2 s3 : keeps p s1 s2 -> keeps p s2 s3 -> keeps p s1 s3.
Proof. intros [] []. split; [congruence..|auto]. Qed.

Lemma inv_ext s w w' : inv s w -> ext w w' -> good w' -> inv s w'.
Proof.
  intros [Hc Hh Hl Hli Hw _] (t & Ht & Ha) Hg. split; [done..| |done]. intros fd p Hp. apply Hw.
  rewrite Ht in Hp. eapply lookup_weaken; [exact Hp|]. by apply registered_app_sub.
Qed.

(** [c] is or will be the object at [p]. *)
Definition stands p c s : Prop :=
  conn_safe c /\ exists d, find_conn p (pending_conns_ s) = Some d /\ fd_ d = fd_ c.

Lemma stands_live p c s : stands p c s -> live p s.
Proof. intros (_ & d & Hd & _). by exists d. Qed.

Lemma stands_other p c c' s : stands p c s -> conn_safe c' -> fd_ c' = fd_ c -> stands p c' s.
Proof. intros (_ & d & Hd & E) Hc' E'. split; [done|]. exists d. split; [done|congruence]. Qed.

Lemma stands_updated p c c' s :
  stands p c s -> conn_safe c' -> fd_ c' = fd_ c -> stands p c' (update_conn p c s).
Proof.
  intros (_ & d & Hd & E) Hc' E'. split; [done|]. exists c.
  by rewrite find_conn_update, Nat.eqb_refl, Hd.
Qed.

Lemma inv_update p c s w : stands p c s -> inv s w -> inv (update_conn p c s) w.
Proof.
  intros (Hc & d & Hd & Hfd) [Hcs Hh Hl Hli Hw Ha]. split; [| | | | |done].
  - rewrite pending_update. apply Forall_fmap, (Forall_impl _ _ _ Hcs). intros [q e] He. cbn. by case_match.
  - by destruct s.
  - intros q Hq. apply live_update in Hq. by destruct s; apply Hl.
  - intros q Hq. by destruct s; apply Hli.
  - intros fd q Hq. replace (poll_fd (update_conn p c s)) with (poll_fd s) in Hq by (by destruct s).
    destruct (Hw fd q Hq) as [(sc & E & Ef)|(e & He & Ef)]; [left; exists sc; by destruct s|right].
    rewrite find_conn_update. destruct (Nat.eqb_spec q p) as [->|]; [|by exists e].
    exists c. rewrite Hd. split; [done|]. rewrite Hd in He. congruence.
Qed.

Lemma keeps_update p c s : keeps p s (update_conn p c s).
Proof. split; [by destruct s..|]. intros q _. by rewrite live_update. Qed.

Lemma keeps_remove p s : keeps p s (remove_conn p s).
Proof.
  split; [by destruct s..|]. intros q Hq. unfold live. rewrite find_conn_remove.
  by rewrite (proj2 (Nat.eqb_neq q p)).
Qed.

(** Removing a connection whose descriptor has left the set. *)
Lemma inv_remove p c s w :
  find_conn p (pending_conns_ s) = Some c -> registered (poll_fd s) (trace w) !! fd_ c = None ->
  inv s w -> inv (remove_conn p s) w.
Proof.
  intros Hc Hout [Hcs Hh Hl Hli Hw Ha]. split; [| | | | |done].
  - rewrite pending_remove. rewrite Forall_forall in *. intros x [_ Hx]%list_elem_of_filter. by apply Hcs.
  - by destruct s.
  - intros q. unfold live. rewrite find_conn_remove. case_match; [by intros []|].
    intros Hq. by destruct s; apply Hl.
  - intros q Hq. by destruct s; apply Hli.
  - intros fd q Hq. replace (poll_fd (remove_conn p s)) with (poll_fd s) in Hq by (by destruct s).
    destruct (Hw fd q Hq) as [(sc & E & Ef)|(e & He & Ef)]; [left; exists sc; by destruct s|right].
    rewrite find_conn_remove. destruct (Nat.eqb_spec q p) as [->|]; [|by exists e].
    rewrite Hc in He. injection He as <-. subst fd. congruence.
Qed.

(** ** Steps: code that works on the connection at [p] *)

Definition step (p : nat) s (m : M W (server W)) : Prop :=
  forall w, inv s w ->
    safe_outcome (m w) (fun r => keeps p s r.1 /\ inv r.1 r.2).

Lemma step_ret p s : step p s (mret s).
Proof. intros w Hi. exact (conj (keeps_refl p s) Hi). Qed.

Lemma step_bind {A} p s (m : M W A) (k : A -> M W (server W)) Q :
  safely m Q -> (forall a, Q a -> step p s (k a)) -> step p s (m ≫= k).
Proof.
  intros Hm Hk w Hi. specialize (Hm w (inv_app _ _ Hi)). unfold mbind, M_bind.
  destruct (m w) as [[a w']| |]; cbn in Hm; [|done..]. destruct Hm as (Ha & He & Hg).
  apply Hk; [done|]. by eapply inv_ext.
Qed.

Lemma step_inv p s m :
  (Forall (fun kv => entry_safe kv.2) (request_handlers s) -> step p s m) -> step p s m.
Proof. intros Hm w Hi. apply Hm; [by apply Hi|done]. Qed.

Lemma step_update p c s m : stands p c s -> step p (update_conn p c s) m -> step p s m.
Proof.
  intros Hc Hm w Hi. specialize (Hm w (inv_update p c s w Hc Hi)).
  destruct (m w) as [[s' w']| |]; cbn in *; [|done..]. destruct Hm as [Hk Hi'].
  split; [|done]. eapply keeps_trans; [apply keeps_update|done].
Qed.

Lemma call_registered {A : Set} pfd (e : sysE A) w a w' :
  call e w = Ok (a, w') -> registered pfd (trace w') = register_event pfd (registered pfd (trace w)) (Event e a).
Proof. intros E. destruct (call_after _ _ _ _ E) as [Ha _]. unfold after in Ha. by rewrite Ha, registered_snoc. Qed.

Lemma call_ext {A : Set} (e : sysE A) w a w' :
  (forall a, adds (Event e a) = false) -> call e w = Ok (a, w') -> ext w w'.
Proof.
  intros He E. destruct (call_after _ _ _ _ E) as [Ha _]. exists [Event e a]. by repeat constructor.
Qed.

Lemma call_good {A : Set} (e : sysE A) w a w' : call e w = Ok (a, w') -> app_inv w -> app_inv w'.
Proof. intros [= E] Hw. pose proof (app_inv_sys _ e w Hw) as H. by rewrite E in H. Qed.

Lemma inv_call {A : Set} s (e : sysE A) w a w' :
  (forall a, adds (Event e a) = false) -> call e w = Ok (a, w') -> inv s w -> inv s w'.
Proof. intros He E Hi. eapply inv_ext; [done|by eapply call_ext|]. eapply call_good, Hi. exact E. Qed.

Lemma step_close p s : live p s -> step p s (close p s).
Proof.
  intros [c Hc] w Hi. unfold close, CloseConn. rewrite (proj2 (deref_Ok _ _ _) Hc).
  unfold mbind, M_bind, lift.
  destruct (call_Ok (SysEpollDel (poll_fd s) (fd_ c)) w) as (r & w1 & E1 & _). rewrite E1.
  pose proof (inv_call _ (SysEpollDel _ _) _ _ _ (fun _ => eq_refl) E1 Hi) as Hi1.
  destruct r as [e|n]; [by split; [apply keeps_refl|]|].
  assert (Hout : registered (poll_fd s) (trace w1) !! fd_ c = None).
  { rewrite (call_registered _ _ _ _ _ E1). cbn. rewrite Z.eqb_refl. apply lookup_delete_eq. }
  destruct (fd_ c =? -1); [exact (conj (keeps_remove p s) (inv_remove _ _ _ _ Hc Hout Hi1))|].
  destruct (call_Ok (SysClose (fd_ c)) w1) as (r & w2 & E2 & _). rewrite E2.
  exact (conj (keeps_remove p s)
    (inv_call _ (SysClose _) _ _ _ (fun _ => eq_refl) E2 (inv_remove _ _ _ _ Hc Hout Hi1))).
Qed.

(** The end of most branches. *)
Lemma step_end p c s (b : bool) :
  stands p c s -> step p s (if b then close p (update_conn p c s) else mret (update_conn p c s)).
Proof.
  intros Hc. apply (step_update p c); [done|]. destruct b; [|apply step_ret].
  apply step_close. apply live_update. by eapply stands_live.
Qed.

Lemma step_respond p s c code v hs k :
  step p s k -> step p s (rsp ← lift (MakeResponse code v hs []); _ ← Write (fd_ c) rsp; k).
Proof.
  intros Hk. eapply step_bind; [apply safely_lift, MakeResponse_safe|intros rsp _].
  eapply step_bind; [apply Write_safe|by intros ? _].
Qed.

(** ** The handlers of events *)

Lemma upgrade_step p c h uri s : stands p c s -> entry_safe h -> step p s (upgrade p c h uri s).
Proof.
  intros Hc [_ Hcon Hrdy Hwc Hmsg]. unfold upgrade.
  eapply step_bind; [by apply UpgradeToWebsocket_safe; try apply Hc|intros [ws c1] (Hws & Hc1 & Hfd); cbn in *].
  eapply step_bind with (Q := ws_safe).
  { apply safely_lift, safe_of_option; [|done]. by intros a ->. }
  clear Hws. intros w Hw. eapply step_bind with (Q := fun _ => True).
  { eapply safely_weaken; [apply safely_run_with, GetWsAccept_safe|done]. }
  assert (Hst : forall x : ws_connection W, ws_safe x -> stands p (set_ws_conn (Some x) c1) s).
  { intros x Hx. apply (stands_other p c); [done|by apply conn_safe_set_ws|by destruct c1]. }
  intros [accept st] _.
  eapply step_bind; [by apply run_hook_safe|intros [n w1] Hw1; cbn in Hw1].
  case_match; [exact (step_end p _ s true (Hst _ Hw1))|].
  apply step_respond. eapply step_bind; [by apply run_hook_safe|intros [n' w2] Hw2; cbn in Hw2].
  exact (step_end p _ s (n' =? -1) (Hst _ Hw2)).
Qed.

Lemma run_handler_step p c h uri final s :
  stands p c s -> entry_safe h -> step p s (run_handler p c h uri final s).
Proof.
  intros Hc Hh. unfold run_handler.
  eapply step_bind with (Q := fun f => from_option handler_safe True f).
  { apply safely_lift, safe_of_option; [|done]. intros f Hf.
    pose proof (http_handlers_safe _ Hh) as Hall. rewrite Forall_lookup in Hall. by eapply Hall. }
  intros [f|] Hf; [|by apply step_close; eapply stands_live].
  eapply step_bind with (Q := fun _ => True).
  { eapply safely_weaken; [apply safely_run_with, Hf|done]. }
  intros [n pb] _. apply (step_end p (set_partial_body pb c) s (n =? -1)).
  apply (stands_other p c); [done|destruct Hc as [Hc _]; by destruct c|by destruct c].
Qed.

Lemma handle_request_step p c final s : stands p c s -> step p s (handle_request p c final s).
Proof.
  intros Hc. apply step_inv. intros Hh. unfold handle_request.
  eapply step_bind; [by apply safely_lift, find_handler_safe|intros [[k h]|] He; cbn in He].
  - case_match; [by apply upgrade_step|by apply run_handler_step].
  - apply step_respond, step_close. by eapply stands_live.
Qed.

Lemma http_event_step fuel p c s : stands p c s -> step p s (http_event fuel p c s).
Proof.
  intros Hc. unfold http_event.
  eapply step_bind; [apply ProcessDataIn_safe|intros [ret c1] Hf; cbn in Hf].
  assert (Hc1 : stands p c1 s).
  { apply (stands_other p c); [done|eapply conn_safe_frame; [done|apply Hc]|apply Hf]. }
  apply (step_update p c1); [done|].
  repeat case_match; try apply step_ret.
  - apply step_close, live_update. by eapply stands_live.
  - apply handle_request_step, (stands_updated p c1); [done|apply Hc1|done].
Qed.

Lemma ws_event_step p c s : stands p c s -> step p s (ws_event p c s).
Proof.
  intros Hc. unfold ws_event.
  eapply step_bind; [by apply WsRead_safe, Hc|intros [ret c1] [Hc1 Hfd]; cbn in Hc1, Hfd].
  assert (Hs1 : stands p c1 s) by (by apply (stands_other p c)).
  apply (step_update p c1); [done|]. case_match; [|apply step_ret].
  eapply step_bind with (Q := ws_safe).
  { apply safely_lift, safe_of_option; [|done]. intros ws E. unfold conn_safe in Hc1. by rewrite E in Hc1. }
  intros ws Hws. eapply step_bind; [apply run_hook_safe; [apply Hws|done]|intros [n w] Hw; cbn in Hw].
  apply (step_end p (set_ws_conn (Some w) c1) (update_conn p c1 s) true).
  apply (stands_updated p c1); [done|by apply conn_safe_set_ws|by destruct c1].
Qed.

(** A new connection: the one event that adds to the set. *)
Lemma inv_accept s w w' fd flags n :
  inv s w ->
  call (SysEpollAdd (poll_fd s) fd flags (next_ptr s)) w = Ok (inr n, w') ->
  inv (Server (poll_fd s) (server_conn_ s) (pending_conns_ s ++ [(next_ptr s, make fd)])
         (request_handlers s) (S (next_ptr s))) w'.
Proof.
  intros [Hcs Hh Hl Hli Hw Happ] E.
  assert (Hlive : forall q, is_Some (find_conn q (pending_conns_ s ++ [(next_ptr s, make fd)])) ->
            live q s \/ q = next_ptr s).
  { intros q. rewrite find_conn_app. unfold live. cbn [find_conn].
    destruct (find_conn q (pending_conns_ s)); [by left|].
    destruct (Nat.eqb_spec q (next_ptr s)); [by right|by intros []]. }
  split; cbn [pending_conns_ request_handlers next_ptr poll_fd]; [| | | | |by eapply call_good].
  - apply Forall_app. split; [done|]. by repeat constructor.
  - done.
  - intros q [Hq| ->]%Hlive; [destruct (Hl q Hq); split; [lia|done]|split; [lia|]].
    intros Hq%Hli. lia.
  - intros q Hq%Hli. lia.
  - intros fd' q. rewrite (call_registered _ _ _ _ _ E). cbn. rewrite Z.eqb_refl.
    intros [[<- <-]|[Hne Hq]]%lookup_insert_Some.
    + right. exists (make fd). cbn. rewrite find_conn_app. cbn [find_conn]. rewrite Nat.eqb_refl.
      destruct (find_conn (next_ptr s) (pending_conns_ s)) eqn:Ef; [|done].
      destruct (Hl (next_ptr s)); [by eexists|lia].
    + destruct (Hw _ _ Hq) as [|(d & Hd & Hdf)]; [by left|right]. exists d. cbn.
      by rewrite find_conn_app, Hd.
Qed.

Lemma accept_event_step p s w :
  inv s w -> safe_outcome (accept_event s w) (fun r => keeps p s r.1.2 /\ inv r.1.2 r.2).
Proof.
  intros Hi. unfold accept_event, mbind, M_bind.
  pose proof (AcceptNewConnection_safe s w (inv_app _ _ Hi)) as Ha.
  destruct (AcceptNewConnection s w) as [[[r s1] w1]| |]; cbn in Ha; [|done..].
  destruct Ha as (Ha & He & Hg). apply (inv_ext _ _ _ Hi) in He; [|done]. clear Hi Hg.
  destruct r as [[q c]|]; [|subst; by split; [apply keeps_refl|]].
  destruct Ha as (-> & (fd & ->) & ->). cbn [fd_ make poll_fd pending_conns_].
  match goal with |- context [SysEpollAdd _ fd ?flags _] =>
    destruct (call_Ok (SysEpollAdd (poll_fd s) fd flags (next_ptr s)) w1) as (r & w2 & E & Hr) end.
  rewrite E. destruct r as [e|n].
  - split; [by split|]. cbn [fst snd].
    assert (Hs : inv s w2).
    { destruct He as [Hcs Hh Hl Hli Hw Happ]. split; [done..| |by eapply call_good]. intros fd' q.
      rewrite (call_registered _ _ _ _ _ E). apply Hw. }
    destruct Hs as [Hcs Hh Hl Hli Hw Happ]. split; try done; cbn.
    + intros q Hq. destruct (Hl q Hq). split; [lia|done].
    + intros q Hq. specialize (Hli q Hq). lia.
  - split.
    + split; [done..|]. cbn. intros q _ [d Hd]. unfold live. cbn. by rewrite find_conn_app, Hd.
    + cbn. by eapply inv_accept.
Qed.

Lemma handle_event_step fuel s events p w :
  inv s w -> (Some p = listener s \/ live p s) ->
  safe_outcome (handle_event fuel s events p w) (fun r => keeps p s r.1.2 /\ inv r.1.2 r.2).
Proof.
  intros Hi Hl. unfold handle_event. case_bool_decide as Hp; [by apply accept_event_step|].
  destruct Hl as [|Hl]; [done|]. pose proof Hl as [c Hc].
  rewrite (proj2 (deref_Ok _ _ _) Hc), M_bind_lift.
  case_match; [|by split; [apply keeps_refl|]].
  assert (Hst : stands p c s).
  { split; [|by exists c]. pose proof (inv_conns _ _ Hi) as Hall. rewrite List.Forall_forall in Hall.
    exact (Hall _ (find_conn_In _ _ _ Hc)). }
  assert (Hm : step p s (match ws_conn_ c with Some _ => ws_event p c s | None => http_event fuel p c s end)).
  { case_match; [by apply ws_event_step|by apply http_event_step]. }
  specialize (Hm w Hi). unfold mbind, M_bind.
  match type of Hm with safe_outcome ?o _ => by destruct o as [[s' w']| |] end.
Qed.

Lemma close_all_inv qs : forall s w,
  inv s w -> NoDup qs -> Forall (fun q => live q s) qs ->
  safe_outcome (close_all qs s w) (fun r => inv r.1 r.2 /\ server_conn_ r.1 = server_conn_ s /\
    forall q, q ∉ qs -> live q s -> live q r.1).
Proof.
  induction qs as [|q qs IH]; intros s w Hi Hnd Hl; [done|]. cbn [close_all].
  apply NoDup_cons in Hnd as [Hq Hnd]. apply Forall_cons in Hl as [Hlq Hl].
  pose proof (step_close q s Hlq w Hi) as Hs. unfold mbind, M_bind.
  destruct (close q s w) as [[s1 w1]| |]; [|done..]. destruct Hs as [[_ Hlis Hk] Hi1]. cbn in *.
  assert (Hl1 : Forall (fun q => live q s1) qs).
  { rewrite Forall_forall in Hl |- *. intros r Hr. apply Hk; [by intros ->|by apply Hl]. }
  specialize (IH s1 w1 Hi1 Hnd Hl1). destruct (close_all qs s1 w1) as [[s2 w2]| |]; [|done..].
  cbn in *. destruct IH as (Hi2 & Hlis2 & Hk2). split; [done|]. split; [congruence|].
  intros r [Hrq Hr]%not_elem_of_cons Hlr. apply Hk2; [done|]. by apply Hk.
Qed.

Lemma handle_events_inv cl fuel events : spares cl -> forall s w,
  inv s w -> NoDup events.*2 -> Forall (fun e => Some e.2 = listener s \/ live e.2 s) events ->
  safe_outcome (handle_events_closing cl fuel s events w) (fun r => inv r.1.2 r.2).
Proof.
  intros Hcl. induction events as [|[ev p] l IH]; intros s w Hi Hnd Hl; [done|].
  cbn [handle_events_closing]. apply Forall_cons in Hl as [Hp Hl]. cbn in Hnd. apply NoDup_cons in Hnd as [Hnp Hnd].
  pose proof (handle_event_step fuel s ev p w Hi Hp) as Hs. unfold mbind, M_bind.
  destruct (handle_event fuel s ev p w) as [[[r s1] w1]| |]; [|done..]. destruct Hs as [[_ Hlis Hk] Hi1].
  destruct r; [done|]. cbn in *. unfold get. destruct (Hcl p l s1 w1) as [Hq Hqs].
  assert (Hlive : Forall (fun q => live q s1) (cl p l s1 w1)) by (eapply Forall_impl; [exact Hqs|naive_solver]).
  pose proof (close_all_inv _ s1 w1 Hi1 Hq Hlive) as Hc.
  destruct (close_all (cl p l s1 w1) s1 w1) as [[s2 w2]| |]; [|done..]. cbn in Hc. destruct Hc as (Hi2 & Hlis2 & Hk2).
  apply IH; [done..|]. unfold listener. rewrite Hlis2, Hlis.
  rewrite Forall_forall in Hqs. rewrite Forall_forall in Hl |- *. intros e He. destruct (Hl e He) as [|Hle]; [by left|right].
  assert (Hel : e.2 ∈ l.*2) by (by apply (list_elem_of_fmap_2 snd)).
  apply Hk2; [|apply Hk; [by intros <-|done]]. intros Hin. by apply (Hqs _ Hin).
Qed.

(** ** [Poll] *)

(** The pings change no descriptor. *)
Definition pinged (x y : nat * connection W) : Prop :=
  y.1 = x.1 /\ fd_ y.2 = fd_ x.2 /\ conn_safe y.2.

Lemma ping_all_safe l :
  Forall (fun pc => conn_safe pc.2) l -> safely (ping_all l) (fun l' => Forall2 pinged l l').
Proof.
  induction 1 as [|[p c] l Hc Hl IH]; [by apply safely_ret|]. cbn [ping_all].
  eapply safely_bind with (Q := fun c' => fd_ c' = fd_ c /\ conn_safe c').
  - cbn in Hc. unfold conn_safe in Hc. destruct (ws_conn_ c) as [ws|] eqn:E.
    2:{ apply safely_ret. split; [done|]. unfold conn_safe. by rewrite E. }
    eapply safely_bind with (Q := fun _ => True).
    { eapply safely_weaken; [apply safely_run_with, ServerPing_safe|done]. }
    intros [b st] _. apply safely_ret. split; [by destruct c|]. by apply conn_safe_set_ws.
  - intros c' Hc'. eapply safely_bind; [exact IH|intros l' Hl']. apply safely_ret. by constructor.
Qed.

Lemma find_conn_pinged q l l' :
  Forall2 pinged l l' ->
  match find_conn q l, find_conn q l' with
  | Some c, Some c' => fd_ c' = fd_ c
  | None, None => True
  | _, _ => False
  end.
Proof.
  induction 1 as [|[p c] [p' c'] l l' (Hp & Hf & _) _ IH]; [done|]. cbn in *. subst p'.
  by destruct (q =? p)%nat.
Qed.

Lemma inv_pinged s w l : inv s w -> Forall2 pinged (pending_conns_ s) l -> inv (set_pending l s) w.
Proof.
  intros [Hc Hh Hl Hli Hw Ha] Hp. destruct s as [pfd sc pc rh n]. cbn in *. split; cbn; try done.
  - clear -Hp. induction Hp as [|x y l l' (_ & _ & ?) _ IH]; by constructor.
  - intros q [c' Hq]. apply Hl. pose proof (find_conn_pinged q _ _ Hp) as Hf. unfold live. cbn in *.
    rewrite Hq in Hf. by destruct (find_conn q pc).
  - intros fd q Hq. destruct (Hw fd q Hq) as [|(c & Hq' & Hfd)]; [by left|right]. cbn in *.
    pose proof (find_conn_pinged q _ _ Hp) as Hf. rewrite Hq' in Hf.
    destruct (find_conn q l) as [c'|]; [|done]. exists c'. split; [done|congruence].
Qed.

(** The events of a wait lead to different live objects. *)
Lemma points_to_functional s w fd fd' p :
  inv s w -> points_to s fd p -> points_to s fd' p -> fd = fd'.
Proof.
  intros Hi. assert (Hex : forall sc c, server_conn_ s = Some (p, sc) -> find_conn p (pending_conns_ s) = Some c -> False).
  { intros sc c E Hc. destruct (inv_live _ _ Hi p) as [_ Hne]; [by exists c|]. apply Hne. unfold listener. by rewrite E. }
  intros [(sc & E & <-)|(c & Hc & <-)] [(sc' & E' & <-)|(c' & Hc' & <-)]; try by exfalso; eauto.
  all: congruence.
Qed.

Lemma wired_events s w fds l :
  inv s w -> NoDup fds -> Forall2 (fun fd e => registered (poll_fd s) (trace w) !! fd = Some e.2) fds l ->
  NoDup l.*2 /\ Forall (fun e : Z * nat => Some e.2 = listener s \/ live e.2 s) l.
Proof.
  intros Hi Hnd Hr. induction Hr as [|fd [ev p] fds l Hp Hr IH]; [by repeat constructor|].
  apply NoDup_cons in Hnd as [Hnf Hnd]. destruct (IH Hnd) as [IH1 IH2]. cbn in *.
  pose proof (inv_wired _ _ Hi _ _ Hp) as Hpt. split.
  - apply NoDup_cons. split; [|done]. intros [[ev' p'] [-> Hin]]%list_elem_of_fmap. cbn in *.
    destruct (list_elem_of_lookup_1 _ _ Hin) as [i Hli].
    destruct (Forall2_lookup_r _ _ _ _ _ Hr Hli) as (fd' & Hfd' & Hreg). cbn in *.
    assert (fd = fd') as ->; [|by apply Hnf; eapply list_elem_of_lookup_2].
    eapply points_to_functional; [done|done|]. by apply (inv_wired _ _ Hi).
  - constructor; [|done]. destruct Hpt as [(sc & E & _)|(c & Hc & _)]; [left; unfold listener; by rewrite E|].
    right. by exists c.
Qed.

Context `{!EpollLaws W}.

Lemma Poll_closing_inv cl fuel timeout s w :
  spares cl -> inv s w -> safe_outcome (Poll_closing cl fuel timeout s w) (fun r => inv r.1.2 r.2).
Proof.
  intros Hcl Hi. unfold Poll_closing, mbind, M_bind. 
  pose proof (ping_all_safe _ (inv_conns _ _ Hi) w (inv_app _ _ Hi)) as Hp.
  destruct (ping_all (pending_conns_ s) w) as [[l w1]| |]; cbn in Hp; [|done..]. destruct Hp as (Hp & He & Hg).
  apply (inv_ext _ _ _ Hi) in He; [|done]. apply (inv_pinged _ _ _ He) in Hp. clear Hi He Hg.
  replace (poll_fd s) with (poll_fd (set_pending l s)) by (by destruct s). set (s1 := set_pending l s) in *.
  destruct (call_Ok (SysEpollWait (poll_fd s1) max_events timeout) w1) as (r & w2 & E & _). rewrite E.
  pose proof (inv_call _ (SysEpollWait _ _ _) _ _ _ (fun _ => eq_refl) E Hp) as Hi.
  destruct r as [e|events]; [done|]. destruct (wait_registered _ _ _ _ _ _ E) as (fds & Hnd & Hr).
  destruct (wired_events _ _ _ _ Hi Hnd Hr) as [Hnd' Hl].
  pose proof (handle_events_inv cl fuel events Hcl s1 w2 Hi Hnd' Hl) as Hs.
  destruct (handle_events_closing cl fuel s1 events w2) as [[[ret s'] w']| |]; [|done..]. by destruct ret.
Qed.

Lemma Poll_inv fuel timeout s w :
  inv s w -> safe_outcome (Poll fuel timeout s w) (fun r => inv r.1.2 r.2).
Proof. rewrite <- Poll_closing_none. apply Poll_closing_inv, no_closes_spares. Qed.

(** ** [Init] *)

Lemma or_fail_Ok {A B} (e : sysE (errno + A)) (err : M W B) (k : A -> M W B) w r :
  or_fail (call e) err k w = Ok r ->
  exists a w1, call e w = Ok (a, w1) /\ match a with inl _ => err w1 = Ok r | inr a => k a w1 = Ok r end.
Proof.
  unfold or_fail. destruct (call_Ok e w) as (a & w1 & E & _). rewrite (M_bind_eq _ _ _ _ _ E).
  intros Hr. exists a, w1. split; [done|]. by destruct a.
Qed.

Lemma Init_inv addr port backlog w s w' :
  app_inv w -> Init addr port backlog new_server w = Ok ((0, s), w') -> inv s w'.
Proof.
  intros Happ. unfold Init. destruct (call_Ok SysIgnoreSigpipe w) as (u & w0 & E0 & _). rewrite (M_bind_eq _ _ _ _ _ E0).
  intros ([|pfd] & w1 & E1 & H)%or_fail_Ok; [done|]. revert H.
  intros ([|sfd] & w2 & E2 & H)%or_fail_Ok; [done|]. revert H.
  do 4 (intros ([|?] & ? & ? & H)%or_fail_Ok; [done|]; revert H).
  cbn [new_connection set_poll_fd new_server set_server_conn].
  intros ([|n] & w7 & E7 & [= <- <-])%or_fail_Ok.
  assert (Hempty : registered pfd (trace x2) = ∅).
  { clear E7. pose proof (create_empty _ _ _ E1) as He.
    repeat match goal with
    | H : call _ ?u = Ok (_, ?v), He : registered pfd (trace ?u) = ∅ |- _ =>
        apply (call_registered pfd) in H; rewrite He in H; cbn in H; clear He
    end. done. }
  assert (Happ' : app_inv w7).
  { repeat match goal with
    | H : call _ ?u = Ok (_, ?v), Ha : app_inv ?u |- _ => apply (call_good _ _ _ _ H) in Ha; clear H
    end. done. }
  split; cbn; try done.
  - intros p [c Hc]. done.
  - intros p [= <-]. lia.
  - intros fd p. rewrite (call_registered _ _ _ _ _ E7), Hempty. cbn. rewrite Z.eqb_refl.
    intros [[<- <-]|[_ Hq]]%lookup_insert_Some; [|by rewrite lookup_empty in Hq].
    left. by eexists.
Qed.

(** ** Reachable states *)

(** A program that uses the library: it starts a server, registers handlers, polls, and between
    polls runs code of its own, which may close connections but registers no descriptor with
    an epoll set.  Within a poll its handlers may close connections too, other ones than they
    are called for and without an event to come in the round ([spares]). *)
Inductive reachable : server W -> W -> Prop :=
| reach_init addr port backlog w s w' :
    app_inv w -> Init addr port backlog new_server w = Ok ((0, s), w') -> reachable s w'
| reach_register s w uri h :
    reachable s w -> entry_safe h -> reachable (Register uri h s) w
| reach_poll fuel timeout s w ret s' w' :
    reachable s w -> Poll fuel timeout s w = Ok ((ret, s'), w') -> reachable s' w'
| reach_poll_closing cl fuel timeout s w ret s' w' :
    spares cl -> reachable s w -> Poll_closing cl fuel timeout s w = Ok ((ret, s'), w') -> reachable s' w'
| reach_close p s w ret s' w' :
    reachable s w -> CloseConn p s w = Ok ((ret, s'), w') -> reachable s' w'
| reach_app s w w' : reachable s w -> ext w w' -> app_inv w' -> reachable s w'.

Lemma reachable_inv s w : reachable s w -> inv s w.
Proof.
  induction 1 as [addr port backlog w s w' Ha E|s w uri h _ IH Hh|fuel timeout s w ret s' w' _ IH E|
                  cl fuel timeout s w ret s' w' Hcl _ IH E|
                  p s w ret s' w' _ IH E|s w w' _ IH He Ha].
  - by eapply Init_inv.
  - destruct IH as [Hc Hhs Hl Hli Hw Ha]. split; destruct s; try done. cbn in *.
    by apply Forall_assign_value.
  - pose proof (Poll_inv fuel timeout s w IH) as Hi. by rewrite E in Hi.
  - pose proof (Poll_closing_inv cl fuel timeout s w Hcl IH) as Hi. by rewrite E in Hi.
  - destruct (find_conn p (pending_conns_ s)) as [c|] eqn:Hc.
    + pose proof (step_close p s (ex_intro _ c Hc) w IH) as Hs. unfold close in Hs.
      unfold mbind, M_bind in Hs. rewrite E in Hs. apply Hs.
    + unfold CloseConn, deref in E. by rewrite Hc in E.
  - by eapply inv_ext.
Qed.

(** Claim C3. Memory safety of the event loop: in every state such a program can bring a server
    to, whatever its peers send and however the calls fail, the kernel's epoll set holds
    pointers to live connections only (or to the listener), each registered under its own
    descriptor.  So no [Poll] goes through the pointer of a destroyed connection as long as
    handlers close no connection but the one they are called for, by their result, nor when
    they close other ones that have no event to come in the round.  This is needed: an event
    of a connection that is gone goes through its pointer, and so does closing it again.
    What the handlers of the program keep true of its own state holds all the time. *)
Theorem event_loop_safe s w :
  reachable s w ->
  (forall fuel timeout, Poll fuel timeout s w <> Fault UseAfterFree) /\
  (forall cl fuel timeout, spares cl -> Poll_closing cl fuel timeout s w <> Fault UseAfterFree) /\
  (forall fd p, registered (poll_fd s) (trace w) !! fd = Some p -> points_to s fd p) /\
  (forall fuel events p l, ~ live p s -> listener s <> Some p ->
     handle_events fuel s ((events, p) :: l) w = Fault UseAfterFree) /\
  (forall p, ~ live p s -> CloseConn p s w = Fault UseAfterFree) /\
  app_inv w.
Proof.
  intros Hi%reachable_inv. split; [|split; [|split; [|split; [|split; [|by apply Hi]]]]].
  - intros fuel timeout E. pose proof (Poll_inv fuel timeout s w Hi) as Hs. by rewrite E in Hs.
  - intros cl fuel timeout Hcl E. pose proof (Poll_closing_inv cl fuel timeout s w Hcl Hi) as Hs. by rewrite E in Hs.
  - apply (inv_wired _ _ Hi).
  - intros fuel events p l. apply gone_event_faults.
  - intros p Hp. unfold CloseConn, deref. destruct (find_conn p (pending_conns_ s)) eqn:E; [|done].
    destruct Hp. by eexists.
Qed.
End server.

(** ** A kernel with an epoll set

    The scripted kernel, with waits that report everything that is registered: the client of a
    descriptor without a script just has nothing to say. *)

Record esim := ESim { esim_sim : sim }.

Definition add_poll (x : event) : Z := match ev_call x with SysEpollAdd p _ _ _ => p | _ => 0 end.

(** A descriptor no registration was made with. *)
Definition fresh_poll (t : list event) : Z := fold_right (fun x n => Z.max (add_poll x + 1) n) 3 t.

Definition ready (pfd max : Z) (t : list event) : list (Z * nat) :=
  map (fun '(_, d) => (EPOLLIN, d)) (take (Z.to_nat max) (map_to_list (registered pfd t))).

Definition esim_sys {A : Set} (e : sysE A) (w : esim) : A * esim :=
  let t := sim_trace (esim_sim w) in
  let '(a, w) :=
    match e in sysE A return A * sim with
    | SysEpollCreate => sim_log SysEpollCreate (inr (fresh_poll t)) (esim_sim w)
    | SysEpollWait p max timeout => sim_log (SysEpollWait p max timeout) (inr (ready p max t)) (esim_sim w)
    | e => sim_sys e (esim_sim w)
    end in
  (a, ESim w).

#[export] Instance esim_posix : Posix esim := fun A e w => esim_sys e w.

#[export] Program Instance esim_laws : PosixLaws esim := {| trace w := sim_trace (esim_sim w) |}.
Next Obligation.
  intros A e [w]. pose proof (sys_trace (W := sim) A e w) as Ht.
  unfold sys, sim_posix, esim_posix, esim_sys in *.
  destruct e; cbn in *; try done.
  all: repeat match goal with |- context [match ?x with _ => _ end] => destruct x end; done.
Qed.
Next Obligation.
  intros A e [w]. pose proof (sys_ok (W := sim) A e w) as Ho.
  unfold sys, sim_posix, esim_posix, esim_sys in *.
  destruct e; cbn [esim_sim] in *; try (match goal with |- context [sim_sys ?e w] => destruct (sim_sys e w) end; done).
  - cbn. unfold fresh_poll. induction (sim_trace w); cbn; lia.
  - cbn. unfold ready. rewrite length_map, length_take. lia.
Qed.

Lemma fresh_poll_empty pfd t : fresh_poll t <= pfd -> registered pfd t = ∅.
Proof.
  induction t as [|x t IH] using rev_ind; [done|]. intros Hp.
  assert (Hx : fresh_poll t <= pfd /\ add_poll x < pfd).
  { unfold fresh_poll in *. rewrite fold_right_app in Hp. cbn in Hp. revert Hp. clear.
    generalize 3. induction t as [|y t IH]; intros z Hz; cbn in *; [lia|]. destruct (IH z); lia. }
  rewrite registered_snoc, IH by lia. destruct x as [T e r]. destruct e; cbn in *; try done.
  all: repeat case_match; try done; try by rewrite delete_empty. lia.
Qed.

#[export] Instance esim_epoll : EpollLaws esim.
Proof.
  split.
  - intros [w] pfd w'. unfold call, prim, sys, esim_posix, esim_sys. cbn. intros [= <- <-]. cbn.
    rewrite fold_left_app. cbn. by apply fresh_poll_empty.
  - intros pfd max timeout [w] l w'. unfold call, prim, sys, esim_posix, esim_sys. cbn. intros [= <- <-]. cbn.
    unfold ready. set (E := registered pfd (sim_trace w)).
    exists (take (Z.to_nat max) (map_to_list E)).*1. split.
    + rewrite fmap_take. apply (sublist_NoDup _ (map_to_list E).*1); [apply NoDup_fst_map_to_list|apply sublist_take].
    + apply Forall2_fmap_l, Forall2_fmap_r. apply Forall_Forall2_diag, Forall_take.
      rewrite Forall_forall. intros [fd d] Hin. cbn. rewrite fold_left_app. by apply elem_of_map_to_list.
Qed.

(** ** Witness *)

(** A handler that answers with the body it got. *)
Definition echo_handler {W} `{!Posix W} {fmt : Fmt} : Handler W := fun this p fd uri is_final =>
  '(pb, _) ← get;
  rsp ← lift (MakeResponse 200 (version_ p) [] pb);
  _ ← on_snd (Write fd rsp);
  mret 0.

Definition echo_entry {W} `{!Posix W} {fmt : Fmt} : request_handler W :=
  set_handler HttpMethod.GET echo_handler (empty_handler W).

Lemma echo_entry_safe {W} `{!Posix W} `{!PosixLaws W} `{!AppInvariant W} {fmt : Fmt} : entry_safe (echo_entry (W := W)).
Proof.
  split; [|done..]. repeat constructor; cbn. intros this p fd uri final. unfold echo_handler.
  eapply safely_bind; [by apply (safely_get (fun _ => True))|intros [pb w] _].
  eapply safely_bind; [apply safely_lift, MakeResponse_safe|intros rsp _].
  eapply safely_bind; [apply safely_on_snd, Write_safe|intros ? _]. by apply safely_ret.
Qed.

Section witnesses.
#[local] Existing Instance httpoll_mk.
#[local] Existing Instance Fips180.fips180.
#[local] Existing Instance Decimal.decimal_fmt.
#[local] Existing Instance Matcher.matcher.

(** A server that two clients connect to, of which the first sends a request. *)
Definition loop_kernel : esim :=
  ESim (Sim [(7, inr (str "GET /nothing HTTP/1.1" ++ CRLF ++ CRLF))] 1024 [] [inr 7; inr 8] [] 0 []).

Definition loop_start : outcome ((Z * server esim) * esim) := Init None 8080 10 new_server loop_kernel.
Definition loop_1 := Eval vm_compute in match loop_start with Ok ((_, s), w) => (s, w) | _ => (new_server, loop_kernel) end.
Definition loop_2 := Register (str "/hello") echo_entry loop_1.1.
Definition loop_poll (s : server esim) (w : esim) : server esim * esim :=
  match Poll 10 0 s w with Ok ((_, s'), w') => (s', w') | _ => (s, w) end.
Definition loop_3 := loop_poll loop_2 loop_1.2.
Definition loop_4 := loop_poll loop_3.1 loop_3.2.

(** The first client has been told that there is nothing, and is gone; the second is there. *)
Example loop_runs :
  map fst (pending_conns_ loop_4.1) = [2%nat] /\
  sent 7 (trace loop_4.2) = str "HTTP/1.1 404 Not Found" ++ CRLF ++ CRLF /\
  map_to_list (registered (poll_fd loop_4.1) (trace loop_4.2)) = [(8, 2%nat); (4, 0%nat)].
Proof. vm_compute. done. Qed.

Lemma loop_reachable : reachable loop_4.1 loop_4.2.
Proof.
  assert (H1 : reachable loop_1.1 loop_1.2).
  { eapply (reach_init None 8080 10 loop_kernel); [done|]. vm_compute. reflexivity. }
  assert (H2 : reachable loop_2 loop_1.2) by (apply reach_register; [exact H1|apply echo_entry_safe]).
  assert (H3 : reachable loop_3.1 loop_3.2).
  { destruct (Poll 10 0 loop_2 loop_1.2) as [[[r s] w]| |] eqn:E; unfold loop_3, loop_poll; rewrite E;
      [by eapply reach_poll|done..]. }
  destruct (Poll 10 0 loop_3.1 loop_3.2) as [[[r s] w]| |] eqn:E; unfold loop_4, loop_poll; rewrite E;
    [by eapply reach_poll|done..].
Qed.

Lemma event_loop_safe_witness :
  (forall fuel timeout, Poll fuel timeout loop_4.1 loop_4.2 <> Fault UseAfterFree) /\
  (forall cl fuel timeout, spares cl -> Poll_closing cl fuel timeout loop_4.1 loop_4.2 <> Fault UseAfterFree) /\
  (forall fd p, registered (poll_fd loop_4.1) (trace loop_4.2) !! fd = Some p -> points_to loop_4.1 fd p) /\
  (forall fuel events p l, ~ live p loop_4.1 -> listener loop_4.1 <> Some p ->
     handle_events fuel loop_4.1 ((events, p) :: l) loop_4.2 = Fault UseAfterFree) /\
  (forall p, ~ live p loop_4.1 -> CloseConn p loop_4.1 loop_4.2 = Fault UseAfterFree) /\
  app_inv loop_4.2.
Proof. exact (event_loop_safe loop_4.1 loop_4.2 loop_reachable). Defined.

(** A round in which both clients have events and the handler of the first closes the second:
    when the event of the second is still to come, it goes through the pointer of a destroyed
    connection; when it was before, all is well. *)
Definition close_second : closer esim := fun p _ _ _ => if (p =? 1)%nat then [2%nat] else [].

Definition both_clients : server esim := set_pending [(1%nat, make 7); (2%nat, make 8)] loop_3.1.

Example close_before_event :
  handle_events_closing close_second 10 both_clients [(EPOLLIN, 1%nat); (EPOLLIN, 2%nat)] loop_3.2 = Fault UseAfterFree.
Proof. vm_compute. reflexivity. Qed.

Example close_after_event :
  match handle_events_closing close_second 10 both_clients [(EPOLLIN, 2%nat); (EPOLLIN, 1%nat)] loop_3.2 with
  | Ok ((_, s), _) => pending_conns_ s = []
  | _ => False
  end.
Proof. vm_compute. reflexivity. Qed.
End witnesses.
