(* ===== verification/ServerProps.v ===== *)
(** * What the server does with events *)

From S2P Require Import Prelude CString StdMap Method Version HeaderParser State Posix RequestHandler Connection ConnectionSpec ConnectionProps Base64 WsFrame WebsocketConnection WebsocketProps Response Router Server ServerSpec EventLoop.
Import HttpHeaderParser.

Section server.
Context {W : Type} `{!Posix W} `{!PosixLaws W} {config : Config} {sha1 : Sha1} {fmt : Fmt} {regex : Regex}.
Implicit Types (c : connection W) (s : server W).

(** ** Lemmas *)

Lemma update_update p c c' s : update_conn p c (update_conn p c' s) = update_conn p c s.
Proof.
  destruct s as [fd sc l rh n]. cbn. f_equal. rewrite map_map. apply map_ext. intros [q d].
  by case_match.
Qed.

Lemma remove_update p c s : remove_conn p (update_conn p c s) = remove_conn p s.
Proof.
  destruct s as [fd sc l rh n]. cbn. f_equal. induction l as [|[q d] l IH]; [done|].
  cbn [map]. rewrite !filter_cons, IH. destruct (decide (p = q)) as [->|Hp].
  - by rewrite !decide_False by auto.
  - by rewrite !decide_True, (proj2 (Nat.eqb_neq p q)).
Qed.

Lemma find_conn_updated p c s :
  live p s -> find_conn p (pending_conns_ (update_conn p c s)) = Some c.
Proof. intros [d Hd]. rewrite find_conn_update, Nat.eqb_refl, Hd. done. Qed.

(** The calls that close descriptor [fd]; it is only closed once it is out of the epoll set. *)
Definition close_calls (pfd fd : Z) (r : errno + Z) (t : list event) : Prop :=
  match r with
  | inl _ => t = [Event (SysEpollDel pfd fd) r]
  | inr _ => exists x, t = [Event (SysEpollDel pfd fd) r; Event (SysClose fd) x]
  end.

Lemma close_Ok p s c w :
  find_conn p (pending_conns_ s) = Some c -> fd_ c <> -1 ->
  exists r t w', close p s w = Ok (match r with inl _ => s | inr _ => remove_conn p s end, w') /\
    after w t w' /\ close_calls (poll_fd s) (fd_ c) r t.
Proof.
  intros Hc Hfd. unfold close, CloseConn. rewrite (proj2 (deref_Ok _ _ _) Hc).
  destruct (call_Ok (SysEpollDel (poll_fd s) (fd_ c)) w) as (r & w1 & E1 & Ha1 & _).
  exists r. unfold mbind, M_bind, lift. rewrite E1. destruct r as [e|n]; [by do 2 eexists|].
  rewrite (proj2 (Z.eqb_neq _ _)) by done.
  destruct (call_Ok (SysClose (fd_ c)) w1) as (r2 & w2 & E2 & Ha2 & _). rewrite E2.
  do 2 eexists. split; [reflexivity|]. split; [by eapply after_trans|]. by exists r2.
Qed.

(** Closing the connection at [p] once [c'] is stored there. *)
Lemma close_updated p c c' s w :
  find_conn p (pending_conns_ s) = Some c -> fd_ c' = fd_ c -> fd_ c <> -1 ->
  exists r t s' w', close p (update_conn p c' s) w = Ok (s', w') /\ after w t w' /\
    close_calls (poll_fd s) (fd_ c) r t /\
    forall q, find_conn q (pending_conns_ s') =
      if (q =? p)%nat then (match r with inl _ => Some c' | inr _ => None end)
      else find_conn q (pending_conns_ s).
Proof.
  intros Hc Hfd' Hfd.
  destruct (close_Ok p (update_conn p c' s) c' w) as (r & t & w' & E & Ha & Ht);
    [apply find_conn_updated; by exists c|congruence|].
  exists r, t. do 2 eexists. split; [exact E|]. split; [done|]. rewrite Hfd' in Ht.
  split; [by destruct s|]. intros q. destruct r.
  - rewrite find_conn_update. destruct (Nat.eqb_spec q p) as [->|]; [|done]. by rewrite Hc.
  - by rewrite remove_update, find_conn_remove.
Qed.

(** An event on a connection that speaks HTTP, once its data is processed. *)
Lemma handle_event_request fuel s events p c w ret c' w1 :
  Some p <> fst <$> server_conn_ s -> Z.land events EPOLLIN <> 0 ->
  find_conn p (pending_conns_ s) = Some c -> ws_conn_ c = None ->
  ProcessDataIn fuel c w = Ok ((ret, c'), w1) -> ret = 0 \/ ret = 1 ->
  handle_event fuel s events p w =
    (s' ← handle_request p c' (ret =? 1) (update_conn p c' s); mret (None, s')) w1 /\
  fd_ c' = fd_ c /\ ws_conn_ c' = None.
Proof.
  intros Hp Hev Hc Hws E Hret. split.
  - unfold handle_event. rewrite bool_decide_eq_false_2 by done.
    rewrite (proj2 (deref_Ok _ _ _) Hc). rewrite M_bind_lift, (proj2 (Z.eqb_neq _ _)) by done.
    rewrite Hws. unfold http_event, mbind, M_bind. cbn [negb]. rewrite E.
    by destruct Hret as [->| ->].
  - pose proof (ProcessDataIn_safe fuel c w Logic.I) as Hf. rewrite E in Hf. cbn in Hf.
    destruct Hf as [[Hf1 Hf2] _]. by rewrite Hf2.
Qed.

(** ** Claims: requests

    Data arrives on connection [p] and completes the header of a request ([ret = 0]) or
    the request ([ret = 1]). *)

Section request.
Context (fuel : nat) (s : server W) (events : Z) (p : nat) (c : connection W) (w : W).
Context (ret : Z) (c' : connection W) (w1 : W).
Hypothesis Hlistener : Some p <> fst <$> server_conn_ s.
Hypothesis Hevents : Z.land events EPOLLIN <> 0.
Hypothesis Hconn : find_conn p (pending_conns_ s) = Some c.
Hypothesis Hhttp : ws_conn_ c = None.
Hypothesis Hdata : ProcessDataIn fuel c w = Ok ((ret, c'), w1).
Hypothesis Hret : ret = 0 \/ ret = 1.

Lemma event_request :
  handle_event fuel s events p w =
    (s' ← handle_request p c' (ret =? 1) (update_conn p c' s); mret (None, s')) w1 /\
  fd_ c' = fd_ c /\ ws_conn_ c' = None.
Proof. by apply handle_event_request. Qed.

Lemma live_conn : live p s.
Proof. by exists c. Qed.

(** Claim C17. A request whose URI no registered URI matches is answered with the 404 response
    and its connection is closed: the calls made are one write of the response, the removal
    from the epoll set and, when that works, the close of the descriptor, and the connection
    is gone from the table with every other one left as it was.  When the removal from the
    epoll set fails the connection stays, descriptor open. *)
Theorem unmatched_uri_gets_404 (regs : list (bytes * request_handler W)) :
  request_handlers s = register_all regs [] -> Forall (fun r => plain_uri r.1) regs ->
  (forall u h, In (u, h) regs -> ~ glob u (until_nul (uri_ (parser c')))) -> fd_ c <> -1 ->
  exists n r t s' w',
    handle_event fuel s events p w = Ok ((None, s'), w') /\
    after w1 (Event (SysWrite (fd_ c) (status_line (version_ (parser c')) 404 (str "Not Found") ++ CRLF)) n :: t) w' /\
    close_calls (poll_fd s) (fd_ c) r t /\
    forall q, find_conn q (pending_conns_ s') =
      if (q =? p)%nat then (match r with inl _ => Some c' | inr _ => None end)
      else find_conn q (pending_conns_ s).
Proof.
  intros Hregs Hplain Hno Hfd. destruct event_request as (-> & Hfd' & Hws').
  set (s1 := update_conn p c' s).
  assert (Hfind : find_conn p (pending_conns_ s1) = Some c') by apply find_conn_updated, live_conn.
  assert (Hh : FindRequestHandler (uri_ (parser c')) (request_handlers s1) = Ok None).
  { unfold FindRequestHandler. replace (request_handlers s1) with (request_handlers s) by (by destruct s).
    rewrite Hregs. destruct (find_registered regs (until_nul (uri_ (parser c'))) Hplain) as ([[k h]|] & -> & Hf); [|done].
    destruct Hf as (u & Hin & _ & Hg & _). by destruct (Hno u h Hin). }
  unfold handle_request. rewrite Hh, M_bind_assoc, M_bind_lift.
  rewrite (MakeResponse_known 404 _ [] [] (str "Not Found")), M_bind_assoc, M_bind_lift by done.
  destruct (Write_Ok (fd_ c') (response_text 404 (version_ (parser c')) [] [] (str "Not Found")) w1)
    as (z & w2 & E & Ha).
  rewrite M_bind_assoc, (M_bind_eq _ _ _ _ _ E). destruct Ha as [n Ha]; [congruence|].
  destruct (close_updated p c c' s w2 Hconn Hfd' Hfd) as (r & t & s' & w3 & Ec & Hac & Ht & Hq).
  unfold s1. rewrite (M_bind_eq _ _ _ _ _ Ec).
  exists n, r, t, s', w3. split; [reflexivity|]. rewrite Hfd' in *.
  split; [by eapply (after_trans _ [_])|done].
Qed.

(** Claim C38. The table of a handler has one slot per recognised method and is indexed with
    the method of the request: a request with a method that is not recognised, whose URI is
    taken to be empty, reads past the end of the table of any handler registered under a
    URI that matches the empty one. *)
Theorem unknown_method_out_of_bounds (regs : list (bytes * request_handler W)) u h :
  request_handlers s = register_all regs [] -> Forall (fun r => plain_uri r.1) regs ->
  Forall (fun r => length (http_handlers r.2) = length (http_handlers (empty_handler W))) regs ->
  In (u, h) regs -> glob u [] ->
  method_ (parser c') = HttpMethod.UNKNOWN -> uri_ (parser c') = [] -> ShouldUpgradeWebsocket c' = false ->
  handle_event fuel s events p w = Fault OutOfBounds.
Proof.
  intros Hregs Hplain Hlen Hin Hg Hm Huri Hup. destruct event_request as (-> & _ & _).
  unfold handle_request. rewrite Huri. unfold FindRequestHandler.
  replace (request_handlers (update_conn p c' s)) with (request_handlers s) by (by destruct s).
  rewrite Hregs. destruct (find_registered regs [] Hplain) as ([[k h']|] & E & Hf).
  - destruct Hf as (u' & Hin' & _). change (until_nul []) with ([] : bytes). rewrite E.
    rewrite M_bind_assoc, M_bind_lift, Hup. unfold run_handler, handler_for. rewrite Hm.
    rewrite List.Forall_forall in Hlen. rewrite lookup_ge_None_2; [done|].
    pose proof (Hlen _ Hin') as Hl. cbn in Hl. rewrite Hl. cbn. lia.
  - by destruct (Hf u h Hin).
Qed.

(** ** Claims: upgrades *)

Context (h : request_handler W) (k : bytes).
Hypothesis Hupgrade : ShouldUpgradeWebsocket c' = true.
Hypothesis Hhandler : FindRequestHandler (uri_ (parser c')) (request_handlers s) = Ok (Some (k, h)).

Lemma event_upgrade :
  handle_event fuel s events p w =
    (s' ← upgrade p c' h (uri_ (parser c')) (update_conn p c' s); mret (None, s')) w1 /\
  fd_ c' = fd_ c /\ ws_conn_ c' = None.
Proof.
  destruct event_request as (-> & Hr). split; [|done]. unfold handle_request.
  replace (request_handlers (update_conn p c' s)) with (request_handlers s) by (by destruct s).
  by rewrite Hhandler, M_bind_assoc, M_bind_lift, Hupgrade.
Qed.

(** Claim C39. An upgrade request for a registered URI that carries none of the three key
    headers, spelled with the very capitals the code looks for, makes the server call a
    method on a null pointer. *)
Theorem upgrade_without_key_faults :
  (forall n, In n ["Sec-WebSocket-Key"; "Sec-WebSocket-Key1"; "Sec-WebSocket-Key2"] ->
     map_find (str n) (headers_ (parser c')) = None) ->
  handle_event fuel s events p w = Fault NullDeref.
Proof.
  intros Hkey. destruct event_upgrade as (-> & _ & Hws). unfold upgrade, UpgradeToWebsocket.
  rewrite Hws. rewrite decide_True; [done|]. unfold find_key, GetHeader.
  rewrite !Hkey by (cbn; tauto). done.
Qed.

(** The 101 response for a key. *)
Definition upgrade_response (v : HttpVersion.http_version) (key : bytes) : bytes :=
  status_line v 101 (str "Switching Protocols") ++
  str "Connection: Upgrade" ++ CRLF ++
  str "Sec-WebSocket-Accept: " ++ rfc4648 (SHA1 (key ++ ws_guid)) ++ CRLF ++
  str "Upgrade: websocket" ++ CRLF ++ CRLF.

(** What the upgrade does from the first hook on, with [ws] as the new WebSocket part. *)
Definition upgrade_with_hooks (ws : ws_connection W) : M W (server W) :=
  let uri := uri_ (parser c') in
  '(n, ws) ← run_hook (ws_connect_hook h) 0 (fd_ c) uri ws;
  if n =? -1 then close p (update_ws p ws c' s) else
  _ ← Write (fd_ c) (upgrade_response (version_ (parser c')) (find_key (parser c')));
  '(n, ws) ← run_hook (ws_ready_hook h) n (fd_ c) uri ws;
  if n =? -1 then close p (update_ws p ws c' s) else mret (update_ws p ws c' s).

Lemma upgrade_runs key :
  key = find_key (parser c') -> key <> [] ->
  exists time w2,
    (match HPL_ENABLE_PING_PONG with Some _ => call SysNow | None => mret 0 end : M W Z) w1 = Ok (time, w2) /\
    after w1 (match HPL_ENABLE_PING_PONG with Some _ => [Event SysNow time] | None => [] end) w2 /\
    handle_event fuel s events p w =
      (s' ← upgrade_with_hooks (WsConn (WsState key (rfc4648 (SHA1 (key ++ ws_guid))) [] time p)
              (ws_message_handler h) (ws_will_close_hook h)); mret (None, s')) w2.
Proof.
  intros -> Hkey. destruct event_upgrade as (-> & Hfd' & Hws).
  assert (Hnow : exists time w2,
    (match HPL_ENABLE_PING_PONG with Some _ => call SysNow | None => mret 0 end : M W Z) w1 = Ok (time, w2) /\
    after w1 (match HPL_ENABLE_PING_PONG with Some _ => [Event SysNow time] | None => [] end) w2).
  { destruct HPL_ENABLE_PING_PONG; [|exists 0, w1; split; [done|apply after_refl]].
    destruct (call_Ok SysNow w1) as (t & w2 & E & Ha & _). by exists t, w2. }
  destruct Hnow as (time & w2 & Enow & Hnow). exists time, w2. do 2 (split; [done|]).
  unfold upgrade, UpgradeToWebsocket. rewrite Hws, decide_False by done.
  unfold new_websocket. rewrite !M_bind_assoc, (M_bind_eq _ _ _ _ _ Enow), !M_bind_ret.
  cbn [of_option]. rewrite M_bind_assoc, M_bind_lift. cbn [ws_st on_data_ will_close_hook_].
  rewrite M_bind_assoc, (M_bind_eq _ _ w2
    (rfc4648 (SHA1 (find_key (parser c') ++ ws_guid)),
     WsState (find_key (parser c')) (rfc4648 (SHA1 (find_key (parser c') ++ ws_guid))) [] time p) w2).
  2:{ unfold run_with, GetWsAccept, mbind, M_bind, get, lift. cbn [ws_accept_ ws_key_].
      by rewrite decide_True, GetWsAcceptByKey_eq. }
  assert (Hu : forall ws0 ws, update_ws p ws (set_ws_conn ws0 c') (update_conn p c' s) = update_ws p ws c' s).
  { intros ws0 ws. unfold update_ws. rewrite update_update. by destruct c'. }
  assert (Hr : MakeResponse 101 (version_ (parser c'))
     [(str "Connection", str "Upgrade");
      (str "Sec-WebSocket-Accept", rfc4648 (SHA1 (find_key (parser c') ++ ws_guid)));
      (str "Upgrade", str "websocket")] [] =
     Ok (upgrade_response (version_ (parser c')) (find_key (parser c')))).
  { rewrite (MakeResponse_known 101 _ _ [] (str "Switching Protocols")) by done.
    unfold upgrade_response, response_text, format_header. cbn [map concat fst snd].
    rewrite decide_False by (by intros []). by rewrite app_nil_r, <- !app_assoc. }
  unfold upgrade_with_hooks. set (ws0 := WsConn _ _ _).
  replace (fd_ (set_ws_conn _ c')) with (fd_ c) by (by rewrite <- Hfd'; destruct c').
  replace (parser (set_ws_conn _ c')) with (parser c') by (by destruct c').
  rewrite Hr. unfold mbind, M_bind, lift.
  destruct (run_hook (ws_connect_hook h) _ _ _ _ _) as [[[n ws] w3]| |]; [|done..].
  rewrite Hu. destruct (n =? -1); [done|]. destruct (Write _ _ _) as [[z w4]| |]; [|done..].
  destruct (run_hook (ws_ready_hook h) _ _ _ _ _) as [[[m ws'] w5]| |]; [|done..]. by rewrite Hu.
Qed.

(** The upgrade of a connection whose URI has neither a connect hook nor a ready hook. *)
Lemma upgrade_answered key v :
  fd_ c <> -1 -> v = version_ (parser c') -> key = find_key (parser c') -> key <> [] ->
  ws_connect_hook h = None -> ws_ready_hook h = None ->
  exists time n ws c2 w',
    handle_event fuel s events p w = Ok ((None, update_conn p c2 s), w') /\
    after w1
      (match HPL_ENABLE_PING_PONG with Some _ => [Event SysNow time] | None => [] end ++
       [Event (SysWrite (fd_ c) (upgrade_response v key)) n]) w' /\
    c2 = set_ws_conn (Some ws) c' /\
    ws = WsConn (WsState key (rfc4648 (SHA1 (key ++ ws_guid))) [] time p)
           (ws_message_handler h) (ws_will_close_hook h).
Proof.
  intros Hfd -> -> Hkey Hch Hrh. destruct (upgrade_runs _ eq_refl Hkey) as (time & w2 & _ & Hnow & ->).
  unfold upgrade_with_hooks. rewrite Hch, Hrh. cbn [run_hook].
  destruct (Write_Ok (fd_ c) (upgrade_response (version_ (parser c')) (find_key (parser c'))) w2) as (z & w3 & E & Ha).
  destruct (Ha Hfd) as [n Hn]. exists time, n. do 3 eexists. split; [|split; [|split; reflexivity]].
  - unfold mbind, M_bind, mret, M_ret. cbn. rewrite E. reflexivity.
  - by eapply after_trans.
Qed.

(** An upgrade request with a key, for a URI with neither a connect hook nor a ready
    hook, is answered with the 101 response that carries the accept key of RFC 6455, in one
    write; the connection stays in the table as a WebSocket connection of that key, with the
    message handler and the close hook of the URI, and nothing else changes. *)
Theorem upgrade_handshake key v :
  fd_ c <> -1 -> v = version_ (parser c') -> key = find_key (parser c') -> key <> [] ->
  ws_connect_hook h = None -> ws_ready_hook h = None ->
  exists time n ws c2 w',
    handle_event fuel s events p w = Ok ((None, update_conn p c2 s), w') /\
    after w1
      (match HPL_ENABLE_PING_PONG with Some _ => [Event SysNow time] | None => [] end ++
       [Event (SysWrite (fd_ c) (upgrade_response v key)) n]) w' /\
    c2 = set_ws_conn (Some ws) c' /\
    ws = WsConn (WsState key (rfc4648 (SHA1 (key ++ ws_guid))) [] time p)
           (ws_message_handler h) (ws_will_close_hook h).
Proof. apply upgrade_answered. Qed.
End request.

(** ** A connection that was closed *)

(** It is out of the table. *)
Lemma CloseConn_gone p s w s' w' :
  CloseConn p s w = Ok ((0, s'), w') -> find_conn p (pending_conns_ s') = None.
Proof.
  unfold CloseConn. destruct (deref p s) as [c| |]; [|done..]. rewrite M_bind_lift.
  destruct (call_Ok (SysEpollDel (poll_fd s) (fd_ c)) w) as (r & w1 & E1 & _).
  rewrite (M_bind_eq _ _ _ _ _ E1). destruct r; [done|]. unfold mbind, M_bind.
  match goal with |- match ?m with _ => _ end = _ -> _ => destruct m as [[[] ?]| |]; [|done..] end.
  intros [= <- _]. by rewrite find_conn_remove, Nat.eqb_refl.
Qed.

(** ** Claims: new connections *)

Definition is_close (x : event) : bool :=
  match ev_call x with SysClose _ => true | _ => false end.

Lemma setnonblocking_Ok fd (w : W) :
  exists r t w', setnonblocking fd w = Ok (r, w') /\ after w t w' /\ Forall (fun x => is_close x = false) t.
Proof.
  unfold setnonblocking. destruct (call_Ok (SysGetFl fd) w) as (r & w1 & E & Ha & _).
  rewrite (M_bind_eq _ _ _ _ _ E).
  assert (Hd : forall z, exists t r' w', (mret z : M W Z) w1 = Ok (r', w') /\ after w t w' /\
             Forall (fun x => is_close x = false) t).
  { intros z. do 3 eexists. split; [reflexivity|]. split; [exact Ha|]. by repeat constructor. }
  destruct r as [e|flags]; [destruct (Hd (-1)) as (t & ?); naive_solver|].
  case_match; [destruct (Hd 0) as (t & ?); naive_solver|]. clear Hd.
  destruct (call_Ok (SysSetFl fd (Z.lor flags O_NONBLOCK)) w1) as (r & w2 & E2 & Ha2 & _).
  rewrite (M_bind_eq _ _ _ _ _ E2).
  destruct r; do 3 eexists; (split; [reflexivity|]); (split; [by eapply after_trans|]);
    by repeat constructor.
Qed.

(** Claim C29. An event on the listener accepts one connection.  Either nothing was accepted and
    the server is as before; or the new descriptor is registered with the poll under the
    pointer of a fresh connection, which is appended to the table; or a call on the new
    descriptor failed, the table is as before and the descriptor stays open, since no call
    closes anything.  A failing registration makes [Poll] return -4. *)
Theorem accept_adds_one_or_leaks s q sc w :
  server_conn_ s = Some (q, sc) ->
  exists a ret s' t w', accept_event s w = Ok ((ret, s'), w') /\
    after w (Event (SysAccept (fd_ sc)) a :: t) w' /\ Forall (fun x => is_close x = false) t /\
    match a with
    | inl _ => ret = None /\ s' = s /\ t = []
    | inr fd =>
        (pending_conns_ s' = pending_conns_ s ++ [(next_ptr s, make fd)] /\ next_ptr s' = S (next_ptr s) /\
         ret = None /\ exists flags n t', t = t' ++ [Event (SysEpollAdd (poll_fd s) fd flags (next_ptr s)) (inr n)]) \/
        (pending_conns_ s' = pending_conns_ s /\
         ((ret = None /\ exists e, t = [Event (SysSetsockopt fd SO_KEEPALIVE) (inl e)]) \/
          (ret = Some (-4) /\ exists flags e t',
             t = t' ++ [Event (SysEpollAdd (poll_fd s) fd flags (next_ptr s)) (inl e)])))
    end.
Proof.
  intros Hs. unfold accept_event, AcceptNewConnection. rewrite Hs. cbn [of_option].
  rewrite M_bind_assoc, M_bind_lift.
  destruct (call_Ok (SysAccept (fd_ sc)) w) as (a & w1 & E1 & Ha1 & _). exists a.
  rewrite M_bind_assoc, (M_bind_eq _ _ _ _ _ E1).
  destruct a as [e|fd]; [by exists None, s, [], w1|].
  destruct (call_Ok (SysSetsockopt fd SO_KEEPALIVE) w1) as (r & w2 & E2 & Ha2 & _).
  rewrite M_bind_assoc, (M_bind_eq _ _ _ _ _ E2). pose proof (after_trans _ _ _ _ _ Ha1 Ha2) as Ha.
  destruct r as [e|n].
  { do 4 eexists. split; [reflexivity|]. split; [exact Ha|]. split; [by repeat constructor|].
    right. split; [done|]. left. split; [done|]. by exists e. }
  destruct (setnonblocking_Ok fd w2) as (r & t3 & w3 & E3 & Ha3 & Ht3).
  rewrite M_bind_assoc, (M_bind_eq _ _ _ _ _ E3). destruct s as [pfd sc' l rh ptr].
  cbn [new_connection]. rewrite M_bind_ret. cbn [fd_ make poll_fd].
  match goal with |- context [SysEpollAdd pfd fd ?flags ptr] =>
    destruct (call_Ok (SysEpollAdd pfd fd flags ptr) w3) as (r4 & w4 & E4 & Ha4 & _) end.
  rewrite (M_bind_eq _ _ _ _ _ E4).
  pose proof (after_trans _ _ _ _ _ (after_trans _ _ _ _ _ Ha Ha3) Ha4) as Hall.
  assert (Hc : forall x : event, is_close x = false -> Forall (fun x => is_close x = false)
    ((Event (SysSetsockopt fd SO_KEEPALIVE) (inr n) :: t3) ++ [x])).
  { intros x Hx. apply Forall_app. split; by repeat constructor. }
  destruct r4 as [e|m]; do 4 eexists; (split; [reflexivity|]); (split; [exact Hall|]);
    (split; [by apply Hc|]).
  - right. split; [done|]. right. split; [done|]. eexists _, e, (_ :: t3). reflexivity.
  - left. do 3 (split; [done|]). eexists _, m, (_ :: t3). reflexivity.
Qed.
End server.

(** ** What leaves the state of an application alone *)

Section app.
Context {X K : Type} `{!Posix K} `{!PosixLaws K}.
#[local] Abbreviation W := (with_app X K).
Implicit Types (s : server W) (w : W).

Lemma Write_app fd text w r w' : Write fd text w = Ok (r, w') -> app_state w' = app_state w.
Proof.
  unfold Write. case_match; [by intros [= _ <-]|].
  destruct (call_Ok (SysWrite fd text) w) as (a & w1 & E & _). rewrite (M_bind_eq _ _ _ _ _ E).
  intros HR. rewrite <- (call_app _ _ _ _ E). destruct a as [[]|]; by injection HR as _ <-.
Qed.

Lemma CloseConn_app p s w r w' : CloseConn p s w = Ok (r, w') -> app_state w' = app_state w.
Proof.
  unfold CloseConn. destruct (deref p s) as [c| |]; [|done..]. rewrite M_bind_lift.
  destruct (call_Ok (SysEpollDel (poll_fd s) (fd_ c)) w) as (a & w1 & E1 & _).
  rewrite (M_bind_eq _ _ _ _ _ E1), <- (call_app _ _ _ _ E1).
  destruct a; [by intros [= _ <-]|]. case_match; [by intros [= _ <-]|].
  destruct (call_Ok (SysClose (fd_ c)) w1) as (b & w2 & E2 & _).
  rewrite M_bind_assoc, (M_bind_eq _ _ _ _ _ E2), <- (call_app _ _ _ _ E2). by intros [= _ <-].
Qed.
End app.

(** ** Witnesses, on the scripted kernel *)

Section witnesses.
#[local] Existing Instance httpoll_mk.
#[local] Existing Instance Fips180.fips180.
#[local] Existing Instance Decimal.decimal_fmt.
#[local] Existing Instance Matcher.matcher.

(** An entry for WebSockets only. *)
Definition ws_entry : request_handler sim :=
  RequestHandler (http_handlers (empty_handler sim)) None None None (Some echo).

(** A server with the listener 4 (pointer 0) and two clients, on descriptors 7 and 8. *)
Definition demo_server : server sim :=
  Server 3 (Some (0%nat, make 4)) [(1%nat, make 7); (2%nat, make 8)]
    (register_all [(str "/hello", echo_entry); (str "/ws", ws_entry)] []) 3.

Definition request (l : bytes) (hs : list bytes) : bytes :=
  l ++ CRLF ++ concat (map (fun h => h ++ CRLF) hs) ++ CRLF.

(** A whole life: the server starts, a client connects, sends a request, and gets its answer. *)
Example first_request :
  match Init None 8080 10 (new_server : server sim) (Sim [(7, inr (request (str "GET /hello HTTP/1.1") []))] 1024
          [[(EPOLLIN, 0%nat)]; [(EPOLLIN, 1%nat)]] [inr 7] [] 0 []) with
  | Ok ((0, s), w) =>
      match Poll 10 1000 (Register (str "/hello") echo_entry s) w with
      | Ok ((1, s), w) =>
          match Poll 10 1000 s w with
          | Ok ((1, s), w) =>
              sent 7 (sim_trace w) = str "HTTP/1.1 200 OK" ++ CRLF ++ CRLF /\
              received 7 (sim_trace w) = request (str "GET /hello HTTP/1.1") [] /\
              map fst (pending_conns_ s) = [1%nat]
          | _ => False
          end
      | _ => False
      end
  | _ => False
  end.
Proof. vm_compute. done. Qed.

Definition kernel_of (l : list (Z * bytes)) : sim :=
  Sim (map (fun '(fd, d) => (fd, inr d)) l) 1024 [] [inr 9] [] 0 [].

Definition client : connection sim := make 7.
Definition processed_1 (w : sim) : connection sim * sim :=
  match ProcessDataIn 10 client w with Ok ((_, c), w) => (c, w) | _ => (client, w) end.

Definition nothing_kernel := kernel_of [(7, request (str "GET /nothing HTTP/1.1") [])].
Definition nothing_read := Eval vm_compute in processed_1 nothing_kernel.

Lemma unmatched_uri_gets_404_witness :
  exists n r t s' w',
    handle_event 10 demo_server EPOLLIN 1 nothing_kernel = Ok ((None, s'), w') /\
    after nothing_read.2 (Event (SysWrite 7 (status_line HttpVersion.HTTP_1_1 404 (str "Not Found") ++ CRLF)) n :: t) w' /\
    close_calls 3 7 r t /\
    forall q, find_conn q (pending_conns_ s') =
      if (q =? 1)%nat then (match r with inl _ => Some nothing_read.1 | inr _ => None end)
      else find_conn q (pending_conns_ demo_server).
Proof.
  apply (unmatched_uri_gets_404 10 demo_server EPOLLIN 1 client nothing_kernel 1 nothing_read.1 nothing_read.2)
    with (regs := [(str "/hello", echo_entry); (str "/ws", ws_entry)]);
    [done|done|done|done|vm_compute; reflexivity|by right|done| | |done].
  - repeat constructor; cbn; apply (bool_decide_unpack _); vm_compute; exact Logic.I.
  - intros u h [[= <- <-]|[[= <- <-]|[]]] Hg; apply atoms_match_glob, Matcher.matches_spec in Hg;
      vm_compute in Hg; discriminate.
Defined.

(** A server with a handler for every URI. *)
Definition star_server : server sim :=
  Server 3 (Some (0%nat, make 4)) [(1%nat, make 7)] (register_all [(str "*", echo_entry)] []) 2.
Definition delete_kernel := kernel_of [(7, request (str "DELETE /hello HTTP/1.1") [])].
Definition delete_read := Eval vm_compute in processed_1 delete_kernel.

Lemma unknown_method_out_of_bounds_witness :
  handle_event 10 star_server EPOLLIN 1 delete_kernel = Fault OutOfBounds.
Proof.
  apply (unknown_method_out_of_bounds 10 star_server EPOLLIN 1 client delete_kernel 1 delete_read.1 delete_read.2)
    with (regs := [(str "*", echo_entry)]) (u := str "*") (h := echo_entry);
    [done|done|done|done|vm_compute; reflexivity|by right|done| | |by left| |done..].
  - repeat constructor; cbn; apply (bool_decide_unpack _); vm_compute; exact Logic.I.
  - by repeat constructor.
  - apply atoms_match_glob, Matcher.matches_spec. vm_compute. reflexivity.
Defined.

Definition upgrade_request (key : string) : bytes :=
  request (str "GET /ws HTTP/1.1")
    [str "Connection: Upgrade"; str "Upgrade: websocket"; str key ++ str ": dGhlIHNhbXBsZSBub25jZQ=="].
Definition lower_kernel := kernel_of [(7, upgrade_request "sec-websocket-key")].
Definition lower_read := Eval vm_compute in processed_1 lower_kernel.
Definition upgrade_kernel := kernel_of [(7, upgrade_request "Sec-WebSocket-Key")].
Definition upgrade_read := Eval vm_compute in processed_1 upgrade_kernel.

Lemma upgrade_without_key_faults_witness :
  handle_event 10 demo_server EPOLLIN 1 lower_kernel = Fault NullDeref.
Proof.
  apply (upgrade_without_key_faults 10 demo_server EPOLLIN 1 client lower_kernel 1 lower_read.1 lower_read.2)
    with (h := ws_entry) (k := str "/ws");
    [done|done|done|done|vm_compute; reflexivity|by right|vm_compute; reflexivity|vm_compute; reflexivity|].
  intros n [<-|[<-|[<-|[]]]]; vm_compute; reflexivity.
Defined.

Lemma upgrade_handshake_witness :
  exists time n ws c2 w',
    handle_event 10 demo_server EPOLLIN 1 upgrade_kernel = Ok ((None, update_conn 1 c2 demo_server), w') /\
    after upgrade_read.2
      ([Event SysNow time] ++
       [Event (SysWrite 7
          (status_line HttpVersion.HTTP_1_1 101 (str "Switching Protocols") ++
           str "Connection: Upgrade" ++ CRLF ++
           str "Sec-WebSocket-Accept: " ++ rfc4648 (SHA1 (str "dGhlIHNhbXBsZSBub25jZQ==" ++ ws_guid)) ++ CRLF ++
           str "Upgrade: websocket" ++ CRLF ++ CRLF)) n]) w' /\
    c2 = set_ws_conn (Some ws) upgrade_read.1 /\
    ws = WsConn (WsState (str "dGhlIHNhbXBsZSBub25jZQ==")
           (rfc4648 (SHA1 (str "dGhlIHNhbXBsZSBub25jZQ==" ++ ws_guid))) [] time 1) (Some echo) None.
Proof.
  assert (E : ProcessDataIn 10 client upgrade_kernel = Ok ((1, upgrade_read.1), upgrade_read.2))
    by (vm_compute; reflexivity).
  assert (Hu : ShouldUpgradeWebsocket upgrade_read.1 = true) by (vm_compute; reflexivity).
  assert (Hf : FindRequestHandler (uri_ (parser upgrade_read.1)) (request_handlers demo_server) =
               Ok (Some (str "/ws", ws_entry))) by (vm_compute; reflexivity).
  assert (Hk : str "dGhlIHNhbXBsZSBub25jZQ==" = find_key (parser upgrade_read.1)) by (vm_compute; reflexivity).
  pose proof (upgrade_handshake 10 demo_server EPOLLIN 1 client upgrade_kernel 1 upgrade_read.1 upgrade_read.2
    ltac:(done) ltac:(done) eq_refl eq_refl E (or_intror eq_refl) ws_entry (str "/ws") Hu Hf
    (str "dGhlIHNhbXBsZSBub25jZQ==") HttpVersion.HTTP_1_1 ltac:(done) eq_refl Hk ltac:(done) eq_refl eq_refl) as Hx.
  exact Hx.
Defined.

Lemma accept_adds_one_or_leaks_witness :
  exists a ret s' t w', accept_event demo_server nothing_kernel = Ok ((ret, s'), w') /\
    after nothing_kernel (Event (SysAccept 4) a :: t) w' /\ Forall (fun x => is_close x = false) t /\
    match a with
    | inl _ => ret = None /\ s' = demo_server /\ t = []
    | inr fd =>
        (pending_conns_ s' = pending_conns_ demo_server ++ [(3%nat, make fd)] /\ next_ptr s' = 4%nat /\
         ret = None /\ exists flags n t', t = t' ++ [Event (SysEpollAdd 3 fd flags 3) (inr n)]) \/
        (pending_conns_ s' = pending_conns_ demo_server /\
         ((ret = None /\ exists e, t = [Event (SysSetsockopt fd SO_KEEPALIVE) (inl e)]) \/
          (ret = Some (-4) /\ exists flags e t',
             t = t' ++ [Event (SysEpollAdd 3 fd flags 3) (inl e)])))
    end.
Proof. exact (accept_adds_one_or_leaks demo_server 0 (make 4) nothing_kernel eq_refl). Defined.
End witnesses.
