(* ===== verification/BroadcastGroup.v ===== *)
(** * Broadcast groups: src/hpl_broadcast_group.h and .cc

    A member is a [WebsocketConnection *], a plain pointer that nothing clears when the server
    destroys the connection.  [descriptor p] is [p->conn_->GetDescriptor()], [None] once the
    object is gone; a pointer is the number of the connection, as in Server. *)

From S2P Require Import Prelude State Posix ConnectionSpec RequestHandler WsFrame Server.

Record broadcast_group := Group {
  pipefd_ : Z * Z;                        (* read end, write end *)
  connections_ : list ((Z * Z) * nat)
}.

Definition set_connections l '(Group fds _) := Group fds l.

Section group.
Context {W : Type} `{!Posix W}.

(** The connections as they are when one of the operations runs. *)
Context (descriptor : nat -> option Z).

Definition get_descriptor (p : nat) : M W Z := lift (of_option UseAfterFree (descriptor p)).

Definition nonblocking_pipe_ends (fds : Z * Z) : M W unit :=
  _ ← call (SysSetFl fds.1 O_NONBLOCK);
  _ ← call (SysSetFl fds.2 O_NONBLOCK);
  mret tt.

(** [BroadcastGroup::BroadcastGroup]: a failing [pipe] leaves the descriptors at -1. *)
Definition new_group : M W broadcast_group :=
  ret ← call SysPipe;
  let fds := match ret with inl _ => (-1, -1) | inr fds => fds end in
  _ ← nonblocking_pipe_ends fds;
  mret (Group fds []).

Definition close_fd (fd : Z) : M W unit := _ ← call (SysClose fd); mret tt.

Fixpoint close_pipes (l : list ((Z * Z) * nat)) : M W unit :=
  match l with
  | [] => mret tt
  | (fds, _) :: l => _ ← close_fd fds.1; _ ← close_fd fds.2; close_pipes l
  end.

(** [BroadcastGroup::~BroadcastGroup]. *)
Definition delete_group (g : broadcast_group) : M W unit :=
  _ ← (if (pipefd_ g).1 =? -1 then mret tt else close_fd (pipefd_ g).1);
  _ ← (if (pipefd_ g).2 =? -1 then mret tt else close_fd (pipefd_ g).2);
  close_pipes (connections_ g).

(** [None] is the null pointer; that [setsockopt] fails is only logged. *)
Definition Join (connection : option nat) (g : broadcast_group) : M W (Z * broadcast_group) :=
  match connection with
  | None => mret (-1, g)
  | Some p =>
      fd ← get_descriptor p;
      _ ← call (SysSetsockopt fd SO_ZEROCOPY);
      ret ← call SysPipe;
      match ret with
      | inl _ => mret (-1, g)
      | inr pipes =>
          _ ← nonblocking_pipe_ends pipes;
          mret (0, set_connections (connections_ g ++ [(pipes, p)]) g)
      end
  end.

(** The first member with this pointer, with the list without it. *)
Fixpoint find_member (p : nat) (l : list ((Z * Z) * nat))
  : option ((Z * Z) * list ((Z * Z) * nat)) :=
  match l with
  | [] => None
  | (fds, q) :: l =>
      if (q =? p)%nat then Some (fds, l) else
      match find_member p l with
      | Some (fds', l') => Some (fds', (fds, q) :: l')
      | None => None
      end
  end.

Definition Leave (p : nat) (g : broadcast_group) : M W (Z * broadcast_group) :=
  match find_member p (connections_ g) with
  | None => mret (-1, g)
  | Some (fds, l) =>
      _ ← close_fd fds.1;
      _ ← close_fd fds.2;
      mret (0, set_connections l g)
  end.

(** The loops of [Broadcast]: copies of what is in the pipe, for all members but the last, and
    from the pipe of each member to its socket.  What the calls return is not looked at. *)
Fixpoint tee_loop (fd_in n : Z) (l : list ((Z * Z) * nat)) : M W unit :=
  match l with
  | [] => mret tt
  | (fds, _) :: l => _ ← call (SysTee fd_in fds.2 n); tee_loop fd_in n l
  end.

Fixpoint splice_loop (n : Z) (l : list ((Z * Z) * nat)) : M W unit :=
  match l with
  | [] => mret tt
  | (fds, p) :: l =>
      fd ← get_descriptor p;
      _ ← call (SysSplice fds.1 fd n);
      splice_loop n l
  end.

Definition Broadcast (data : bytes) (msg_type : Z) (g : broadcast_group) : M W Z :=
  if ((pipefd_ g).1 =? -1) || ((pipefd_ g).2 =? -1) then mret (-1) else
  match last (connections_ g) with
  | None => mret 0
  | Some (last_fds, _) =>
      let '(header, header_len) := MakeWebsocketHeader (Z.of_nat (length data)) msg_type in
      ret ← call (SysWrite (pipefd_ g).2 (take (Z.to_nat header_len) header));
      match ret with
      | inl _ => mret (-1)
      | inr _ =>
          ret ← call (SysWrite (pipefd_ g).2 data);
          match ret with
          | inl _ => mret (-1)
          | inr _ =>
              let n := u64 (header_len + Z.of_nat (length data)) in
              _ ← tee_loop (pipefd_ g).1 n (removelast (connections_ g));
              _ ← call (SysSplice (pipefd_ g).1 last_fds.2 n);
              _ ← splice_loop n (connections_ g);
              mret 0
          end
      end
  end.
End group.

(** ** What calls do to pipes and sockets

    [content fd] is what is in the pipe with read end [fd], or what was given to socket [fd];
    [pipe_of] takes the write end of a pipe to its read end, and a socket to itself. *)

Section pipes.
Context (pipe_of : Z -> Z).

Definition content : Type := Z -> bytes.

Definition append (fd : Z) (d : bytes) (s : content) : content :=
  fun x => if x =? fd then s x ++ d else s x.
Definition clear (fd : Z) (n : nat) (s : content) : content :=
  fun x => if x =? fd then drop n (s x) else s x.

Definition effect (x : event) (s : content) : content :=
  let 'Event e r := x in
  match e in sysE A return A -> content with
  | SysWrite fd d => fun r =>
      match r with inr n => append (pipe_of fd) (take (Z.to_nat n) d) s | inl _ => s end
  | SysTee i o _ => fun r =>
      match r with inr n => append (pipe_of o) (take (Z.to_nat n) (s i)) s | inl _ => s end
  | SysSplice i o _ => fun r =>
      match r with
      | inr n => append (pipe_of o) (take (Z.to_nat n) (s i)) (clear i (Z.to_nat n) s)
      | inl _ => s
      end
  | _ => fun _ => s
  end r.

(** A call that moved all it was asked to, of what there was. *)
Definition complete (x : event) (s : content) : Prop :=
  let 'Event e r := x in
  match e in sysE A return A -> Prop with
  | SysWrite _ d => fun r => r = inr (Z.of_nat (length d))
  | SysTee i _ n | SysSplice i _ n => fun r => r = inr (Z.min n (Z.of_nat (length (s i))))
  | _ => fun _ => True
  end r.

Fixpoint effects (t : list event) (s : content) : content :=
  match t with [] => s | x :: t => effects t (effect x s) end.

Fixpoint all_complete (t : list event) (s : content) : Prop :=
  match t with [] => True | x :: t => complete x s /\ all_complete t (effect x s) end.

Lemma effects_app t t' s : effects (t ++ t') s = effects t' (effects t s).
Proof. revert s. induction t as [|x t IH]; intros s; [done|apply IH]. Qed.

Lemma all_complete_app t t' s :
  all_complete (t ++ t') s <-> all_complete t s /\ all_complete t' (effects t s).
Proof.
  revert s. induction t as [|x t IH]; intros s; cbn [app all_complete effects]; [tauto|].
  rewrite IH. tauto.
Qed.

Lemma write_complete fd d r s :
  complete (Event (SysWrite fd d) r) s -> effect (Event (SysWrite fd d) r) s = append (pipe_of fd) d s.
Proof. intros ->. cbn. by rewrite Nat2Z.id, firstn_all. Qed.

(** With at most [n] bytes in the pipe, everything moves. *)
Lemma tee_complete i o n r s :
  Z.of_nat (length (s i)) <= n -> complete (Event (SysTee i o n) r) s ->
  effect (Event (SysTee i o n) r) s = append (pipe_of o) (s i) s.
Proof. intros Hn ->. cbn. by rewrite Z.min_r, Nat2Z.id, firstn_all by done. Qed.

Lemma splice_complete i o n r s :
  Z.of_nat (length (s i)) <= n -> complete (Event (SysSplice i o n) r) s ->
  forall x, effect (Event (SysSplice i o n) r) s x =
    (if x =? i then [] else s x) ++ (if x =? pipe_of o then s i else []).
Proof.
  intros Hn -> x. cbn. rewrite Z.min_r, Nat2Z.id, firstn_all by done. unfold append, clear.
  repeat case_match; rewrite ?app_nil_r; try done.
  all: repeat match goal with H : (_ =? _) = true |- _ => apply Z.eqb_eq in H end; subst;
    by rewrite drop_all.
Qed.
End pipes.

(** ** Delivery *)

Section delivery.
Context {W : Type} `{!Posix W} `{!PosixLaws W} (pipe_of : Z -> Z) (descriptor : nat -> option Z).
Implicit Types (l : list ((Z * Z) * nat)) (s : content) (w : W).

Definition reads l : list Z := map (fun m => m.1.1) l.

(** The pipes of the members have two ends. *)
Definition plumbed l : Prop := Forall (fun m => pipe_of m.1.2 = m.1.1) l.

(** What socket [x] gets: a copy of the frame for each time it is in the list. *)
Definition copies (frame : bytes) (fds : list Z) (x : Z) : bytes :=
  concat (map (fun fd => if x =? fd then frame else []) fds).

Lemma copies_none frame fds x : x ∉ fds -> copies frame fds x = [].
Proof.
  induction fds as [|fd fds IH]; [done|]. rewrite not_elem_of_cons. intros [Hx Hr].
  unfold copies in *. cbn [map concat]. by rewrite (proj2 (Z.eqb_neq _ _)), IH.
Qed.

Lemma tee_loop_Ok r0 n l : forall w, plumbed l ->
  exists t w', tee_loop r0 n l w = Ok (tt, w') /\ after w t w' /\ (forall fd, sent fd t = []) /\
    forall s, all_complete pipe_of t s -> r0 ∉ reads l -> NoDup (reads l) ->
      Z.of_nat (length (s r0)) <= n ->
      forall x, effects pipe_of t s x = s x ++ (if decide (x ∈ reads l) then s r0 else []).
Proof.
  induction l as [|[[r v] p] l IH]; intros w Hl.
  - exists [], w. do 2 (split; [done || apply after_refl|]). split; [done|].
    intros s _ _ _ _ x. cbn. by rewrite app_nil_r.
  - apply Forall_cons in Hl as [Hv Hl]. cbn in Hv. cbn [tee_loop fst snd].
    destruct (call_Ok (SysTee r0 v n) w) as (a & w1 & E & Ha & _). rewrite (M_bind_eq _ _ _ _ _ E).
    destruct (IH w1 Hl) as (t & w2 & Et & Hat & Hsent & Heff).
    exists (Event (SysTee r0 v n) a :: t), w2. split; [done|].
    split; [by eapply (after_trans _ [_])|]. split; [exact Hsent|].
    intros s [Hc Hcs] Hr0 Hnd Hn x. cbn [reads map fst] in *. fold (reads l) in *.
    apply not_elem_of_cons in Hr0 as [Hne Hr0]. apply NoDup_cons in Hnd as [Hr Hnd].
    cbn [effects] in *. rewrite tee_complete in * by done. rewrite Hv in *.
    assert (Es : append r (s r0) s r0 = s r0) by (unfold append; by rewrite (proj2 (Z.eqb_neq _ _))).
    rewrite Heff by (rewrite ?Es; done). rewrite Es. unfold append.
    destruct (Z.eqb_spec x r) as [->|Hx].
    + rewrite (decide_False _ _ Hr), decide_True by (by left). by rewrite app_nil_r.
    + f_equal. apply decide_ext. rewrite elem_of_cons. tauto.
Qed.

Lemma splice_loop_Ok n l : forall fds w, mapM descriptor l.*2 = Some fds ->
  exists t w', splice_loop descriptor n l w = Ok (tt, w') /\ after w t w' /\ (forall fd, sent fd t = []) /\
    forall s frame, all_complete pipe_of t s -> NoDup (reads l) ->
      (forall r, r ∈ reads l -> s r = frame) -> Z.of_nat (length frame) <= n ->
      Forall (fun fd => pipe_of fd = fd /\ fd ∉ reads l) fds ->
      forall x, effects pipe_of t s x = if decide (x ∈ reads l) then [] else s x ++ copies frame fds x.
Proof.
  induction l as [|[[r v] p] l IH]; intros fds w Hfds.
  - injection Hfds as <-. exists [], w. do 2 (split; [done || apply after_refl|]). split; [done|].
    intros s frame _ _ _ _ _ x. cbn. by rewrite app_nil_r.
  - cbn in Hfds. destruct (descriptor p) as [fd|] eqn:Ep; [|done]. cbn in Hfds.
    destruct (mapM descriptor l.*2) as [fds'|] eqn:El; [|done]. injection Hfds as <-.
    cbn [splice_loop fst snd]. unfold get_descriptor. rewrite Ep. cbn [of_option]. rewrite M_bind_lift.
    destruct (call_Ok (SysSplice r fd n) w) as (a & w1 & E & Ha & _). rewrite (M_bind_eq _ _ _ _ _ E).
    destruct (IH fds' w1 eq_refl) as (t & w2 & Et & Hat & Hsent & Heff).
    exists (Event (SysSplice r fd n) a :: t), w2. split; [done|].
    split; [by eapply (after_trans _ [_])|]. split; [exact Hsent|].
    intros s frame [Hc Hcs] Hnd Hs Hn Hall x. cbn [reads map fst] in *. fold (reads l) in *.
    apply NoDup_cons in Hnd as [Hr Hnd]. apply Forall_cons in Hall as [[Hpipe Hfd] Hall].
    assert (Hsr : s r = frame) by (apply Hs; by left).
    assert (Hs1 : forall y, effect pipe_of (Event (SysSplice r fd n) a) s y =
              (if y =? r then [] else s y) ++ (if y =? fd then frame else [])).
    { intros y. rewrite splice_complete by (rewrite ?Hsr; done). by rewrite Hpipe, Hsr. }
    apply not_elem_of_cons in Hfd as [Hfr Hfl].
    cbn [effects]. rewrite (Heff _ frame); [|done|done| |done|].
    + destruct (decide (x ∈ reads l)) as [Hx|Hx]; [by rewrite decide_True by (by right)|].
      rewrite Hs1. destruct (Z.eqb_spec x r) as [->|Hxr].
      * rewrite decide_True by (by left). rewrite (proj2 (Z.eqb_neq _ _)) by done. cbn [app].
        apply copies_none. intros Hin. rewrite Forall_forall in Hall.
        destruct (Hall _ Hin) as [_ Hn2]. apply Hn2. by left.
      * rewrite decide_False by (by rewrite elem_of_cons; intros []). unfold copies. cbn [map concat].
        by rewrite <- app_assoc.
    + intros y Hy. rewrite Hs1. rewrite (proj2 (Z.eqb_neq y r)), (proj2 (Z.eqb_neq y fd)) by (by intros ->).
      rewrite app_nil_r. apply Hs. by right.
    + apply (Forall_impl _ _ _ Hall). intros z [Hz1 Hz2]. split; [done|]. rewrite not_elem_of_cons in Hz2. tauto.
Qed.

(** A broadcast frame. *)
Definition broadcast_frame (data : bytes) (type : Z) : bytes :=
  header_bytes (MakeWebsocketHeader (Z.of_nat (length data)) type) ++ data.

Lemma header_bytes_length len type :
  Z.of_nat (length (header_bytes (MakeWebsocketHeader len type))) = (MakeWebsocketHeader len type).2 /\
  (MakeWebsocketHeader len type).2 <= 6.
Proof.
  unfold MakeWebsocketHeader, header_bytes, set_header. repeat case_match; cbn [fst snd];
    rewrite length_take, !length_insert, length_replicate; lia.
Qed.

Lemma sent_write fd fd' d r (t : list event) :
  r = inr (Z.of_nat (length d)) ->
  sent fd (Event (SysWrite fd' d) r :: t) = (if fd =? fd' then d else []) ++ sent fd t.
Proof.
  intros ->. unfold sent. cbn [map concat sent_by]. f_equal. rewrite Z.eqb_sym.
  case_match; [by rewrite Nat2Z.id, firstn_all|done].
Qed.

(** The frame is in the pipe of the group: what is there after the tees and the splice to the
    last member. *)
Lemma spread_contents r0 n ms r v p frame t3 a4 s :
  NoDup (r0 :: reads (ms ++ [((r, v), p)])) -> pipe_of v = r ->
  s r0 = frame -> (forall x, x ∈ reads (ms ++ [((r, v), p)]) -> s x = []) ->
  Z.of_nat (length frame) <= n ->
  (forall x, effects pipe_of t3 s x = s x ++ (if decide (x ∈ reads ms) then s r0 else [])) ->
  complete (Event (SysSplice r0 v n) a4) (effects pipe_of t3 s) ->
  forall x, effects pipe_of (t3 ++ [Event (SysSplice r0 v n) a4]) s x =
    if decide (x = r0) then [] else if decide (x ∈ reads (ms ++ [((r, v), p)])) then frame else s x.
Proof.
  intros Hnd Hv Hr0 Hempty Hn H3 Hc x. unfold reads in Hnd, Hempty |- *. rewrite map_app in *.
  fold (reads ms) in *. cbn [map fst] in *.
  apply NoDup_cons in Hnd as [Hnr0 Hnd]. apply NoDup_app in Hnd as (_ & Hd & _).
  rewrite elem_of_app, list_elem_of_singleton in Hnr0.
  assert (H3r0 : effects pipe_of t3 s r0 = frame) by (by rewrite H3, decide_False, app_nil_r by tauto).
  rewrite effects_app. cbn [effects]. rewrite splice_complete by (by rewrite ?H3r0).
  rewrite Hv, H3r0. destruct (Z.eqb_spec x r0) as [->|Hx].
  - rewrite decide_True, (proj2 (Z.eqb_neq _ _)) by (done || intros ->; tauto). done.
  - rewrite (decide_False _ _ Hx), H3, Hr0. destruct (Z.eqb_spec x r) as [->|Hxr].
    + rewrite decide_False by (intros Hin; apply (Hd r Hin); by left).
      assert (Hin : r ∈ reads ms ++ [r]) by (apply elem_of_app; right; by left).
      by rewrite decide_True, Hempty.
    + rewrite app_nil_r. destruct (decide (x ∈ reads ms)) as [Hin|Hin].
      * assert (Hin' : x ∈ reads ms ++ [r]) by (apply elem_of_app; by left).
        by rewrite decide_True, Hempty.
      * rewrite decide_False, app_nil_r; [done|]. rewrite elem_of_app, list_elem_of_singleton. tauto.
Qed.

(** The part of [Broadcast] after the writes. *)
Lemma spread_Ok r0 n l r v p fds w :
  last l = Some ((r, v), p) -> plumbed l -> mapM descriptor l.*2 = Some fds ->
  exists t w',
    (forall B (k : unit -> M W B),
      (_ ← tee_loop r0 n (removelast l); _ ← call (SysSplice r0 v n); x ← splice_loop descriptor n l; k x) w =
      k tt w') /\ after w t w' /\ (forall fd, sent fd t = []) /\
    forall s frame, all_complete pipe_of t s -> NoDup (r0 :: reads l) ->
      Forall (fun fd => pipe_of fd = fd /\ fd ∉ r0 :: reads l) fds ->
      s r0 = frame -> (forall x, x ∈ reads l -> s x = []) -> Z.of_nat (length frame) <= n ->
      forall x, effects pipe_of t s x = if decide (x ∈ r0 :: reads l) then [] else s x ++ copies frame fds x.
Proof.
  intros [ms El]%last_Some Hpl Hfds.
  replace (removelast l) with ms by (by rewrite El, removelast_last).
  pose proof Hpl as Hpl'. unfold plumbed in Hpl'. rewrite El in Hpl'. apply Forall_app in Hpl' as [Hms Hv].
  apply Forall_cons in Hv as [Hv _]. cbn in Hv.
  destruct (tee_loop_Ok r0 n ms w Hms) as (t3 & w3 & E3 & Ha3 & Hs3 & Heff3).
  destruct (call_Ok (SysSplice r0 v n) w3) as (a4 & w4 & E4 & Ha4 & _).
  destruct (splice_loop_Ok n l fds w4 Hfds) as (t5 & w5 & E5 & Ha5 & Hs5 & Heff5).
  do 2 eexists. split.
  { intros B k. by rewrite (M_bind_eq _ _ _ _ _ E3), (M_bind_eq _ _ _ _ _ E4), (M_bind_eq _ _ _ _ _ E5). }
  split; [exact (after_trans _ _ _ _ _ (after_trans _ _ _ _ _ Ha3 Ha4) Ha5)|].
  split; [intros fd; by rewrite !sent_app, Hs3, Hs5|].
  intros s frame [[Hc3 [Hc4 _]]%all_complete_app Hc5]%all_complete_app Hnd Hsock Hr0 Hempty Hn x.
  pose proof Hnd as [Hnr0 Hnd']%NoDup_cons.
  assert (Hin : forall y, y ∈ reads ms -> y ∈ reads l).
  { intros y Hy. unfold reads. rewrite El, map_app. apply elem_of_app. by left. }
  assert (Hndm : NoDup (reads ms)).
  { unfold reads in Hnd'. rewrite El, map_app in Hnd'. by apply NoDup_app in Hnd' as [? _]. }
  specialize (Heff3 s Hc3 ltac:(auto) Hndm ltac:(by rewrite Hr0)).
  pose proof (fun H1 H2 => spread_contents r0 n ms r v p frame t3 a4 s H1 Hv Hr0 H2 Hn Heff3 Hc4) as Hs.
  rewrite <- El in Hs. specialize (Hs Hnd Hempty). rewrite effects_app, (Heff5 _ frame); [|done|done| |done|].
  - rewrite Hs. destruct (decide (x ∈ reads l)) as [Hx|Hx]; [by rewrite decide_True by (by right)|].
    destruct (decide (x = r0)) as [->|Hx0]; [|by rewrite (decide_False (P := x ∈ _)) by (rewrite elem_of_cons; tauto)].
    rewrite decide_True by (by left). apply copies_none. intros Hf. rewrite Forall_forall in Hsock.
    destruct (Hsock _ Hf) as [_ Hno]. apply Hno. by left.
  - intros y Hy. rewrite Hs, decide_False, decide_True; [done|done|by intros ->].
  - apply (Forall_impl _ _ _ Hsock). intros z [Hz1 Hz2]. split; [done|].
    rewrite not_elem_of_cons in Hz2. tauto.
Qed.

(** The calls of a broadcast, and what they do to the contents of pipes and sockets. *)
Lemma Broadcast_effects g data type fds s w :
  let r0 := (pipefd_ g).1 in
  let pipes := r0 :: reads (connections_ g) in
  let frame := broadcast_frame data type in
  (pipefd_ g).1 <> -1 -> (pipefd_ g).2 <> -1 -> connections_ g <> [] ->
  Z.of_nat (length data) < 2 ^ 32 ->
  pipe_of (pipefd_ g).2 = r0 -> plumbed (connections_ g) -> NoDup pipes ->
  mapM descriptor (connections_ g).*2 = Some fds ->
  Forall (fun fd => pipe_of fd = fd /\ fd ∉ pipes) fds ->
  (forall r, r ∈ pipes -> s r = []) ->
  exists ret t w', Broadcast descriptor data type g w = Ok (ret, w') /\ after w t w' /\
    (all_complete pipe_of t s ->
      ret = 0 /\ (forall fd, sent fd t = if fd =? (pipefd_ g).2 then frame else []) /\
      forall x, effects pipe_of t s x = if decide (x ∈ pipes) then [] else s x ++ copies frame fds x).
Proof.
  intros r0 pipes frame Hf1 Hf2 Hne Hlen Hp0 Hpl Hnd Hfds Hsock Hempty.
  unfold Broadcast. rewrite (proj2 (Z.eqb_neq _ _) Hf1), (proj2 (Z.eqb_neq _ _) Hf2). cbn [orb].
  destruct (last (connections_ g)) as [[[r v] p]|] eqn:El; [|by apply last_None in El].
  pose proof (header_bytes_length (Z.of_nat (length data)) type) as [Hh Hh6].
  unfold frame, broadcast_frame. unfold header_bytes in *.
  destruct (MakeWebsocketHeader _ _) as [header hlen]. cbn [fst snd] in *.
  set (hdr := take (Z.to_nat hlen) header) in *.
  destruct (call_Ok (SysWrite (pipefd_ g).2 hdr) w) as (a1 & w1 & E1 & Ha1 & _).
  rewrite (M_bind_eq _ _ _ _ _ E1). destruct a1 as [e|n1].
  { do 3 eexists. split; [reflexivity|]. split; [exact Ha1|]. by intros [? _]. }
  destruct (call_Ok (SysWrite (pipefd_ g).2 data) w1) as (a2 & w2 & E2 & Ha2 & _).
  rewrite (M_bind_eq _ _ _ _ _ E2). pose proof (after_trans _ _ _ _ _ Ha1 Ha2) as Ha12.
  destruct a2 as [e|n2].
  { do 3 eexists. split; [reflexivity|]. split; [exact Ha12|]. by intros (_ & ? & _). }
  replace (u64 _) with (Z.of_nat (length (hdr ++ data)))
    by (rewrite length_app; unfold u64, wrap; rewrite Z.mod_small; lia).
  destruct (spread_Ok r0 (Z.of_nat (length (hdr ++ data))) _ _ _ _ fds w2 El Hpl Hfds)
    as (t & w3 & E & Ha & Hsent & Heff).
  unfold r0 in E. cbn [fst snd]. rewrite E. do 3 eexists. split; [reflexivity|].
  split; [exact (after_trans _ _ _ _ _ Ha12 Ha)|]. intros (Hc1 & Hc2 & Hc). split; [done|]. split.
  { intros fd. cbn [app]. rewrite !sent_write, Hsent, app_nil_r by done. by case_match. }
  cbn [app effects] in *. rewrite !write_complete in * by done. rewrite Hp0 in *. intros x.
  assert (Hs : forall y, y <> r0 -> append r0 data (append r0 hdr s) y = s y).
  { intros y Hy. unfold append. by rewrite (proj2 (Z.eqb_neq _ _) Hy). }
  rewrite (Heff _ (hdr ++ data)); [|done|done|done| | |done].
  - destruct (decide (x ∈ r0 :: reads (connections_ g))) as [Hx|Hx]; [by rewrite decide_True|].
    rewrite decide_False, Hs; [done| |done]. intros ->. apply Hx. by left.
  - unfold append. rewrite Z.eqb_refl. by rewrite Hempty by (by left).
  - intros y Hy. apply NoDup_cons in Hnd as [Hr0 _]. rewrite Hs by (by intros ->). apply Hempty. by right.
Qed.

(** Claim C12. A broadcast reaches every member with one copy out of the program: when the
    members are live, the pipes are empty and every call moves all that it can, the bytes
    written are one frame, each member's socket is given exactly that frame (once for each
    time it joined), nothing goes anywhere else, and the pipes are empty again. *)
Theorem Broadcast_delivers g data type fds s w :
  let r0 := (pipefd_ g).1 in
  let pipes := r0 :: reads (connections_ g) in
  let frame := broadcast_frame data type in
  (pipefd_ g).1 <> -1 -> (pipefd_ g).2 <> -1 -> connections_ g <> [] ->
  Z.of_nat (length data) < 2 ^ 32 ->
  pipe_of (pipefd_ g).2 = r0 -> plumbed (connections_ g) -> NoDup pipes ->
  mapM descriptor (connections_ g).*2 = Some fds ->
  Forall (fun fd => pipe_of fd = fd /\ fd ∉ pipes) fds ->
  (forall r, r ∈ pipes -> s r = []) ->
  exists ret t w', Broadcast descriptor data type g w = Ok (ret, w') /\ after w t w' /\
    (all_complete pipe_of t s ->
      ret = 0 /\ (forall fd, sent fd t = if fd =? (pipefd_ g).2 then frame else []) /\
      forall x, effects pipe_of t s x = if decide (x ∈ pipes) then [] else s x ++ copies frame fds x).
Proof. apply Broadcast_effects. Qed.
End delivery.

(** ** Membership *)

Section membership.
Context {W : Type} `{!Posix W} `{!PosixLaws W} (descriptor : nat -> option Z).

Lemma find_member_app p l fds :
  p ∉ l.*2 -> find_member p (l ++ [(fds, p)]) = Some (fds, l).
Proof.
  induction l as [|[f q] l IH]; cbn; [by rewrite Nat.eqb_refl|]. intros [Hq Hl]%not_elem_of_cons.
  by rewrite (proj2 (Nat.eqb_neq q p)), IH by auto.
Qed.

(** Claim C18. [Leave] undoes [Join]: a connection that was no member and joins gets a pipe of its
    own, both ends of it set not to block; when it leaves, the two ends are closed and the
    group is what it was before.  When the pipe cannot be made, [Join] fails and changes
    nothing, and there is nothing to leave. *)
Theorem join_leave g p fd w :
  descriptor p = Some fd -> p ∉ (connections_ g).*2 ->
  exists a r w1, after w [Event (SysSetsockopt fd SO_ZEROCOPY) a; Event SysPipe r] w1 /\
    match r with
    | inl _ => Join descriptor (Some p) g w = Ok ((-1, g), w1) /\ Leave p g w1 = Ok ((-1, g), w1)
    | inr pipes => exists b b' c c' g' w2 w3,
        Join descriptor (Some p) g w = Ok ((0, g'), w2) /\ connections_ g' = connections_ g ++ [(pipes, p)] /\
        after w1 [Event (SysSetFl pipes.1 O_NONBLOCK) b; Event (SysSetFl pipes.2 O_NONBLOCK) b'] w2 /\
        Leave p g' w2 = Ok ((0, g), w3) /\
        after w2 [Event (SysClose pipes.1) c; Event (SysClose pipes.2) c'] w3
    end.
Proof.
  intros Hd Hp. unfold Join, get_descriptor. rewrite Hd. cbn [of_option]. rewrite M_bind_lift.
  destruct (call_Ok (SysSetsockopt fd SO_ZEROCOPY) w) as (a & w0 & E0 & Ha0 & _).
  rewrite (M_bind_eq _ _ _ _ _ E0). destruct (call_Ok SysPipe w0) as (r & w1 & E1 & Ha1 & _).
  rewrite (M_bind_eq _ _ _ _ _ E1). exists a, r, w1. split; [exact (after_trans _ _ _ _ _ Ha0 Ha1)|].
  destruct r as [e|pipes].
  { split; [done|]. unfold Leave. assert (Hn : find_member p (connections_ g) = None); [|by rewrite Hn].
    clear -Hp. induction (connections_ g) as [|[f q] l IH]; [done|]. cbn in *.
    apply not_elem_of_cons in Hp as [Hq Hl]. by rewrite (proj2 (Nat.eqb_neq q p)), IH by auto. }
  unfold nonblocking_pipe_ends.
  destruct (call_Ok (SysSetFl pipes.1 O_NONBLOCK) w1) as (b & w2 & E2 & Ha2 & _).
  destruct (call_Ok (SysSetFl pipes.2 O_NONBLOCK) w2) as (b' & w3 & E3 & Ha3 & _).
  destruct (call_Ok (SysClose pipes.1) w3) as (c & w4 & E4 & Ha4 & _).
  destruct (call_Ok (SysClose pipes.2) w4) as (c' & w5 & E5 & Ha5 & _).
  rewrite !M_bind_assoc, (M_bind_eq _ _ _ _ _ E2), !M_bind_assoc, (M_bind_eq _ _ _ _ _ E3), !M_bind_ret.
  exists b, b', c, c'. do 3 eexists. split; [reflexivity|]. destruct g as [gp l]. cbn [set_connections connections_].
  split; [done|]. split; [exact (after_trans _ _ _ _ _ Ha2 Ha3)|]. split; [|exact (after_trans _ _ _ _ _ Ha4 Ha5)].
  unfold Leave, close_fd. cbn [connections_]. rewrite (find_member_app p l pipes) by done.
  by rewrite M_bind_assoc, (M_bind_eq _ _ _ _ _ E4), M_bind_ret, M_bind_assoc, (M_bind_eq _ _ _ _ _ E5).
Qed.

(** A member whose connection is gone. *)
Lemma splice_loop_dead n l p : forall w,
  p ∈ l.*2 -> descriptor p = None -> splice_loop descriptor n l w = Fault UseAfterFree.
Proof.
  induction l as [|[[r v] q] l IH]; intros w Hin Hp; [by apply not_elem_of_nil in Hin|].
  cbn [splice_loop]. unfold get_descriptor. destruct (descriptor q) as [fd|] eqn:E; cbn [of_option]; [|done].
  rewrite M_bind_lift. destruct (call_Ok (SysSplice (r, v).1 fd n) w) as (a & w1 & E1 & _).
  rewrite (M_bind_eq _ _ _ _ _ E1). apply IH; [|done]. cbn in Hin.
  apply elem_of_cons in Hin as [->|]; [congruence|done].
Qed.

Lemma tee_loop_total fd n l : forall w, exists w', tee_loop fd n l w = Ok (tt, w').
Proof.
  induction l as [|[fds q] l IH]; intros w; [by exists w|]. cbn [tee_loop].
  destruct (call_Ok (SysTee fd fds.2 n) w) as (a & w1 & E1 & _). rewrite (M_bind_eq _ _ _ _ _ E1). apply IH.
Qed.

Lemma Broadcast_dead data type g p w :
  (pipefd_ g).1 <> -1 -> (pipefd_ g).2 <> -1 -> p ∈ (connections_ g).*2 -> descriptor p = None ->
  Broadcast descriptor data type g w = Fault UseAfterFree \/
  exists w' t d e, Broadcast descriptor data type g w = Ok (-1, w') /\
    after w (t ++ [Event (SysWrite (pipefd_ g).2 d) (inl e)]) w'.
Proof.
  intros H1 H2 Hin Hp. unfold Broadcast. rewrite (proj2 (Z.eqb_neq _ _) H1), (proj2 (Z.eqb_neq _ _) H2).
  cbn [orb]. destruct (last (connections_ g)) as [[lfds lq]|] eqn:El.
  2:{ apply last_None in El. rewrite El in Hin. by apply not_elem_of_nil in Hin. }
  destruct (MakeWebsocketHeader _ _) as [header hlen].
  destruct (call_Ok (SysWrite (pipefd_ g).2 (take (Z.to_nat hlen) header)) w) as (a1 & w1 & E1 & Ha1 & _).
  rewrite (M_bind_eq _ _ _ _ _ E1). destruct a1 as [e|n1].
  { right. eexists w1, [], _, e. by split. }
  destruct (call_Ok (SysWrite (pipefd_ g).2 data) w1) as (a2 & w2 & E2 & Ha2 & _).
  rewrite (M_bind_eq _ _ _ _ _ E2). destruct a2 as [e|n2].
  { right. eexists w2, [_], _, e. split; [reflexivity|]. exact (after_trans _ _ _ _ _ Ha1 Ha2). }
  left. set (n := u64 _). destruct (tee_loop_total (pipefd_ g).1 n (removelast (connections_ g)) w2) as [w3 E3].
  rewrite (M_bind_eq _ _ _ _ _ E3).
  destruct (call_Ok (SysSplice (pipefd_ g).1 lfds.2 n) w3) as (a4 & w4 & E4 & _).
  rewrite (M_bind_eq _ _ _ _ _ E4). unfold mbind, M_bind. by rewrite (splice_loop_dead n _ p).
Qed.
End membership.

(** ** Witnesses *)

Section witnesses.

Definition demo_group : broadcast_group :=
  Group (20, 21) [((22, 23), 1%nat); ((24, 25), 2%nat)].
Definition demo_pipe_of (fd : Z) : Z :=
  if fd =? 21 then 20 else if fd =? 23 then 22 else if fd =? 25 then 24 else fd.
Definition demo_descriptor (p : nat) : option Z := [0; 7; 8] !! p.
Definition demo_sockets : content := fun _ => [].
Definition demo_kernel : sim := Sim [] 65536 [] [] [] 0 [].

Lemma Broadcast_delivers_witness :
  exists ret t w', Broadcast demo_descriptor (str "hi") 1 demo_group demo_kernel = Ok (ret, w') /\
    after demo_kernel t w' /\
    (all_complete demo_pipe_of t demo_sockets ->
      ret = 0 /\ (forall fd, sent fd t = if fd =? 21 then broadcast_frame (str "hi") 1 else []) /\
      forall x, effects demo_pipe_of t demo_sockets x =
        if decide (x ∈ [20; 22; 24]) then []
        else demo_sockets x ++ copies (broadcast_frame (str "hi") 1) [7; 8] x).
Proof.
  apply (Broadcast_delivers demo_pipe_of demo_descriptor demo_group (str "hi") 1 [7; 8] demo_sockets demo_kernel);
    try done.
  - by repeat constructor.
  - apply (bool_decide_unpack _). vm_compute. exact Logic.I.
  - apply (bool_decide_unpack _). vm_compute. exact Logic.I.
Defined.

Lemma join_leave_witness :
  exists a r w1, after demo_kernel [Event (SysSetsockopt 7 SO_ZEROCOPY) a; Event SysPipe r] w1 /\
    match r with
    | inl _ => Join demo_descriptor (Some 1%nat) (Group (20, 21) []) demo_kernel = Ok ((-1, Group (20, 21) []), w1) /\
               Leave 1 (Group (20, 21) []) w1 = Ok ((-1, Group (20, 21) []), w1)
    | inr pipes => exists b b' c c' g' w2 w3,
        Join demo_descriptor (Some 1%nat) (Group (20, 21) []) demo_kernel = Ok ((0, g'), w2) /\
        connections_ g' = [(pipes, 1%nat)] /\
        after w1 [Event (SysSetFl pipes.1 O_NONBLOCK) b; Event (SysSetFl pipes.2 O_NONBLOCK) b'] w2 /\
        Leave 1 g' w2 = Ok ((0, Group (20, 21) []), w3) /\
        after w2 [Event (SysClose pipes.1) c; Event (SysClose pipes.2) c'] w3
    end.
Proof.
  exact (join_leave demo_descriptor (Group (20, 21) []) 1 7 demo_kernel eq_refl (not_elem_of_nil _)).
Defined.

(** On the scripted kernel every call is complete, and both sockets get the frame. *)
Example broadcast_complete :
  match Broadcast demo_descriptor (str "hi") 1 demo_group demo_kernel with
  | Ok (0, w) =>
      all_complete demo_pipe_of (sim_trace w) demo_sockets /\
      effects demo_pipe_of (sim_trace w) demo_sockets 7 = [x81; x02] ++ str "hi" /\
      effects demo_pipe_of (sim_trace w) demo_sockets 8 = [x81; x02] ++ str "hi" /\
      effects demo_pipe_of (sim_trace w) demo_sockets 20 = []
  | _ => False
  end.
Proof. vm_compute. repeat split. Qed.
End witnesses.
