(* ===== verification/Benchmark.v ===== *)
(** * The broadcast benchmark: benchmark/broadcast/broadcast.cc

    The benchmark compares the calls of a broadcast (one write, then [tee] and [splice])
    with one write for each connection.  [Context] has the descriptors its constructor
    opens.  What the calls return is only logged.  The program's [main] is in BenchmarkMain. *)

From S2P Require Import Prelude State Posix ConnectionSpec WsFrame Server BroadcastGroup.

Record Context := Bench {
  buf_ : bytes;                (* nbytes + 1 of them *)
  nbytes : nat;
  server_fd : Z;
  client_fds : list Z;
  accepted_fds : list Z;       (* one for each of the n_conns_ connections *)
  conn_pipes : list (Z * Z);   (* likewise *)
  pipes : Z * Z
}.

Definition set_buf b '(Bench _ n s cl ac cp p) := Bench b n s cl ac cp p.

Section benchmark.
Context {W : Type} `{!Posix W}.
Implicit Types (c : Context).

(** ** The constructor and the destructor

    A call that fails makes the program [exit], which is the result [None].  The number
    of connections is not negative; [b] is what [new char\[\]] finds in memory. *)

Definition or_exit {A B} (m : M W (errno + A)) (k : A -> M W (option B)) : M W (option B) :=
  or_fail m (mret None) k.

Definition and_then {A B} (m : M W (option A)) (k : A -> M W (option B)) : M W (option B) :=
  r ← m; match r with None => mret None | Some a => k a end.

Definition socket_path : bytes := str "/tmp/broadcast_socket".

Fixpoint connect_clients (nbytes : Z) (n : nat) : M W (option (list Z)) :=
  match n with
  | O => mret (Some [])
  | S n =>
      or_exit (call SysUnixSocket) (fun fd =>
      or_exit (call (SysConnectUnix fd socket_path)) (fun _ =>
      or_exit (call (SysSetFl fd O_NONBLOCK)) (fun _ =>
      or_exit (call (SysSetBufferSize fd SO_RCVBUF nbytes)) (fun _ =>
      and_then (connect_clients nbytes n) (fun fds => mret (Some (fd :: fds)))))))
  end.

Fixpoint accept_clients (server_fd nbytes : Z) (n : nat) : M W (option (list Z)) :=
  match n with
  | O => mret (Some [])
  | S n =>
      or_exit (call (SysAccept server_fd)) (fun fd =>
      or_exit (call (SysSetFl fd O_NONBLOCK)) (fun _ =>
      or_exit (call (SysSetBufferSize fd SO_SNDBUF nbytes)) (fun _ =>
      and_then (accept_clients server_fd nbytes n) (fun fds => mret (Some (fd :: fds))))))
  end.

(** Both ends of a pipe: not blocking, with room for one message. *)
Definition set_pipe (nbytes : Z) (p : Z * Z) {B} (k : M W (option B)) : M W (option B) :=
  or_exit (call (SysSetFl p.1 O_NONBLOCK)) (fun _ =>
  or_exit (call (SysSetFl p.2 O_NONBLOCK)) (fun _ =>
  or_exit (call (SysSetPipeSize p.1 nbytes)) (fun _ =>
  or_exit (call (SysSetPipeSize p.2 nbytes)) (fun _ => k)))).

Fixpoint make_pipes (nbytes : Z) (n : nat) : M W (option (list (Z * Z))) :=
  match n with
  | O => mret (Some [])
  | S n =>
      or_exit (call SysPipe) (fun p =>
      set_pipe nbytes p (and_then (make_pipes nbytes n) (fun ps => mret (Some (p :: ps)))))
  end.

(** What the calls on the listening socket return is not looked at, nor whether the first
    [pipe] works: when it does not, [pipes] has no value. *)
Definition new_context (n_conns : nat) (nbytes : Z) (b : bytes) : M W (option Context) :=
  r ← call SysUnixSocket;
  let server_fd := match r with inl _ => -1 | inr fd => fd end in
  _ ← call (SysSetsockopt server_fd SO_REUSEADDR);
  _ ← call (SysSetsockopt server_fd SO_REUSEPORT);
  _ ← call (SysSetFl server_fd O_NONBLOCK);
  _ ← call (SysUnlink socket_path);
  _ ← call (SysBindUnix server_fd socket_path);
  _ ← call (SysListen server_fd (Z.of_nat n_conns));
  and_then (connect_clients nbytes n_conns) (fun client_fds =>
  and_then (accept_clients server_fd nbytes n_conns) (fun accepted_fds =>
  r ← call SysPipe;
  pipes ← lift (match r with inl _ => Fault Uninitialised | inr p => Ok p end);
  set_pipe nbytes pipes (
  and_then (make_pipes nbytes n_conns) (fun conn_pipes =>
  mret (Some (Bench (take (Z.to_nat (nbytes + 1)) b) (Z.to_nat nbytes) server_fd client_fds accepted_fds conn_pipes pipes)))))).

(** [~Context]: the connections are closed one by one, then the rest. *)
Fixpoint close_conns (ac cl : list Z) (cp : list (Z * Z)) : M W unit :=
  match ac, cl, cp with
  | a :: ac, c :: cl, p :: cp =>
      _ ← close_fd a; _ ← close_fd c; _ ← close_fd p.1; _ ← close_fd p.2;
      close_conns ac cl cp
  | _, _, _ => mret tt
  end.

Definition delete_context c : M W unit :=
  _ ← close_conns (accepted_fds c) (client_fds c) (conn_pipes c);
  _ ← close_fd (pipes c).1;
  _ ← close_fd (pipes c).2;
  close_fd (server_fd c).
(** ** The operations *)

(** What the calls write: [nbytes] bytes from [buf_]. *)
Definition data c : bytes := take (nbytes c) (buf_ c).

(** A call that fails is reported on [log_file], which is null when it could not be opened; the
    messages themselves are left out. *)
Context (log_file : option Z).

Definition log_error : M W unit :=
  lift (match log_file with Some _ => Ok tt | None => Fault NullDeref end).

Definition logged {A} (m : M W (errno + A)) : M W (option A) :=
  r ← m;
  match r with
  | inl _ => _ ← log_error; mret None
  | inr a => mret (Some a)
  end.

Fixpoint write_loop (d : bytes) (fds : list Z) : M W unit :=
  match fds with
  | [] => mret tt
  | fd :: fds => _ ← logged (call (SysWrite fd d)); write_loop d fds
  end.

Definition DirectWrite c : M W unit := write_loop (data c) (accepted_fds c).

Fixpoint tee_pipes (fd_in n : Z) (ps : list (Z * Z)) : M W unit :=
  match ps with
  | [] => mret tt
  | p :: ps => _ ← logged (call (SysTee fd_in p.2 n)); tee_pipes fd_in n ps
  end.

Fixpoint splice_conns (n : Z) (ps : list (Z * Z)) (fds : list Z) : M W unit :=
  match ps, fds with
  | p :: ps, fd :: fds => _ ← logged (call (SysSplice p.1 fd n)); splice_conns n ps fds
  | _, _ => mret tt
  end.

(** With no connection, [conn_pipes[n_conns_ - 1]] is outside the array. *)
Definition ZeroCopy c : M W unit :=
  _ ← logged (call (SysWrite (pipes c).2 (data c)));
  let n := Z.of_nat (nbytes c) in
  _ ← tee_pipes (pipes c).1 n (removelast (conn_pipes c));
  last_pipe ← lift (of_option OutOfBounds (last (conn_pipes c)));
  _ ← logged (call (SysSplice (pipes c).1 last_pipe.2 n));
  splice_conns n (conn_pipes c) (accepted_fds c).

(** Every read goes to the start of [buf_]; [strerror_r] of the GNU library leaves the buffer it
    is given alone for the errors of [read]. *)
Fixpoint drain_loop (n : Z) (fds : list Z) (b : bytes) : M W bytes :=
  match fds with
  | [] => mret b
  | fd :: fds =>
      r ← logged (call (SysRead fd n));
      drain_loop n fds (match r with Some d => d ++ drop (length d) b | None => b end)
  end.

Definition Drain c : M W Context :=
  b ← drain_loop (Z.of_nat (nbytes c)) (client_fds c) (buf_ c);
  mret (set_buf b c).

End benchmark.

(** ** What the two ways of sending do *)

(** The bytes that calls took out of the program. *)
Definition written (x : event) : Z :=
  let 'Event e r := x in
  match e in sysE A return A -> Z with
  | SysWrite _ _ => fun r => match r with inr n => n | inl _ => 0 end
  | _ => fun _ => 0
  end r.

Definition copied (t : list event) : Z := fold_right (fun x n => written x + n) 0 t.

(** The arrays have one entry for each connection, there is at least one, and the descriptors
    are pipes and sockets, all different pipes. *)
Record well_formed (pipe_of : Z -> Z) (c : Context) : Prop := {
  wf_length : length (accepted_fds c) = length (conn_pipes c);
  wf_some : conn_pipes c <> [];
  wf_buf : (nbytes c <= length (buf_ c))%nat;
  wf_ends : Forall (fun p => pipe_of p.2 = p.1) (pipes c :: conn_pipes c);
  wf_distinct : NoDup (map fst (pipes c :: conn_pipes c));
  wf_sockets : Forall (fun fd => pipe_of fd = fd /\ fd ∉ map fst (pipes c :: conn_pipes c)) (accepted_fds c)
}.

(** The pipes of the connections, as members of a broadcast group. *)
Definition members_from (k : nat) (ps : list (Z * Z)) : list ((Z * Z) * nat) := zip ps (seq k (length ps)).
Definition members c : list ((Z * Z) * nat) := members_from 0 (conn_pipes c).
Definition accepted c (i : nat) : option Z := accepted_fds c !! i.

Section sending.
Context {W : Type} `{!Posix W} `{!PosixLaws W} (pipe_of : Z -> Z).
Implicit Types (c : Context) (s : content) (w : W).

(** ** With a log file

    The calls are those of a broadcast group. *)

Lemma logged_bind {A B} st (m : M W (errno + A)) (k : M W B) w :
  (_ ← logged (Some st) m; k) w = (_ ← m; k) w.
Proof. unfold logged, log_error, mbind, M_bind. by destruct (m w) as [[[e|a] w']| |]. Qed.

Lemma M_bind_cong {A B} (m : M W A) (k k' : A -> M W B) w :
  (forall a w', k a w' = k' a w') -> (m ≫= k) w = (m ≫= k') w.
Proof. unfold mbind, M_bind. intros Hk. by destruct (m w) as [[a w']| |]. Qed.

Lemma tee_pipes_eq st fd n ps : forall k w, tee_pipes (Some st) fd n ps w = tee_loop fd n (members_from k ps) w.
Proof.
  induction ps as [|p ps IH]; intros k w; [done|]. cbn. rewrite logged_bind. apply M_bind_cong.
  intros _ w'. apply IH.
Qed.

Lemma splice_conns_eq st n get ps : forall k fds w,
  length ps = length fds -> (forall i, get (k + i)%nat = fds !! i) ->
  splice_conns (Some st) n ps fds w = splice_loop get n (members_from k ps) w.
Proof.
  induction ps as [|p ps IH]; intros k [|fd fds] w Hl Hg; try done. cbn.
  pose proof (Hg 0%nat) as H0. rewrite Nat.add_0_r in H0. unfold get_descriptor. rewrite H0. cbn [lookup list_lookup of_option].
  rewrite M_bind_lift, logged_bind. apply M_bind_cong. intros _ w'. apply IH; [by injection Hl|].
  intros i. pose proof (Hg (S i)) as Hi. by rewrite Nat.add_succ_r in Hi.
Qed.

Lemma removelast_zip {A B} (l : list A) : forall k : list B, length l = length k ->
  removelast (zip l k) = zip (removelast l) (removelast k).
Proof.
  induction l as [|x [|y l] IH]; intros [|a [|b k]] Hl; try done.
  change (removelast (x :: y :: l)) with (x :: removelast (y :: l)).
  change (removelast (a :: b :: k)) with (a :: removelast (b :: k)).
  cbn [zip_with]. rewrite <- (IH (b :: k)) by (cbn in *; lia). done.
Qed.

Lemma removelast_members k ps : removelast (members_from k ps) = members_from k (removelast ps).
Proof.
  unfold members_from. rewrite removelast_zip by (by rewrite length_seq). f_equal.
  destruct ps as [|p ps _] using rev_ind; [done|].
  by rewrite removelast_last, length_app, Nat.add_1_r, seq_S, removelast_last.
Qed.

Lemma members_reads c : reads (members c) = map fst (conn_pipes c).
Proof.
  unfold reads, members, members_from. generalize 0%nat.
  induction (conn_pipes c) as [|p l IH]; intros n; [done|]. cbn. by rewrite IH.
Qed.

Lemma members_plumbed c : well_formed pipe_of c -> plumbed pipe_of (members c).
Proof.
  intros [_ _ _ [_ Hends]%Forall_cons _ _]. unfold plumbed, members, members_from. revert Hends. generalize 0%nat.
  induction (conn_pipes c) as [|p l IH]; intros n Hl; cbn; constructor; apply Forall_cons in Hl as [? ?]; auto.
Qed.

Lemma members_last c : conn_pipes c <> [] ->
  exists p i, last (conn_pipes c) = Some p /\ last (members c) = Some (p, i).
Proof.
  intros (l & p & E)%exists_last. exists p, (length l). unfold members, members_from. rewrite E, last_snoc.
  split; [done|]. rewrite length_app. cbn [length]. rewrite seq_app. cbn [seq].
  rewrite zip_with_app by (by rewrite length_seq). cbn. by rewrite last_snoc.
Qed.

Lemma members_accepted c :
  length (accepted_fds c) = length (conn_pipes c) ->
  mapM (accepted c) (members c).*2 = Some (accepted_fds c).
Proof.
  intros Hl. unfold members, members_from. rewrite snd_zip by (rewrite length_seq; lia). apply mapM_Some.
  apply Forall2_same_length_lookup_2; [by rewrite length_seq|].
  intros i j fd [-> _]%lookup_seq Hfd. done.
Qed.

(** [ZeroCopy] is what a broadcast group does, with at least one connection. *)
Lemma ZeroCopy_eq st c p w :
  length (accepted_fds c) = length (conn_pipes c) -> last (conn_pipes c) = Some p ->
  ZeroCopy (Some st) c w =
    (_ ← call (SysWrite (pipes c).2 (data c));
     let n := Z.of_nat (nbytes c) in
     _ ← tee_loop (pipes c).1 n (removelast (members c));
     _ ← call (SysSplice (pipes c).1 p.2 n);
     splice_loop (accepted c) n (members c)) w.
Proof.
  intros Hl Hp. unfold ZeroCopy. rewrite logged_bind. apply M_bind_cong. intros _ w1.
  unfold members. rewrite removelast_members. cbv zeta. unfold mbind at 1 4, M_bind at 1 4.
  rewrite (tee_pipes_eq st _ _ _ 0). destruct (tee_loop _ _ _ _) as [[[] w2]| |]; [|done..].
  rewrite Hp. cbn [of_option]. rewrite M_bind_lift, logged_bind. apply M_bind_cong. intros _ w3.
  by apply splice_conns_eq.
Qed.

Lemma write_loop_Ok st d fds : forall w,
  exists t w', write_loop (Some st) d fds w = Ok (tt, w') /\ after w t w' /\
    forall s, all_complete pipe_of t s ->
      copied t = Z.of_nat (length fds * length d) /\
      (Forall (fun fd => pipe_of fd = fd) fds -> forall x, effects pipe_of t s x = s x ++ copies d fds x).
Proof.
  induction fds as [|fd fds IH]; intros w.
  - exists [], w. split; [done|]. split; [apply after_refl|]. intros s _. split; [done|].
    intros _ x. cbn. by rewrite app_nil_r.
  - cbn [write_loop]. destruct (call_Ok (SysWrite fd d) w) as (r & w1 & E & Ha & _).
    rewrite logged_bind, (M_bind_eq _ _ _ _ _ E). destruct (IH w1) as (t & w2 & E2 & Ha2 & Ht).
    exists (Event (SysWrite fd d) r :: t), w2. split; [done|].
    split; [by eapply (after_trans _ [_])|]. intros s [Hc Hcs].
    destruct (Ht _ Hcs) as [Hn Heff]. pose proof Hc as Hc'. cbn in Hc'. subst r. split.
    + cbn [copied fold_right written] in *. unfold copied in Hn. rewrite Hn. cbn [length]. lia.
    + intros [Hfd Hfds]%Forall_cons x. cbn [effects]. rewrite Heff by done.
      rewrite write_complete by done. rewrite Hfd. unfold append, copies. cbn [map concat].
      case_match; by rewrite <- ?app_assoc.
Qed.

(** Claim C19. The two ways of sending that the benchmark compares do the same: when every call
    moves all it can and the pipes are empty, each connection is given the same bytes and the
    pipes are empty again; the direct way takes the data out of the program once for each
    connection, the other way once.  (The log file is open: see [unopened_log_faults].) *)
Theorem zero_copy_is_direct_write st c s w :
  well_formed pipe_of c -> (forall r, r ∈ map fst (pipes c :: conn_pipes c) -> s r = []) ->
  exists t1 w1 t2 w2,
    ZeroCopy (Some st) c w = Ok (tt, w1) /\ after w t1 w1 /\ DirectWrite (Some st) c w = Ok (tt, w2) /\ after w t2 w2 /\
    (all_complete pipe_of t1 s -> all_complete pipe_of t2 s ->
      (forall x, effects pipe_of t1 s x = effects pipe_of t2 s x) /\
      (forall fd, sent fd t1 = if fd =? (pipes c).2 then data c else []) /\
      copied t2 = Z.of_nat (length (accepted_fds c) * nbytes c)).
Proof.
  intros Hwf Hempty. pose proof Hwf as [Hl Hne Hbuf [Hends _]%Forall_cons Hnd Hsock].
  assert (Hdata : length (data c) = nbytes c) by (unfold data; rewrite length_take; lia).
  cbn [map fst] in *. rewrite <- members_reads in *.
  destruct (members_last c Hne) as ([r v] & i & Hlast & Hlastm).
  destruct (call_Ok (SysWrite (pipes c).2 (data c)) w) as (a & w1 & E1 & Ha1 & _).
  destruct (spread_Ok pipe_of (accepted c) (pipes c).1 (Z.of_nat (nbytes c)) (members c) r v i
    (accepted_fds c) w1 Hlastm (members_plumbed c Hwf) (members_accepted c Hl)) as (t & w2 & E2 & Ha2 & Hsent & Heff).
  destruct (write_loop_Ok st (data c) (accepted_fds c) w) as (t2 & w3 & E3 & Ha3 & Hdirect).
  exists (Event (SysWrite (pipes c).2 (data c)) a :: t), w2, t2, w3. split; [|split; [|split; [exact E3|split; [exact Ha3|]]]].
  - rewrite (ZeroCopy_eq st c (r, v)), (M_bind_eq _ _ _ _ _ E1) by done.
    etransitivity; [|exact (E2 unit mret)]. unfold mbind, M_bind. cbn [snd].
    repeat match goal with |- match ?o with _ => _ end = match ?o with _ => _ end =>
      destruct o as [[? ?]| |]; [|done..] end.
    by match goal with |- ?o = match ?o with _ => _ end => destruct o as [[[] ?]| |] end.
  - by eapply (after_trans _ [_]).
  - intros [Hc Hcs] Hc2. destruct (Hdirect s Hc2) as [Hn Hd2]. rewrite Hdata in Hn.
    split; [|split; [|exact Hn]].
    + intros x. rewrite Hd2; [|by apply (Forall_impl _ _ _ Hsock); intros ? []]. cbn [effects].
      rewrite write_complete in * by done. rewrite Hends in *.
      assert (Hs : forall y, y <> (pipes c).1 -> append (pipes c).1 (data c) s y = s y).
      { intros y Hy. unfold append. by rewrite (proj2 (Z.eqb_neq _ _) Hy). }
      rewrite (Heff _ (data c)); [|done..| | |by rewrite Hdata].
      * case_decide as Hx; [|by rewrite Hs by (intros ->; apply Hx; by left)].
        rewrite Hempty, copies_none; [done| |done]. intros Hin. rewrite Forall_forall in Hsock.
        by destruct (Hsock _ Hin).
      * unfold append. rewrite Z.eqb_refl. by rewrite Hempty by (by left).
      * intros y Hy. apply NoDup_cons in Hnd as [Hr0 _]. rewrite Hs by (by intros ->). apply Hempty. by right.
    + intros fd. rewrite sent_write by done. rewrite Hsent. by case_match; rewrite ?app_nil_r.
Qed.
End sending.

(** ** Without a log file

    The first call that fails dereferences a null pointer. *)

Theorem unopened_log_faults {W} `{!Posix W} (c : Context) (w : W) e w1 :
  call (SysWrite (pipes c).2 (data c)) w = Ok (inl e, w1) -> ZeroCopy None c w = Fault NullDeref.
Proof. intros E. unfold ZeroCopy, logged. by rewrite M_bind_assoc, (M_bind_eq _ _ _ _ _ E). Qed.

(** ** What is opened is closed *)

Definition opened_by (x : event) : list Z :=
  let 'Event e r := x in
  match e in sysE A return A -> list Z with
  | SysUnixSocket | SysAccept _ => fun r => match r with inr fd => [fd] | inl _ => [] end
  | SysPipe => fun r => match r with inr p => [p.1; p.2] | inl _ => [] end
  | _ => fun _ => []
  end r.

Definition closed_by (x : event) : list Z :=
  match ev_call x with SysClose fd => [fd] | _ => [] end.

Definition opened (t : list event) : list Z := concat (map opened_by t).
Definition closed (t : list event) : list Z := concat (map closed_by t).

Lemma opened_app t t' : opened (t ++ t') = opened t ++ opened t'.
Proof. unfold opened. by rewrite map_app, concat_app. Qed.
Lemma closed_app t t' : closed (t ++ t') = closed t ++ closed t'.
Proof. unfold closed. by rewrite map_app, concat_app. Qed.

Section closing.
Context {W : Type} `{!Posix W} `{!PosixLaws W}.
Implicit Types (w : W).

(** When [m] gets through with [a], nothing was closed, and [Q] holds of [a] and the descriptors
    opened, those of [acc] first. *)
Definition made {A} (m : M W (option A)) (acc : list Z) (Q : A -> list Z -> Prop) : Prop :=
  forall w a w', m w = Ok (Some a, w') ->
    exists t, after w t w' /\ closed t = [] /\ Q a (acc ++ opened t).

Lemma made_ret {A} (a : A) acc (Q : A -> list Z -> Prop) : Q a acc -> made (mret (Some a)) acc Q.
Proof. intros HQ w _ _ [= <- <-]. exists []. rewrite app_nil_r. split; [apply after_refl|done]. Qed.

Lemma made_call {A : Set} {B} (e : sysE A) (k : A -> M W (option B)) acc Q :
  (forall a, closed_by (Event e a) = []) ->
  (forall a, made (k a) (acc ++ opened_by (Event e a)) Q) -> made (a ← call e; k a) acc Q.
Proof.
  intros He Hk w b w'. destruct (call_Ok e w) as (a & w1 & E & Ha & _). rewrite (M_bind_eq _ _ _ _ _ E).
  intros Hb. destruct (Hk a _ _ _ Hb) as (t & Hat & Hc & HQ). exists (Event e a :: t). split; [by eapply (after_trans _ [_])|].
  unfold closed, opened in *. cbn [map concat] in *. by rewrite He, Hc, app_assoc.
Qed.

Lemma made_or_exit {A : Set} {B} (e : sysE (errno + A)) (k : A -> M W (option B)) acc Q :
  (forall a, closed_by (Event e a) = []) ->
  (forall a, made (k a) (acc ++ opened_by (Event e (inr a))) Q) -> made (or_exit (call e) k) acc Q.
Proof. intros He Hk. apply made_call; [done|]. intros [x|a]; [done|apply Hk]. Qed.

Lemma made_and_then {A B} (m : M W (option A)) (k : A -> M W (option B)) acc (Q1 : A -> list Z -> Prop) Q :
  made m [] Q1 -> (forall a l, Q1 a l -> made (k a) (acc ++ l) Q) -> made (and_then m k) acc Q.
Proof.
  intros Hm Hk w b w'. unfold and_then, mbind, M_bind. destruct (m w) as [[[a|] w1]| |] eqn:E; [|done..].
  destruct (Hm _ _ _ E) as (t & Ha & Hc & H1). intros Eb. destruct (Hk _ _ H1 _ _ _ Eb) as (t' & Ha' & Hc' & H2).
  exists (t ++ t'). split; [by eapply after_trans|]. rewrite closed_app, opened_app, Hc, Hc', app_assoc. by split.
Qed.

Lemma made_lift {A B} (a : A) (k : A -> M W (option B)) acc Q :
  made (k a) acc Q -> made (x ← lift (Ok a); k x) acc Q.
Proof. intros Hk w b w' E. apply Hk. by rewrite <- E. Qed.

Lemma made_set_pipe {B} n p (k : M W (option B)) acc Q : made k acc Q -> made (set_pipe n p k) acc Q.
Proof.
  intros Hk. unfold set_pipe. do 4 (apply made_or_exit; [done|intros ?; cbn; rewrite app_nil_r]). exact Hk.
Qed.

Lemma connect_clients_made nb n :
  made (connect_clients nb n) [] (fun fds l => l = fds /\ length fds = n).
Proof.
  induction n as [|n IH]; [by apply made_ret|]. cbn [connect_clients].
  apply made_or_exit; [done|intros fd]. do 3 (apply made_or_exit; [done|intros ?]).
  eapply made_and_then; [exact IH|]. intros fds l [-> Hl]. apply made_ret. cbn. by rewrite Hl.
Qed.

Lemma accept_clients_made sfd nb n :
  made (accept_clients sfd nb n) [] (fun fds l => l = fds /\ length fds = n).
Proof.
  induction n as [|n IH]; [by apply made_ret|]. cbn [accept_clients].
  apply made_or_exit; [done|intros fd]. do 2 (apply made_or_exit; [done|intros ?]).
  eapply made_and_then; [exact IH|]. intros fds l [-> Hl]. apply made_ret. cbn. by rewrite Hl.
Qed.

Definition ends (ps : list (Z * Z)) : list Z := concat (map (fun p => [p.1; p.2]) ps).

Lemma make_pipes_made nb n :
  made (make_pipes nb n) [] (fun ps l => l = ends ps /\ length ps = n).
Proof.
  induction n as [|n IH]; [by apply made_ret|]. cbn [make_pipes].
  apply made_or_exit; [done|intros p]. apply made_set_pipe. eapply made_and_then; [exact IH|].
  intros ps l [-> Hl]. apply made_ret. unfold ends. cbn. by rewrite Hl.
Qed.

(** The context holds what the constructor opened. *)
Definition holds (n : nat) (nb : Z) (c : Context) (l : list Z) : Prop :=
  length (client_fds c) = n /\ length (accepted_fds c) = n /\ length (conn_pipes c) = n /\ nbytes c = Z.to_nat nb /\
  (server_fd c <> -1 ->
    l = [server_fd c] ++ client_fds c ++ accepted_fds c ++ [(pipes c).1; (pipes c).2] ++ ends (conn_pipes c)).

Lemma new_context_made n nb b : made (new_context n nb b) [] (holds n nb).
Proof.
  unfold new_context. apply made_call; [done|intros r].
  do 6 (apply made_call; [done|intros ?]). rewrite !app_nil_r. cbn [app].
  eapply made_and_then; [apply connect_clients_made|intros cl ? [-> Hcl]].
  eapply made_and_then; [apply accept_clients_made|intros ac ? [-> Hac]].
  apply made_call; [done|intros p]. destruct p as [e|p]; [done|]. apply made_lift, made_set_pipe. eapply made_and_then; [apply make_pipes_made|intros ps ? [-> Hps]].
  apply made_ret. repeat (split; [done|]). cbn. intros Hs. destruct r as [e|fd]; [done|].
  cbn. by rewrite <- !app_assoc.
Qed.

Lemma close_fd_Ok fd w : exists t w', close_fd fd w = Ok (tt, w') /\ after w t w' /\ closed t = [fd].
Proof.
  unfold close_fd. destruct (call_Ok (SysClose fd) w) as (a & w1 & E & Ha & _). rewrite (M_bind_eq _ _ _ _ _ E).
  by exists [Event (SysClose fd) a], w1.
Qed.

Lemma close_conns_Ok ac : forall cl cp w,
  length ac = length cl -> length ac = length cp ->
  exists t w', close_conns ac cl cp w = Ok (tt, w') /\ after w t w' /\ closed t ≡ₚ cl ++ ac ++ ends cp.
Proof.
  induction ac as [|a ac IH]; intros [|x cl] [|p cp] w Hl Hp; try done.
  { exists [], w. split; [done|]. split; [apply after_refl|done]. }
  cbn [close_conns].
  destruct (close_fd_Ok a w) as (t1 & w1 & E1 & H1 & C1). rewrite (M_bind_eq _ _ _ _ _ E1).
  destruct (close_fd_Ok x w1) as (t2 & w2 & E2 & H2 & C2). rewrite (M_bind_eq _ _ _ _ _ E2).
  destruct (close_fd_Ok p.1 w2) as (t3 & w3 & E3 & H3 & C3). rewrite (M_bind_eq _ _ _ _ _ E3).
  destruct (close_fd_Ok p.2 w3) as (t4 & w4 & E4 & H4 & C4). rewrite (M_bind_eq _ _ _ _ _ E4).
  destruct (IH cl cp w4) as (t5 & w5 & E5 & H5 & C5); [by injection Hl|by injection Hp|].
  exists (t1 ++ t2 ++ t3 ++ t4 ++ t5), w5. split; [done|]. split; [do 4 (eapply after_trans; [done|]); done|].
  rewrite !closed_app, C1, C2, C3, C4, C5. unfold ends. cbn. solve_Permutation.
Qed.

Lemma delete_context_Ok c w :
  length (accepted_fds c) = length (client_fds c) -> length (accepted_fds c) = length (conn_pipes c) ->
  exists t w', delete_context c w = Ok (tt, w') /\ after w t w' /\
    closed t ≡ₚ [server_fd c] ++ client_fds c ++ accepted_fds c ++ [(pipes c).1; (pipes c).2] ++ ends (conn_pipes c).
Proof.
  intros Hl Hp. unfold delete_context.
  destruct (close_conns_Ok (accepted_fds c) (client_fds c) (conn_pipes c) w) as (t2 & w2 & E2 & H2 & C2); [done..|].
  rewrite (M_bind_eq _ _ _ _ _ E2).
  destruct (close_fd_Ok (pipes c).1 w2) as (t3 & w3 & E3 & H3 & C3). rewrite (M_bind_eq _ _ _ _ _ E3).
  destruct (close_fd_Ok (pipes c).2 w3) as (t4 & w4 & E4 & H4 & C4). rewrite (M_bind_eq _ _ _ _ _ E4).
  destruct (close_fd_Ok (server_fd c) w4) as (t5 & w5 & E5 & H5 & C5).
  exists (t2 ++ t3 ++ t4 ++ t5), w5. split; [done|]. split; [do 3 (eapply after_trans; [done|]); done|].
  rewrite !closed_app, C2, C3, C4, C5. cbn. solve_Permutation.
Qed.

(** Claim C20. The constructor either stops the program or makes a context for the number of
    connections asked for, and the destructor of a context closes every descriptor its
    constructor opened, each once, and nothing else. *)
Theorem context_closes_all n nb b w c w1 :
  new_context n nb b w = Ok (Some c, w1) -> server_fd c <> -1 ->
  exists t1 t2 w2,
    after w t1 w1 /\ closed t1 = [] /\
    length (client_fds c) = n /\ length (accepted_fds c) = n /\ length (conn_pipes c) = n /\
    delete_context c w1 = Ok (tt, w2) /\ after w1 t2 w2 /\ closed t2 ≡ₚ opened t1.
Proof.
  intros E Hs. destruct (new_context_made _ _ _ _ _ _ E) as (t1 & Ha & Hc & Hcl & Hac & Hcp & _ & Hl).
  destruct (delete_context_Ok c w1) as (t2 & w2 & E2 & H2 & C2); [congruence..|].
  exists t1, t2, w2. do 7 (split; [done|]). by rewrite C2, <- (Hl Hs).
Qed.
End closing.

(** ** Witness *)

Section witnesses.

Definition bench : Context :=
  Bench (str "data!") 4 30 [31; 32] [7; 8] [(22, 23); (24, 25)] (20, 21).

Lemma bench_well_formed : well_formed demo_pipe_of bench.
Proof. split; try done; apply (bool_decide_unpack _); vm_compute; exact Logic.I. Qed.

Lemma zero_copy_is_direct_write_witness :
  exists t1 w1 t2 w2,
    ZeroCopy (Some 2) bench demo_kernel = Ok (tt, w1) /\ after demo_kernel t1 w1 /\
    DirectWrite (Some 2) bench demo_kernel = Ok (tt, w2) /\ after demo_kernel t2 w2 /\
    (all_complete demo_pipe_of t1 demo_sockets -> all_complete demo_pipe_of t2 demo_sockets ->
      (forall x, effects demo_pipe_of t1 demo_sockets x = effects demo_pipe_of t2 demo_sockets x) /\
      (forall fd, sent fd t1 = if fd =? 21 then str "data" else []) /\
      copied t2 = Z.of_nat (2 * 4)).
Proof. exact (zero_copy_is_direct_write demo_pipe_of 2 bench demo_sockets demo_kernel bench_well_formed (fun _ _ => eq_refl)). Defined.

Definition bench_kernel : sim := Sim [] 65536 [] [inr 7; inr 8] [] 0 [].
Definition bench_made : Context * sim :=
  Eval vm_compute in
    match new_context 2 4 (str "data!") bench_kernel with Ok (Some c, w) => (c, w) | _ => (bench, bench_kernel) end.

Lemma context_closes_all_witness :
  exists t1 t2 w2,
    after bench_kernel t1 bench_made.2 /\ closed t1 = [] /\
    length (client_fds bench_made.1) = 2%nat /\ length (accepted_fds bench_made.1) = 2%nat /\
    length (conn_pipes bench_made.1) = 2%nat /\
    delete_context bench_made.1 bench_made.2 = Ok (tt, w2) /\ after bench_made.2 t2 w2 /\ closed t2 ≡ₚ opened t1.
Proof.
  assert (E : new_context 2 4 (str "data!") bench_kernel = Ok (Some bench_made.1, bench_made.2))
    by (vm_compute; reflexivity).
  exact (context_closes_all 2 4 (str "data!") bench_kernel bench_made.1 bench_made.2 E ltac:(done)).
Defined.

(** The calls of the scripted kernel are complete. *)
Example bench_complete :
  match ZeroCopy (Some 2) bench demo_kernel, DirectWrite (Some 2) bench demo_kernel with
  | Ok (_, w1), Ok (_, w2) =>
      all_complete demo_pipe_of (sim_trace w1) demo_sockets /\
      all_complete demo_pipe_of (sim_trace w2) demo_sockets /\
      effects demo_pipe_of (sim_trace w1) demo_sockets 8 = str "data" /\
      copied (sim_trace w1) = 4 /\ copied (sim_trace w2) = 8
  | _, _ => False
  end.
Proof. vm_compute. repeat split. Qed.
End witnesses.
