(* ===== verification/BenchmarkMain.v ===== *)
(** * The program of the benchmark: [main] in benchmark/broadcast/broadcast.cc

    The arguments are a number of connections, a number of bytes with a unit, and the names of
    a file for the result and of one for errors.  The program times 100 rounds of both ways of
    sending and prints the two averages. *)

From S2P Require Import Prelude CString State Posix ConnectionSpec Response WsFrame Server BroadcastGroup Benchmark.

(** ** Arithmetic on [int] *)

Definition int_ok (z : Z) : bool := (- 2 ^ 31 <=? z) && (z <? 2 ^ 31).

(** What [int] arithmetic gives: too large a result is undefined. *)
Definition to_int (z : Z) : outcome Z := if int_ok z then Ok z else Fault Overflow.

(** ** The arguments

    [argv] has the name of the program first. *)

Definition parse_conns (argv : list bytes) : outcome Z :=
  match argv !! 1%nat with
  | None => Ok 5
  | Some arg => atoi arg
  end.

(** The unit is the last character; an empty argument has none: its index is the largest
    [size_t]. *)
Definition parse_bytes (argv : list bytes) : outcome Z :=
  match argv !! 2%nat with
  | None => Ok (1024 * 10)
  | Some arg =>
      nbytes ← atoi arg;
      unit ← of_option OutOfBounds (last arg);
      if decide (unit = "k"%byte \/ unit = "K"%byte) then to_int (nbytes * 1024)
      else if decide (unit = "m"%byte \/ unit = "M"%byte) then to_int (nbytes * (1024 * 1024))
      else Ok nbytes
  end.

Definition stdout : Z := 1.
Definition stderr : Z := 2.
Definition kIteration : nat := 100.

(** ** Times *)

(** [duration_cast<microseconds>] of a difference of two readings in nanoseconds, stored in an
    [int]. *)
Definition microseconds (t1 t2 : Z) : Z := i32 (Z.quot (t2 - t1) 1000).

(** [std::accumulate] from the [int] 0. *)
Fixpoint accumulate (acc : Z) (l : list Z) : outcome Z :=
  match l with
  | [] => Ok acc
  | x :: l => acc ← to_int (acc + x); accumulate acc l
  end.

(** The division is unsigned, because [kIteration] is. *)
Definition average (l : list Z) : outcome Z :=
  sum ← accumulate 0 l;
  Ok (u32 sum / Z.of_nat kIteration).

(** The line that is printed. *)
Definition report (n_conns nbytes zc_avg dw_avg : Z) : bytes :=
  str "conns " ++ Decimal.decimal n_conns ++ str " bytes " ++ Decimal.decimal nbytes ++
  str " zero_copy " ++ Decimal.decimal zc_avg ++ str " direct_write " ++ Decimal.decimal dw_avg ++ [LF].

Section main.
Context {W : Type} `{!Posix W}.
Implicit Types (c : Context).

(** A stream, or the null pointer. *)
Definition open_append (path : bytes) : M W (option Z) :=
  r ← call (SysFopen path (str "a+"));
  mret (match r with inl _ => None | inr f => Some f end).

Definition open_or (default : Z) (path : option bytes) : M W (option Z) :=
  match path with
  | None => mret (Some default)
  | Some path => open_append path
  end.

Definition fprintf (out : option Z) (text : bytes) : M W Z :=
  f ← lift (of_option NullDeref out);
  call (SysFprintf f text).

(** One round of the loop: both times and the context, whose buffer was read into. *)
Definition iteration (log_file : option Z) c : M W ((Z * Z) * Context) :=
  t1 ← call SysNow;
  _ ← ZeroCopy log_file c;
  t2 ← call SysNow;
  c ← Drain log_file c;
  t3 ← call SysNow;
  _ ← DirectWrite log_file c;
  t4 ← call SysNow;
  c ← Drain log_file c;
  mret ((microseconds t1 t2, microseconds t3 t4), c).

Fixpoint iterations (log_file : option Z) (n : nat) c : M W (list (Z * Z) * Context) :=
  match n with
  | O => mret ([], c)
  | S n =>
      '(times, c) ← iteration log_file c;
      '(l, c) ← iterations log_file n c;
      mret (times :: l, c)
  end.

(** The rounds, the line, and the destructor of the context. *)
Definition measure (out log_file : option Z) (n_conns nbytes : Z) c : M W Z :=
  '(times, c) ← iterations log_file kIteration c;
  zc_avg ← lift (average times.*1);
  dw_avg ← lift (average times.*2);
  _ ← fprintf out (report n_conns nbytes zc_avg dw_avg);
  _ ← delete_context c;
  mret 0.

(** [main]; the result [None] is the [exit] of the constructor.  [new char\[nbytes + 1\]] and
    [new int\[n_conns\]] throw when the number is negative; with -1 for [nbytes] the first write is
    asked to take more than there is. *)
Definition main (argv : list bytes) (b : bytes) : M W (option Z) :=
  n_conns ← lift (parse_conns argv);
  nbytes ← lift (parse_bytes argv);
  out ← open_or stdout (argv !! 3%nat);
  log_file ← open_or stderr (argv !! 4%nat);
  size ← lift (to_int (nbytes + 1));
  _ ← lift (guard_or ((0 <=? size) && (0 <=? n_conns)) Throws);
  and_then (new_context (Z.to_nat n_conns) nbytes b) (fun c =>
  _ ← lift (guard_or (0 <=? nbytes) OutOfBounds);
  ret ← measure out log_file n_conns nbytes c;
  mret (Some ret)).
End main.

(** ** What the rounds do *)

Definition reading (x : event) : list Z :=
  let 'Event e r := x in
  match e in sysE A return A -> list Z with
  | SysNow => fun r => [r]
  | _ => fun _ => []
  end r.

(** What the clock said. *)
Definition readings (t : list event) : list Z := concat (map reading t).

(** The calls of a round: those on the descriptors of the context, and the clock. *)
Definition measured (x : event) : Prop :=
  match ev_call x with
  | SysNow | SysRead _ _ | SysWrite _ _ | SysTee _ _ _ | SysSplice _ _ _ => True
  | _ => False
  end.

Lemma readings_app t t' : readings (t ++ t') = readings t ++ readings t'.
Proof. unfold readings. by rewrite map_app, concat_app. Qed.

Section rounds.
Context {W : Type} `{!Posix W} `{!PosixLaws W} (log : Z).
Implicit Types (c : Context) (w : W).

(** [m] returns, having made calls of a round, with the readings and the result [Q] says. *)
Definition round {A} (m : M W A) (Q : A -> list Z -> Prop) : Prop :=
  forall w, exists a t w', m w = Ok (a, w') /\ after w t w' /\ Forall measured t /\ Q a (readings t).

Lemma round_ret {A} (a : A) (Q : A -> list Z -> Prop) : Q a [] -> round (mret a) Q.
Proof. intros HQ w. exists a, [], w. split; [done|]. split; [apply after_refl|]. by split. Qed.

Lemma round_bind {A B} (m : M W A) (k : A -> M W B) Q1 Q2 :
  round m Q1 -> (forall a r, Q1 a r -> round (k a) (fun b r' => Q2 b (r ++ r'))) -> round (m ≫= k) Q2.
Proof.
  intros Hm Hk w. destruct (Hm w) as (a & t & w1 & E & Ha & Ht & H1).
  destruct (Hk _ _ H1 w1) as (b & t' & w2 & E2 & Ha2 & Ht2 & H2).
  exists b, (t ++ t'), w2. rewrite (M_bind_eq _ _ _ _ _ E). split; [done|]. split; [by eapply after_trans|].
  rewrite readings_app. split; [by apply Forall_app|done].
Qed.

Lemma round_call {A : Set} (e : sysE A) :
  (forall a, measured (Event e a)) -> round (call e) (fun a r => r = reading (Event e a)).
Proof.
  intros He w. destruct (call_Ok e w) as (a & w' & E & Ha & _). exists a, [Event e a], w'.
  split; [done|]. split; [done|]. split; [by constructor|]. unfold readings. cbn. by rewrite app_nil_r.
Qed.

Definition silent {A} (a : A) (r : list Z) : Prop := r = [].

Lemma round_silent {A B} (m : M W A) (k : A -> M W B) Q :
  round m silent -> (forall a, round (k a) Q) -> round (m ≫= k) Q.
Proof. intros Hm Hk. eapply round_bind; [exact Hm|]. intros a r ->. apply Hk. Qed.

Lemma round_lift {A B} (a : A) (k : A -> M W B) Q : round (k a) Q -> round (x ← lift (Ok a); k x) Q.
Proof. intros Hk w. rewrite M_bind_lift. apply Hk. Qed.

Lemma round_logged {A : Set} (e : sysE (errno + A)) :
  (forall a, measured (Event e a)) -> (forall a, reading (Event e a) = []) ->
  round (logged (Some log) (call e)) silent.
Proof.
  intros He Hr. unfold logged. eapply round_bind; [by apply round_call|]. intros [x|a] r Er;
    rewrite Hr in Er; subst r; [|by apply round_ret].
  apply round_silent; [by apply (round_ret tt)|intros _; by apply round_ret].
Qed.

Lemma write_loop_round d fds : round (write_loop (Some log) d fds) silent.
Proof.
  induction fds as [|fd fds IH]; [by apply round_ret|]. cbn [write_loop].
  apply round_silent; [by apply round_logged|done].
Qed.

Lemma tee_pipes_round fd n ps : round (tee_pipes (Some log) fd n ps) silent.
Proof.
  induction ps as [|p ps IH]; [by apply round_ret|]. cbn [tee_pipes].
  apply round_silent; [by apply round_logged|done].
Qed.

Lemma splice_conns_round n ps : forall fds, round (splice_conns (Some log) n ps fds) silent.
Proof.
  induction ps as [|p ps IH]; intros [|fd fds]; try by apply round_ret. cbn [splice_conns].
  apply round_silent; [by apply round_logged|intros _; apply IH].
Qed.

Lemma drain_loop_round n fds : forall b, round (drain_loop (Some log) n fds b) silent.
Proof.
  induction fds as [|fd fds IH]; intros b; [by apply round_ret|]. cbn [drain_loop].
  apply round_silent; [by apply round_logged|intros r; apply IH].
Qed.

Lemma ZeroCopy_round c : conn_pipes c <> [] -> round (ZeroCopy (Some log) c) silent.
Proof.
  intros (l & p & E)%exists_last. unfold ZeroCopy. rewrite E, last_snoc. cbn [of_option].
  apply round_silent; [by apply round_logged|intros _]. apply round_silent; [apply tee_pipes_round|intros _].
  apply round_lift. apply round_silent; [by apply round_logged|intros _; apply splice_conns_round].
Qed.

(** The context after a round: only its buffer changed. *)
Definition same_fds c c' : Prop := exists b, c' = set_buf b c.

Lemma same_fds_trans c1 c2 c3 : same_fds c1 c2 -> same_fds c2 c3 -> same_fds c1 c3.
Proof. intros [b ->] [b' ->]. exists b'. by destruct c1. Qed.

Lemma Drain_round c : round (Drain (Some log) c) (fun c' r => same_fds c c' /\ r = []).
Proof.
  unfold Drain. apply round_silent; [apply drain_loop_round|]. intros b. apply round_ret. split; [by exists b|done].
Qed.

Lemma round_now {B} (k : Z -> M W B) Q :
  (forall t, round (k t) (fun b r => Q b (t :: r))) -> round (t ← call SysNow; k t) Q.
Proof. intros Hk. eapply round_bind; [by apply round_call|]. intros t r ->. apply Hk. Qed.

(** The readings of a round, in order. *)
Record stamps := Stamps { st1 : Z; st2 : Z; st3 : Z; st4 : Z }.

Definition zero_copy_phase (s : stamps) : Z := st2 s - st1 s.
Definition direct_write_phase (s : stamps) : Z := st4 s - st3 s.

Definition times (s : stamps) : Z * Z :=
  (microseconds (st1 s) (st2 s), microseconds (st3 s) (st4 s)).

Definition stamp_list (s : stamps) : list Z := [st1 s; st2 s; st3 s; st4 s].

Lemma iteration_round c :
  conn_pipes c <> [] ->
  round (iteration (Some log) c) (fun a r => exists s, a.1 = times s /\ r = stamp_list s /\ same_fds c a.2).
Proof.
  intros Hc. unfold iteration. apply round_now; intros t1.
  apply round_silent; [by apply ZeroCopy_round|intros _]. apply round_now; intros t2.
  eapply round_bind; [apply Drain_round|]. intros c1 r1 [[b1 ->] ->]. apply round_now; intros t3.
  apply round_silent; [apply write_loop_round|intros _]. apply round_now; intros t4.
  eapply round_bind; [apply Drain_round|]. intros c2 r2 [Hc2 ->]. apply round_ret.
  exists (Stamps t1 t2 t3 t4). split; [done|]. split; [done|]. eapply same_fds_trans; [by exists b1|exact Hc2].
Qed.

Lemma iterations_round n : forall c,
  conn_pipes c <> [] ->
  round (iterations (Some log) n c) (fun a r => exists ss, length ss = n /\ a.1 = map times ss /\
    r = concat (map stamp_list ss) /\ same_fds c a.2).
Proof.
  induction n as [|n IH]; intros c Hc.
  - apply round_ret. exists []. do 3 (split; [done|]). exists (buf_ c). by destruct c.
  - cbn [iterations]. eapply round_bind; [by apply iteration_round|].
    intros [tm c1] r (s & Htm & -> & b & Hb). cbn [fst snd] in *. subst tm c1.
    eapply round_bind; [apply (IH (set_buf b c)); by destruct c|].
    intros [l c2] r2 (ss & <- & Hl & -> & Hc2). cbn [fst snd] in *. subst l. apply round_ret. exists (s :: ss).
    do 2 (split; [done|]). split; [by rewrite app_nil_r|]. eapply same_fds_trans; [by exists b|exact Hc2].
Qed.
End rounds.

(** ** Averages *)

Definition sum (l : list Z) : Z := fold_right Z.add 0 l.

(** The mean of times in nanoseconds, each cut to microseconds, cut to microseconds. *)
Definition mean (l : list Z) : Z := sum (map (fun d => d / 1000) l) / Z.of_nat kIteration.

(** A time of which 100 add up to less than 2^31 microseconds: a little more than 21 seconds. *)
Definition short (d : Z) : Prop := 0 <= d < 21474837 * 1000.

Lemma to_int_Ok z : - 2 ^ 31 <= z < 2 ^ 31 -> to_int z = Ok z.
Proof.
  intros Hz. unfold to_int, int_ok. by rewrite (proj2 (Z.leb_le _ _)), (proj2 (Z.ltb_lt _ _)) by lia.
Qed.

Lemma accumulate_sum l : forall acc m,
  0 <= acc -> Forall (fun x => 0 <= x <= m) l -> acc + Z.of_nat (length l) * m < 2 ^ 31 ->
  accumulate acc l = Ok (acc + sum l) /\ 0 <= sum l <= Z.of_nat (length l) * m.
Proof.
  induction l as [|x l IH]; intros acc m Hacc Hl Hm; cbn [accumulate sum fold_right length].
  - rewrite Z.add_0_r. split; [done|lia].
  - apply Forall_cons in Hl as [Hx Hl]. cbn [length] in Hm.
    destruct (IH (acc + x) m) as [E Hs]; [lia|done|nia|].
    assert (acc + x < 2 ^ 31) by nia. rewrite to_int_Ok by lia. cbn [mbind outcome_bind].
    rewrite E. fold (sum l). split; [f_equal; lia|nia].
Qed.

Lemma microseconds_short t1 t2 : short (t2 - t1) -> microseconds t1 t2 = (t2 - t1) / 1000.
Proof.
  unfold short, microseconds, i32. intros Hs. rewrite Z.quot_div_nonneg by lia.
  assert (0 <= (t2 - t1) / 1000 < 2 ^ 31) by (Z.div_mod_to_equations; lia).
  rewrite Z.mod_small by lia. lia.
Qed.

(** Short times do not overflow, and their average is their mean. *)
Lemma average_mean {A} (f : A -> Z) (phase : A -> Z) ss :
  length ss = kIteration -> Forall (fun s => short (phase s)) ss ->
  (forall s, short (phase s) -> f s = phase s / 1000) ->
  average (map f ss) = Ok (mean (map phase ss)).
Proof.
  intros Hl Hs Hf. unfold average, mean.
  assert (E : map f ss = map (fun d => d / 1000) (map phase ss)).
  { rewrite map_map. apply map_ext_Forall. by apply (Forall_impl _ _ _ Hs). }
  rewrite E. destruct (accumulate_sum (map (fun d => d / 1000) (map phase ss)) 0 21474836) as [-> Hsum]; [done| | |].
  - rewrite map_map. apply Forall_map. apply (Forall_impl _ _ _ Hs). intros s. unfold short. cbn. Z.div_mod_to_equations; lia.
  - rewrite !length_map, Hl. done.
  - rewrite !length_map, Hl in Hsum. unfold kIteration in Hsum. cbn [mbind outcome_bind]. unfold u32, wrap. rewrite Z.mod_small; [done|lia].
Qed.

(** ** The arguments *)

(** Digits and a unit. *)
Theorem parse_bytes_unit argv ds u f :
  argv !! 2%nat = Some (ds ++ [u]) -> ds <> [] -> Forall (fun d => isdigit d = true) ds ->
  digits_value 0 ds < 2 ^ 31 ->
  In (u, f) [("k", 1024); ("K", 1024); ("m", 1048576); ("M", 1048576); (" ", 1); ("b", 1)]%byte ->
  parse_bytes argv =
    if decide (digits_value 0 ds * f < 2 ^ 31) then Ok (digits_value 0 ds * f) else Fault Overflow.
Proof.
  intros Ha Hne Hds Hv Hu. unfold parse_bytes. rewrite Ha, last_snoc.
  pose proof (digits_value_nonneg 0 ds ltac:(lia)) as Hn.
  assert (Hc : isdigit u = false) by (cbn in Hu; naive_solver).
  rewrite (atoi_digits ds u []) by done. cbn [mbind outcome_bind of_option].
  set (v := digits_value 0 ds) in *. clearbody v. unfold to_int, int_ok. cbn in Hu.
  destruct_or! Hu; simplify_eq; repeat case_decide; destruct_or?; try discriminate;
    try match goal with H : ~ (_ \/ _) |- _ => by destruct H; auto end.
  all: repeat first [rewrite (proj2 (Z.leb_le _ _)) by lia | rewrite (proj2 (Z.ltb_lt _ _)) by lia
    | rewrite (proj2 (Z.ltb_ge _ _)) by lia]; cbn [andb]; done || (f_equal; lia) || (exfalso; lia).
Qed.

(** The index of the unit of an empty argument is outside the string. *)
Example parse_bytes_empty : parse_bytes [str "broadcast"; str "5"; []] = Fault OutOfBounds.
Proof. reflexivity. Qed.

(** ** Claim: what is printed *)

Lemma measured_closed t : Forall measured t -> closed t = [].
Proof.
  induction 1 as [|[A e r] t Hx _ IH]; [done|]. unfold closed in *. cbn [map concat]. rewrite IH.
  by destruct e.
Qed.

Section report.
Context {W : Type} `{!Posix W} `{!PosixLaws W}.

Lemma measure_Ok out log n nb c (w : W) :
  conn_pipes c <> [] -> length (accepted_fds c) = length (client_fds c) ->
  length (accepted_fds c) = length (conn_pipes c) ->
  exists ss t w1, length ss = kIteration /\ after w t w1 /\ Forall measured t /\
    readings t = concat (map stamp_list ss) /\
    (Forall (fun s => short (zero_copy_phase s) /\ short (direct_write_phase s)) ss ->
     exists r t' w2, measure (Some out) (Some log) n nb c w = Ok (0, w2) /\
       after w1 (Event (SysFprintf out
         (report n nb (mean (map zero_copy_phase ss)) (mean (map direct_write_phase ss)))) r :: t') w2 /\
       closed t' ≡ₚ [server_fd c] ++ client_fds c ++ accepted_fds c ++ [(pipes c).1; (pipes c).2] ++ ends (conn_pipes c)).
Proof.
  intros Hc Hl1 Hl2. destruct (iterations_round log kIteration c Hc w) as ([l c1] & t & w1 & E & Ha & Ht & ss & Hss & Hl & Hr & b & Hb).
  cbn [fst snd] in *. subst l c1.
  exists ss, t, w1. do 4 (split; [done|]). intros [Hz Hd]%Forall_and.
  unfold measure. rewrite (M_bind_eq _ _ _ _ _ E).
  change (map times ss).*1 with (map fst (map times ss)). change (map times ss).*2 with (map snd (map times ss)).
  rewrite !map_map. rewrite (average_mean (fun s => (times s).1) zero_copy_phase), M_bind_lift by (try done; intros s; apply microseconds_short).
  rewrite (average_mean (fun s => (times s).2) direct_write_phase), M_bind_lift by (try done; intros s; apply microseconds_short).
  unfold fprintf. cbn [of_option]. rewrite M_bind_assoc, M_bind_lift.
  destruct (call_Ok (SysFprintf out (report n nb (mean (map zero_copy_phase ss)) (mean (map direct_write_phase ss)))) w1)
    as (r & w2 & E2 & Ha2 & _). rewrite (M_bind_eq _ _ _ _ _ E2).
  destruct (delete_context_Ok (set_buf b c) w2) as (t' & w3 & E3 & Ha3 & Hcl); [by destruct c..|].
  rewrite (M_bind_eq _ _ _ _ _ E3). exists r, t', w3. split; [done|].
  split; [by eapply (after_trans _ [_])|]. rewrite Hcl. by destruct c.
Qed.

(** Claim C21. The benchmark measures what it says and tidies up.  When its arguments are well
    formed, its files can be opened and its descriptors set up, it reads the clock four times in
    each of 100 rounds, around either way of sending; unless a round takes more than
    21 seconds, it then prints one line, with the mean of the times of either way in whole
    microseconds, closes every descriptor it set up, once, and returns 0. *)
Theorem bench_report argv b (w : W) n nb out log w1 w2 c w3 :
  parse_conns argv = Ok n -> parse_bytes argv = Ok nb -> 0 < n -> 0 <= nb < 2 ^ 31 - 1 ->
  open_or stdout (argv !! 3%nat) w = Ok (Some out, w1) ->
  open_or stderr (argv !! 4%nat) w1 = Ok (Some log, w2) ->
  new_context (Z.to_nat n) nb b w2 = Ok (Some c, w3) -> server_fd c <> -1 ->
  exists t0 ss t w4,
    after w2 t0 w3 /\ length ss = 100%nat /\ after w3 t w4 /\ Forall measured t /\
    readings t = concat (map stamp_list ss) /\
    (Forall (fun s => short (zero_copy_phase s) /\ short (direct_write_phase s)) ss ->
     exists r t' w5, main argv b w = Ok (Some 0, w5) /\
       after w4 (Event (SysFprintf out
         (report n nb (mean (map zero_copy_phase ss)) (mean (map direct_write_phase ss)))) r :: t') w5 /\
       closed t' ≡ₚ opened t0).
Proof.
  intros Hn Hb Hn0 Hb0 E1 E2 E3 Hs.
  destruct (new_context_made _ _ _ _ _ _ E3) as (t0 & Ha0 & _ & Hcl & Hac & Hcp & _ & Hop). specialize (Hop Hs).
  destruct (measure_Ok out log n nb c w3) as (ss & t & w4 & Hss & Ha & Ht & Hr & Hm).
  { intros E. rewrite E in Hcp. cbn in Hcp. lia. }
  { congruence. }
  { congruence. }
  exists t0, ss, t, w4. do 5 (split; [done|]). intros Hshort.
  destruct (Hm Hshort) as (r & t' & w5 & E5 & Ha5 & Hc5). exists r, t', w5.
  split; [|split; [done|by rewrite Hc5, <- Hop]].
  unfold main. rewrite Hn, M_bind_lift, Hb, M_bind_lift, (M_bind_eq _ _ _ _ _ E1), (M_bind_eq _ _ _ _ _ E2).
  rewrite to_int_Ok, M_bind_lift by lia. rewrite !(proj2 (Z.leb_le _ _)) by lia. cbn [andb guard_or]. rewrite M_bind_lift.
  unfold and_then. rewrite (M_bind_eq _ _ _ _ _ E3), M_bind_lift, (M_bind_eq _ _ _ _ _ E5). done.
Qed.
End report.

(** ** Witness *)

Section witness.

Definition bench_args : list bytes := [str "broadcast"; str "2"; str "1k"; str "result.txt"].

Definition main_kernel : sim := Sim [] 65536 [] [inr 7; inr 8] [] 0 [].
Definition opened_files : sim * sim * (Context * sim) :=
  Eval vm_compute in
    match open_or stdout (bench_args !! 3%nat) main_kernel with
    | Ok (_, w1) =>
        match new_context 2 1024 (str "data!") w1 with
        | Ok (Some c, w3) => (w1, w1, (c, w3))
        | _ => (w1, w1, (bench, w1))
        end
    | _ => (main_kernel, main_kernel, (bench, main_kernel))
    end.

Lemma bench_report_witness :
  let '(w1, w2, (c, w3)) := opened_files in
  exists t0 ss t w4,
    after w2 t0 w3 /\ length ss = 100%nat /\ after w3 t w4 /\ Forall measured t /\
    readings t = concat (map stamp_list ss) /\
    (Forall (fun s => short (zero_copy_phase s) /\ short (direct_write_phase s)) ss ->
     exists r t' w5, main bench_args (str "data!") main_kernel = Ok (Some 0, w5) /\
       after w4 (Event (SysFprintf 50
         (report 2 1024 (mean (map zero_copy_phase ss)) (mean (map direct_write_phase ss)))) r :: t') w5 /\
       closed t' ≡ₚ opened t0).
Proof.
  assert (E : new_context 2 1024 (str "data!") opened_files.1.2 = Ok (Some opened_files.2.1, opened_files.2.2))
    by (vm_compute; reflexivity).
  exact (bench_report bench_args (str "data!") main_kernel 2 1024 50 2 opened_files.1.1 opened_files.1.2
    opened_files.2.1 opened_files.2.2 eq_refl eq_refl ltac:(lia) ltac:(lia) eq_refl eq_refl E ltac:(done)).
Defined.

(** What is printed on that kernel, whose clock takes a second for each call. *)
Definition printed_by (x : event) : bytes :=
  match ev_call x with SysFprintf _ text => text | _ => [] end.

Example bench_line :
  match main bench_args (str "data!") main_kernel with
  | Ok (Some 0, w) => concat (map printed_by (sim_trace w)) =
      str "conns 2 bytes 1024 zero_copy 1000000 direct_write 1000000" ++ [LF]
  | _ => False
  end.
Proof. vm_compute. reflexivity. Qed.

(** A result file that cannot be opened is used all the same. *)
Example unopened_result_faults :
  fprintf (W := sim) None (report 2 1024 0 0) main_kernel = Fault NullDeref.
Proof. reflexivity. Qed.
End witness.
