(* ===== verification/Basic.v ===== *)
(** * The basic example: examples/basic/basic.cc

    A server with two pages.  The context [AsyncHttpContext] is the state of the application:
    a connection whose answer is pending, which [get_handler] would set.  [main] registers
    neither [get_handler] nor anything else that sets it, so that the branch of
    [websocket_ready] that answers the pending connection is never taken
    ([basic_runs_safely]); what the hook does there is a parameter of the program, and
    [answer_pending_get] says what it is. *)

From S2P Require Import Prelude CString StdMap Method Version HeaderParser State Posix RequestHandler Connection ConnectionSpec WebsocketConnection WebsocketProps Response Router Server ServerSpec EventLoop ServerProps.
Import HttpHeaderParser.

Definition NL : bytes := [LF].

(** The raw strings of the handlers. *)
Definition kGetTemplate : bytes :=
  NL ++ str "  <html>" ++ NL ++ str "  <head>this is my site</head>" ++ NL ++
  str "  <body><b>hello world</b></body>" ++ NL ++ str "  </html>" ++ NL ++ str "  ".

Definition kPremiumTemplate : bytes :=
  NL ++ str "<html><title>premium king</title>" ++ NL ++
  str "<head>this is my site</head><body><b>hello world</b></body></html>".

Definition AsyncHttpContext : Type := option nat.  (* pending_get_conn *)

Section basic.
Context {K : Type} `{!Posix K} {config : Config} `{!Sha1} `{!Fmt} `{!Regex}.
#[local] Abbreviation W := (with_app AsyncHttpContext K).

(** What [websocket_ready] does to a pending connection: it answers and closes it
    ([answer_pending_get] below), which takes the server that hooks do not get. *)
Context (answer_pending : nat -> M (ws_state * W) unit).

Definition get_handler : Handler W := fun conn parser fd uri is_final =>
  on_snd (on_app (fun _ => (0, Some conn))).

Definition websocket_ready : WsHook W := fun fd uri =>
  pending ← on_snd (on_app (fun p => (p, p)));
  match pending with
  | None => mret 0
  | Some conn =>
      _ ← answer_pending conn;
      _ ← on_snd (on_app (fun _ => (tt, None)));
      mret 0
  end.

Definition ws_close : WsHook W := fun fd uri => mret 0.

(** That branch, as code of the server. *)
Definition answer_pending_get (conn : nat) (s : server W) : M W (server W) :=
  c ← lift (deref conn s);
  response ← lift (MakeResponse 200 (version_ (parser c)) [] kGetTemplate);
  _ ← Write (fd_ c) response;
  '(_, s) ← CloseConn conn s;
  mret s.

(** Writing a page to the connection of the request. *)
Definition write_page (parser : http_header_parser) (fd : Z) (page : bytes) : M (bytes * W) unit :=
  response ← lift (MakeResponse 200 (version_ parser) [] page);
  _ ← on_snd (Write fd response);
  mret tt.

Definition dummy_handler : Handler W := fun conn parser fd uri is_final =>
  if negb is_final then mret 0 else
  _ ← write_page parser fd kGetTemplate;
  mret (-1).

Definition premium_handler : Handler W := fun conn parser fd uri is_final =>
  _ ← write_page parser fd kPremiumTemplate;
  mret 0.

Definition handlers : request_handler W :=
  foldr (fun m h => set_handler m dummy_handler h)
    (RequestHandler (http_handlers (empty_handler W)) None (Some websocket_ready) (Some ws_close) None)
    [HttpMethod.GET; HttpMethod.POST; HttpMethod.PUT; HttpMethod.DELETE; HttpMethod.HEAD; HttpMethod.CONNECT].

Definition dump_handlers : request_handler W :=
  set_handler HttpMethod.GET premium_handler (empty_handler W).

Definition registrations : list (bytes * request_handler W) :=
  [(str "/", handlers); (str "/abc", dump_handlers)].

(** [main], up to its endless loop; the port is an argument of the program. *)
Definition main_init (port : Z) : M W (Z * server W) :=
  '(ret, s) ← Init None port 5 new_server;
  if ret =? 0
  then mret (0, Register (str "/abc") dump_handlers (Register (str "/") handlers s))
  else mret (ret, s).

(** [while (true) server.Poll(30)], for a number of rounds. *)
Fixpoint main_loop (fuel rounds : nat) (s : server W) : M W (server W) :=
  match rounds with
  | O => mret s
  | S rounds => '(_, s) ← Poll fuel 30 s; main_loop fuel rounds s
  end.

(** ** What the server answers *)

(** A page, or nothing, and whether the connection is kept. *)
Definition answer (m : HttpMethod.http_method) (uri : bytes) (v : HttpVersion.http_version)
  : option bytes * bool :=
  let page p := status_line v 200 (str "OK") ++
    format_header (str "Content-Length", fmt_int (Z.of_nat (length p))) ++ CRLF ++ p in
  if decide (uri = str "/") then
    match m with
    | HttpMethod.OPTIONS | HttpMethod.TRACE | HttpMethod.PATCH | HttpMethod.UNKNOWN => (None, false)
    | _ => (Some (page kGetTemplate), false)
    end
  else if decide (uri = str "/abc") then
    match m with HttpMethod.GET => (Some (page kPremiumTemplate), true) | _ => (None, false) end
  else (Some (status_line v 404 (str "Not Found") ++ CRLF), false).

Context `{!PosixLaws K}.
Implicit Types (c : connection W) (s : server W) (w : W).

Lemma write_page_Ok parser fd page pb w :
  page <> [] ->
  exists w', write_page parser fd page (pb, w) = Ok (tt, (pb, w')) /\
    (fd <> -1 -> exists n, after w [Event (SysWrite fd
      (status_line (version_ parser) 200 (str "OK") ++
       format_header (str "Content-Length", fmt_int (Z.of_nat (length page))) ++ CRLF ++ page)) n] w').
Proof.
  intros Hp. unfold write_page. rewrite (MakeResponse_known 200 _ [] _ (str "OK")), M_bind_lift by done.
  unfold response_text. rewrite decide_True by done. cbn [map concat app].
  match goal with |- context [Write fd ?rsp] => destruct (Write_Ok fd rsp w) as (z & w' & E & Ha) end.
  exists w'. unfold mbind, M_bind, on_snd. by rewrite E.
Qed.

(** What is found for a URI. *)
Lemma find_basic uri :
  find_handler uri (register_all registrations []) =
    Ok (if decide (uri = str "/") then Some (str "/", handlers)
        else if decide (uri = str "/abc") then Some (str "/abc", dump_handlers) else None).
Proof.
  change (register_all registrations []) with (registrations).
  unfold registrations. cbn [find_handler].
  change (regex_match (str "/")) with (regex_match (expand_stars (str "/"))).
  change (regex_match (str "/abc")) with (regex_match (expand_stars (str "/abc"))).
  rewrite !regex_match_literal by (apply (bool_decide_unpack _); vm_compute; exact Logic.I).
  unfold bool_decide. by repeat case_decide.
Qed.

(** The branches of [run_handler]: no handler, and a handler that writes a page. *)
Lemma run_handler_none p c h uri final s w :
  handler_for h (method_ (parser c)) = Ok None ->
  run_handler p c h uri final s w = close p s w.
Proof. intros Hh. unfold run_handler. by rewrite Hh, M_bind_lift. Qed.

Lemma run_handler_page p c h uri s w f page ret :
  handler_for h (method_ (parser c)) = Ok (Some f) ->
  f p (parser c) (fd_ c) uri true = (_ ← write_page (parser c) (fd_ c) page; mret ret) ->
  page <> [] -> fd_ c <> -1 ->
  exists n w', run_handler p c h uri true s w =
      (if ret =? -1 then close p (update_conn p c s) else mret (update_conn p c s)) w' /\
    after w [Event (SysWrite (fd_ c)
      (status_line (version_ (parser c)) 200 (str "OK") ++
       format_header (str "Content-Length", fmt_int (Z.of_nat (length page))) ++ CRLF ++ page)) n] w'.
Proof.
  intros Hh Hf Hp Hfd. unfold run_handler. rewrite Hh, M_bind_lift, Hf.
  destruct (write_page_Ok (parser c) (fd_ c) page (partial_body_ c) w Hp) as (w' & E & Ha).
  destruct (Ha Hfd) as [n Hn]. exists n, w'. split; [|done].
  unfold run_with, mbind, M_bind. rewrite E. cbn. by destruct c.
Qed.

(** The end of an answered event: the calls [t] that follow the answer, and the table. *)
Definition ended (s s' : server W) (p : nat) (c' : connection W) (keep : bool) (t : list event) : Prop :=
  if keep then
    t = [] /\ forall q, find_conn q (pending_conns_ s') =
      if (q =? p)%nat then Some c' else find_conn q (pending_conns_ s)
  else exists r, close_calls (poll_fd s) (fd_ c') r t /\
    forall q, find_conn q (pending_conns_ s') =
      if (q =? p)%nat then (match r with inl _ => Some c' | inr _ => None end)
      else find_conn q (pending_conns_ s).

(** The step with outcome [r], from [w], writes [text], if there is one, to the connection [p] in one call, and then
    keeps the connection, as [c'], or closes it. *)
Definition answered (r : outcome (option Z * server W * W)) (w : W) (s : server W) (p : nat) (c' : connection W)
  (text : option bytes) (keep : bool) : Prop :=
  exists s' out t w', r = Ok ((None, s'), w') /\ after w (out ++ t) w' /\ ended s s' p c' keep t /\
    match text with
    | Some x => exists n, out = [Event (SysWrite (fd_ c') x) n]
    | None => out = []
    end.

Section answering.
Context (s : server W) (p : nat) (c c' : connection W).
Hypothesis Hconn : find_conn p (pending_conns_ s) = Some c.
Hypothesis Hfd' : fd_ c' = fd_ c.
Hypothesis Hfd : fd_ c <> -1.

#[local] Abbreviation ends m := (s' ← m; mret (None, s')).

Lemma answered_close (m : M W (server W)) w out text w1 :
  m w = close p (update_conn p c' s) w1 -> after w out w1 ->
  match text with Some x => exists n, out = [Event (SysWrite (fd_ c') x) n] | None => out = [] end ->
  answered (ends m w) w s p c' text false.
Proof.
  intros Em Ha Ht. destruct (close_updated p c c' s w1 Hconn Hfd' Hfd) as (r & t & s' & w' & E & Ha' & Hc & Hq).
  exists s', out, t, w'. split; [unfold mbind, M_bind; by rewrite Em, E|].
  split; [by eapply after_trans|]. split; [|done]. exists r. by rewrite Hfd'.
Qed.

Lemma answered_keep (m : M W (server W)) w out text w1 :
  m w = Ok (update_conn p c' s, w1) -> after w out w1 ->
  match text with Some x => exists n, out = [Event (SysWrite (fd_ c') x) n] | None => out = [] end ->
  answered (ends m w) w s p c' text true.
Proof.
  intros Em Ha Ht. exists (update_conn p c' s), out, [], w1. rewrite app_nil_r.
  split; [unfold mbind, M_bind; by rewrite Em|]. split; [done|]. split; [|done].
  split; [done|]. intros q. rewrite find_conn_update.
  destruct (Nat.eqb_spec q p) as [->|]; [by rewrite Hconn|done].
Qed.

Lemma answered_none h uri w :
  handler_for h (method_ (parser c')) = Ok None ->
  answered (ends (run_handler p c' h uri true (update_conn p c' s)) w) w s p c' None false.
Proof. intros Hh. eapply answered_close; [by apply run_handler_none|apply after_refl|done]. Qed.

Lemma answered_page h uri w f page (keep : bool) :
  handler_for h (method_ (parser c')) = Ok (Some f) ->
  f p (parser c') (fd_ c') uri true =
    (_ ← write_page (parser c') (fd_ c') page; mret (if keep then 0 else -1)) ->
  page <> [] ->
  answered (ends (run_handler p c' h uri true (update_conn p c' s)) w) w s p c'
    (Some (status_line (version_ (parser c')) 200 (str "OK") ++
       format_header (str "Content-Length", fmt_int (Z.of_nat (length page))) ++ CRLF ++ page)) keep.
Proof.
  intros Hh Hf Hp.
  destruct (run_handler_page p c' h uri (update_conn p c' s) w f page _ Hh Hf Hp) as (n & w' & E & Ha);
    [congruence|].
  rewrite update_update in E. destruct keep; cbn in E.
  - eapply answered_keep; [exact E|exact Ha|by exists n].
  - eapply answered_close; [exact E|exact Ha|by exists n].
Qed.

Lemma answered_404 w :
  answered (ends (rsp ← lift (MakeResponse 404 (version_ (parser c')) [] []);
                  _ ← Write (fd_ c') rsp; close p (update_conn p c' s)) w) w s p c'
    (Some (status_line (version_ (parser c')) 404 (str "Not Found") ++ CRLF)) false.
Proof.
  rewrite (MakeResponse_known 404 _ [] [] (str "Not Found")) by done.
  destruct (Write_Ok (fd_ c') (response_text 404 (version_ (parser c')) [] [] (str "Not Found")) w)
    as (z & w' & E & Ha). destruct Ha as [n Ha]; [congruence|].
  eapply answered_close; [|exact Ha|by exists n]. by rewrite M_bind_lift, (M_bind_eq _ _ _ _ _ E).
Qed.
End answering.

(** The example answers every request that is no upgrade as its two registrations say:
    for "/" the page of [dummy_handler], once, for the six methods it is set for, and nothing
    for the others; for "/abc" the page of [premium_handler] on GET and nothing otherwise;
    the 404 response for any other URI, in which an unknown method ends up.  The page carries
    the version of the request and its own length; every connection but that of a GET of
    "/abc" is closed, and no other connection is touched. *)
Theorem basic_answers fuel s events p c w c' w1 :
  Some p <> fst <$> server_conn_ s -> Z.land events EPOLLIN <> 0 ->
  find_conn p (pending_conns_ s) = Some c -> ws_conn_ c = None -> fd_ c <> -1 ->
  request_handlers s = register_all registrations [] ->
  ProcessDataIn fuel c w = Ok ((1, c'), w1) -> ShouldUpgradeWebsocket c' = false ->
  (method_ (parser c') = HttpMethod.UNKNOWN -> uri_ (parser c') = []) ->
  let '(text, keep) := answer (method_ (parser c')) (until_nul (uri_ (parser c'))) (version_ (parser c')) in
  answered (handle_event fuel s events p w) w1 s p c' text keep.
Proof.
  intros Hp Hev Hc Hws Hfd Hreg Hdata Hup Hunk.
  destruct (handle_event_request fuel s events p c w 1 c' w1) as (-> & Hfd' & _); [done..|by right|].
  unfold handle_request, FindRequestHandler.
  replace (request_handlers (update_conn p c' s)) with (request_handlers s) by (by destruct s).
  rewrite Hreg, find_basic.
  assert (Hm : until_nul (uri_ (parser c')) <> [] -> method_ (parser c') <> HttpMethod.UNKNOWN).
  { intros Hu E. by rewrite (Hunk E) in Hu. }
  unfold answer. case_decide as Hu; [|case_decide as Hu2].
  - rewrite M_bind_assoc, M_bind_lift, Hup.
    destruct (method_ (parser c')) eqn:Em;
      try (eapply (answered_page s p c c' Hc Hfd' Hfd handlers _ _ dummy_handler kGetTemplate false);
           [by rewrite Em|done|done]);
      try (apply (answered_none s p c c' Hc Hfd' Hfd); by rewrite Em).
    by destruct (Hm ltac:(by rewrite Hu)).
  - rewrite M_bind_assoc, M_bind_lift, Hup.
    destruct (method_ (parser c')) eqn:Em;
      try (eapply (answered_page s p c c' Hc Hfd' Hfd dump_handlers _ _ premium_handler kPremiumTemplate true);
           [by rewrite Em|done|done]);
      try (apply (answered_none s p c c' Hc Hfd' Hfd); by rewrite Em).
    by destruct (Hm ltac:(by rewrite Hu2)).
  - rewrite M_bind_assoc, M_bind_lift. by apply (answered_404 _ _ c).
Qed.

(** Were there a pending connection, it would get the page in one write and be closed. *)
Theorem answer_pending_get_closes conn s c w :
  find_conn conn (pending_conns_ s) = Some c -> fd_ c <> -1 ->
  exists n r t s' w', answer_pending_get conn s w = Ok (s', w') /\
    after w (Event (SysWrite (fd_ c)
      (status_line (version_ (parser c)) 200 (str "OK") ++
       format_header (str "Content-Length", fmt_int (Z.of_nat (length kGetTemplate))) ++ CRLF ++ kGetTemplate)) n :: t) w' /\
    close_calls (poll_fd s) (fd_ c) r t /\ s' = match r with inl _ => s | inr _ => remove_conn conn s end.
Proof.
  intros Hc Hfd. unfold answer_pending_get. rewrite (proj2 (deref_Ok _ _ _) Hc), M_bind_lift.
  rewrite (MakeResponse_known 200 _ [] _ (str "OK")), M_bind_lift by done.
  unfold response_text. rewrite decide_True by done. cbn [map concat app].
  match goal with |- context [Write (fd_ c) ?rsp] => destruct (Write_Ok (fd_ c) rsp w) as (z & w1 & E & Ha) end.
  rewrite (M_bind_eq _ _ _ _ _ E). destruct (Ha Hfd) as [n Hn].
  destruct (close_Ok conn s c w1 Hc Hfd) as (r & t & w2 & E2 & Ha2 & Ht).
  exists n, r, t. do 2 eexists. split; [exact E2|]. split; [by eapply (after_trans _ [_])|done].
Qed.
End basic.

(** ** The example's own state *)

Section safety.
Context {K : Type} `{!Posix K} `{!PosixLaws K} `{!EpollLaws K} {config : Config} `{!Sha1} `{!Fmt} `{!Regex}.
#[local] Abbreviation W := (with_app AsyncHttpContext K).
Context (answer_pending : nat -> M (ws_state * W) unit).
Implicit Types (s : server W) (w : W).

(** No connection is ever pending. *)
#[local] Instance basic_invariant : AppInvariant W :=
  {| app_inv w := app_state w = None; app_inv_sys A e w Hw := Hw |}.

Lemma websocket_ready_safe : hook_safe (websocket_ready answer_pending).
Proof. intros fd uri [st [x k]] Hx. cbn in Hx. subst x. split; [done|]. split; [by change (ext (App None k : W) (App None k))|done]. Qed.

Lemma write_page_safe parser fd page : safely (write_page parser fd page : M (bytes * W) unit) (fun _ => True).
Proof.
  unfold write_page. eapply safely_bind; [apply safely_lift, MakeResponse_safe|intros rsp _].
  eapply safely_bind; [apply safely_on_snd, Write_safe|intros ? _]. by apply safely_ret.
Qed.

Lemma handlers_safe : entry_safe (handlers answer_pending) /\ entry_safe (dump_handlers (K := K)).
Proof.
  assert (Hd : handler_safe (dummy_handler (K := K))).
  { intros this p fd uri final. unfold dummy_handler. destruct final; cbn [negb]; [|by apply safely_ret].
    eapply safely_bind; [apply write_page_safe|intros ? _]. by apply safely_ret. }
  assert (Hp : handler_safe (premium_handler (K := K))).
  { intros this p fd uri final. eapply safely_bind; [apply write_page_safe|intros ? _]. by apply safely_ret. }
  split; split; cbn; try done; try (by repeat (apply Forall_cons_2; [done|]));
    apply websocket_ready_safe.
Qed.

Lemma main_loop_reachable fuel rounds : forall s w,
  reachable s w ->
  safe_outcome (main_loop fuel rounds s w) (fun r => reachable r.1 r.2).
Proof.
  induction rounds as [|rounds IH]; intros s w Hr; [done|]. cbn [main_loop]. unfold mbind, M_bind.
  pose proof (Poll_inv fuel 30 s w (reachable_inv _ _ Hr)) as Hp.
  destruct (Poll fuel 30 s w) as [[[ret s1] w1]| |] eqn:E; [|done..]. apply IH. by eapply reach_poll.
Qed.

(** Claim C22. The program runs safely: from its start on, for any number of rounds, whatever its
    clients send and however calls fail, no poll uses a destroyed connection and the epoll
    set points to live ones; and [pending_get_conn] is null all the time, so that what the
    ready hook would do to a pending connection is never done. *)
Theorem basic_runs_safely port w s w1 fuel rounds :
  app_state w = None -> main_init answer_pending port w = Ok ((0, s), w1) ->
  main_loop fuel rounds s w1 <> Fault UseAfterFree /\
  forall s' w', main_loop fuel rounds s w1 = Ok (s', w') ->
    app_state w' = None /\
    forall fd p, registered (poll_fd s') (trace w') !! fd = Some p -> points_to s' fd p.
Proof.
  intros Hw Hm. assert (Hr : reachable s w1).
  { unfold main_init, mbind, M_bind in Hm. destruct (Init None port 5 new_server w) as [[[ret s0] w0]| |] eqn:E;
      [|done..]. destruct (Z.eqb_spec ret 0) as [->|]; [|by injection Hm]. injection Hm as <- <-.
    destruct handlers_safe as [Hh Hd]. do 2 (apply reach_register; [|done]). eapply reach_init; [exact Hw|exact E]. }
  pose proof (main_loop_reachable fuel rounds s w1 Hr) as Hs. split; [intros E; by rewrite E in Hs|].
  intros s' w' E. rewrite E in Hs. cbn in Hs. apply reachable_inv in Hs. by destruct Hs.
Qed.
End safety.

(** ** The example on the scripted kernel *)

Section witness.
#[local] Existing Instance httpoll_mk.
#[local] Existing Instance Fips180.fips180.
#[local] Existing Instance Decimal.decimal_fmt.
#[local] Existing Instance Matcher.matcher.
#[local] Abbreviation basic_world := (with_app AsyncHttpContext sim).

Definition never_pending (conn : nat) : M (ws_state * basic_world) unit := mret tt.

(** Two clients ask for "/" and for "/abc", one after the other; both connect first. *)
Example two_pages :
  match main_init never_pending 2999 (App None (Sim
    [(7, inr (request (str "GET / HTTP/1.1") [])); (8, inr (request (str "GET /abc HTTP/1.0") []))] 1024
    [[(EPOLLIN, 0%nat)]; [(EPOLLIN, 0%nat)]; [(EPOLLIN, 2%nat); (EPOLLIN, 1%nat)]] [inr 7; inr 8] [] 0 [])) with
  | Ok ((0, s), w) =>
      match main_loop 10 3 s w with
      | Ok (s, w) =>
          sent 7 (sim_trace (app_kernel w)) =
            str "HTTP/1.1 200 OK" ++ CRLF ++ str "Content-Length: 87" ++ CRLF ++ CRLF ++ kGetTemplate /\
          sent 8 (sim_trace (app_kernel w)) =
            str "HTTP/1.0 200 OK" ++ CRLF ++ str "Content-Length: 101" ++ CRLF ++ CRLF ++ kPremiumTemplate /\
          map fst (pending_conns_ s) = [2%nat]
      | _ => False
      end
  | _ => False
  end.
Proof. vm_compute. done. Qed.

Definition basic_server : server basic_world :=
  Server 3 (Some (0%nat, make 4)) [(1%nat, make 7); (2%nat, make 8)]
    (register_all (registrations never_pending) []) 3.
Definition asked : basic_world :=
  App None (Sim [(7, inr (request (str "GET /abc HTTP/1.1") []))] 1024 [] [inr 9] [] 0 []).
Definition asked_read :=
  Eval vm_compute in
    match ProcessDataIn 10 (make 7 : connection basic_world) asked with
    | Ok ((_, c), w) => (c, w)
    | _ => (make 7, asked)
    end.

(** The program on a kernel with an epoll set. *)
#[local] Abbreviation loop_world := (with_app AsyncHttpContext esim).
Definition nothing_pending (conn : nat) : M (ws_state * loop_world) unit := mret tt.
Definition started : server loop_world * loop_world :=
  Eval vm_compute in
    match main_init nothing_pending 2999 (App None (ESim (Sim [] 1024 [] [inr 7] [] 0 []))) with
    | Ok ((_, s), w) => (s, w)
    | _ => (new_server, App None (ESim (Sim [] 1024 [] [] [] 0 [])))
    end.

Lemma basic_runs_safely_witness :
  main_loop 10 5 started.1 started.2 <> Fault UseAfterFree /\
  forall s' w', main_loop 10 5 started.1 started.2 = Ok (s', w') ->
    app_state w' = None /\
    forall fd p, registered (poll_fd s') (trace w') !! fd = Some p -> points_to s' fd p.
Proof.
  assert (E : main_init nothing_pending 2999 (App None (ESim (Sim [] 1024 [] [inr 7] [] 0 []))) =
              Ok ((0, started.1), started.2)) by (vm_compute; reflexivity).
  exact (basic_runs_safely nothing_pending 2999 (App None (ESim (Sim [] 1024 [] [inr 7] [] 0 [])))
    started.1 started.2 10 5 eq_refl E).
Defined.

Lemma basic_answers_witness :
  answered (handle_event 10 basic_server EPOLLIN 1 asked) asked_read.2 basic_server 1 asked_read.1
    (Some (str "HTTP/1.1 200 OK" ++ CRLF ++ str "Content-Length: 101" ++ CRLF ++ CRLF ++ kPremiumTemplate)) true.
Proof.
  assert (E : ProcessDataIn 10 (make 7 : connection basic_world) asked = Ok ((1, asked_read.1), asked_read.2))
    by (vm_compute; reflexivity).
  pose proof (basic_answers never_pending 10 basic_server EPOLLIN 1 (make 7) asked asked_read.1 asked_read.2
    ltac:(done) ltac:(done) eq_refl eq_refl ltac:(done) eq_refl E eq_refl ltac:(intros Hm; vm_compute in Hm; discriminate)) as Hx.
  exact Hx.
Defined.
End witness.
