(* ===== verification/Service.v ===== *)
(** * From the bytes of a request to its answer

    A client that sends a request is served: whatever pieces its bytes come in, one event makes
    the server parse the request and answer it.  [arrives] says what the kernel does meanwhile;
    the results on the parser, on connections, on the server and on the example are put
    together here. *)

From S2P Require Import EventLoop Prelude CString StdMap Method Version HeaderParser HeaderParserSpec HeaderParserProps Requests State Posix RequestHandler Connection ConnectionSpec ConnectionProps WebsocketConnection WebsocketProps Response Router Server ServerSpec ServerProps Basic.
Import HttpHeaderParser.

(** ** The header phase *)

Lemma header_lines_drop ls1 : forall p ls2 q,
  header_lines p (ls1 ++ ls2) -> push_lines p ls1 = Ok q -> header_lines q ls2.
Proof.
  induction ls1 as [|l ls1 IH]; intros p ls2 q Hh; [by intros [= <-]|]. cbn [push_lines].
  destruct (PushLine p l) as [[p' st]| |] eqn:E; cbn; [|done..].
  apply IH. cbn [app] in Hh. by eapply header_lines_tail.
Qed.

Lemma header_lines_state p l ls : header_lines p (l :: ls) -> state_ p = FirstLine \/ state_ p = Headers.
Proof. intros [_ Hs]. apply (Hs 0%nat); [cbn; lia|done]. Qed.

Lemma push_lines_reachable ls q : push_lines init ls = Ok q -> reachable ls q.
Proof.
  revert q. induction ls as [|l ls IH] using rev_ind; intros q.
  - intros [= <-]. constructor.
  - rewrite push_lines_app. intros (p & Hp & Hq)%bind_Ok. cbn [push_lines] in Hq.
    apply bind_Ok in Hq. destruct Hq as ([q' st] & Hl & [= <-]). eapply reach_line; [by apply IH|done].
Qed.

(** Lines of which only the last is blank are the header phase of a parser. *)
Lemma header_lines_init first hs :
  Forall line (first :: hs ++ [CRLF]) -> CRLF ∉ hs -> header_lines init (first :: hs ++ [CRLF]).
Proof.
  intros Hl Hn. split; [done|]. intros k q Hk Hq%push_lines_reachable.
  pose proof (reachable_inv_shape _ _ Hq) as [_ Hs]. unfold request_shape in Hs.
  destruct (state_ q); [by left|by right|exfalso..]; destruct k as [|k]; cbn [take] in Hs;
    [by destruct Hs as (? & ? & ? & ? & ? & _)| |by destruct Hs as (? & ? & ? & ? & ? & _)|].
  all: assert (Hin : CRLF ∈ take k (hs ++ [CRLF]))
    by (destruct Hs as (? & hs' & ? & ? & [= _ ->] & _); apply elem_of_app; right; by left).
  all: cbn [length] in Hk; rewrite length_app in Hk; cbn [length] in Hk; rewrite take_app_le in Hin by lia;
    apply elem_of_take in Hin; destruct Hin as (i & Hi & _); apply Hn;
    by apply (list_elem_of_lookup_2 _ i).
Qed.

Section processing.
Context {W : Type} `{!Posix W} `{!PosixLaws W} {config : Config}.
Implicit Types (c : connection W) (w : W).

(** ** Draining the buffer *)

(** The loop gets through a part of the header. *)
Lemma drain_header fuel : forall c ls rest p,
  header_lines (parser c) ls -> push_lines (parser c) ls = Ok p -> buffer_ c ++ rest = concat ls ->
  (length (buffer_ c) < fuel)%nat -> is_Ok (drain fuel c).
Proof.
  induction fuel as [|fuel IH]; intros c ls rest p Hh Hp Hb Hf; [lia|]. rewrite drain_step.
  pose proof (next_piece_spec c) as Hn. destruct (next_piece c) as [[l c1]|]; [|by eexists].
  destruct Hn as (Hbc & Hpc & Hpar & _). pose proof (piece_length _ _ Hpc) as Hlen.
  destruct ls as [|l1 ls].
  { apply (f_equal length) in Hb. rewrite Hbc, !length_app in Hb. cbn in Hb. lia. }
  destruct Hpc as [Hl|[Hbody _]]; [|by destruct (header_lines_state _ _ _ Hh); congruence].
  cbn [concat] in Hb. rewrite Hbc, <- app_assoc in Hb.
  pose proof Hh as [[Hl1 _]%Forall_cons _].
  destruct (line_unique l (buffer_ c1 ++ rest) l1 (concat ls) Hl Hl1 Hb) as [-> Hb'].
  cbn [push_lines] in Hp. rewrite Hpar. destruct (PushLine (parser c) l1) as [[q st]| |] eqn:E; cbn in Hp; [|done..].
  cbn [mbind outcome_bind]. destruct st; [| |by eexists..].
  all: eapply (IH _ ls rest p); destruct c1; cbn in *; try done; [by eapply header_lines_tail|].
  all: rewrite Hbc, length_app in Hf; lia.
Qed.

(** It leaves the body alone. *)
Lemma next_piece_body c l c1 :
  next_piece c = Some (l, c1) -> state_ (parser c) <> Body -> partial_body_ c1 = partial_body_ c.
Proof.
  intros E Hs. unfold next_piece in E. destruct (PopLine_cases c) as [(x & r & E1 & Ec & _)|[E1 _]].
  - rewrite E1 in E. injection E as _ <-. by destruct c.
  - rewrite E1 in E. repeat case_decide; done.
Qed.

Lemma drain_header_body fuel : forall c ls rest p r c',
  header_lines (parser c) ls -> push_lines (parser c) ls = Ok p -> buffer_ c ++ rest = concat ls ->
  drain fuel c = Ok (r, c') -> partial_body_ c' = partial_body_ c.
Proof.
  induction fuel as [|fuel IH]; intros c ls rest p r c' Hh Hp Hb; [done|]. rewrite drain_step.
  pose proof (next_piece_spec c) as Hn. destruct (next_piece c) as [[l c1]|] eqn:Enp; [|by intros [= _ <-]].
  destruct Hn as (Hbc & Hpc & Hpar & _). pose proof (piece_length _ _ Hpc) as Hlen.
  destruct ls as [|l1 ls].
  { apply (f_equal length) in Hb. rewrite Hbc, !length_app in Hb. cbn in Hb. lia. }
  assert (Hst : state_ (parser c) <> Body) by (by destruct (header_lines_state _ _ _ Hh) as [-> | ->]).
  assert (Hbody : partial_body_ c1 = partial_body_ c) by by eapply next_piece_body.
  destruct Hpc as [Hl|[Hbody' _]]; [|done].
  cbn [concat] in Hb. rewrite Hbc, <- app_assoc in Hb. pose proof Hh as [[Hl1 _]%Forall_cons _].
  destruct (line_unique l (buffer_ c1 ++ rest) l1 (concat ls) Hl Hl1 Hb) as [-> Hb'].
  cbn [push_lines] in Hp. rewrite Hpar. destruct (PushLine (parser c) l1) as [[q st]| |] eqn:E; cbn in Hp; [|done..].
  cbn [mbind outcome_bind]. rewrite <- Hbody. destruct st; [| |intros [= _ <-]; by destruct c1..].
  all: intros Ed; eapply (IH _ ls rest p) in Ed; destruct c1; cbn in *; try done; by eapply header_lines_tail.
Qed.

(** When it stops for more data, the request is not complete. *)
Lemma drain_unfinished fuel : forall c c',
  drain fuel c = Ok (None, c') ->
  state_ (parser c) = FirstLine \/ state_ (parser c) = Headers ->
  state_ (parser c') = FirstLine \/ state_ (parser c') = Headers.
Proof.
  induction fuel as [|fuel IH]; intros c c'; [done|]. rewrite drain_step.
  pose proof (next_piece_spec c) as Hn. destruct (next_piece c) as [[l c1]|]; [|by intros [= <-]].
  intros ([p st] & Hp & Hr)%bind_Ok _. pose proof (PushLine_state _ _ _ _ Hp) as Hst.
  destruct st; try done; apply (IH _ _ Hr); destruct c1; cbn; rewrite <- Hst; auto.
Qed.

(** ** Bytes that arrive *)

(** Within [k] reads of [fd] the kernel hands over the bytes [d], in pieces of any size that is
    asked for, and may interrupt. *)
Fixpoint arrives (k : nat) (fd : Z) (d : bytes) (w : W) : Prop :=
  d = [] \/
  match k with
  | O => False
  | S k => forall n, 0 < n ->
      let '(r, w') := sys (SysRead fd n) w in
      match r with
      | inr x => x <> [] /\ exists d', d = x ++ d' /\ arrives k fd d' w'
      | inl EINTR => arrives k fd d w'
      | inl _ => False
      end
  end.

Definition room (n : Z) : Prop :=
  match SMALL_MEMORY with Some m => 0 < m < 2 ^ 63 /\ n <= m | None => True end.

Lemma read_len_positive c n : Z.of_nat (length (buffer_ c)) < n -> room n -> 0 < read_len c <= kLocalBufferLen.
Proof.
  unfold room, read_len, kLocalBufferLen. destruct SMALL_MEMORY as [m|]; cbn; [|lia].
  intros Hn [Hm Hl]. rewrite u64_small; lia.
Qed.

(** One read of [ProcessDataIn], when data or an interruption comes. *)
Lemma Read_arrives k c d w n :
  arrives k (fd_ c) d w -> d <> [] -> Z.of_nat (length (buffer_ c)) < n -> room n ->
  exists k' x d' w' t, k = S k' /\ Read c w = Ok ((1, set_buffer (buffer_ c ++ x) c), w') /\
    after w t w' /\ received (fd_ c) t = x /\ d = x ++ d' /\ arrives k' (fd_ c) d' w'.
Proof.
  intros Ha Hd Hl Hr. pose proof (read_len_positive _ _ Hl Hr) as Hn.
  destruct k as [|k]; cbn [arrives] in Ha; [by destruct Ha|]. destruct Ha as [|Ha]; [done|].
  specialize (Ha (read_len c) (proj1 Hn)).
  destruct (call_Ok (SysRead (fd_ c) (read_len c)) w) as (r & w' & E & Hw & Ho).
  pose proof E as Es. unfold call, prim in Es. injection Es as Es. rewrite Es in Ha.
  unfold Read. rewrite (M_bind_eq _ _ _ _ _ E). destruct r as [[| |e]|x]; [done| |done|].
  - exists k, [], d, w', [Event (SysRead (fd_ c) (read_len c)) (inl EINTR)].
    rewrite app_nil_r, set_buffer_same. by rewrite received_read.
  - destruct Ha as (Hx & d' & -> & Ha). cbn in Ho. exists k, x, d', w', [Event (SysRead (fd_ c) (read_len c)) (inr x)].
    rewrite received_read. rewrite (proj2 (Z.leb_le _ _)) by lia. rewrite decide_False by done. done.
Qed.

(** The buffer of a connection that waits for the rest of a line is shorter than the line. *)
Lemma idle_short c d l ls :
  idle c -> line l -> buffer_ c ++ d = l ++ ls -> (length (buffer_ c) < length l)%nat /\ d <> [].
Proof.
  intros [Hf _] (x & -> & _) E.
  assert (Hl : (length (buffer_ c) < length (x ++ CRLF))%nat).
  { destruct (le_lt_dec (length (x ++ CRLF)) (length (buffer_ c))) as [Hle|]; [|done].
    apply (f_equal (take (length (x ++ CRLF)))) in E. rewrite take_app_length, take_app_le in E by done.
    rewrite <- (take_drop (length (x ++ CRLF)) (buffer_ c)), E, <- app_assoc in Hf. by destruct (Hf x _ eq_refl). }
  split; [done|]. intros ->. apply (f_equal length) in E. rewrite app_nil_r, !length_app in E.
  rewrite length_app in Hl. lia.
Qed.
(** What a drained buffer of header bytes leaves: all of the request, or a wait for more. *)
Lemma drain_rest c ls rest p :
  ls <> [] -> header_lines (parser c) ls -> push_lines (parser c) ls = Ok p ->
  state_ p = Body \/ state_ p = Done -> buffer_ c ++ rest = concat ls ->
  exists r c', drain (S (length (buffer_ c))) c = Ok (r, c') /\ same_frame c c' /\ partial_body_ c' = partial_body_ c /\
    match r with
    | Some z => z = state_ret (state_ p) /\ parser c' = p /\ buffer_ c' = [] /\ rest = []
    | None => idle c' /\ exists pre ls', ls = pre ++ ls' /\ ls' <> [] /\ header_lines (parser c') ls' /\
        push_lines (parser c') ls' = Ok p /\ buffer_ c' ++ rest = concat ls'
    end.
Proof.
  intros Hne Hh Hp Hst Hb. destruct (drain_header (S (length (buffer_ c))) c ls rest p Hh Hp Hb) as [[r c'] E]; [lia|].
  exists r, c'. split; [done|]. destruct (drain_spec _ _ _ _ E) as (pre & Hbc & Hf & Hsf & Hd). split; [done|].
  split; [by eapply drain_header_body|].
  rewrite Hbc, <- app_assoc in Hb.
  destruct (feeds_header_lines _ _ _ Hf ls (buffer_ c' ++ rest) Hh (eq_sym Hb)) as (ls' & -> & Hb').
  apply feeds_push_lines in Hf. pose proof (header_lines_drop _ _ _ _ Hh Hf) as Hh'.
  rewrite push_lines_app, Hf in Hp. cbn [mbind outcome_bind] in Hp.
  destruct ls' as [|l ls'].
  - injection Hp as Hp. apply app_nil in Hb' as [Hb1 Hb2]. destruct r as [z|].
    + destruct Hd as [-> _]. by rewrite Hp.
    + destruct (drain_unfinished _ _ _ E) as [Hs|Hs]; [|rewrite Hp in Hs; destruct Hst; congruence..].
      destruct pre as [|l0 pre]; [done|]. by eapply header_lines_state.
  - destruct r as [z|].
    + destruct Hd as [_ Hd]. destruct (header_lines_state _ _ _ Hh') as [Hs|Hs]; rewrite Hs in Hd; by destruct Hd.
    + split; [done|]. by exists pre, (l :: ls').
Qed.

(** The header of a request is read to its end. *)
Lemma ProcessDataIn_header k : forall fuel c w d ls p,
  arrives k (fd_ c) d w -> (k <= fuel)%nat -> idle c -> ls <> [] ->
  header_lines (parser c) ls -> push_lines (parser c) ls = Ok p ->
  state_ p = Body \/ state_ p = Done -> buffer_ c ++ d = concat ls ->
  Forall (fun l => room (Z.of_nat (length l))) ls ->
  exists c' w' t, ProcessDataIn fuel c w = Ok ((state_ret (state_ p), c'), w') /\ after w t w' /\
    received (fd_ c) t = d /\ parser c' = p /\ buffer_ c' = [] /\ same_frame c c' /\
    partial_body_ c' = partial_body_ c.
Proof.
  induction k as [|k IH]; intros fuel c w d [|l ls] p Ha Hk Hi Hne Hh Hp Hst Hb Hroom; try done.
  all: pose proof Hh as [[Hl _]%Forall_cons _]; destruct (idle_short c d l (concat ls) Hi Hl Hb) as [Hshort Hd].
  { by destruct Ha. }
  pose proof Hroom as [Hr _]%Forall_cons.
  destruct (Read_arrives _ _ _ _ (Z.of_nat (length l)) Ha Hd) as (k' & x & d' & w1 & t1 & [= <-] & E & Ha1 & Ht1 & -> & Harr);
    [lia|done|].
  destruct fuel as [|fuel]; [lia|]. cbn [ProcessDataIn]. rewrite (M_bind_eq _ _ _ _ _ E). cbn [Z.eqb].
  set (c1 := set_buffer (buffer_ c ++ x) c).
  assert (Hc1 : parser c1 = parser c /\ buffer_ c1 = buffer_ c ++ x /\ fd_ c1 = fd_ c) by (by destruct c).
  destruct Hc1 as (Hpar & Hbuf & Hfd).
  destruct (drain_rest c1 (l :: ls) d' p) as (r & c2 & Ed & Hsf & Hpb & Hr2);
    [done|by rewrite Hpar|by rewrite Hpar|done|by rewrite Hbuf, <- app_assoc|].
  rewrite Ed, M_bind_lift. replace (partial_body_ c1) with (partial_body_ c) in Hpb by (by destruct c).
  assert (Hsf' : same_frame c c2) by (eapply same_frame_trans; [apply same_frame_set_buffer|exact Hsf]).
  destruct r as [z|].
  - destruct Hr2 as (-> & Hp2 & Hb2 & ->). exists c2, w1, t1. by rewrite app_nil_r.
  - destruct Hr2 as (Hi2 & pre & ls' & Els & Hne' & Hh' & Hp' & Hb'). rewrite Els in Hroom.
    apply Forall_app in Hroom as [_ Hroom]. rewrite <- (proj1 Hsf') in Harr.
    destruct (IH fuel c2 w1 d' ls' p Harr) as (c' & w' & t & E' & Ha' & Ht' & H'); [lia|done..|].
    exists c', w', (t1 ++ t). split; [done|]. split; [by eapply after_trans|].
    rewrite received_app, Ht1. rewrite (proj1 Hsf') in Ht'. rewrite Ht'. split; [done|].
    destruct H' as (? & ? & ? & Hpb'). do 2 (split; [done|]). split; [by eapply same_frame_trans|congruence].
Qed.

(** ** A printed request *)

(** The text of a request, and what it takes to get through: none of its lines has a line end
    inside, and each fits in the buffer. *)
Definition request_text (mt : bytes) (r : Requests.request) : bytes := concat (print_request mt r).

Definition lines_fit (ls : list bytes) : Prop :=
  Forall line ls /\ Forall (fun l => room (Z.of_nat (length l))) ls.

Definition transmissible (mt : bytes) (r : Requests.request) : Prop := lines_fit (print_request mt r).

Lemma print_request_header_lines mt r :
  Forall line (print_request mt r) -> header_lines init (print_request mt r).
Proof.
  unfold print_request. intros Hl.
  set (hs := header_line (str "Host") 1 (rq_host r) ::
    map (fun kv => header_line kv.1 1 kv.2) (rq_headers r) ++
    match rq_length r with Some ds => [header_line (str "Content-Length") 1 ds] | None => [] end).
  match goal with |- header_lines _ ?ls => replace ls with (request_line mt (rq_uri r)
    (HttpVersionToString (rq_version r)) :: hs ++ [CRLF]) in * end.
  2:{ unfold hs. cbn. by rewrite <- app_assoc. }
  apply header_lines_init; [done|]. unfold hs. rewrite not_elem_of_cons, not_elem_of_app.
  split; [intros E; by apply (header_line_not_blank (str "Host") 1 (rq_host r))|]. split.
  - intros (kv & E & _)%list_elem_of_fmap. by apply (header_line_not_blank kv.1 1 kv.2).
  - destruct (rq_length r); [|apply not_elem_of_nil]. rewrite list_elem_of_singleton. intros E.
    by eapply (header_line_not_blank (str "Content-Length") 1).
Qed.

Lemma ProcessDataIn_request k fuel fd w mt r :
  method_text (rq_method r) = Some mt -> request_ok r -> transmissible mt r ->
  arrives k fd (request_text mt r) w -> (k <= fuel)%nat ->
  exists c' w' t, ProcessDataIn fuel (make fd) w = Ok ((state_ret (state_ (parsed r)), c'), w') /\
    after w t w' /\ received fd t = request_text mt r /\ parser c' = parsed r /\ buffer_ c' = [] /\
    same_frame (make fd) c' /\ partial_body_ c' = [].
Proof.
  intros Hm Hr [Hl Hroom] Ha Hk.
  apply (ProcessDataIn_header k fuel (make fd) w _ (print_request mt r)); try done.
  - split; [apply crlf_free_nil|by left].
  - by apply print_request_header_lines.
  - by apply print_request_pushed.
  - cbn. destruct (rq_length r); auto.
Qed.
End processing.

(** ** Claim: a request with a body *)

Section body.
Context {W : Type} `{!Posix W} `{!PosixLaws W} {config : Config} `{!Sha1} `{!Fmt} `{!Regex}.
Implicit Types (c : connection W) (s : server W) (w : W).

(** The handler [f] runs for the connection [c], and the server goes on from there: it stores
    what the handler left of the body, and closes the connection when the handler asks for it. *)
Definition serve (p : nat) c (f : Handler W) (uri : bytes) (final : bool) s : M W (server W) :=
  '(ret, pb) ← run_with (partial_body_ c) (f p (parser c) (fd_ c) uri final);
  let s := update_conn p (set_partial_body pb c) s in
  if ret =? -1 then close p s else mret s.

Lemma event_serve fuel s events p c w ret c' w1 name h f :
  Some p <> fst <$> server_conn_ s -> Z.land events EPOLLIN <> 0 ->
  find_conn p (pending_conns_ s) = Some c -> ws_conn_ c = None ->
  ProcessDataIn fuel c w = Ok ((ret, c'), w1) -> ret = 0 \/ ret = 1 ->
  FindRequestHandler (uri_ (parser c')) (request_handlers s) = Ok (Some (name, h)) ->
  ShouldUpgradeWebsocket c' = false -> handler_for h (method_ (parser c')) = Ok (Some f) ->
  handle_event fuel s events p w =
    (s' ← serve p c' f (uri_ (parser c')) (ret =? 1) s; mret (None, s')) w1.
Proof.
  intros Hp Hev Hc Hws E Hret Hh Hup Hf.
  destruct (handle_event_request fuel s events p c w ret c' w1 Hp Hev Hc Hws E Hret) as (-> & _).
  unfold handle_request. replace (request_handlers (update_conn p c' s)) with (request_handlers s) by (by destruct s).
  rewrite Hh, M_bind_assoc, M_bind_lift, Hup. unfold run_handler, serve. rewrite Hf, M_bind_assoc, M_bind_lift.
  unfold mbind, M_bind. destruct (run_with _ _ _) as [[[z pb] w2]| |]; [|done..]. by rewrite update_update.
Qed.

(** Claim C7. A request with a body is served in two steps.  When its header arrives, in whatever
    pieces, the handler of its URI and method runs with no body and is told that more will
    come; unless it closes the connection, it runs again when the body arrives, and is told
    that the request is complete.  What it is then handed is the body when no line end occurs
    in it, and what it left of the body the first time, which is nothing of this one, when the
    body is a line. *)
Theorem posted_request_served k fuel s events p fd w mt (r : Requests.request) ds name h f :
  Some p <> fst <$> server_conn_ s -> Z.land events EPOLLIN <> 0 ->
  find_conn p (pending_conns_ s) = Some (make fd) ->
  FindRequestHandler (rq_uri r) (request_handlers s) = Ok (Some (name, h)) ->
  handler_for h (rq_method r) = Ok (Some f) ->
  method_text (rq_method r) = Some mt -> request_ok r -> rq_length r = Some ds -> transmissible mt r ->
  arrives k fd (request_text mt r) w -> (k <= fuel)%nat ->
  exists c1 w1 t, after w t w1 /\ received fd t = request_text mt r /\
    fd_ c1 = fd /\ partial_body_ c1 = [] /\ state_ (parser c1) = Body /\
    handle_event fuel s events p w = (s' ← serve p c1 f (rq_uri r) false s; mret (None, s')) w1 /\
    forall fuel2 s2 pb events2 body w2 w3,
      server_conn_ s2 = server_conn_ s -> request_handlers s2 = request_handlers s ->
      find_conn p (pending_conns_ s2) = Some (set_partial_body pb c1) -> Z.land events2 EPOLLIN <> 0 ->
      Z.of_nat (length body) = digits_value 0 ds -> body <> [] -> (length body <= 1024)%nat ->
      Z.of_nat (length body) <= kLocalBufferLen ->
      call (SysRead fd (read_len c1)) w2 = Ok (inr body, w3) -> crlf_free body \/ line body ->
      exists c2, fd_ c2 = fd /\ state_ (parser c2) = Done /\
        (crlf_free body -> partial_body_ c2 = body) /\ (line body -> partial_body_ c2 = pb) /\
        handle_event (S fuel2) s2 events2 p w2 = (s' ← serve p c2 f (rq_uri r) true s2; mret (None, s')) w3.
Proof.
  intros Hp Hev Hc Hh Hf Hm Hr Hlen Htr Ha Hk.
  destruct (ProcessDataIn_request k fuel fd w mt r Hm Hr Htr Ha Hk)
    as (c1 & w1 & t & E & Hat & Hrec & Hpar & Hbuf & [Hfd Hws] & Hpb).
  unfold parsed in Hpar, E. rewrite Hlen in Hpar, E. cbn [option_map fmap option_fmap state_ state_ret] in Hpar, E.
  exists c1, w1, t. do 4 (split; [done|]). split; [by rewrite Hpar|]. split.
  - rewrite (event_serve fuel s events p (make fd) w 0 c1 w1 name h f Hp Hev Hc eq_refl E (or_introl eq_refl));
      [by rewrite Hpar..| |by rewrite Hpar].
    unfold ShouldUpgradeWebsocket. by rewrite Hws, Hpar.
  - intros fuel2 s2 pb events2 body w2 w3 Hs2 Hrh Hc2 Hev2 Hl Hne Hsmall Hfits Hread Hshape.
    assert (Hn : 0 <= digits_value 0 ds < 2 ^ 31).
    { destruct Hr as (_ & _ & _ & _ & Hok). rewrite Hlen in Hok. split; [by apply digits_value_nonneg|apply Hok]. }
    set (c := set_partial_body pb c1) in *.
    assert (Ec : buffer_ c = [] /\ fd_ c = fd /\ parser c = parser c1 /\ ws_conn_ c = None /\ partial_body_ c = pb /\
      read_len c = read_len c1) by (unfold c; by destruct c1).
    destruct Ec as (Eb & Efd & Epar & Ews & Epb & Erl). rewrite <- Efd, <- Erl in Hread.
    destruct (body_delivery fuel2 c w2 body (digits_value 0 ds) w3) as [Hfree Hline]; [done|by rewrite Epar, Hpar|by rewrite Epar, Hpar| |done..|].
    { rewrite Epar, Hpar. cbn [body_length_]. rewrite u32_small by lia. lia. }
    set (q := set_state Done _) in *. assert (Hq : state_ q = Done) by (unfold q; by destruct (parser c)).
    assert (Hserve : forall c2, fd_ c2 = fd -> ws_conn_ c2 = None -> parser c2 = q ->
      ProcessDataIn (S fuel2) c w2 = Ok ((1, c2), w3) ->
      handle_event (S fuel2) s2 events2 p w2 = (s' ← serve p c2 f (rq_uri r) true s2; mret (None, s')) w3).
    { intros c2 Hfd2 Hws2 Hp2 E2.
      assert (Hu : uri_ q = rq_uri r /\ method_ q = rq_method r /\ upgrade_flags_ q = 0).
      { unfold q. rewrite Epar, Hpar. done. }
      destruct Hu as (Hu & Hmq & Hup).
      rewrite (event_serve (S fuel2) s2 events2 p c w2 1 c2 w3 name h f ltac:(by rewrite Hs2) Hev2 Hc2 Ews E2 (or_intror eq_refl));
        [by rewrite Hp2, Hu|by rewrite Hrh, Hp2, Hu| |by rewrite Hp2, Hmq].
      unfold ShouldUpgradeWebsocket. by rewrite Hws2, Hp2, Hup. }
    destruct Hshape as [Hs|Hs]; [specialize (Hfree Hs)|specialize (Hline Hs)].
    + exists (set_parser q (set_partial_body body c)). split; [by destruct c|]. split; [by destruct c|].
      split; [by destruct c|]. split; [intros Hl'; destruct (line_not_crlf_free body [] Hl'); by rewrite app_nil_r|].
      apply Hserve; by destruct c.
    + exists (set_parser q c). split; [by destruct c|]. split; [by destruct c|].
      split; [intros Hf'; destruct (line_not_crlf_free body [] Hs); by rewrite app_nil_r|]. split; [by destruct c|].
      apply Hserve; by destruct c.
Qed.
End body.

(** ** Claim: the example serves its clients *)

Section service.
Context {K : Type} `{!Posix K} `{!PosixLaws K} {config : Config} `{!Sha1} `{!Fmt} `{!Regex}.
#[local] Abbreviation W := (with_app AsyncHttpContext K).
Context (answer_pending : nat -> M (ws_state * W) unit).

(** Claim C4. Every client is served: when the bytes of a request without a body arrive on a new
    connection of the example's server, in whatever pieces and with whatever interruptions,
    one event on the connection reads them all and returns, having answered with the page or
    the 404 response that method and URI call for, and kept or closed the connection. *)
Theorem basic_serves k fuel (s : server W) events p fd (w : W) mt (r : Requests.request) :
  Some p <> fst <$> server_conn_ s -> Z.land events EPOLLIN <> 0 ->
  find_conn p (pending_conns_ s) = Some (make fd) -> fd <> -1 ->
  request_handlers s = register_all (registrations answer_pending) [] ->
  method_text (rq_method r) = Some mt -> request_ok r -> rq_length r = None -> transmissible mt r ->
  arrives k fd (request_text mt r) w -> (k <= fuel)%nat ->
  exists c' w1 t, after w t w1 /\ received fd t = request_text mt r /\ fd_ c' = fd /\
    let '(text, keep) := answer (rq_method r) (until_nul (rq_uri r)) (rq_version r) in
    answered (handle_event fuel s events p w) w1 s p c' text keep.
Proof.
  intros Hp Hev Hc Hfd Hreg Hm Hr Hlen Htr Ha Hk.
  destruct (ProcessDataIn_request k fuel fd w mt r Hm Hr Htr Ha Hk)
    as (c' & w1 & t & E & Hat & Hrec & Hpar & _ & Hsf & _).
  exists c', w1, t. split; [done|]. split; [done|]. split; [apply Hsf|].
  unfold parsed in *. rewrite Hlen in *. cbn in E.
  pose proof (basic_answers answer_pending fuel s events p (make fd) w c' w1 Hp Hev Hc eq_refl Hfd Hreg E) as Hb.
  rewrite Hpar in Hb. apply Hb.
  - unfold ShouldUpgradeWebsocket. rewrite (proj2 Hsf), Hpar. done.
  - cbn. by intros Hu; rewrite Hu in Hm.
Qed.
End service.

(** ** The scripted kernel delivers *)

Definition chunk (r : errno + bytes) : Prop :=
  match r with inr d => d <> [] | inl EINTR => True | inl _ => False end.
Definition chunk_data (r : errno + bytes) : bytes := match r with inr d => d | inl _ => [] end.
Definition chunk_weight (r : errno + bytes) : nat := match r with inr d => length d | inl _ => 1%nat end.

#[export] Instance chunk_dec r : Decision (chunk r).
Proof. destruct r as [[]|]; cbn; apply _. Defined.

Lemma scripted_arrives fd k : forall l (w : sim),
  sim_reads w = map (pair fd) l -> Forall chunk l -> (sum_list (map chunk_weight l) <= k)%nat ->
  arrives k fd (concat (map chunk_data l)) w.
Proof.
  induction k as [|k IH]; intros [|r l] w Hw Hl Hk; try by left.
  { apply Forall_cons in Hl as [Hr _]. destruct r as [|[]]; cbn in *; lia || done. }
  apply Forall_cons in Hl as [Hr Hl]. right. intros n Hn.
  unfold sys, sim_posix. cbn [sim_sys]. rewrite Hw. cbn [map sim_take].
  rewrite Z.eqb_refl. destruct r as [[| |e]|d]; try done.
  - apply IH; [done|done|]. cbn in Hk. lia.
  - cbn in Hr, Hk.
    assert (Hx : take (Z.to_nat n) d <> []) by (destruct d; [done|]; destruct (Z.to_nat n) eqn:E; [lia|discriminate]).
    destruct (Nat.ltb_spec (Z.to_nat n) (length d)) as [Hlt|Hge]; (split; [exact Hx|]).
    + exists (concat (map chunk_data (inr (drop (Z.to_nat n) d) :: l))). cbn [map chunk_data concat].
      rewrite app_assoc, take_drop. split; [done|]. apply (IH (inr (drop (Z.to_nat n) d) :: l)); [done| |].
      * constructor; [|done]. cbn. intros E. apply (f_equal length) in E. rewrite length_drop in E. cbn in E. lia.
      * cbn. rewrite length_drop. lia.
    + exists (concat (map chunk_data l)). rewrite take_ge by lia. split; [done|]. apply IH; [done|done|].
      destruct d; cbn in *; [done|lia].
Qed.

(** An application does not get between its kernel and the bytes. *)
Lemma arrives_app {X K} `{!Posix K} k fd : forall d (x : X) (w : K),
  arrives k fd d w -> arrives k fd d (App x w).
Proof.
  induction k as [|k IH]; intros d x w; [done|]. intros [->|Ha]; [by left|]. right. intros n Hn.
  specialize (Ha n Hn).
  change (sys (SysRead fd n) (App x w)) with ((sys (SysRead fd n) w).1, App x (sys (SysRead fd n) w).2).
  destruct (sys (SysRead fd n) w) as [[[]|y] w']; cbn in *; try done; [by apply IH|].
  destruct Ha as (Hy & d' & -> & Ha). split; [done|]. exists d'. split; [done|]. by apply IH.
Qed.

(** ** Witness *)

Section witness.
#[local] Existing Instance httpoll_mk.
#[local] Existing Instance Fips180.fips180.
#[local] Existing Instance Decimal.decimal_fmt.
#[local] Existing Instance Matcher.matcher.
#[local] Abbreviation basic_world := (with_app AsyncHttpContext sim).

Definition page_request : Requests.request :=
  Request HttpMethod.GET (str "/") HttpVersion.HTTP_1_1 (str "example.com") [(str "Accept", str "text/html")] None.

(** The bytes come in two pieces with an interruption in between. *)
Definition pieces : list (errno + bytes) :=
  [inr (take 10 (request_text (str "GET") page_request)); inl EINTR;
   inr (drop 10 (request_text (str "GET") page_request))].
Definition pieces_kernel : basic_world := App None (Sim (map (pair 7) pieces) 1024 [] [] [] 0 []).

Lemma basic_serves_witness :
  exists c' w1 t, after pieces_kernel t w1 /\ received 7 t = request_text (str "GET") page_request /\
    fd_ c' = 7 /\
    answered (handle_event 100 (basic_server) EPOLLIN 1 pieces_kernel) w1 basic_server 1 c'
      (Some (str "HTTP/1.1 200 OK" ++ CRLF ++ str "Content-Length: 87" ++ CRLF ++ CRLF ++ kGetTemplate)) false.
Proof.
  assert (Hr : request_ok page_request) by (apply (bool_decide_unpack _); vm_compute; exact Logic.I).
  assert (Ht : transmissible (str "GET") page_request).
  { split; [apply (bool_decide_unpack _); vm_compute; exact Logic.I|].
    repeat constructor; vm_compute; intuition discriminate. }
  assert (Ha : arrives 100 7 (request_text (str "GET") page_request) pieces_kernel).
  { apply arrives_app, (scripted_arrives 7 100 pieces); [done| |].
    - repeat constructor; discriminate.
    - apply Nat.leb_le. vm_compute. reflexivity. }
  pose proof (basic_serves never_pending 100 100 basic_server EPOLLIN 1 7 pieces_kernel (str "GET") page_request
    ltac:(done) ltac:(done) eq_refl ltac:(done) eq_refl eq_refl Hr eq_refl Ht Ha (Nat.le_refl _)) as Hx.
  exact Hx.
Defined.

(** A server that sends bodies back. *)
Definition post_entry : request_handler sim := set_handler HttpMethod.POST echo_handler (empty_handler sim).
Definition post_server : server sim :=
  Server 3 (Some (0%nat, make 4)) [(1%nat, make 7)] (register_all [(str "/post", post_entry)] []) 2.

Definition post_request : Requests.request :=
  Request HttpMethod.POST (str "/post") HttpVersion.HTTP_1_1 (str "example.com") [] (Some (str "5")).
Definition post_text : bytes := request_text (str "POST") post_request.
Definition post_pieces : list (errno + bytes) := [inr (take 30 post_text); inr (drop 30 post_text)].
Definition post_kernel : sim := Sim (map (pair 7) post_pieces) 1024 [] [] [] 0 [].

Lemma posted_request_served_witness :
  exists c1 w1 t, after post_kernel t w1 /\ received 7 t = post_text /\
    fd_ c1 = 7 /\ partial_body_ c1 = [] /\ state_ (parser c1) = Body /\
    handle_event 400 post_server EPOLLIN 1 post_kernel =
      (s' ← serve 1 c1 echo_handler (str "/post") false post_server; mret (None, s')) w1 /\
    forall fuel2 s2 pb events2 body w2 w3,
      server_conn_ s2 = server_conn_ post_server -> request_handlers s2 = request_handlers post_server ->
      find_conn 1 (pending_conns_ s2) = Some (set_partial_body pb c1) -> Z.land events2 EPOLLIN <> 0 ->
      Z.of_nat (length body) = 5 -> body <> [] -> (length body <= 1024)%nat ->
      Z.of_nat (length body) <= kLocalBufferLen ->
      call (SysRead 7 (read_len c1)) w2 = Ok (inr body, w3) -> crlf_free body \/ line body ->
      exists c2, fd_ c2 = 7 /\ state_ (parser c2) = Done /\
        (crlf_free body -> partial_body_ c2 = body) /\ (line body -> partial_body_ c2 = pb) /\
        handle_event (S fuel2) s2 events2 1 w2 = (s' ← serve 1 c2 echo_handler (str "/post") true s2; mret (None, s')) w3.
Proof.
  assert (Hr : request_ok post_request) by (apply (bool_decide_unpack _); vm_compute; exact Logic.I).
  assert (Ht : transmissible (str "POST") post_request).
  { split; [apply (bool_decide_unpack _); vm_compute; exact Logic.I|].
    repeat constructor; vm_compute; intuition discriminate. }
  assert (Ha : arrives 400 7 (request_text (str "POST") post_request) post_kernel).
  { apply (scripted_arrives 7 400 post_pieces); [done| |].
    - repeat constructor; discriminate.
    - apply Nat.leb_le. vm_compute. reflexivity. }
  assert (Hh : FindRequestHandler (str "/post") (request_handlers post_server) = Ok (Some (str "/post", post_entry)))
    by (vm_compute; reflexivity).
  exact (posted_request_served 400 400 post_server EPOLLIN 1 7 post_kernel (str "POST") post_request (str "5") (str "/post")
    post_entry echo_handler ltac:(done) ltac:(done) eq_refl Hh eq_refl eq_refl Hr eq_refl Ht Ha (Nat.le_refl _)).
Defined.

(** The handler answers twice: without and with the body. *)
Example hello_posted :
  match handle_event 400 post_server EPOLLIN 1 (Sim (map (pair 7) (post_pieces ++ [inr (str "hello")])) 1024 [] [] [] 0 []) with
  | Ok ((_, s), w) =>
      match handle_event 400 s EPOLLIN 1 w with
      | Ok (_, w) => sent 7 (trace w) =
          str "HTTP/1.1 200 OK" ++ CRLF ++ CRLF ++
          str "HTTP/1.1 200 OK" ++ CRLF ++ str "Content-Length: 5" ++ CRLF ++ CRLF ++ str "hello"
      | _ => False
      end
  | _ => False
  end.
Proof. vm_compute. reflexivity. Qed.
End witness.
