(* ===== verification/WsService.v ===== *)
(** * WebSocket sessions, from bytes to messages

    A client that asks for an upgrade and then sends messages is served: its bytes are parsed,
    the handshake is answered, and every data frame it sends afterwards reaches the message
    handler of its URI, the frames of a message put together.  The results on the parser, the
    connections, the WebSocket layer and the server are put together here. *)

From S2P Require Import Prelude CString StdMap Method Version HeaderParser HeaderParserSpec HeaderParserProps Requests State Posix RequestHandler Connection ConnectionSpec ConnectionProps Base64 WsFrame WebsocketConnection WebsocketProps Response Router Server ServerSpec ServerProps Service.
Import HttpHeaderParser WsFrameType.

(** ** The handshake a client sends *)

Record handshake := Handshake {
  hs_uri : bytes;
  hs_host : bytes;
  hs_key : bytes;
  hs_headers : list (bytes * bytes)
}.

Definition key_header : bytes := str "Sec-WebSocket-Key".

Definition handshake_headers (r : handshake) : list (bytes * bytes) :=
  (key_header, hs_key r) :: hs_headers r.

(** The lines between the request line and the blank line. *)
Definition handshake_fields (r : handshake) : list bytes :=
  [header_line (str "Host") 1 (hs_host r);
   header_line (str "Connection") 1 (str "Upgrade");
   header_line (str "Upgrade") 1 (str "websocket")] ++
  map (fun kv => header_line kv.1 1 kv.2) (handshake_headers r).

Definition print_handshake (r : handshake) : list bytes :=
  request_line (str "GET") (hs_uri r) (str "HTTP/1.1") :: handshake_fields r ++ [CRLF].

Definition handshake_ok (r : handshake) : Prop :=
  request_line_ok (hs_uri r) (str "HTTP/1.1") 6 /\ field_value (hs_host r) /\
  hs_key r <> [] /\ field_value (hs_key r) /\ Forall header_ok (hs_headers r).

#[export] Instance handshake_ok_dec r : Decision (handshake_ok r).
Proof. unfold handshake_ok. apply _. Defined.

(** What the parser makes of it. *)
Definition upgrade_parsed (r : handshake) : http_header_parser :=
  Parser HttpMethod.GET (hs_uri r) HttpVersion.HTTP_1_1 (emplace_all (handshake_headers r) [])
    ConnectionUpgrade UpgradeWebSocket (hs_host r) [] [] None 0 Done.

Lemma print_handshake_pushed r :
  handshake_ok r -> push_lines init (print_handshake r) = Ok (upgrade_parsed r).
Proof.
  destruct r as [uri host key hs]. intros (Hline & Hhost & Hne & Hkey & Hhs). cbn [hs_uri hs_host hs_key hs_headers] in *.
  pose proof (request_line_fits HttpMethod.GET _ _ _ _ eq_refl Hline) as Hfit. destruct Hline as (Hune & Hsp & _ & Hv).
  set (p0 := set_state Headers (set_first_line HttpMethod.GET uri HttpVersion.HTTP_1_1 init)).
  assert (H0 : PushLine init (request_line (str "GET") uri (str "HTTP/1.1")) = Ok (p0, Headers))
    by (by rewrite (PushLine_request_line HttpMethod.GET)).
  assert (H1 : PushLine p0 (header_line (str "Host") 1 host) = Ok (set_host host p0, Headers)).
  { apply PushLine_header; [done| |apply push_host_header]; try done; by apply (bool_decide_unpack _). }
  set (p1 := set_host host p0) in *.
  assert (H2 : PushLine p1 (header_line (str "Connection") 1 (str "Upgrade")) =
               Ok (set_connection_flags ConnectionUpgrade p1, Headers)).
  { apply PushLine_header; [done|by apply (bool_decide_unpack _)|].
    rewrite push_connection_header; [|by apply (bool_decide_unpack _)|done|by repeat constructor].
    change (connection_flags_ p1) with 0. done. }
  set (p2 := set_connection_flags _ p1) in *.
  assert (H3 : PushLine p2 (header_line (str "Upgrade") 1 (str "websocket")) =
               Ok (set_upgrade_flags UpgradeWebSocket p2, Headers)).
  { rewrite PushLine_upgrade; [done|done|by apply (bool_decide_unpack _)|done|by repeat constructor]. }
  unfold print_handshake, handshake_fields, handshake_headers. cbn [app].
  cbn [hs_uri hs_host hs_key hs_headers].
  rewrite (push_lines_cons _ _ _ _ _ H0), (push_lines_cons _ _ _ _ _ H1),
    (push_lines_cons _ _ _ _ _ H2), (push_lines_cons _ _ _ _ _ H3).
  rewrite push_lines_app, push_lines_headers; [done..|].
  constructor; [|done]. split; [by apply (bool_decide_unpack _)|]. split; [|done].
  by apply (bool_decide_unpack _).
Qed.

Lemma print_handshake_header_lines r :
  Forall line (print_handshake r) -> header_lines init (print_handshake r).
Proof.
  intros Hl. apply header_lines_init; [done|]. unfold handshake_fields, handshake_headers.
  rewrite not_elem_of_app. split.
  - rewrite !not_elem_of_cons. repeat split; [..|apply not_elem_of_nil]; intros E; by eapply header_line_not_blank.
  - intros (kv & E & _)%list_elem_of_fmap. by apply (header_line_not_blank kv.1 1 kv.2).
Qed.

Lemma upgrade_parsed_key r : hs_key r <> [] -> find_key (upgrade_parsed r) = hs_key r.
Proof.
  intros Hne. assert (E : GetHeader (upgrade_parsed r) (str "Sec-WebSocket-Key") = hs_key r).
  { unfold GetHeader, upgrade_parsed. cbn [headers_]. rewrite map_find_emplace_all by constructor.
    by cbn [map_find handshake_headers]; rewrite decide_True. }
  unfold find_key. rewrite E. destruct (decide (hs_key r = [])); [done|]. by rewrite decide_False.
Qed.

Section session.
Context {W : Type} `{!Posix W} `{!PosixLaws W} {config : Config} {sha1 : Sha1} {fmt : Fmt} {regex : Regex}.
Implicit Types (c : connection W) (s : server W) (w : W).

Definition handshake_text (r : handshake) : bytes := concat (print_handshake r).

Lemma ProcessDataIn_handshake k fuel fd w r :
  handshake_ok r -> lines_fit (print_handshake r) ->
  arrives k fd (handshake_text r) w -> (k <= fuel)%nat ->
  exists c' w' t, ProcessDataIn fuel (make fd) w = Ok ((1, c'), w') /\ after w t w' /\
    received fd t = handshake_text r /\ parser c' = upgrade_parsed r /\ buffer_ c' = [] /\
    same_frame (make fd) c' /\ partial_body_ c' = [].
Proof.
  intros Hr [Hl Hroom] Ha Hk.
  apply (ProcessDataIn_header k fuel (make fd) w (handshake_text r) (print_handshake r) (upgrade_parsed r)); try done.
  - split; [apply crlf_free_nil|by left].
  - by apply print_handshake_header_lines.
  - by apply print_handshake_pushed.
  - by right.
Qed.

(** ** Connections that wait for a frame *)

(** [p] is a WebSocket connection with the message handler [h] and the closing hook [hook] that
    has received the fragments [d] of a message. *)
Definition waits (s : server W) (p : nat) (fd : Z) h hook (d : bytes) : Prop :=
  Some p <> fst <$> server_conn_ s /\
  exists c st, find_conn p (pending_conns_ s) = Some c /\ fd_ c = fd /\ buffer_ c = [] /\
    ws_conn_ c = Some (WsConn st (Some h) hook) /\ last_payload_ st = d.

(** A frame of a message: whether it is the last one, and what it holds. *)
Definition data_frame : Type := bool * fragment.

(** What a client sends: frames of messages, pings and pongs, and close frames. *)
Inductive frame_in : Type :=
| Data (x : data_frame)
| Control (x : fragment)
| Closing (x : fragment).

Definition frame_bytes (y : frame_in) : bytes :=
  match y with Data x => wire x.1 x.2 | Control x | Closing x => wire true x end.

Definition short_fragment (x : fragment) : Prop :=
  length (fr_key x) = 4%nat /\ Z.of_nat (length (fr_data x)) < 2 ^ 16.

Definition frame_ok (y : frame_in) : Prop :=
  match y with
  | Data x => fragment_ok x.2
  | Control x => is_Some HPL_ENABLE_PING_PONG /\ (fr_op x = kTypePing \/ fr_op x = kTypePong) /\ short_fragment x
  | Closing x => fr_op x = kTypeClose /\ short_fragment x
  end.

(** What is left of a message after each frame: a ping or a pong clears it. *)
Definition unfinished (d : bytes) (y : frame_in) : bytes :=
  match y with
  | Data x => if x.1 then [] else d ++ fr_data x.2
  | Control _ => []
  | Closing x => d ++ fr_data x
  end.

(** An event on a WebSocket connection. *)
Lemma handle_event_ws fuel s events p c ws w :
  Some p <> fst <$> server_conn_ s -> Z.land events EPOLLIN <> 0 ->
  find_conn p (pending_conns_ s) = Some c -> ws_conn_ c = Some ws ->
  handle_event fuel s events p w = (s' ← ws_event p c s; mret (None, s')) w.
Proof.
  intros Hp Hev Hc Hws. unfold handle_event. rewrite bool_decide_eq_false_2 by done.
  rewrite (proj2 (deref_Ok _ _ _) Hc), M_bind_lift, (proj2 (Z.eqb_neq _ _)) by done.
  by rewrite Hws.
Qed.

(** The handler of a message, when the frame [x] ends one. *)
Definition run_message (h : WsHandler W) fd (d : bytes) (x : data_frame) : M (ws_state * W) Z :=
  if x.1 then h fd (fr_op x.2) (d ++ fr_data x.2) else mret 1.

(** The answer to a ping. *)
Definition pong (data : bytes) : list bytes :=
  [header_bytes (MakeWebsocketHeader (Z.of_nat (length data)) kTypePong); data].

(** The end of a connection: the closing hook, and then the close. *)
Definition goodbye (s : server W) p c (ws : ws_connection W) : M W (server W) :=
  let c := set_ws_conn (Some ws) c in
  '(_, ws) ← run_hook (will_close_hook_ ws) 0 (fd_ c) [] ws;
  close p (update_ws p ws c s).

(** A connection after an event that returned [ret]. *)
Definition settle (s : server W) p c (ws : ws_connection W) (ret : Z) : M W (server W) :=
  if ret =? -1 then goodbye s p c ws else mret (update_conn p (set_ws_conn (Some ws) c) s).

(** What becomes of the connection after a message: it is closed when the handler asked for
    it, and else goes on with what is left of the message. *)
Definition after_message (s : server W) p c (h : WsHandler W) hook (x : data_frame)
  (ret : Z) (st : ws_state) : M W (server W) :=
  settle s p c (WsConn (if x.1 then set_last_payload [] st else st) (Some h) hook) ret.

(** [ws_event], once it is known what [m] is done with the frame. *)
Lemma ws_event_read s p c ws w st w' (m : M (ws_state * W) Z) :
  WsRead c w = put_back c ws (m (st, w')) ->
  ws_event p c s w =
    ('(ret, st') ← run_with st m; settle s p c (WsConn st' (on_data_ ws) (will_close_hook_ ws)) ret) w'.
Proof.
  intros E. unfold ws_event, settle, goodbye, run_with, mbind, M_bind. rewrite E.
  destruct (m (st, w')) as [[ret [st' w2]]| |]; [|done..]. cbn [put_back].
  set (ws' := WsConn _ _ _). case_match; [|done].
  replace (ws_conn_ (set_ws_conn (Some ws') c)) with (Some ws') by (by destruct c).
  cbn [of_option lift]. destruct (run_hook _ _ _ _ _ _) as [[[n ws2] w3]| |]; [|done..].
  unfold update_ws. by rewrite update_update.
Qed.

Lemma ws_event_frame s p c st h hook (x : data_frame) w :
  find_conn p (pending_conns_ s) = Some c -> buffer_ c = [] -> ws_conn_ c = Some (WsConn st (Some h) hook) ->
  fragment_ok x.2 -> receives_bytes c w (wire x.1 x.2) ->
  exists st' w', last_payload_ st' = last_payload_ st ++ fr_data x.2 /\
    ws_event p c s w =
      ('(ret, st'') ← run_with st' (run_message h (fd_ c) (last_payload_ st) x);
       after_message s p c h hook x ret st'') w'.
Proof.
  intros Hc Hb Hws Hx Hr. destruct x as [f x]. cbn [fst snd] in *.
  destruct (WsRead_fragment c w x f _ Hb Hws Hx Hr) as (t & w' & E). cbv zeta in E. cbn [on_data_ ws_st] in E.
  set (st' := append_payload _ _) in E. exists st', w'.
  assert (Hst : last_payload_ st' = last_payload_ st ++ fr_data x) by (unfold st'; by destruct st).
  split; [done|]. rewrite (ws_event_read s p c _ w _ w' _ E). cbn [on_data_ will_close_hook_].
  unfold after_message, run_message, run_with, mbind, M_bind. cbn [fst snd].
  rewrite dispatch_data, Hst by apply Hx. destruct f; [|done].
  by destruct (h _ _ _ _) as [[ret [st'' w2]]| |].
Qed.

(** A ping is answered with a pong; after it, and after a pong, there is no message. *)
Lemma ws_event_control s p c st h hook x w :
  find_conn p (pending_conns_ s) = Some c -> buffer_ c = [] -> ws_conn_ c = Some (WsConn st (Some h) hook) ->
  fd_ c <> -1 -> frame_ok (Control x) -> receives_bytes c w (wire true x) ->
  exists st' w' t, last_payload_ st' = [] /\
    ws_event p c s w = Ok (update_conn p (set_ws_conn (Some (WsConn st' (Some h) hook)) c) s, w') /\
    after w t w' /\ written (fd_ c) t = if fr_op x =? kTypePing then pong (fr_data x) else [].
Proof.
  intros Hc Hb Hws Hfd (Hping & Hop & Hx) Hr.
  assert (Hop' : 0 <= fr_op x < 16) by (unfold kTypePing, kTypePong in Hop; lia).
  destruct (WsRead_wire c w x true _ Hb Hws Hop' Hx Hr) as (t & w1 & tr & Ha & Htr & E).
  cbv zeta in E. cbn [on_data_ ws_st] in E. set (st1 := append_payload _ _) in E.
  destruct (dispatch_control (fd_ c) (Some h) (fr_op x) (fr_data x) st1 w1 Hping Hop) as (st' & w' & E' & Hst & Hw).
  destruct (Hw Hfd) as (tr' & Ha' & Htr'). exists st', w', (tr ++ tr'). split; [done|].
  rewrite (ws_event_read s p c _ w _ w1 _ E). cbn [on_data_ will_close_hook_].
  unfold run_with, mbind, M_bind. rewrite E'. split; [done|]. split; [by eapply after_trans|].
  by rewrite written_app, Htr.
Qed.

(** A close frame ends the connection. *)
Lemma ws_event_closing s p c st h hook x w :
  find_conn p (pending_conns_ s) = Some c -> buffer_ c = [] -> ws_conn_ c = Some (WsConn st (Some h) hook) ->
  frame_ok (Closing x) -> receives_bytes c w (wire true x) ->
  exists st' w', last_payload_ st' = last_payload_ st ++ fr_data x /\
    ws_event p c s w = goodbye s p c (WsConn st' (Some h) hook) w'.
Proof.
  intros Hc Hb Hws (Hop & Hx) Hr.
  destruct (WsRead_wire c w x true _ Hb Hws ltac:(by rewrite Hop) Hx Hr) as (t & w1 & _ & _ & _ & E).
  cbv zeta in E. cbn [on_data_ ws_st] in E. set (st' := append_payload _ _) in E.
  exists st', w1. split; [unfold st'; by destruct st|].
  rewrite (ws_event_read s p c _ w _ w1 _ E). unfold run_with, mbind, M_bind, dispatch. by rewrite Hop.
Qed.

(** A closing hook that leaves the message buffer alone. *)
Definition keeps_payload (hook : option (WsHook W)) : Prop :=
  match hook with
  | None => True
  | Some k => forall fd uri st w n st' w',
      k fd uri (st, w) = Ok (n, (st', w')) -> last_payload_ st' = last_payload_ st
  end.

(** A connection that is still there after a close is as it was. *)
Lemma close_kept p s c w s' w' :
  find_conn p (pending_conns_ s) = Some c -> fd_ c <> -1 ->
  close p s w = Ok (s', w') -> live p s' -> s' = s.
Proof.
  intros Hc Hfd E Hl. destruct (close_Ok p s c w Hc Hfd) as (r & t & w1 & E1 & _).
  rewrite E1 in E. injection E as <- _. destruct r; [done|].
  destruct Hl as [c' Hl]. by rewrite find_conn_remove, Nat.eqb_refl in Hl.
Qed.

Lemma waits_update s p c st h hook d :
  Some p <> fst <$> server_conn_ s -> live p s -> buffer_ c = [] -> last_payload_ st = d ->
  waits (update_conn p (set_ws_conn (Some (WsConn st (Some h) hook)) c) s) p (fd_ c) h hook d.
Proof.
  intros Hp Hl Hb Hd. split; [by destruct s|].
  exists (set_ws_conn (Some (WsConn st (Some h) hook)) c), st. rewrite find_conn_updated by done. by destruct c.
Qed.

(** Unless it was closed, a connection waits for the next frame after each event. *)
Lemma goodbye_waits s p c st h hook w s' w' :
  Some p <> fst <$> server_conn_ s -> find_conn p (pending_conns_ s) = Some c -> fd_ c <> -1 ->
  buffer_ c = [] -> keeps_payload hook ->
  goodbye s p c (WsConn st (Some h) hook) w = Ok (s', w') -> live p s' ->
  waits s' p (fd_ c) h hook (last_payload_ st).
Proof.
  intros Hp Hc Hfd Hb Hk. assert (Hl : live p s) by by eexists.
  unfold goodbye. set (c' := set_ws_conn _ c). cbn [will_close_hook_].
  unfold mbind, M_bind. destruct (run_hook _ _ _ _ _ _) as [[[n ws] w1]| |] eqn:E; [|done..].
  assert (Hws : exists st2, ws = WsConn st2 (Some h) hook /\ last_payload_ st2 = last_payload_ st).
  { unfold run_hook in E. destruct hook as [k|]; [|injection E as <- <- <-; by exists st].
    unfold run_with, mbind, M_bind in E. cbn [ws_st] in E.
    destruct (k _ _ _) as [[r [st2 w2]]| |] eqn:Ek; [|done..]. injection E as <- <- <-.
    exists st2. split; [done|]. exact (Hk _ _ _ _ _ _ _ Ek). }
  destruct Hws as (st2 & -> & Hst2). intros Ecl Hl'.
  assert (Hset : set_ws_conn (Some (WsConn st2 (Some h) hook)) c' = set_ws_conn (Some (WsConn st2 (Some h) hook)) c)
    by by destruct c.
  unfold update_ws in Ecl. rewrite Hset in Ecl.
  pose proof (find_conn_updated p (set_ws_conn (Some (WsConn st2 (Some h) hook)) c) s Hl) as Hu.
  apply (close_kept _ _ _ _ _ _ Hu) in Ecl; [subst s'|by destruct c|done].
  by apply waits_update.
Qed.

Lemma settle_waits s p c st h hook ret w s' w' :
  Some p <> fst <$> server_conn_ s -> find_conn p (pending_conns_ s) = Some c -> fd_ c <> -1 ->
  buffer_ c = [] -> keeps_payload hook ->
  settle s p c (WsConn st (Some h) hook) ret w = Ok (s', w') -> live p s' ->
  waits s' p (fd_ c) h hook (last_payload_ st).
Proof.
  intros Hp Hc Hfd Hb Hk. unfold settle. case_match; [by apply goodbye_waits|].
  intros [= <- <-] _. apply waits_update; [done|by eexists|done..].
Qed.

(** ** Sessions *)

(** The connection [c'] is [c], but that it may have been pinged. *)
Definition same_but_time c c' : Prop :=
  fd_ c' = fd_ c /\ buffer_ c' = buffer_ c /\ partial_body_ c' = partial_body_ c /\ parser c' = parser c /\
  match ws_conn_ c, ws_conn_ c' with
  | None, None => True
  | Some ws, Some ws' => exists t,
      ws' = WsConn (set_last_io_time t (ws_st ws)) (on_data_ ws) (will_close_hook_ ws)
  | _, _ => False
  end.

(** The events of [p] from the server [s1] on bring it the frames [ys], and it is still there
    after each; anything can happen to other connections in between, and [p] may be pinged. *)
Inductive session (fuel : nat) (p : nat) : server W -> list frame_in -> server W -> Prop :=
| session_nil s : session fuel p s [] s
| session_frame s c events w y ys s1 w1 s2 :
    Z.land events EPOLLIN <> 0 -> find_conn p (pending_conns_ s) = Some c ->
    receives_bytes c w (frame_bytes y) ->
    handle_event fuel s events p w = Ok ((None, s1), w1) -> live p s1 ->
    session fuel p s1 ys s2 -> session fuel p s (y :: ys) s2
| session_elsewhere s s1 xs s2 :
    server_conn_ s1 = server_conn_ s ->
    (forall c, find_conn p (pending_conns_ s) = Some c ->
       exists c1, find_conn p (pending_conns_ s1) = Some c1 /\ same_but_time c c1) ->
    session fuel p s1 xs s2 -> session fuel p s xs s2.

(** What an event does that brings the frame [y], after the unfinished message [d]: the last
    frame of a message goes to the message handler, with all of the message; a ping is
    answered; after a close frame the closing hook runs and the connection is closed. *)
Definition served fuel s events p c fd h hook d (y : frame_in) w : Prop :=
  match y with
  | Data x => exists st w', last_payload_ st = d ++ fr_data x.2 /\
      handle_event fuel s events p w =
        ('(ret, st') ← run_with st (run_message h fd d x);
         s' ← after_message s p c h hook x ret st'; mret (None, s')) w'
  | Control x => exists s' w' t, handle_event fuel s events p w = Ok ((None, s'), w') /\
      after w t w' /\ written fd t = (if fr_op x =? kTypePing then pong (fr_data x) else []) /\
      waits s' p fd h hook []
  | Closing x => exists st w', last_payload_ st = d ++ fr_data x /\
      handle_event fuel s events p w =
        (s' ← goodbye s p c (WsConn st (Some h) hook); mret (None, s')) w'
  end.

Lemma waits_event fuel s p fd h hook d events w y c :
  waits s p fd h hook d -> Z.land events EPOLLIN <> 0 -> find_conn p (pending_conns_ s) = Some c ->
  fd <> -1 -> frame_ok y -> receives_bytes c w (frame_bytes y) ->
  served fuel s events p c fd h hook d y w.
Proof.
  intros (Hp & c0 & st & Hc & Hfd & Hb & Hws & Hd) Hev Hc' Hne Hy Hr.
  rewrite Hc in Hc'. injection Hc' as <-. subst fd d.
  pose proof (handle_event_ws fuel s events p c0 _ w Hp Hev Hc Hws) as E0.
  destruct y as [x|x|x]; cbn [frame_bytes frame_ok served] in *.
  - destruct (ws_event_frame s p c0 st h hook x w Hc Hb Hws Hy Hr) as (st' & w' & Hst' & E).
    exists st', w'. split; [done|]. rewrite E0. unfold mbind, M_bind in *. rewrite E.
    by destruct (run_with _ _ _) as [[[ret st''] w2]| |].
  - destruct (ws_event_control s p c0 st h hook x w Hc Hb Hws Hne Hy Hr) as (st' & w' & t & Hst' & E & Ha & Hw).
    do 3 eexists. rewrite E0. unfold mbind, M_bind. rewrite E. split; [reflexivity|].
    do 2 (split; [done|]). apply waits_update; [done|by eexists|done..].
  - destruct (ws_event_closing s p c0 st h hook x w Hc Hb Hws Hy Hr) as (st' & w' & Hst' & E).
    exists st', w'. split; [done|]. rewrite E0. unfold mbind, M_bind. by rewrite E.
Qed.

(** An event after which the connection is still there. *)
Lemma served_waits fuel s p fd h hook d events w y c s1 w1 :
  waits s p fd h hook d -> find_conn p (pending_conns_ s) = Some c -> fd <> -1 -> keeps_payload hook ->
  served fuel s events p c fd h hook d y w ->
  handle_event fuel s events p w = Ok ((None, s1), w1) -> live p s1 ->
  waits s1 p fd h hook (unfinished d y).
Proof.
  intros (Hp & c0 & st & Hc & Hfd & Hb & Hws & Hd) Hc' Hne Hk Hs E Hl.
  rewrite Hc in Hc'. injection Hc' as <-. subst fd. destruct y as [x|x|x]; cbn [served unfinished] in *.
  - destruct Hs as (st1 & w' & Hst1 & E'). rewrite E in E'. symmetry in E'.
    apply M_bind_Ok in E' as ([ret st'] & w2 & E1 & E2).
    apply M_bind_Ok in E2 as (s' & w3 & E2 & [= -> ->]).
    replace (if x.1 then [] else d ++ fr_data x.2)
      with (last_payload_ (if x.1 then set_last_payload [] st' else st')).
    { by eapply settle_waits. }
    destruct x.1 eqn:Ex; [by destruct st'|]. unfold run_message, run_with in E1. rewrite Ex in E1.
    injection E1 as _ <- _. done.
  - destruct Hs as (s' & w' & t & E' & _ & _ & Hw). rewrite E in E'. by injection E' as -> _.
  - destruct Hs as (st1 & w' & Hst1 & E'). rewrite E in E'. symmetry in E'.
    apply M_bind_Ok in E' as (s' & w2 & E1 & [= -> ->]). rewrite <- Hst1. by eapply goodbye_waits.
Qed.

(** So it is after every session. *)
Lemma session_waits fuel s p ys s' fd h hook d :
  session fuel p s ys s' -> waits s p fd h hook d -> fd <> -1 -> keeps_payload hook ->
  Forall frame_ok ys ->
  waits s' p fd h hook (foldl unfinished d ys).
Proof.
  intros Hs. revert d. induction Hs as [s|s c events w y ys s1 w1 s2 Hev Hc Hr E Hl Hs IH|s s1 ys s2 Hsc Hf Hs IH];
    intros d Hw Hfd Hk Hys; [done| |].
  - apply Forall_cons in Hys as [Hy Hys]. cbn [foldl]. apply IH; try done.
    eapply served_waits; try done. by apply waits_event.
  - apply IH; try done. destruct Hw as (Hp & c & st & Hc & Hfdc & Hb & Hws & Hd). split; [by rewrite Hsc|].
    destruct (Hf c Hc) as (c1 & Hc1 & E1 & E2 & _ & _ & E3). rewrite Hws in E3.
    destruct (ws_conn_ c1) as [ws1|] eqn:Ews; [|done]. destruct E3 as [t ->].
    exists c1, (set_last_io_time t st). split; [done|]. split; [congruence|]. split; [congruence|].
    split; [done|]. rewrite <- Hd. by destruct st.
Qed.

(** ** Claim: WebSocket clients are served *)

Definition handshake_response (key : bytes) : bytes := upgrade_response HttpVersion.HTTP_1_1 key.

(** The event that brings the handshake. *)
Lemma handshake_event k fuel s events p fd w r name h mh :
  Some p <> fst <$> server_conn_ s -> Z.land events EPOLLIN <> 0 ->
  find_conn p (pending_conns_ s) = Some (make fd) -> fd <> -1 ->
  FindRequestHandler (hs_uri r) (request_handlers s) = Ok (Some (name, h)) ->
  ws_connect_hook h = None -> ws_ready_hook h = None -> ws_message_handler h = Some mh ->
  handshake_ok r -> lines_fit (print_handshake r) ->
  arrives k fd (handshake_text r) w -> (k <= fuel)%nat ->
  exists s1 w1 t n, handle_event fuel s events p w = Ok ((None, s1), w1) /\
    after w (t ++ [Event (SysWrite fd (handshake_response (hs_key r))) n]) w1 /\
    received fd t = handshake_text r /\ waits s1 p fd mh (ws_will_close_hook h) [].
Proof.
  intros Hp Hev Hc Hfd Hh Hch Hrh Hmh Hr Hfit Ha Hk.
  destruct (ProcessDataIn_handshake k fuel fd w r Hr Hfit Ha Hk) as (c' & w1 & t & E & Hat & Hrec & Hpar & Hbuf & Hsf & _).
  pose proof Hr as (_ & _ & Hne & _). pose proof (upgrade_parsed_key r Hne) as Hkey.
  assert (Hup : ShouldUpgradeWebsocket c' = true).
  { unfold ShouldUpgradeWebsocket. rewrite (proj2 Hsf), Hpar. done. }
  assert (Hh' : FindRequestHandler (uri_ (parser c')) (request_handlers s) = Ok (Some (name, h))) by by rewrite Hpar.
  rewrite <- Hpar in Hkey.
  destruct (upgrade_answered fuel s events p (make fd) w 1 c' w1 Hp Hev Hc eq_refl E (or_intror eq_refl) h name Hup Hh'
    (hs_key r) HttpVersion.HTTP_1_1 Hfd ltac:(by rewrite Hpar) (eq_sym Hkey) Hne Hch Hrh)
    as (time & n & ws & c2 & w2 & E2 & Ha2 & -> & ->).
  do 2 eexists. exists (t ++ match HPL_ENABLE_PING_PONG with Some _ => [Event SysNow time] | None => [] end), n.
  split; [exact E2|]. split; [rewrite <- app_assoc; by eapply after_trans|]. split.
  - rewrite received_app, Hrec. destruct HPL_ENABLE_PING_PONG; cbn; by rewrite app_nil_r.
  - rewrite Hmh. destruct Hsf as [Hfd' _]. cbn in Hfd'. rewrite <- Hfd'.
    by apply waits_update; [|eexists| |].
Qed.

(** Claim C5. A WebSocket client is served from its first byte to its last message.  When the
    bytes of a well-formed upgrade request arrive on a new connection, in whatever pieces, one
    event answers them with the 101 response for its key.  From then on, after any frames that
    came one to an event, and whatever happened to other connections, the next frame is served
    ([served]): the message handler of the URI runs when it is the last of a message, on the
    payloads of the whole message, and the connection is kept unless the handler returns -1; a
    ping is answered with a pong that has its payload; a close frame runs the closing hook and
    closes the connection. *)
Theorem websocket_session k fuel s events p fd w r name h mh :
  Some p <> fst <$> server_conn_ s -> Z.land events EPOLLIN <> 0 ->
  find_conn p (pending_conns_ s) = Some (make fd) -> fd <> -1 ->
  FindRequestHandler (hs_uri r) (request_handlers s) = Ok (Some (name, h)) ->
  ws_connect_hook h = None -> ws_ready_hook h = None -> ws_message_handler h = Some mh ->
  keeps_payload (ws_will_close_hook h) ->
  handshake_ok r -> lines_fit (print_handshake r) ->
  arrives k fd (handshake_text r) w -> (k <= fuel)%nat ->
  exists s1 w1 t n, handle_event fuel s events p w = Ok ((None, s1), w1) /\
    after w (t ++ [Event (SysWrite fd (handshake_response (hs_key r))) n]) w1 /\
    received fd t = handshake_text r /\
    forall ys y s2 c2 events2 w2,
      session fuel p s1 ys s2 -> Forall frame_ok (ys ++ [y]) ->
      Z.land events2 EPOLLIN <> 0 -> find_conn p (pending_conns_ s2) = Some c2 ->
      receives_bytes c2 w2 (frame_bytes y) ->
      served fuel s2 events2 p c2 fd mh (ws_will_close_hook h) (foldl unfinished [] ys) y w2.
Proof.
  intros Hp Hev Hc Hfd Hh Hch Hrh Hmh Hk Hr Hfit Ha Hkf.
  destruct (handshake_event k fuel s events p fd w r name h mh) as (s1 & w1 & t & n & E & Hat & Hrec & Hw); [done..|].
  exists s1, w1, t, n. do 3 (split; [done|]). intros ys y s2 c2 events2 w2 Hs [Hys [Hy _]%Forall_cons]%Forall_app Hev2 Hc2 Hr2.
  pose proof (session_waits _ _ _ _ _ _ _ _ _ Hs Hw Hfd Hk Hys) as Hw2.
  by apply waits_event.
Qed.
End session.

(** ** Witness *)

Section witness.
#[local] Existing Instance httpoll_mk.
#[local] Existing Instance Fips180.fips180.
#[local] Existing Instance Decimal.decimal_fmt.
#[local] Existing Instance Matcher.matcher.

(** The handshake of RFC 6455, with the headers of a browser. *)
Definition rfc_handshake : handshake :=
  Handshake (str "/ws") (str "server.example.com") (str "dGhlIHNhbXBsZSBub25jZQ==")
    [(str "Origin", str "http://example.com"); (str "Sec-WebSocket-Version", str "13")].

(** It comes in two pieces with an interruption in between, and then two frames come. *)
Definition handshake_pieces : list (errno + bytes) :=
  [inr (take 25 (handshake_text rfc_handshake)); inl EINTR; inr (drop 25 (handshake_text rfc_handshake))].
Definition handshake_kernel : sim := Sim (map (pair 7) handshake_pieces) 1024 [] [] [] 0 [].
Definition session_kernel : sim :=
  Sim (map (pair 7) (handshake_pieces ++ [inr (wire false hel); inr (wire true lo)])) 1024 [] [] [] 0 [].

Lemma rfc_handshake_ok : handshake_ok rfc_handshake.
Proof. apply (bool_decide_unpack _). vm_compute. exact Logic.I. Qed.

Lemma rfc_handshake_fits : lines_fit (print_handshake rfc_handshake).
Proof.
  split; [apply (bool_decide_unpack _); vm_compute; exact Logic.I|].
  repeat constructor; vm_compute; intuition discriminate.
Qed.
Lemma websocket_session_witness :
  exists s1 w1 t n, handle_event 400 demo_server EPOLLIN 1 handshake_kernel = Ok ((None, s1), w1) /\
    after handshake_kernel (t ++ [Event (SysWrite 7 (handshake_response (str "dGhlIHNhbXBsZSBub25jZQ=="))) n]) w1 /\
    received 7 t = handshake_text rfc_handshake /\
    forall ys y s2 c2 events2 w2,
      session 400 1 s1 ys s2 -> Forall frame_ok (ys ++ [y]) ->
      Z.land events2 EPOLLIN <> 0 -> find_conn 1 (pending_conns_ s2) = Some c2 ->
      receives_bytes c2 w2 (frame_bytes y) ->
      served 400 s2 events2 1 c2 7 echo None (foldl unfinished [] ys) y w2.
Proof.
  assert (Ha : arrives 400 7 (handshake_text rfc_handshake) handshake_kernel).
  { apply (scripted_arrives 7 400 handshake_pieces); [done| |].
    - repeat constructor; discriminate.
    - apply Nat.leb_le. vm_compute. reflexivity. }
  assert (Hh : FindRequestHandler (str "/ws") (request_handlers demo_server) = Ok (Some (str "/ws", ws_entry)))
    by (vm_compute; reflexivity).
  exact (websocket_session 400 400 demo_server EPOLLIN 1 7 handshake_kernel rfc_handshake (str "/ws") ws_entry echo
    ltac:(done) ltac:(done) eq_refl ltac:(done) Hh eq_refl eq_refl eq_refl Logic.I rfc_handshake_ok rfc_handshake_fits
    Ha (Nat.le_refl _)).
Defined.

Fixpoint run_events (n : nat) (s : server sim) (w : sim) : outcome (server sim * sim) :=
  match n with
  | O => Ok (s, w)
  | S n => '((_, s), w) ← handle_event 400 s EPOLLIN 1 w; run_events n s w
  end.

(** The session of the two frames of "hello", which the echo handler sends back. *)
Definition hello_session : outcome (server sim * sim) := run_events 3 demo_server session_kernel.

Example hello_echoed :
  match hello_session with
  | Ok (s, w) => live 1 s /\ sent 7 (sim_trace w) =
      handshake_response (hs_key rfc_handshake) ++ [x80; x05] ++ str "hello"
  | _ => False
  end.
Proof. vm_compute. split; [by eexists|done]. Qed.

(** After them the client sends a ping, which is answered, and says goodbye. *)
Definition ping : fragment := Fragment true kTypePing [x09; x0a; x0b; x0c] (str "still there") [].
Definition bye : fragment := Fragment true kTypeClose [x0d; x0e; x0f; x10] [x03; xe8] [].

Definition farewell_kernel : sim :=
  Sim (map (pair 7) (handshake_pieces ++
    map (fun y => inr (frame_bytes y)) [Data (false, hel); Data (true, lo); Control ping; Closing bye])) 1024 [] [] [] 0 [].

Example farewell :
  Forall frame_ok [Data (false, hel); Data (true, lo); Control ping; Closing bye] /\
  match run_events 5 demo_server farewell_kernel with
  | Ok (s, w) => ~ live 1 s /\ sent 7 (sim_trace w) =
      handshake_response (hs_key rfc_handshake) ++ server_frame true kTypeContinuation (str "hello") ++
      server_frame true kTypePong (str "still there")
  | _ => False
  end.
Proof.
  split; [by repeat constructor; try (by left); try (by eexists); vm_compute|].
  vm_compute. split; [by intros [? ?]|done].
Qed.
End witness.
