(* ===== verification/Isolation.v ===== *)
(** * Connections do not disturb each other

    What an event does to the server concerns its own connection: every other one is as it was,
    with its buffer, its parser and its WebSocket state, and so are the listener and the
    registered handlers; only a handler that closes other connections ([closer]) reaches further,
    to the connections it closes.  Unlike the results of EventLoop this needs nothing else of
    the handlers or the kernel. *)

From S2P Require Import Prelude CString StdMap Method Version HeaderParser State Posix RequestHandler Connection ConnectionSpec Base64 WsFrame WebsocketConnection WebsocketProps Response Router Server ServerSpec Closing ServerProps WsService.
Import HttpHeaderParser WsFrameType.

Section isolation.
Context {W : Type} `{!Posix W} {config : Config} {sha1 : Sha1} {fmt : Fmt} {regex : Regex}.
Implicit Types (c : connection W) (s : server W) (w : W).

(** Only the connection at [p] may differ, or be gone. *)
Record only (p : nat) s s' : Prop := {
  only_poll : poll_fd s' = poll_fd s;
  only_listener : server_conn_ s' = server_conn_ s;
  only_handlers : request_handlers s' = request_handlers s;
  only_next : next_ptr s' = next_ptr s;
  only_others q : q <> p -> find_conn q (pending_conns_ s') = find_conn q (pending_conns_ s)
}.

Lemma only_refl p s : only p s s.
Proof. done. Qed.

Lemma only_trans p s1 s2 s3 : only p s1 s2 -> only p s2 s3 -> only p s1 s3.
Proof. intros [] []. split; [congruence..|]. intros q Hq. rewrite <- only_others0 by done. by apply only_others1. Qed.

Lemma only_update p c s : only p s (update_conn p c s).
Proof.
  split; [by destruct s..|]. intros q Hq. by rewrite find_conn_update, (proj2 (Nat.eqb_neq q p)).
Qed.

Lemma only_remove p s : only p s (remove_conn p s).
Proof.
  split; [by destruct s..|]. intros q Hq. by rewrite find_conn_remove, (proj2 (Nat.eqb_neq q p)).
Qed.

(** [m] returns a server that differs from [s] at [p] only. *)
Definition local (p : nat) s (m : M W (server W)) : Prop :=
  forall w s' w', m w = Ok (s', w') -> only p s s'.

Lemma local_ret p s s' : only p s s' -> local p s (mret s').
Proof. by intros Ho w _ _ [= <- _]. Qed.

Lemma local_bind {A} p s (m : M W A) (k : A -> M W (server W)) :
  (forall a, local p s (k a)) -> local p s (m ≫= k).
Proof. intros Hk w s' w' (a & w1 & _ & E)%M_bind_Ok. by eapply Hk. Qed.

Lemma local_update p c s (m : M W (server W)) : local p (update_conn p c s) m -> local p s m.
Proof. intros Hm w s' w' E. eapply only_trans; [apply only_update|by eapply Hm]. Qed.

Lemma local_close p s : local p s (close p s).
Proof.
  intros w s' w' ([z s1] & w1 & E & [= -> ->])%M_bind_Ok. revert E. unfold CloseConn.
  intros (c & w2 & _ & (r & w3 & _ & E)%M_bind_Ok)%M_bind_Ok. destruct r as [e|n]; [injection E as _ <- _; apply only_refl|].
  apply M_bind_Ok in E as ([] & w4 & _ & [= _ <- _]). apply only_remove.
Qed.

Lemma local_upgrade p c h uri s : local p s (upgrade p c h uri s).
Proof.
  apply local_bind; intros [ws c']. apply local_bind; intros ws'. apply local_bind; intros [accept st].
  apply local_bind; intros [n ws2]. destruct (n =? -1); [eapply local_update, local_close|].
  apply local_bind; intros rsp. apply local_bind; intros z. apply local_bind; intros [n2 ws3].
  destruct (n2 =? -1); [eapply local_update, local_close|apply local_ret, only_update].
Qed.

Lemma local_run_handler p c h uri final s : local p s (run_handler p c h uri final s).
Proof.
  apply local_bind; intros [f|]; [|apply local_close]. apply local_bind; intros [ret pb].
  destruct (ret =? -1); [eapply local_update, local_close|apply local_ret, only_update].
Qed.

Lemma local_handle_request p c final s : local p s (handle_request p c final s).
Proof.
  apply local_bind; intros [[k h]|].
  - destruct (ShouldUpgradeWebsocket c); [apply local_upgrade|apply local_run_handler].
  - apply local_bind; intros rsp. apply local_bind; intros z. apply local_close.
Qed.

Lemma local_http_event fuel p c s : local p s (http_event fuel p c s).
Proof.
  apply local_bind; intros [ret c']. apply (local_update _ c').
  destruct (ret =? -2); [apply local_close|]. destruct (ret =? -1); [by apply local_ret|].
  destruct (_ || _); [apply local_handle_request|by apply local_ret].
Qed.

Lemma local_ws_event p c s : local p s (ws_event p c s).
Proof.
  apply local_bind; intros [ret c']. apply (local_update _ c').
  destruct (ret =? -1); [|by apply local_ret]. apply local_bind; intros ws. apply local_bind; intros [n ws'].
  eapply local_update, local_close.
Qed.

Lemma handle_event_only fuel s events p w r s' w' :
  Some p <> fst <$> server_conn_ s ->
  handle_event fuel s events p w = Ok ((r, s'), w') -> only p s s'.
Proof.
  intros Hp. unfold handle_event. rewrite bool_decide_eq_false_2 by done.
  intros (c & w1 & _ & E)%M_bind_Ok. destruct (negb _); [|injection E as _ <- _; apply only_refl].
  apply M_bind_Ok in E as (s1 & w2 & E & [= _ <- _]).
  destruct (ws_conn_ c); [by eapply local_ws_event|by eapply local_http_event].
Qed.

(** ** Any event *)

(** The server and the connection at [q] are as they were. *)
Record keeps_conn (q : nat) s s' : Prop := {
  kept_poll : poll_fd s' = poll_fd s;
  kept_listener : server_conn_ s' = server_conn_ s;
  kept_handlers : request_handlers s' = request_handlers s;
  kept_conn c : find_conn q (pending_conns_ s) = Some c -> find_conn q (pending_conns_ s') = Some c
}.

Lemma keeps_conn_trans q s1 s2 s3 : keeps_conn q s1 s2 -> keeps_conn q s2 s3 -> keeps_conn q s1 s3.
Proof. intros [] []. split; [congruence..|auto]. Qed.

Lemma keeps_conn_only p q s s' : q <> p -> only p s s' -> keeps_conn q s s'.
Proof. intros Hq []. split; [done..|]. intros c. by rewrite only_others0. Qed.

(** A new connection comes after the others. *)
Lemma accept_event_keeps q s w r s' w' : accept_event s w = Ok ((r, s'), w') -> keeps_conn q s s'.
Proof.
  assert (Hnew : forall r s1 w1, AcceptNewConnection s w = Ok ((r, s1), w1) ->
    keeps_conn q s s1 /\ pending_conns_ s1 = pending_conns_ s).
  { intros r1 s1 w1. unfold AcceptNewConnection. intros ([p sc] & w2 & _ & E)%M_bind_Ok.
    apply M_bind_Ok in E as ([e|fd] & w3 & _ & E); [by injection E as _ <- _|].
    apply M_bind_Ok in E as ([e|z] & w4 & _ & E); [by injection E as _ <- _|].
    apply M_bind_Ok in E as (z2 & w5 & _ & E). destruct s. cbn in E. by injection E as _ <- _. }
  unfold accept_event. intros ([nc s1] & w1 & E1 & E)%M_bind_Ok. destruct (Hnew _ _ _ E1) as [Hk Hp].
  destruct nc as [[p c]|]; [|by injection E as _ <- _].
  apply M_bind_Ok in E as ([e|z] & w2 & _ & E); injection E as _ <- _; [done|].
  eapply keeps_conn_trans; [exact Hk|]. split; [by destruct s1..|]. intros d Hd.
  destruct s1; cbn in *. by rewrite find_conn_app, Hd.
Qed.

Lemma handle_event_keeps fuel q s events p w r s' w' :
  q <> p -> handle_event fuel s events p w = Ok ((r, s'), w') -> keeps_conn q s s'.
Proof.
  intros Hq E. destruct (decide (Some p = fst <$> server_conn_ s)) as [Hp|Hp].
  - unfold handle_event in E. rewrite bool_decide_eq_true_2 in E by done. by eapply accept_event_keeps.
  - eapply keeps_conn_only; [exact Hq|]. by eapply handle_event_only.
Qed.

Lemma close_all_keeps q qs : forall s w s' w',
  q ∉ qs -> close_all qs s w = Ok (s', w') -> keeps_conn q s s'.
Proof.
  induction qs as [|p qs IH]; intros s w s' w'; [by intros _ [= <- _]|].
  intros [Hp Hq]%not_elem_of_cons (s1 & w1 & E1 & E)%M_bind_Ok.
  eapply keeps_conn_trans; [eapply (keeps_conn_only p); [done|by eapply local_close]|by eapply IH].
Qed.

Lemma handle_events_keeps cl fuel q l : (forall p l s w, q ∉ cl p l s w) -> forall s w r s' w',
  q ∉ l.*2 -> handle_events_closing cl fuel s l w = Ok ((r, s'), w') -> keeps_conn q s s'.
Proof.
  intros Hcl. induction l as [|[events p] l IH]; intros s w r s' w' Hq; [by intros [= _ <- _]|].
  cbn in Hq. apply not_elem_of_cons in Hq as [Hp Hq]. cbn [handle_events_closing].
  intros ([r1 s1] & w1 & E1 & E)%M_bind_Ok. apply (handle_event_keeps _ q) in E1; [|done].
  destruct r1; [by injection E as _ <- _|]. eapply keeps_conn_trans; [exact E1|].
  apply M_bind_Ok in E as (w2 & w3 & _ & (s2 & w4 & E2 & E)%M_bind_Ok).
  eapply keeps_conn_trans; [eapply close_all_keeps; [apply Hcl|exact E2]|by eapply IH].
Qed.

(** ** Pings *)

Context `{!PosixLaws W}.

Lemma same_but_time_refl c : same_but_time c c.
Proof.
  do 4 (split; [done|]). destruct (ws_conn_ c) as [[st h k]|]; [|done]. exists (last_io_time_ st). cbn. by destruct st.
Qed.

Lemma ServerPing_time fd st w b st' w' :
  ServerPing fd (st, w) = Ok (b, (st', w')) -> exists t, st' = set_last_io_time t st.
Proof.
  assert (Hsame : st = set_last_io_time (last_io_time_ st) st) by by destruct st.
  unfold ServerPing. destruct HPL_ENABLE_PING_PONG as [interval|]; [|intros [= _ <- _]; by eexists].
  intros (now & [st1 w1] & E1 & E)%M_bind_Ok. unfold on_snd in E1.
  destruct (call SysNow w) as [[x y]| |]; [|done..]. injection E1 as -> <- <-.
  unfold mbind at 1, M_bind at 1, get at 1 in E. case_match; [|injection E as _ <- _; by eexists].
  destruct (WsWrite_Ok fd kTypePing [] st y) as (t & w2 & Ew & _). unfold mbind, M_bind in E. rewrite Ew in E.
  injection E as _ <- _. exists now. by destruct st.
Qed.

Lemma ping_all_same q l : forall w l' w' c,
  ping_all l w = Ok (l', w') -> find_conn q l = Some c ->
  exists c', find_conn q l' = Some c' /\ same_but_time c c'.
Proof.
  induction l as [|[p c0] l IH]; intros w l' w' c; [done|]. cbn [ping_all find_conn].
  intros (c1 & w1 & E1 & (l1 & w2 & E2 & [= <- _])%M_bind_Ok)%M_bind_Ok. cbn [find_conn].
  destruct (q =? p)%nat; [|by eapply IH]. intros [= ->]. exists c1. split; [done|]. revert E1.
  destruct (ws_conn_ c) as [[st h k]|] eqn:Ews; [|intros [= <- _]; apply same_but_time_refl].
  intros ([b st1] & w3 & E & [= <- _])%M_bind_Ok. unfold run_with in E. cbn [ws_st on_data_ will_close_hook_] in *.
  destruct (ServerPing (fd_ c) (st, w)) as [[b' [st' w4]]| |] eqn:Ep; [|done..]. injection E as _ -> _.
  apply ServerPing_time in Ep as [t ->]. destruct c as [fd b0 wc pb ps]. cbn in *. subst wc.
  do 4 (split; [done|]). by exists t.
Qed.

Lemma Poll_others cl fuel timeout s w l w1 events w2 n s' w' q c :
  (forall p l s w, q ∉ cl p l s w) ->
  ping_all (pending_conns_ s) w = Ok (l, w1) ->
  call (SysEpollWait (poll_fd s) max_events timeout) w1 = Ok (inr events, w2) ->
  Poll_closing cl fuel timeout s w = Ok ((n, s'), w') ->
  find_conn q (pending_conns_ s) = Some c -> q ∉ events.*2 ->
  poll_fd s' = poll_fd s /\ server_conn_ s' = server_conn_ s /\ request_handlers s' = request_handlers s /\
  exists c', find_conn q (pending_conns_ s') = Some c' /\ same_but_time c c'.
Proof.
  intros Hcl E1 E2 E Hc Hq. destruct (ping_all_same q _ _ _ _ _ E1 Hc) as (c' & Hc' & Hsame).
  unfold Poll_closing in E. rewrite (M_bind_eq _ _ _ _ _ E1) in E.
  replace (poll_fd (set_pending l s)) with (poll_fd s) in E by (by destruct s).
  rewrite (M_bind_eq _ _ _ _ _ E2) in E. apply M_bind_Ok in E as ([r s1] & w3 & E3 & E).
  destruct (handle_events_keeps _ _ q _ Hcl _ _ _ _ _ Hq E3) as [Hp Hl Hh Hk].
  assert (s' = s1) as -> by (by destruct r; injection E).
  replace (poll_fd (set_pending l s)) with (poll_fd s) in Hp by (by destruct s).
  replace (server_conn_ (set_pending l s)) with (server_conn_ s) in Hl by (by destruct s).
  replace (request_handlers (set_pending l s)) with (request_handlers s) in Hh by (by destruct s).
  do 3 (split; [done|]). exists c'. split; [|done]. apply Hk. by destruct s.
Qed.

(** Claim C6. A round of the event loop does not disturb the connections it has no event for and
    that no handler closes.  Whatever else the handlers and hooks of the other connections do,
    whichever connections they close ([cl]), and whether connections are accepted, upgraded or
    closed meanwhile, such a connection keeps its descriptor, its buffered bytes, its parser,
    its body and its WebSocket state, but for the time of the ping it may be sent; the listener
    and the registered handlers are never changed. *)
Theorem poll_isolates cl fuel timeout s w l w1 events w2 n s' w' q c :
  (forall p l s w, q ∉ cl p l s w) ->
  ping_all (pending_conns_ s) w = Ok (l, w1) ->
  call (SysEpollWait (poll_fd s) max_events timeout) w1 = Ok (inr events, w2) ->
  Poll_closing cl fuel timeout s w = Ok ((n, s'), w') ->
  find_conn q (pending_conns_ s) = Some c -> q ∉ events.*2 ->
  poll_fd s' = poll_fd s /\ server_conn_ s' = server_conn_ s /\ request_handlers s' = request_handlers s /\
  exists c', find_conn q (pending_conns_ s') = Some c' /\ same_but_time c c'.
Proof. apply Poll_others. Qed.

(** So a WebSocket session goes on through such rounds. *)
Theorem session_poll cl fuel timeout s w l w1 events w2 n s1 w' p c xs s2 :
  (forall q l s w, p ∉ cl q l s w) ->
  ping_all (pending_conns_ s) w = Ok (l, w1) ->
  call (SysEpollWait (poll_fd s) max_events timeout) w1 = Ok (inr events, w2) ->
  Poll_closing cl fuel timeout s w = Ok ((n, s1), w') ->
  find_conn p (pending_conns_ s) = Some c -> p ∉ events.*2 ->
  session fuel p s1 xs s2 -> session fuel p s xs s2.
Proof.
  intros Hcl E1 E2 E Hc Hp Hs.
  destruct (Poll_others _ _ _ _ _ _ _ _ _ _ _ _ _ _ Hcl E1 E2 E Hc Hp) as (_ & Hl & _ & Hsame).
  apply (session_elsewhere fuel p s s1); [done| |done]. intros c' Hc'. rewrite Hc in Hc'. by injection Hc' as <-.
Qed.
End isolation.

(** ** Witness *)

Section witness.
#[local] Existing Instance httpoll_mk.
#[local] Existing Instance Fips180.fips180.
#[local] Existing Instance Decimal.decimal_fmt.
#[local] Existing Instance Matcher.matcher.

(** The first client sends a handshake, the second nothing, and a third connects. *)
Definition busy_kernel : sim :=
  Sim (map (pair 7) handshake_pieces) 1024 [[(EPOLLIN, 1%nat); (EPOLLIN, 0%nat)]] [inr 9] [] 0 [].

(** When the third has connected, the first one is closed. *)
Definition close_first : closer sim := fun p _ _ _ => if (p =? 0)%nat then [1%nat] else [].

Lemma poll_isolates_witness :
  exists n s' w', Poll_closing close_first 400 100 demo_server busy_kernel = Ok ((n, s'), w') /\
    poll_fd s' = 3 /\ server_conn_ s' = Some (0%nat, make 4) /\ request_handlers s' = request_handlers demo_server /\
    exists c', find_conn 2 (pending_conns_ s') = Some c' /\ same_but_time (make 8) c'.
Proof.
  assert (Hok : match Poll_closing close_first 400 100 demo_server busy_kernel with Ok _ => true | _ => false end = true)
    by (vm_compute; reflexivity).
  destruct (Poll_closing close_first 400 100 demo_server busy_kernel) as [[[n s'] w']| |] eqn:E; [|discriminate..].
  exists n, s', w'. split; [reflexivity|].
  refine (poll_isolates close_first 400 100 demo_server busy_kernel _ _ _ _ n s' w' 2 _ _ eq_refl eq_refl E eq_refl _).
  - intros p l s w. unfold close_first. destruct (p =? 0)%nat; apply (bool_decide_unpack _); reflexivity.
  - apply (bool_decide_unpack _). vm_compute. exact Logic.I.
Defined.
End witness.
