(* ===== verification/ProxyLike.v ===== *)
(** * The proxy example: examples/proxy_like/proxy_like.cc

    Every GET starts a transfer of libcurl, a [request_pipe_t] that keeps the pointer of the
    connection that asked.  libcurl is outside of the program: its calls are the signature
    [curlE], answered by any state with the class [Curl], and the callbacks it makes from
    [curl_multi_perform] are a list, in the order it makes them.  [size * nmemb] is the length
    of the text a callback gets. *)

From S2P Require Import Prelude CString StdMap Method Version HeaderParser State Posix RequestHandler Connection ConnectionSpec WebsocketConnection WebsocketProps Response Router Server ServerSpec EventLoop ServerProps.
Import HttpHeaderParser.

(** ** libcurl

    An easy handle is a number, [None] when [curl_easy_init] failed, and so is a multi handle; a
    pointer to a [request_pipe_t] is the number the object was created under. *)

Inductive curl_option : Set :=
| CURLOPT_URL (url : bytes)
| CURLOPT_WRITEDATA (this : nat)
| CURLOPT_WRITEFUNCTION_body
| CURLOPT_HEADERFUNCTION_headers
| CURLOPT_HEADERDATA (this : nat).

Inductive curlE : Set -> Set :=
| CurlMultiInit : curlE (option nat)
| CurlMultiCleanup (curlm : nat) : curlE unit
| CurlEasyInit : curlE (option nat)
| CurlEasySetopt (curl : option nat) (o : curl_option) : curlE unit
| CurlMultiAddHandle (curlm curl : option nat) : curlE unit
| CurlMultiRemoveHandle (curlm curl : option nat) : curlE unit
| CurlEasyCleanup (curl : option nat) : curlE unit.

Class Curl (C : Type) : Type := curl_sys : forall {A : Set}, curlE A -> C -> A * C.

(** ** The state of the application *)

Record request_pipe := Pipe {
  this_ : nat;
  curlm_ : option nat;
  conn_ : nat;
  curl_ : option nat
}.

(** [next_pipe] is the address the next [new request_pipe_t] returns. *)
Record server_context (C : Type) := ServerContext {
  req_pipes_ : list request_pipe;
  curlm : option nat;
  next_pipe : nat;
  curl : C
}.
Arguments ServerContext {C} _ _ _ _.
Arguments req_pipes_ {C} _.
Arguments curlm {C} _.
Arguments next_pipe {C} _.
Arguments curl {C} _.

Section proxy.
Context {K C : Type} `{!Posix K} `{!Curl C} {config : Config} `{!Sha1} `{!Fmt} `{!Regex}.
#[local] Abbreviation W := (with_app (server_context C) K).

Definition set_req_pipes (l : list request_pipe) '(ServerContext _ m n c) : server_context C := ServerContext l m n c.
Definition set_curlm m '(ServerContext l _ n c) : server_context C := ServerContext l m n c.
Definition set_next_pipe n '(ServerContext l m _ c) : server_context C := ServerContext l m n c.
Definition set_curl c '(ServerContext l m n _ : server_context C) : server_context C := ServerContext l m n c.

Definition curl_call {A : Set} (e : curlE A) : M W A :=
  on_app (fun x => let '(a, c) := curl_sys e (curl x) in (a, set_curl c x)).

Definition get_pipes : M W (list request_pipe) := on_app (fun x => (req_pipes_ x, x)).
Definition set_pipes (l : list request_pipe) : M W unit := on_app (fun x => (tt, set_req_pipes l x)).
Definition get_curlm : M W (option nat) := on_app (fun x => (curlm x, x)).
Definition new_pointer : M W nat := on_app (fun x => (next_pipe x, set_next_pipe (S (next_pipe x)) x)).

(** [request_pipe_t::request_pipe_t]. *)
Definition new_request_pipe (conn : nat) (uri : bytes) : M W request_pipe :=
  this ← new_pointer;
  m ← get_curlm;
  h ← curl_call CurlEasyInit;
  _ ← curl_call (CurlEasySetopt h (CURLOPT_URL (str "https://qq.com" ++ uri)));
  _ ← curl_call (CurlEasySetopt h (CURLOPT_WRITEDATA this));
  _ ← curl_call (CurlEasySetopt h CURLOPT_WRITEFUNCTION_body);
  _ ← curl_call (CurlEasySetopt h CURLOPT_HEADERFUNCTION_headers);
  _ ← curl_call (CurlEasySetopt h (CURLOPT_HEADERDATA this));
  _ ← curl_call (CurlMultiAddHandle m h);
  mret (Pipe this m conn h).

(** [request_pipe_t::~request_pipe_t]. *)
Definition delete_request_pipe (p : request_pipe) : M W unit :=
  match curl_ p with
  | None => mret tt
  | Some h =>
      _ ← curl_call (CurlMultiRemoveHandle (curlm_ p) (Some h));
      curl_call (CurlEasyCleanup (Some h))
  end.

(** [Connection::Close]. *)
Definition Close (conn : nat) (s : server W) : M W (server W) :=
  '(_, s) ← CloseConn conn s; mret s.

Definition curl_write_body (p : request_pipe) (text : bytes) (s : server W) : M W (Z * server W) :=
  c ← lift (deref (conn_ p) s);
  _ ← Write (fd_ c) text;
  s ← Close (conn_ p) s;
  mret (Z.of_nat (length text), s).

Definition curl_write_headers (p : request_pipe) (text : bytes) (s : server W) : M W Z :=
  c ← lift (deref (conn_ p) s);
  _ ← Write (fd_ c) text;
  mret (Z.of_nat (length text)).

(** ** The handlers *)

(** [uri.data()] is read as a C string. *)
Definition getter : Handler W := fun conn parser fd uri is_final =>
  on_snd (
    p ← new_request_pipe conn (until_nul uri);
    l ← get_pipes;
    _ ← set_pipes (l ++ [p]);
    mret 0).

(** The handler that only prints. *)
Definition poster : Handler W := fun conn parser fd uri is_final => mret 0.

Definition proxy_handler : request_handler W :=
  set_handler HttpMethod.POST poster (set_handler HttpMethod.GET getter (empty_handler W)).

(** ** The callbacks *)

(** [std::find_if] with the pointer: the object, and the list without it. *)
Fixpoint find_pipe (this : nat) (l : list request_pipe) : option (request_pipe * list request_pipe) :=
  match l with
  | [] => None
  | p :: l =>
      if (this_ p =? this)%nat then Some (p, l) else
      match find_pipe this l with
      | Some (q, l') => Some (q, p :: l')
      | None => None
      end
  end.

Definition curl_pipe_to_conn_body (text : bytes) (req_pipe : nat) (s : server W) : M W (Z * server W) :=
  l ← get_pipes;
  match find_pipe req_pipe l with
  | None => mret (Z.of_nat (length text), s)
  | Some (p, l) =>
      '(ret, s) ← curl_write_body p text s;
      _ ← set_pipes l;
      _ ← delete_request_pipe p;
      mret (ret, s)
  end.

Definition curl_pipe_to_conn_headers (text : bytes) (req_pipe : nat) (s : server W) : M W Z :=
  l ← get_pipes;
  match find_pipe req_pipe l with
  | None => mret (Z.of_nat (length text))
  | Some (p, _) => curl_write_headers p text s
  end.

Inductive callback : Set :=
| Headers (req_pipe : nat) (text : bytes)
| Body (req_pipe : nat) (text : bytes).

(** [curl_multi_perform]: [curl_write_headers_func] and [curl_write_body_func], as called. *)
Fixpoint perform (l : list callback) (s : server W) : M W (server W) :=
  match l with
  | [] => mret s
  | Headers p text :: l => _ ← curl_pipe_to_conn_headers text p s; perform l s
  | Body p text :: l => '(_, s) ← curl_pipe_to_conn_body text p s; perform l s
  end.

(** [ServerContext::~ServerContext]: its body, and then the destructor of the list of transfers,
    first to last.  The program never gets there, its context is not deleted. *)
Fixpoint delete_pipes (l : list request_pipe) : M W unit :=
  match l with
  | [] => mret tt
  | p :: l => _ ← delete_request_pipe p; delete_pipes l
  end.

Definition delete_server_context : M W unit :=
  m ← get_curlm;
  _ ← match m with Some m => curl_call (CurlMultiCleanup m) | None => mret tt end;
  l ← get_pipes;
  delete_pipes l.

(** ** [main] *)

(** What [Init] returns is not looked at. *)
Definition proxy_init : M W (server W) :=
  '(_, s) ← Init (Some (str "192.168.64.9")) 2999 50 new_server;
  m ← curl_call CurlMultiInit;
  _ ← on_app (fun x => (tt, set_curlm m x));
  mret (Register (str "*") proxy_handler s).

(** The endless loop, for as many rounds as there are lists of callbacks. *)
Fixpoint proxy_loop (fuel : nat) (rounds : list (list callback)) (s : server W) : M W (server W) :=
  match rounds with
  | [] => mret s
  | l :: rounds =>
      '(_, s) ← Poll fuel 50 s;
      s ← perform l s;
      proxy_loop fuel rounds s
  end.
End proxy.

(** ** Lemmas *)

Section lemmas.
Context {K C : Type} `{!Posix K} `{!PosixLaws K} `{!Curl C}.
Context {config : Config} `{!Sha1} `{!Fmt} `{!Regex}.
#[local] Abbreviation W := (with_app (server_context C) K).
Implicit Types (c : connection W) (s : server W) (w : W).

Definition pipes_of w : list request_pipe := req_pipes_ (app_state w).

Lemma Write_kept fd text w :
  fd <> -1 ->
  exists r n w', Write fd text w = Ok (r, w') /\ after w [Event (SysWrite fd text) n] w' /\
    app_state w' = app_state w.
Proof.
  intros Hfd. destruct (Write_Ok fd text w) as (r & w' & E & Ha). destruct (Ha Hfd) as [n Hn].
  exists r, n, w'. by rewrite (Write_app _ _ _ _ _ E).
Qed.

Lemma close_app p s w s' w' : close p s w = Ok (s', w') -> app_state w' = app_state w.
Proof.
  unfold close, mbind, M_bind. destruct (CloseConn p s w) as [[[r s1] w1]| |] eqn:E; [|done..].
  apply CloseConn_app in E. by intros [= _ <-].
Qed.

Lemma get_pipes_bind {B} (k : list request_pipe -> M W B) w :
  (l ← get_pipes; k l) w = k (pipes_of w) w.
Proof. by destruct w. Qed.

Lemma delete_request_pipe_Ok p w :
  exists w', delete_request_pipe p w = Ok (tt, w') /\ after w [] w' /\ pipes_of w' = pipes_of w.
Proof.
  destruct w as [[l m n x] k]. unfold delete_request_pipe.
  destruct (curl_ p) as [h|]; [|by exists (App (ServerContext l m n x) k); auto with httpoll].
  unfold curl_call, on_app, prim, mbind, M_bind. cbn.
  destruct (curl_sys (CurlMultiRemoveHandle (curlm_ p) (Some h)) x) as [u y]. cbn.
  destruct (curl_sys (CurlEasyCleanup (Some h)) y) as [[] z]. eexists. split; [reflexivity|].
  split; [|done]. unfold after. cbn. by rewrite app_nil_r.
Qed.

(** Callbacks for a pipe that is gone do nothing. *)
Definition callback_pipe (x : callback) : nat := match x with Headers p _ | Body p _ => p end.

Lemma perform_gone q l s w :
  find_pipe q (pipes_of w) = None -> Forall (fun x => callback_pipe x = q) l -> perform l s w = Ok (s, w).
Proof.
  intros Hq. induction 1 as [|x l Hx _ IH]; [done|]. destruct x; cbn in Hx; subst; cbn [perform].
  - unfold curl_pipe_to_conn_headers. by rewrite M_bind_assoc, get_pipes_bind, Hq.
  - unfold curl_pipe_to_conn_body. by rewrite M_bind_assoc, get_pipes_bind, Hq.
Qed.

(** The object is taken out of the list; pointers are unique. *)
Lemma find_pipe_gone q l p l' :
  NoDup (map this_ l) -> find_pipe q l = Some (p, l') ->
  this_ p = q /\ In p l /\ find_pipe q l' = None /\ (forall r, In r l' <-> In r l /\ r <> p).
Proof.
  revert l'. induction l as [|r l IH]; [done|]. cbn [map find_pipe]. intros l' [Hr Hnd]%NoDup_cons.
  assert (Hnot : forall x, In x l -> this_ x <> this_ r).
  { intros x Hx E. apply Hr. rewrite <- E. by apply list_elem_of_fmap_2, list_elem_of_In. }
  destruct (Nat.eqb_spec (this_ r) q) as [E|Hne].
  - intros [= <- <-]. split; [done|]. split; [by left|]. split.
    + clear IH Hr Hnd. induction l as [|x l IH]; [done|]. cbn [find_pipe].
      rewrite (proj2 (Nat.eqb_neq _ _)) by (rewrite <- E; apply Hnot; by left).
      rewrite IH; [done|]. intros y Hy. apply Hnot. by right.
    + intros x. cbn. split; [|naive_solver]. intros Hx. split; [by right|]. intros ->. by destruct (Hnot _ Hx).
  - destruct (find_pipe q l) as [[p' l'']|] eqn:El; [|done]. intros [= <- <-].
    destruct (IH l'' Hnd eq_refl) as (Hq & Hin & Hgone & Hiff). split; [done|]. split; [by right|]. split.
    + cbn [find_pipe]. by rewrite (proj2 (Nat.eqb_neq _ _) Hne), Hgone.
    + intros x. cbn. rewrite Hiff. split; [|naive_solver]. intros [<-|[? ?]]; [|tauto].
      split; [by left|]. intros ->. by destruct (Hnot _ Hin).
Qed.

(** ** Claims *)

(** The headers of the response are written one by one as curl hands them over. *)
Lemma perform_headers q p l' c hs rest s w :
  find_pipe q (pipes_of w) = Some (p, l') -> find_conn (conn_ p) (pending_conns_ s) = Some c -> fd_ c <> -1 ->
  exists out w', perform (map (Headers q) hs ++ rest) s w = perform rest s w' /\ after w out w' /\
    Forall2 (fun text x => exists n, x = Event (SysWrite (fd_ c) text) n) hs out /\
    pipes_of w' = pipes_of w.
Proof.
  intros Hq Hc Hfd. revert w Hq. induction hs as [|h hs IH]; intros w Hq.
  - exists [], w. split; [done|]. split; [apply after_refl|]. by split.
  - cbn [map app perform]. unfold curl_pipe_to_conn_headers. rewrite M_bind_assoc, get_pipes_bind, Hq.
    unfold curl_write_headers. rewrite (proj2 (deref_Ok _ _ _) Hc), M_bind_assoc, M_bind_lift.
    destruct (Write_kept (fd_ c) h w Hfd) as (r & n & w1 & E & Ha & Hk).
    rewrite M_bind_assoc, (M_bind_eq _ _ _ _ _ E), M_bind_ret.
    assert (Hp : pipes_of w1 = pipes_of w) by (unfold pipes_of; by rewrite Hk).
    destruct (IH w1) as (out & w' & E' & Ha' & Hout & Hp'); [by rewrite Hp|].
    exists (Event (SysWrite (fd_ c) h) n :: out), w'. rewrite E'. split; [done|].
    split; [by eapply (after_trans _ [_])|]. split; [|by rewrite Hp']. constructor; [by exists n|done].
Qed.

(** Claim C23. What the proxy passes on of a response: the client that asked gets, each in one
    write, the header lines and the first piece of the body; then its connection is closed,
    the transfer is taken off the list, and whatever else curl hands over for it, the rest of
    a body that comes in several pieces, is dropped.  Other connections and other transfers
    are not touched. *)
Theorem proxied_response q p l' c hs d rest s w :
  NoDup (map this_ (pipes_of w)) -> find_pipe q (pipes_of w) = Some (p, l') ->
  find_conn (conn_ p) (pending_conns_ s) = Some c -> fd_ c <> -1 ->
  Forall (fun x => callback_pipe x = q) rest ->
  exists out r t s' w',
    perform (map (Headers q) hs ++ Body q d :: rest) s w = Ok (s', w') /\ after w (out ++ t) w' /\
    Forall2 (fun text x => exists n, x = Event (SysWrite (fd_ c) text) n) (hs ++ [d]) out /\
    close_calls (poll_fd s) (fd_ c) r t /\ pipes_of w' = l' /\
    (forall x, In x l' <-> In x (pipes_of w) /\ x <> p) /\
    forall x, find_conn x (pending_conns_ s') =
      match r with
      | inr _ => if (x =? conn_ p)%nat then None else find_conn x (pending_conns_ s)
      | inl _ => find_conn x (pending_conns_ s)
      end.
Proof.
  intros Hnd Hq Hc Hfd Hrest. destruct (find_pipe_gone _ _ _ _ Hnd Hq) as (_ & _ & Hgone & Hiff).
  destruct (perform_headers q p l' c hs (Body q d :: rest) s w Hq Hc Hfd) as (out & w1 & -> & Ha & Hout & Hp).
  cbn [perform]. unfold curl_pipe_to_conn_body. rewrite M_bind_assoc, get_pipes_bind, Hp, Hq.
  unfold curl_write_body. rewrite (proj2 (deref_Ok _ _ _) Hc), !M_bind_assoc, M_bind_lift.
  destruct (Write_kept (fd_ c) d w1 Hfd) as (ret & n & w2 & E & Ha2 & Hk2).
  rewrite !M_bind_assoc, (M_bind_eq _ _ _ _ _ E).
  destruct (close_Ok (conn_ p) s c w2 Hc Hfd) as (r & t & w3 & E3 & Ha3 & Ht).
  pose proof (close_app _ _ _ _ _ E3) as Hk3. change (Close (conn_ p) s) with (close (conn_ p) s).
  rewrite !M_bind_assoc, (M_bind_eq _ _ _ _ _ E3), !M_bind_ret, !M_bind_assoc.
  destruct w3 as [x3 k3]. set (w4 := App (set_req_pipes l' x3) k3 : W).
  rewrite (M_bind_eq _ _ _ tt w4) by done.
  destruct (delete_request_pipe_Ok p w4) as (w5 & E5 & Ha5 & Hp5).
  replace (pipes_of w4) with l' in Hp5 by (by destruct x3).
  rewrite !M_bind_assoc, (M_bind_eq _ _ _ _ _ E5), M_bind_ret.
  rewrite (perform_gone q) by (by rewrite ?Hp5).
  eexists (out ++ [_]), r, t, _, w5. split; [reflexivity|]. split.
  { rewrite <- app_assoc. eapply after_trans; [exact Ha|]. eapply after_trans; [exact Ha2|].
    rewrite <- (app_nil_r t). eapply after_trans; [exact Ha3|exact Ha5]. }
  split; [apply Forall2_app; [done|constructor; [by exists n|done]]|].
  split; [done|]. split; [done|]. split; [done|]. intros x. destruct r; [done|]. apply find_conn_remove.
Qed.

(** Claim C30. A transfer outlives its client: when the connection is closed before curl hands
    over the response, by an event of the client or otherwise, the next callback for the
    transfer goes through the pointer of a destroyed connection. *)
Theorem client_gone_faults p s w ret s' w' pipe l' x l :
  CloseConn p s w = Ok ((ret, s'), w') -> ret = 0 ->
  find_pipe (callback_pipe x) (pipes_of w) = Some (pipe, l') -> conn_ pipe = p ->
  perform (x :: l) s' w' = Fault UseAfterFree.
Proof.
  intros E -> Hf Hp.
  assert (Hk : pipes_of w' = pipes_of w) by (unfold pipes_of; by rewrite (CloseConn_app _ _ _ _ _ E)).
  pose proof (CloseConn_gone _ _ _ _ _ E) as Hgone.
  assert (Hd : deref (conn_ pipe) s' = Fault UseAfterFree) by (unfold deref; by rewrite Hp, Hgone).
  destruct x as [q text|q text]; cbn in Hf; cbn [perform].
  - unfold curl_pipe_to_conn_headers. rewrite M_bind_assoc, get_pipes_bind, Hk, Hf.
    unfold curl_write_headers. by rewrite Hd.
  - unfold curl_pipe_to_conn_body. rewrite M_bind_assoc, get_pipes_bind, Hk, Hf.
    unfold curl_write_body. by rewrite Hd.
Qed.
End lemmas.

(** ** The calls made of libcurl *)

Record curl_event := CurlEvent { ce_type : Set; ce_call : curlE ce_type; ce_reply : ce_type }.
Arguments CurlEvent {_} _ _.

(** Any libcurl, with a record of its calls. *)
#[export] Instance recording_curl {C} `{!Curl C} : Curl (C * list curl_event) := fun A e '(c, l) =>
  let '(a, c) := curl_sys e c in (a, (c, l ++ [CurlEvent e a])).

Definition curl_calls {K C} (w : with_app (server_context (C * list curl_event)) K) : list curl_event :=
  snd (curl (app_state w)).

(** The calls of a destructor of transfers. *)
Definition release (p : request_pipe) : list curl_event :=
  match curl_ p with
  | None => []
  | Some h => [CurlEvent (CurlMultiRemoveHandle (curlm_ p) (Some h)) tt; CurlEvent (CurlEasyCleanup (Some h)) tt]
  end.

Section recorded.
Context {K C : Type} `{!Curl C}.
#[local] Abbreviation W := (with_app (server_context (C * list curl_event)) K).
Implicit Types (w : W).

Lemma curl_call_recorded {A : Set} (e : curlE A) w :
  exists a w', curl_call e w = Ok (a, w') /\ curl_calls w' = curl_calls w ++ [CurlEvent e a] /\
    req_pipes_ (app_state w') = req_pipes_ (app_state w).
Proof.
  destruct w as [[l m n [c log]] k]. unfold curl_call, on_app, prim. cbn.
  destruct (curl_sys e c) as [a c']. by do 2 eexists.
Qed.

Lemma delete_pipes_recorded l w :
  exists w', delete_pipes l w = Ok (tt, w') /\ curl_calls w' = curl_calls w ++ concat (map release l).
Proof.
  revert w. induction l as [|p l IH]; intros w; cbn [delete_pipes map concat].
  - exists w. by rewrite app_nil_r.
  - unfold delete_request_pipe, release. destruct (curl_ p) as [h|]; [|exact (IH w)].
    destruct (curl_call_recorded (CurlMultiRemoveHandle (curlm_ p) (Some h)) w) as ([] & w1 & E1 & H1 & _).
    destruct (curl_call_recorded (CurlEasyCleanup (Some h)) w1) as ([] & w2 & E2 & H2 & _).
    destruct (IH w2) as (w' & E & H'). exists w'.
    rewrite M_bind_assoc, (M_bind_eq _ _ _ _ _ E1), (M_bind_eq _ _ _ _ _ E2). split; [done|].
    by rewrite H', H2, H1, <- !app_assoc.
Qed.

(** The destructor of the context cleans up the multi handle first, and only then takes the
    transfers that are still open out of it. *)
Theorem transfers_outlive_multi_handle m w :
  curlm (app_state w) = Some m ->
  exists w', delete_server_context w = Ok (tt, w') /\
    curl_calls w' = curl_calls w ++ CurlEvent (CurlMultiCleanup m) tt :: concat (map release (req_pipes_ (app_state w))).
Proof.
  intros Hm. destruct (curl_call_recorded (CurlMultiCleanup m) w) as ([] & w1 & E1 & H1 & Hp).
  destruct (delete_pipes_recorded (req_pipes_ (app_state w1)) w1) as (w' & E & H').
  exists w'. unfold delete_server_context. rewrite (M_bind_eq get_curlm _ w (Some m) w) by (destruct w as [[l m' n c] k]; cbn in *; by subst).
  rewrite (M_bind_eq _ _ _ _ _ E1), (M_bind_eq get_pipes _ w1 (req_pipes_ (app_state w1)) w1) by (by destruct w1).
  split; [done|]. by rewrite H', H1, Hp, <- app_assoc.
Qed.
End recorded.

(** ** The proxy on the scripted kernel *)

(** A libcurl that numbers its handles. *)
#[export] Instance counting_curl : Curl nat := fun A e n =>
  match e in curlE A return A * nat with
  | CurlEasyInit | CurlMultiInit => (Some n, S n)
  | CurlMultiCleanup _ | CurlEasySetopt _ _ | CurlMultiAddHandle _ _
  | CurlMultiRemoveHandle _ _ | CurlEasyCleanup _ => (tt, n)
  end.

Section witnesses.
#[local] Existing Instance httpoll_mk.
#[local] Existing Instance Fips180.fips180.
#[local] Existing Instance Decimal.decimal_fmt.
#[local] Existing Instance Matcher.matcher.
#[local] Abbreviation proxy_world := (with_app (server_context nat) sim).

(** A client connects and asks for a page, and hangs up or not. *)
Definition proxy_kernel (rest : list (Z * (errno + bytes))) (events : list (list (Z * nat))) : proxy_world :=
  App (ServerContext [] None 0 0%nat)
    (Sim ((7, inr (request (str "GET /page HTTP/1.1") [])) :: rest) 1024
         ([(EPOLLIN, 0%nat)] :: [(EPOLLIN, 1%nat)] :: events) [inr 7] [] 0 []).

Definition proxy_run (rounds : list (list callback)) (w : proxy_world) :=
  (s ← proxy_init; proxy_loop 10 rounds s) w.

(** The answer comes in three pieces; the last one is lost. *)
Example page_proxied :
  match proxy_run [[]; []; [Headers 0 (str "HTTP/1.1 200 OK"); Body 0 (str "first"); Body 0 (str "second")]]
          (proxy_kernel [] [[]]) with
  | Ok (s, w) =>
      sent 7 (sim_trace (app_kernel w)) = str "HTTP/1.1 200 OK" ++ str "first" /\
      pending_conns_ s = [] /\ pipes_of w = []
  | _ => False
  end.
Proof. vm_compute. done. Qed.

(** The client hangs up before the answer comes. *)
Example client_hangs_up :
  proxy_run [[]; []; [Headers 0 (str "HTTP/1.1 200 OK")]]
    (proxy_kernel [(7, inr [])] [[(EPOLLIN, 1%nat)]]) = Fault UseAfterFree.
Proof. vm_compute. reflexivity. Qed.

Definition asked_state : server proxy_world * proxy_world :=
  Eval vm_compute in
    match proxy_run [[]; []] (proxy_kernel [] []) with Ok r => r | _ => (new_server, proxy_kernel [] []) end.
Definition asked_conn : connection proxy_world :=
  Eval vm_compute in
    match find_conn 1 (pending_conns_ asked_state.1) with Some c => c | None => make 0 end.

Lemma proxied_response_witness :
  exists out r t s' w',
    perform ([Headers 0 (str "HTTP/1.1 200 OK")] ++ Body 0 (str "first") :: [Body 0 (str "second")])
      asked_state.1 asked_state.2 = Ok (s', w') /\ after asked_state.2 (out ++ t) w' /\
    Forall2 (fun text x => exists n, x = Event (SysWrite 7 text) n) [str "HTTP/1.1 200 OK"; str "first"] out /\
    close_calls (poll_fd asked_state.1) 7 r t /\ pipes_of w' = [] /\
    (forall x, In x [] <-> In x (pipes_of asked_state.2) /\ x <> Pipe 0 (Some 0%nat) 1 (Some 1%nat)) /\
    forall x, find_conn x (pending_conns_ s') =
      match r with
      | inr _ => if (x =? 1)%nat then None else find_conn x (pending_conns_ asked_state.1)
      | inl _ => find_conn x (pending_conns_ asked_state.1)
      end.
Proof.
  assert (Hnd : NoDup (map this_ (pipes_of asked_state.2))) by (repeat constructor; by intros ?%not_elem_of_nil).
  pose proof (proxied_response 0 (Pipe 0 (Some 0%nat) 1 (Some 1%nat)) [] asked_conn [str "HTTP/1.1 200 OK"] (str "first")
    [Body 0 (str "second")] asked_state.1 asked_state.2 Hnd eq_refl eq_refl ltac:(done)
    ltac:(by repeat constructor)) as Hx.
  exact Hx.
Defined.

Definition closed_state : (Z * server proxy_world) * proxy_world :=
  Eval vm_compute in
    match CloseConn 1 asked_state.1 asked_state.2 with Ok r => r | _ => ((-1, asked_state.1), asked_state.2) end.

Lemma client_gone_faults_witness :
  perform [Headers 0 (str "HTTP/1.1 200 OK")] closed_state.1.2 closed_state.2 = Fault UseAfterFree.
Proof.
  assert (E : CloseConn 1 asked_state.1 asked_state.2 = Ok ((0, closed_state.1.2), closed_state.2))
    by (vm_compute; reflexivity).
  pose proof (client_gone_faults 1 asked_state.1 asked_state.2 0 closed_state.1.2 closed_state.2
    (Pipe 0 (Some 0%nat) 1 (Some 1%nat)) [] (Headers 0 (str "HTTP/1.1 200 OK")) [] E eq_refl eq_refl eq_refl) as Hx.
  exact Hx.
Defined.
End witnesses.
