(* ===== verification/BroadcastExample.v ===== *)
(** * The broadcast example: examples/broadcast/broadcast.cc

    Every WebSocket connection for "/broadcast" joins the group of the [BroadcastContext],
    which is the state of the application, and gets the text that [main] broadcasts.  Nothing
    makes a connection leave. *)

From S2P Require Import Prelude CString StdMap Method Version HeaderParser State Posix RequestHandler Connection ConnectionSpec ConnectionProps WsFrame WebsocketConnection WebsocketProps Response Router Server ServerSpec EventLoop ServerProps BroadcastGroup Service WsService.
Import WsFrameType HttpHeaderParser.

Section broadcast.
Context {K : Type} `{!Posix K} {config : Config} `{!Sha1} `{!Fmt} `{!Regex}.
#[local] Abbreviation W := (with_app broadcast_group K).

(** [conn->conn_->GetDescriptor()] for the pointers of the group, with the server as it is. *)
Definition descriptor_of (s : server W) (p : nat) : option Z := fd_ <$> find_conn p (pending_conns_ s).

(** [BroadcastContext::OnWsConnected]. *)
Definition OnWsConnected : WsHook W := fun fd uri =>
  '(ws, w) ← get;
  '(_, g) ← on_snd (Join (fun _ => Some fd) (Some (ws_conn_of ws)) (app_state w));
  _ ← on_snd (on_app (fun _ => (tt, g)));
  mret 0.

Definition broadcast_handlers : request_handler W :=
  RequestHandler (http_handlers (empty_handler W)) (Some OnWsConnected) None None None.

(** [BroadcastContext::Broadcast]; 1 is [WsFrameType::kTypeText]. *)
Definition ContextBroadcast (data : bytes) (s : server W) : M W unit :=
  w ← get;
  _ ← Broadcast (descriptor_of s) data kTypeText (app_state w);
  mret tt.

(** [main] up to its loop, with the port of the command line; the context is made after the
    server has started. *)
Definition broadcast_init (port : Z) : M W (Z * server W) :=
  '(ret, s) ← Init None port 5 new_server;
  if ret =? 0 then
    g ← new_group;
    _ ← on_app (fun _ => (tt, g));
    mret (0, Register (str "/broadcast") broadcast_handlers s)
  else mret (ret, s).

Definition ten_seconds : Z := 10 * 10 ^ 9.

(** The endless loop for a number of rounds; [time] is when the last broadcast was made. *)
Fixpoint broadcast_loop (fuel rounds : nat) (time : Z) (s : server W) : M W (server W) :=
  match rounds with
  | O => mret s
  | S rounds =>
      '(_, s) ← Poll fuel 1000 s;
      now ← call SysNow;
      if ten_seconds <? now - time then
        _ ← ContextBroadcast (str "hello world at ") s;
        broadcast_loop fuel rounds now s
      else broadcast_loop fuel rounds time s
  end.

Definition broadcast_main (fuel rounds : nat) (port : Z) : M W (Z * server W) :=
  '(ret, s) ← broadcast_init port;
  if ret =? 0 then
    time ← call SysNow;
    s ← broadcast_loop fuel rounds time s;
    mret (0, s)
  else mret (ret, s).

(** ** Claims *)

Context `{!PosixLaws K}.
Implicit Types (s : server W) (w : W).

(** A connection that upgrades joins the group: the hook lets the upgrade go on, and
    the connection is a new last member with a pipe of its own, unless the pipe could not be
    made, which is not noticed.  The state of the connection is not touched. *)
Theorem connected_joins fd uri ws w :
  exists r w', OnWsConnected fd uri (ws, w) = Ok (0, (ws, w')) /\
    (exists a t, after w ([Event (SysSetsockopt fd SO_ZEROCOPY) a; Event SysPipe r] ++ t) w' /\
       forall x, written x t = []) /\
    app_state w' =
      match r with
      | inl _ => app_state w
      | inr pipes => set_connections (connections_ (app_state w) ++ [(pipes, ws_conn_of ws)]) (app_state w)
      end.
Proof.
  unfold OnWsConnected, get, mbind, M_bind, on_snd at 1. unfold Join, get_descriptor. cbn [of_option].
  rewrite M_bind_lift. destruct (call_Ok (SysSetsockopt fd SO_ZEROCOPY) w) as (a & w0 & E0 & Ha0 & _).
  rewrite (M_bind_eq _ _ _ _ _ E0). destruct (call_Ok SysPipe w0) as (r & w1 & E1 & Ha1 & _).
  rewrite (M_bind_eq _ _ _ _ _ E1). pose proof (after_trans _ _ _ _ _ Ha0 Ha1) as Ha.
  destruct r as [e|pipes].
  { exists (inl e). eexists. split; [reflexivity|]. split; [by exists a, []|done]. }
  unfold nonblocking_pipe_ends.
  destruct (call_Ok (SysSetFl pipes.1 O_NONBLOCK) w1) as (b & w2 & E2 & Ha2 & _).
  destruct (call_Ok (SysSetFl pipes.2 O_NONBLOCK) w2) as (b' & w3 & E3 & Ha3 & _).
  rewrite !M_bind_assoc, (M_bind_eq _ _ _ _ _ E2), !M_bind_assoc, (M_bind_eq _ _ _ _ _ E3), !M_bind_ret.
  exists (inr pipes). eexists. split; [reflexivity|]. split; [|done].
  eexists a, _. split; [exact (after_trans _ _ _ _ _ Ha (after_trans _ _ _ _ _ Ha2 Ha3))|done].
Qed.

(** A running computation keeps the group, when it knows nothing of it. *)
Lemma ProcessDataIn_group fuel c ret c' w w' :
  ProcessDataIn fuel c w = Ok ((ret, c'), w') -> app_state w' = app_state w.
Proof.
  pose (group_kept := {| app_inv x := app_state x = app_state w; app_inv_sys A e x Hx := Hx |} : AppInvariant W).
  pose proof (ProcessDataIn_safe fuel c w eq_refl) as Hs. intros E. rewrite E in Hs. by destruct Hs as (_ & _ & Hs).
Qed.

(** The event that brings the handshake of a client. *)
Lemma client_joins k fuel s events p fd w r name :
  Some p <> fst <$> server_conn_ s -> Z.land events EPOLLIN <> 0 ->
  find_conn p (pending_conns_ s) = Some (make fd) -> fd <> -1 ->
  FindRequestHandler (hs_uri r) (request_handlers s) = Ok (Some (name, broadcast_handlers)) ->
  handshake_ok r -> lines_fit (print_handshake r) ->
  arrives k fd (handshake_text r) w -> (k <= fuel)%nat ->
  exists c1 w1 t u rep, handle_event fuel s events p w = Ok ((None, update_conn p c1 s), w1) /\
    after w (t ++ u) w1 /\ received fd t = handshake_text r /\
    Event SysPipe rep ∈ u /\ written fd u = [handshake_response (hs_key r)] /\ fd_ c1 = fd /\
    app_state w1 =
      match rep with
      | inl _ => app_state w
      | inr pipes => set_connections (connections_ (app_state w) ++ [(pipes, p)]) (app_state w)
      end.
Proof.
  intros Hp Hev Hc Hfd Hh Hr Hfit Ha Hk.
  destruct (ProcessDataIn_handshake k fuel fd w r Hr Hfit Ha Hk) as (c' & w1 & t & E & Hat & Hrec & Hpar & _ & Hsf & _).
  pose proof Hr as (_ & _ & Hne & _). pose proof (upgrade_parsed_key r Hne) as Hkey. rewrite <- Hpar in Hkey.
  assert (Hup : ShouldUpgradeWebsocket c' = true) by (unfold ShouldUpgradeWebsocket; rewrite (proj2 Hsf), Hpar; done).
  assert (Hh' : FindRequestHandler (uri_ (parser c')) (request_handlers s) = Ok (Some (name, broadcast_handlers)))
    by (rewrite Hpar; exact Hh).
  destruct (upgrade_runs fuel s events p (make fd) w 1 c' w1 Hp Hev Hc eq_refl E (or_intror eq_refl) broadcast_handlers name
    Hup Hh' (hs_key r) (eq_sym Hkey) Hne) as (time & w2 & Enow & Hnow & ->).
  set (ws := WsConn _ _ _). set (uri := uri_ (parser c')).
  destruct (connected_joins fd uri (ws_st ws) w2) as (rep & w3 & Ej & (a & t3 & Hj & Ht3) & Hg).
  assert (Hhook : run_hook (ws_connect_hook broadcast_handlers) 0 fd uri ws w2 = Ok ((0, ws), w3)).
  { unfold run_hook, run_with, mbind, M_bind. cbn [broadcast_handlers ws_connect_hook]. by rewrite Ej. }
  destruct (Write_Ok fd (upgrade_response (version_ (parser c')) (find_key (parser c'))) w3) as (z & w4 & Ew & Haw).
  destruct (Haw Hfd) as [n Hn]. pose proof (Write_app _ _ _ _ _ Ew) as Hk4. rewrite Hkey, Hpar in Hn.
  exists (set_ws_conn (Some ws) c'), w4, t. do 2 eexists. split; [|split; [|split; [exact Hrec|]]].
  - unfold upgrade_with_hooks. fold uri. rewrite M_bind_assoc, (M_bind_eq _ _ _ _ _ Hhook). cbn [Z.eqb].
    unfold mbind, M_bind. cbn [fd_ make]. rewrite Ew. reflexivity.
  - eapply after_trans; [exact Hat|]. eapply after_trans; [exact Hnow|].
    eapply after_trans; [exact Hj|exact Hn].
  - split; [|split; [|split]].
    + rewrite !elem_of_app, !elem_of_cons. right. left. left. right. left. reflexivity.
    + rewrite !written_app, Ht3. destruct HPL_ENABLE_PING_PONG; cbn; by rewrite Z.eqb_refl.
    + destruct Hsf as [Hsf _]. destruct c'. exact Hsf.
    + rewrite Hk4, Hg. replace (app_state w2) with (app_state w); [done|].
      rewrite <- (ProcessDataIn_group _ _ _ _ _ _ E).
      destruct HPL_ENABLE_PING_PONG; injection Enow as _ <-; done.
Qed.

(** The group [g] can broadcast to the sockets [fds]: its own pipe is there, each writing end of
    a pipe feeds its reading end, no pipe is used twice or as a socket, and all are empty. *)
Definition group_pipes (g : broadcast_group) : list Z := (pipefd_ g).1 :: reads (connections_ g).

Definition can_broadcast (pipe_of : Z -> Z) (st : content) (fds : list Z) (g : broadcast_group) : Prop :=
  (pipefd_ g).1 <> -1 /\ (pipefd_ g).2 <> -1 /\ pipe_of (pipefd_ g).2 = (pipefd_ g).1 /\
  plumbed pipe_of (connections_ g) /\ NoDup (group_pipes g) /\
  Forall (fun fd => pipe_of fd = fd /\ fd ∉ group_pipes g) fds /\
  Forall (fun r => st r = []) (group_pipes g).

#[export] Instance can_broadcast_dec pipe_of st fds g : Decision (can_broadcast pipe_of st fds g).
Proof. unfold can_broadcast, plumbed. apply _. Defined.

Lemma ContextBroadcast_effects data pipe_of st fds s w :
  mapM (descriptor_of s) (connections_ (app_state w)).*2 = Some fds -> connections_ (app_state w) <> [] ->
  can_broadcast pipe_of st fds (app_state w) -> Z.of_nat (length data) < 2 ^ 32 ->
  exists t w', ContextBroadcast data s w = Ok (tt, w') /\ after w t w' /\
    (all_complete pipe_of t st -> forall x, effects pipe_of t st x =
       if decide (x ∈ group_pipes (app_state w)) then [] else st x ++ copies (broadcast_frame data kTypeText) fds x).
Proof.
  intros Hm Hne (Hg1 & Hg2 & Hg3 & Hg4 & Hg5 & Hg6 & Hg7) Hlen.
  destruct (Broadcast_effects pipe_of (descriptor_of s) (app_state w) data kTypeText fds st w)
    as (ret & t & w' & E & Ha & Hall); [done..|by apply Forall_forall|].
  exists t, w'. unfold ContextBroadcast, get, mbind, M_bind. rewrite E. split; [done|]. split; [done|].
  intros Hc. by apply Hall.
Qed.

(** Claim C11. A client of the broadcast example gets what is broadcast.  When the bytes of its
    upgrade request arrive on a new connection, in whatever pieces, one event answers them and
    makes the client a member of the group, unless its pipe cannot be made.  From then on, as
    long as the group stays as it is and all of its members are connected, each broadcast
    gives the client's socket exactly one frame with the text for each time it joined, and
    likewise the other members, when every call moves all that it can. *)
Theorem client_gets_broadcasts k fuel s events p fd w r name :
  Some p <> fst <$> server_conn_ s -> Z.land events EPOLLIN <> 0 ->
  find_conn p (pending_conns_ s) = Some (make fd) -> fd <> -1 ->
  FindRequestHandler (hs_uri r) (request_handlers s) = Ok (Some (name, broadcast_handlers)) ->
  handshake_ok r -> lines_fit (print_handshake r) ->
  arrives k fd (handshake_text r) w -> (k <= fuel)%nat ->
  exists s1 w1 t u rep, handle_event fuel s events p w = Ok ((None, s1), w1) /\ live p s1 /\
    after w (t ++ u) w1 /\ received fd t = handshake_text r /\
    Event SysPipe rep ∈ u /\ written fd u = [handshake_response (hs_key r)] /\
    match rep with
    | inl _ => app_state w1 = app_state w
    | inr pipes =>
        app_state w1 = set_connections (connections_ (app_state w) ++ [(pipes, p)]) (app_state w) /\
        forall s2 w2 fds data pipe_of st,
          app_state w2 = app_state w1 -> descriptor_of s2 p = Some fd ->
          mapM (descriptor_of s2) (connections_ (app_state w2)).*2 = Some fds ->
          can_broadcast pipe_of st fds (app_state w2) -> Z.of_nat (length data) < 0xffff ->
          exists t2 w3, ContextBroadcast data s2 w2 = Ok (tt, w3) /\ after w2 t2 w3 /\ fd ∈ fds /\
            (all_complete pipe_of t2 st -> forall x, effects pipe_of t2 st x =
               if decide (x ∈ group_pipes (app_state w2)) then []
               else st x ++ copies (server_frame true kTypeText data) fds x)
    end.
Proof.
  intros Hp Hev Hc Hfd Hh Hr Hfit Ha Hk.
  destruct (client_joins k fuel s events p fd w r name) as (c1 & w1 & t & u & rep & E & Hat & Hrec & Hin & Hwr & Hfd1 & Hg);
    [done..|].
  exists (update_conn p c1 s), w1, t, u, rep. split; [done|].
  split; [exists c1; apply find_conn_updated; by eexists|]. do 4 (split; [done|]).
  destruct rep as [e|pipes]; [done|]. split; [done|].
  intros s2 w2 fds data pipe_of st Hg2 Hd Hm Hcan Hlen.
  assert (Hmem : connections_ (app_state w2) = connections_ (app_state w) ++ [(pipes, p)]).
  { rewrite Hg2, Hg. by destruct (app_state w). }
  destruct (ContextBroadcast_effects data pipe_of st fds s2 w2) as (t2 & w3 & E2 & Ha2 & Heff); [done| |done|lia|].
  { rewrite Hmem. by intros []%app_eq_nil. }
  exists t2, w3. do 2 (split; [done|]). split.
  - rewrite Hmem in Hm. apply mapM_Some_1 in Hm. rewrite fmap_app in Hm.
    apply Forall2_app_inv_l in Hm as (l1 & l2 & _ & Hl & ->). apply elem_of_app. right.
    inversion Hl as [|? y ? ? Hy _]; subst. cbn in Hy. rewrite Hd in Hy. injection Hy as ->. by left.
  - intros Hall x. rewrite (Heff Hall). unfold broadcast_frame.
    by rewrite MakeWebsocketHeader_short by (unfold kTypeText; lia).
Qed.

(** Claim C31. A member that is gone is not forgotten: once the server has closed the connection
    of a member, as it does when a client hangs up, every further broadcast goes through the
    pointer of the destroyed connection, unless it cannot even write to the group's pipe. *)
Theorem departed_member_faults data p s w s' w' :
  CloseConn p s w = Ok ((0, s'), w') -> p ∈ (connections_ (app_state w)).*2 ->
  (pipefd_ (app_state w)).1 <> -1 -> (pipefd_ (app_state w)).2 <> -1 ->
  ContextBroadcast data s' w' = Fault UseAfterFree \/
  exists w'' t d e, ContextBroadcast data s' w' = Ok (tt, w'') /\
    after w' (t ++ [Event (SysWrite (pipefd_ (app_state w)).2 d) (inl e)]) w''.
Proof.
  intros E Hp Hp1 Hp2.
  pose proof (CloseConn_app _ _ _ _ _ E) as Hk. pose proof (CloseConn_gone _ _ _ _ _ E) as Hgone. unfold ContextBroadcast, get, mbind, M_bind. rewrite Hk.
  destruct (Broadcast_dead (descriptor_of s') data kTypeText (app_state w) p w' Hp1 Hp2 Hp) as [-> |Hw].
  - unfold descriptor_of. by rewrite Hgone.
  - by left.
  - destruct Hw as (w'' & t & d & e & -> & Ha). right. by exists w'', t, d, e.
Qed.
End broadcast.

(** ** The example on the scripted kernel *)

Section witnesses.
#[local] Existing Instance httpoll_mk.
#[local] Existing Instance Fips180.fips180.
#[local] Existing Instance Decimal.decimal_fmt.
#[local] Existing Instance Matcher.matcher.
#[local] Abbreviation example_world := (with_app broadcast_group sim).

Definition no_group : broadcast_group := Group (-1, -1) [].

Definition hand_shake : bytes :=
  request (str "GET /broadcast HTTP/1.1")
    [str "Connection: Upgrade"; str "Upgrade: websocket"; str "Sec-WebSocket-Key: dGhlIHNhbXBsZSBub25jZQ=="].

(** A client whose handshake comes in two pieces joins an empty group. *)
Definition broadcast_server : server example_world :=
  Server 3 (Some (0%nat, make 4)) [(1%nat, make 7)] (Register (str "/broadcast") broadcast_handlers new_server).(request_handlers) 2.
Definition listener : handshake :=
  Handshake (str "/broadcast") (str "example.com") (str "dGhlIHNhbXBsZSBub25jZQ==") [].
Definition listener_pieces : list (errno + bytes) :=
  [inr (take 25 (handshake_text listener)); inl EINTR; inr (drop 25 (handshake_text listener))].
Definition listener_world : example_world :=
  App (Group (20, 21) []) (Sim (map (pair 7) listener_pieces) 1024 [] [] [] 0 [Event SysPipe (inr (20, 21))]).

Definition broadcast_pipe_of (fd : Z) : Z := if fd =? 21 then 20 else if fd =? 23 then 22 else fd.

Lemma client_gets_broadcasts_witness :
  exists s1 w1 t u rep, handle_event 400 broadcast_server EPOLLIN 1 listener_world = Ok ((None, s1), w1) /\ live 1 s1 /\
    after listener_world (t ++ u) w1 /\ received 7 t = handshake_text listener /\
    Event SysPipe rep ∈ u /\ written 7 u = [handshake_response (hs_key listener)] /\
    match rep with
    | inl _ => app_state w1 = Group (20, 21) []
    | inr pipes =>
        app_state w1 = Group (20, 21) [(pipes, 1%nat)] /\
        forall (s2 : server example_world) (w2 : example_world) fds data pipe_of st,
          app_state w2 = app_state w1 -> descriptor_of s2 1 = Some 7 ->
          mapM (descriptor_of s2) (connections_ (app_state w2)).*2 = Some fds ->
          can_broadcast pipe_of st fds (app_state w2) -> Z.of_nat (length data) < 0xffff ->
          exists t2 w3, ContextBroadcast data s2 w2 = Ok (tt, w3) /\ after w2 t2 w3 /\ 7 ∈ fds /\
            (all_complete pipe_of t2 st -> forall x, effects pipe_of t2 st x =
               if decide (x ∈ group_pipes (app_state w2)) then []
               else st x ++ copies (server_frame true kTypeText data) fds x)
    end.
Proof.
  assert (Hr : handshake_ok listener) by (apply (bool_decide_unpack _); vm_compute; exact Logic.I).
  assert (Hfit : lines_fit (print_handshake listener)).
  { split; [apply (bool_decide_unpack _); vm_compute; exact Logic.I|].
    repeat constructor; vm_compute; intuition discriminate. }
  assert (Ha : arrives 400 7 (handshake_text listener) listener_world).
  { apply arrives_app, (scripted_arrives 7 400 listener_pieces); [done| |].
    - repeat constructor; discriminate.
    - apply Nat.leb_le. vm_compute. reflexivity. }
  assert (Hh : FindRequestHandler (str "/broadcast") (request_handlers broadcast_server) =
    Ok (Some (str "/broadcast", broadcast_handlers))) by (vm_compute; reflexivity).
  exact (client_gets_broadcasts 400 400 broadcast_server EPOLLIN 1 7 listener_world listener (str "/broadcast")
    ltac:(done) ltac:(done) eq_refl ltac:(done) Hh Hr Hfit Ha (Nat.le_refl _)).
Defined.

(** The client hears a broadcast, after the answer to its handshake. *)
Example client_hears :
  match (r ← handle_event 400 broadcast_server EPOLLIN 1; _ ← ContextBroadcast (str "hello") r.2; mret tt) listener_world with
  | Ok (_, w) =>
      effects broadcast_pipe_of (drop 1 (sim_trace (app_kernel w))) (fun _ => []) 7 =
        handshake_response (hs_key listener) ++ server_frame true kTypeText (str "hello") /\
      app_state w = Group (20, 21) [((22, 23), 1%nat)]
  | _ => False
  end.
Proof. vm_compute. done. Qed.

Example listener_can_hear :
  can_broadcast broadcast_pipe_of (fun _ => []) [7] (Group (20, 21) [((22, 23), 1%nat)]).
Proof. apply (bool_decide_unpack _). vm_compute. exact Logic.I. Qed.

(** Two clients join. *)
Definition two_clients (rest : list (Z * (errno + bytes))) (events : list (list (Z * nat))) : example_world :=
  App no_group (Sim ([(7, inr hand_shake); (8, inr hand_shake)] ++ rest) 1024
    ([[(EPOLLIN, 0%nat)]; [(EPOLLIN, 0%nat)]; [(EPOLLIN, 1%nat); (EPOLLIN, 2%nat)]] ++ events)
    [inr 7; inr 8] [] 0 []).

Example members_join :
  match broadcast_main 10 4 2999 (two_clients [] []) with
  | Ok ((0, s), w) =>
      map fst (pending_conns_ s) = [1%nat; 2%nat] /\
      app_state w = Group (20, 21) [((22, 23), 1%nat); ((24, 25), 2%nat)]
  | _ => False
  end.
Proof. vm_compute. done. Qed.

(** The first of them hangs up. *)
Example member_hangs_up :
  broadcast_main 10 30 2999 (two_clients [(7, inr [])] [[(EPOLLIN, 1%nat)]]) = Fault UseAfterFree.
Proof. vm_compute. reflexivity. Qed.

Definition joined_state : server example_world * example_world :=
  Eval vm_compute in
    match broadcast_main 10 4 2999 (two_clients [] []) with
    | Ok ((_, s), w) => (s, w)
    | _ => (new_server, two_clients [] [])
    end.
Definition departed_state : server example_world * example_world :=
  Eval vm_compute in
    match CloseConn 1 joined_state.1 joined_state.2 with Ok ((_, s), w) => (s, w) | _ => joined_state end.

Lemma departed_member_faults_witness :
  ContextBroadcast (str "hi") departed_state.1 departed_state.2 = Fault UseAfterFree \/
  exists w'' t d e, ContextBroadcast (str "hi") departed_state.1 departed_state.2 = Ok (tt, w'') /\
    after departed_state.2 (t ++ [Event (SysWrite 21 d) (inl e)]) w''.
Proof.
  assert (E : CloseConn 1 joined_state.1 joined_state.2 = Ok ((0, departed_state.1), departed_state.2))
    by (vm_compute; reflexivity).
  exact (departed_member_faults (str "hi") 1 joined_state.1 joined_state.2 departed_state.1 departed_state.2
    E ltac:(by left) ltac:(done) ltac:(done)).
Defined.
End witnesses.
