(* ===== verification/Tests.v ===== *)
(** * The tests of the repository: src/http_header_parser_test.cc and src/test.c

    The first pushes a request to a parser and looks at it through the accessors, the second
    lays out the header of a WebSocket frame as bit fields.  [Tests] runs both on the model. *)

From S2P Require Import Prelude CString StdMap Method Version HeaderParser WsFrame.

(** ** http_header_parser_test.cc *)

Module HeaderParserTest.
Import HttpHeaderParser.

Definition lines : list bytes :=
  [str "GET / HTTP/1.1" ++ CRLF; str "Host: myserver.com" ++ CRLF;
   str "Connection: Upgrade, keep-alive" ++ CRLF; str "Content-Length:13" ++ CRLF;
   str "Upgrade: websocket" ++ CRLF; str "User-Agent: Mozilla/5.0" ++ CRLF;
   str "Extra-Header: some data" ++ CRLF; CRLF; str "ddddsome dataoverflowed" ++ CRLF].

(** [EXPECT_STREQ] compares C strings. *)
Definition expect_streq (a b : bytes) : bool := bool_decide (until_nul a = until_nul b).

(** What became of each expectation, but for the last: the parser has no [GetBody].  [at] throws
    when the key is missing. *)
Definition test : outcome (list bool) :=
  parser ← push_lines init lines;
  let headers := GetHeaders parser in
  extra ← of_option Throws (map_find (str "Extra-Header") headers);
  Ok [bool_decide (GetState parser = Done);
      bool_decide (GetMethod parser = HttpMethod.GET);
      expect_streq (GetUri parser) (str "/");
      expect_streq (GetHost parser) (str "myserver.com");
      expect_streq (GetUserAgent parser) (str "Mozilla/5.0");
      bool_decide (GetVersion parser = HttpVersion.HTTP_1_1);
      bool_decide (GetContentLength parser = Some 13);
      GetUpgradeFlags parser =? UpgradeWebSocket;
      GetConnectionFlags parser =? Z.lor ConnectionUpgrade ConnectionKeepAlive;
      (length headers =? 1)%nat;
      expect_streq extra (str "some data")].

(** All of them hold. *)
Theorem test_passes : test = Ok (replicate 11 true).
Proof. vm_compute. reflexivity. Qed.

(** The body the test was written for would be the first 13 bytes of the last line; the parser
    counts all of its 25. *)
Example body_overflows : (p ← push_lines init lines; Ok (body_length_ p)) = Ok 25.
Proof. vm_compute. reflexivity. Qed.
End HeaderParserTest.

(** ** test.c *)

Module FrameHeaderTest.

(** The bit fields, from the least significant bit of each byte on, as the compiler packs them. *)
Record ws_frame_header := WsFrameHeader {
  opcode : Z; rsv3 : bool; rsv2 : bool; rsv1 : bool; fin : bool;
  payload_prefix : Z; mask : bool
}.

(** The cast of the two bytes to the structure, and back. *)
Definition of_bytes (b0 b1 : byte) : ws_frame_header :=
  WsFrameHeader (Z.land (b2z b0) 15) (Z.testbit (b2z b0) 4) (Z.testbit (b2z b0) 5) (Z.testbit (b2z b0) 6)
    (Z.testbit (b2z b0) 7) (Z.land (b2z b1) 127) (Z.testbit (b2z b1) 7).

Definition to_bytes (h : ws_frame_header) : bytes :=
  [z2b (opcode h + 16 * Z.b2z (rsv3 h) + 32 * Z.b2z (rsv2 h) + 64 * Z.b2z (rsv1 h) + 128 * Z.b2z (fin h));
   z2b (payload_prefix h + 128 * Z.b2z (mask h))].

Definition well_formed (h : ws_frame_header) : Prop :=
  0 <= opcode h < 16 /\ 0 <= payload_prefix h < 128.

(** [header] and [data2] of [main]; fields that are not named are zero. *)
Definition header : ws_frame_header := of_bytes x81 x84.
Definition header2 : ws_frame_header := WsFrameHeader 0x1 false false false true 0x4 true.
Definition data2 : bytes := to_bytes header2.

(** The two notations of the same header agree. *)
Example same_header : header = header2 /\ data2 = [x81; x84].
Proof. vm_compute. done. Qed.

(** The casts are inverse to each other. *)
Theorem header_bytes_roundtrip b0 b1 : to_bytes (of_bytes b0 b1) = [b0; b1].
Proof. unfold to_bytes, of_bytes. f_equal; [by destruct b0|]. f_equal. by destruct b1. Qed.

(** The frame reader looks at a frame through this structure. *)
Theorem read_frame_header b0 b1 rest f :
  read_frame (b0 :: b1 :: rest) = Ok f ->
  WsFrame.opcode f = opcode (of_bytes b0 b1) /\ WsFrame.fin f = fin (of_bytes b0 b1).
Proof.
  unfold read_frame. change (byte_at (b0 :: b1 :: rest) 0) with (Ok (b2z b0)).
  change (byte_at (b0 :: b1 :: rest) 1) with (Ok (b2z b1)). rewrite !bind_Ok_l.
  intros ([n off] & _ & E)%bind_Ok. apply bind_Ok in E as ([buf off'] & _ & E).
  case_match; [|done]. by injection E as <-.
Qed.
End FrameHeaderTest.
